(** * LunaEye voice front end: conversation state machine and recognition supervisor

    A shallow embedding of the parts of the LunaEye browser assistant that
    decide its conversation behaviour:

    - the transcript utilities of [VoiceManager] ([detectWakeWord],
      [extractCommandFromTranscript]);
    - the [StateManager] state machine ([setState], [getStateHistory]);
    - the recognition supervisor inside [VoiceManager] ([scheduleRestart],
      [onRecognitionEnd], [onRecognitionError], [interruptSpeaking], ...),
      run on an explicit model of the browser's timer queue;
    - the promise built by [processCommand] for a WebSocket round trip.

    Definitions come first; the theorems about them follow. *)

From Stdlib Require Import Bool Arith Lia List ZArith String Ascii.
Import ListNotations.
Open Scope string_scope.

(* ================================================================= *)
(** ** Part I.  Definitions                                            *)
(* ================================================================= *)

(* ----------------------------------------------------------------- *)
(** *** Strings as the transcript code uses them

    A JavaScript string is modelled as a [string] whose characters are the
    code units U+0000..U+00FF.  On that range [toLowerCase], the regular
    expression class [\s] and [trim] act character by character. *)

(** The class [\s] (and the characters [trim] strips): TAB, LF, VT, FF, CR,
    SPACE and NO-BREAK SPACE. *)
Definition is_space (c : ascii) : bool :=
  existsb (Ascii.eqb c)
    ["009"; "010"; "011"; "012"; "013"; " "; "160"]%char.

(** The class [[.,!?]]. *)
Definition is_punct (c : ascii) : bool :=
  existsb (Ascii.eqb c) ["."; ","; "!"; "?"]%char.

(** [String.prototype.toLowerCase] on one code unit: A-Z, and the Latin-1
    capitals U+00C0..U+00DE except the multiplication sign U+00D7. *)
Definition lower_char (c : ascii) : ascii :=
  let n := N_of_ascii c in
  if ((65 <=? n) && (n <=? 90)
      || (192 <=? n) && (n <=? 214)
      || (216 <=? n) && (n <=? 222))%N
  then ascii_of_N (n + 32) else c.

Fixpoint toLowerCase (s : string) : string :=
  match s with
  | "" => ""
  | String c r => String (lower_char c) (toLowerCase r)
  end.

(** [s.replace(/[.,!?]/g, '')] *)
Fixpoint remove_punct (s : string) : string :=
  match s with
  | "" => ""
  | String c r => if is_punct c then remove_punct r else String c (remove_punct r)
  end.

(** [s.replace(/\s+/g, ' ')]: every maximal run of white space becomes one
    space.  [in_run] says that the previous character was white space. *)
Fixpoint collapse_ws (in_run : bool) (s : string) : string :=
  match s with
  | "" => ""
  | String c r =>
      if is_space c
      then (if in_run then collapse_ws true r else String " " (collapse_ws true r))
      else String c (collapse_ws false r)
  end.

Definition is_empty (s : string) : bool :=
  match s with "" => true | _ => false end.

Fixpoint trimStart (s : string) : string :=
  match s with
  | "" => ""
  | String c r => if is_space c then trimStart r else s
  end.

Fixpoint trimEnd (s : string) : string :=
  match s with
  | "" => ""
  | String c r =>
      let r' := trimEnd r in
      if is_space c && is_empty r' then "" else String c r'
  end.

(** [s.trim()] *)
Definition trim (s : string) : string := trimStart (trimEnd s).

(** [p] is a prefix of [s]. *)
Fixpoint startsWith (p s : string) : bool :=
  match p, s with
  | "", _ => true
  | String _ _, "" => false
  | String a p', String b s' => Ascii.eqb a b && startsWith p' s'
  end.

(** [s.indexOf(p)], with [None] for [-1]. *)
Fixpoint indexOf (p s : string) : option nat :=
  if startsWith p s then Some 0
  else match s with
       | "" => None
       | String _ r => option_map S (indexOf p r)
       end.

(** [s.includes(p)] *)
Definition includes (p s : string) : bool :=
  match indexOf p s with Some _ => true | None => false end.

(** [s.substring(n)] *)
Fixpoint substringFrom (n : nat) (s : string) : string :=
  match n, s with
  | O, _ => s
  | S _, "" => ""
  | S n', String _ r => substringFrom n' r
  end.

(** White space at the head of a string. *)
Definition starts_space (s : string) : bool :=
  match s with String c _ => is_space c | "" => false end.

(** Whether [s] ends in white space, [b] being the answer for the empty
    string. *)
Fixpoint ends_space (b : bool) (s : string) : bool :=
  match s with "" => b | String c r => ends_space (is_space c) r end.

(* ----------------------------------------------------------------- *)
(** *** Wake word detection and command extraction ([VoiceManager]) *)

Definition wakeWord : string := "hey luna".

Definition alternativeWakeWords : list string :=
  ["luna"; "hey luna"; "ok luna"; "luda"; "hey luda"; "ok luda"].

(** [[this.wakeWord, ...this.alternativeWakeWords]] *)
Definition allWakeWords : list string := wakeWord :: alternativeWakeWords.

(** [transcript.toLowerCase().replace(/[.,!?]/g, '').replace(/\s+/g, ' ').trim()] *)
Definition cleanTranscript (transcript : string) : string :=
  trim (collapse_ws false (remove_punct (toLowerCase transcript))).

(** [wakeWord.toLowerCase().replace(/\s+/g, ' ').trim()] *)
Definition cleanWakeWord (w : string) : string :=
  trim (collapse_ws false (toLowerCase w)).

(** The loop of [detectWakeWord]: [true] at the first alternative that the
    cleaned transcript includes. *)
Fixpoint detect_loop (ws : list string) (clean : string) : bool :=
  match ws with
  | [] => false
  | w :: rest =>
      if includes (cleanWakeWord w) clean then true else detect_loop rest clean
  end.

Definition detectWakeWord (transcript : string) : bool :=
  detect_loop allWakeWords (cleanTranscript transcript).

(** The loop of [extractCommandFromTranscript]: at the first alternative
    found in [command], keep what follows its first occurrence, trimmed, and
    [break]. *)
Fixpoint extract_loop (ws : list string) (command : string) : string :=
  match ws with
  | [] => command
  | w :: rest =>
      let cw := cleanWakeWord w in
      match indexOf cw command with
      | Some wakeWordIndex =>
          trim (substringFrom (wakeWordIndex + String.length cw) command)
      | None => extract_loop rest command
      end
  end.

Definition extractCommandFromTranscript (transcript : string) : string :=
  extract_loop allWakeWords (cleanTranscript transcript).

(* ----------------------------------------------------------------- *)
(** *** The state machine's data ([StateManager]) *)

(** [this.states]: the six values of the state enum. *)
Inductive AssistantState : Type :=
  Idle | Waking | Listening | Thinking | Speaking | Error.

Definition state_name (s : AssistantState) : string :=
  match s with
  | Idle => "idle"
  | Waking => "waking"
  | Listening => "listening"
  | Thinking => "thinking"
  | Speaking => "speaking"
  | Error => "error"
  end.

(** [Object.values(this.states)] *)
Definition all_states : list AssistantState :=
  [Idle; Waking; Listening; Thinking; Speaking; Error].

Definition state_eqb (a b : AssistantState) : bool :=
  String.eqb (state_name a) (state_name b).

(** [Object.values(this.states).includes(state)] *)
Definition isValidState (state : string) : bool :=
  existsb (String.eqb state) (map state_name all_states).

(** The enum value a valid name denotes. *)
Definition state_of_name (name : string) : option AssistantState :=
  find (fun s => String.eqb name (state_name s)) all_states.

(** Values carried in a transition context. *)
Inductive Value : Type :=
| VString (s : string)
| VNumber (z : Z).

(** A context object: keys with their values, in insertion order. *)
Definition Context : Type := list (string * Value).

(** [{...context, key: v}]: an existing key keeps its place. *)
Fixpoint ctx_set (key : string) (v : Value) (context : Context) : Context :=
  match context with
  | [] => [(key, v)]
  | (k, x) :: rest =>
      if String.eqb k key then (k, v) :: rest else (k, x) :: ctx_set key v rest
  end.

(** One element of [stateHistory]: [{state, timestamp, context}]. *)
Record HistoryEntry : Type := mkEntry {
  h_state : AssistantState;
  h_timestamp : Z;
  h_context : Context
}.

(** [this.transitionDurations[state] || 500] *)
Definition getTransitionDuration (state : AssistantState) : Z :=
  match state with
  | Idle => 1000
  | Waking => 600
  | Listening => 400
  | Thinking => 800
  | Speaking => 500
  | Error => 300
  end%Z.

(** [this.stateConfigs[state]?.colorTransitionMs || 1000] *)
Definition colorTransitionMs (state : AssistantState) : Z :=
  match state with
  | Idle => 2500
  | Waking => 600
  | Listening => 800
  | Thinking => 2000
  | Speaking => 1500
  | Error => 500
  end%Z.

Record StateManager : Type := mkSM {
  currentState : AssistantState;
  previousState : option AssistantState;
  stateHistory : list HistoryEntry
}.

(* ----------------------------------------------------------------- *)
(** *** Timers, the browser and what the outside sees *)

Definition TimerId : Type := nat.

(** What runs after [forceRestartRecognition] for its awaiting caller. *)
Inductive AfterForce : Type :=
| ThenNothing              (* the state-change listener *)
| ThenConversation.        (* [onCommandReceived] after TTS *)

(** The callback a pending [setTimeout] holds.  An [await this.delay(ms)]
    is a timer whose callback is the rest of the async function. *)
Inductive TimerKind : Type :=
| KRestart                                  (* scheduleRestart *)
| KListeningTimeout                         (* startListeningTimeout *)
| KConversationTimeout                      (* startConversationTimeout *)
| KConversationIdle                         (* ... after [delay(50)] *)
| KPostTransition (to : AssistantState) (context : Context)   (* setState *)
| KStateSyncListening                       (* listener, after [delay(150)] *)
| KForceRestart (k : AfterForce)            (* forceRestartRecognition, after [delay(100)] *)
| KInterruptResume                          (* interruptSpeaking, after [delay(300)] *)
| KDelayedCommand (command : string) (confidence : Z)
| KDelayedListening (source : string)
| KPostTts                                  (* onCommandReceived, after [delay(200)] *)
| KErrorRecovery.                           (* onCommandReceived, after [delay(1500)] *)

Record Timer : Type := mkTimer {
  t_id : TimerId;
  t_delay : Z;
  t_kind : TimerKind
}.

Definition is_restart (t : Timer) : bool :=
  match t_kind t with KRestart => true | _ => false end.

Definition is_conversation (t : Timer) : bool :=
  match t_kind t with KConversationTimeout => true | _ => false end.

(** The browser objects the voice manager drives.  [recognition] is
    [this.recognition]: [None] when no recogniser was created, otherwise
    whether it is started.  [synthesis] likewise is [this.synthesis] with
    whether an utterance is being spoken.  [micGranted] says whether
    [requestMicrophonePermission] succeeds; [startThrows] whether
    [recognition.start()] on a stopped recogniser throws an error other
    than the already-started one. *)
Record Browser : Type := mkBrowser {
  timers : list Timer;
  nextTimer : TimerId;
  clock : Z;
  recognition : option bool;
  startThrows : bool;
  micGranted : bool;
  synthesis : option bool;
  nextPromise : nat
}.

(** A call of a subscriber: the event key with the listener's arguments. *)
Record Notification : Type := mkNote {
  n_event : string;
  n_newState : AssistantState;
  n_previousState : AssistantState;
  n_context : Context
}.

(** A call of the transition callbacks registered with [onTransition]. *)
Record TransitionCall : Type := mkCall {
  c_phase : string;
  c_from : option AssistantState;
  c_to : AssistantState;
  c_context : Context
}.

(** What leaves the two components, in order of occurrence (newest first):
    subscriber notifications, transition callbacks, calls of
    [recognition.start()], speak promises resolved, commands handed to
    [processCommand], texts handed to the synthesiser. *)
Record Outputs : Type := mkOut {
  notified : list Notification;
  transitions : list TransitionCall;
  primaryStarts : nat;
  resolvedSpeech : list nat;
  dispatched : list string;
  spoken : list string
}.

(** The fields of [VoiceManager] that the conversation logic and the
    recognition supervisor read and write. *)
Record VoiceManager : Type := mkVM {
  isListening : bool;
  isRestarting : bool;
  isPaused : bool;
  isSpeaking : bool;
  isInConversation : bool;
  useLocalDetection : bool;              (* this.config.useLocalDetection *)
  restartAttempts : nat;
  consecutiveErrors : nat;
  pendingRestart : option TimerId;
  listeningTimeout : option TimerId;
  conversationTimeout : option TimerId;
  currentSpeechResolve : option nat;
  lastCommand : string;
  subscribed : bool                      (* setupStateChangeListener registered *)
}.

Record World : Type := mkWorld {
  app : StateManager;       (* window.AppState *)
  vm : VoiceManager;        (* window.VoiceManager *)
  env : Browser;
  out : Outputs
}.

(* ----------------------------------------------------------------- *)
(** *** Field updates *)

Definition with_app (f : StateManager -> StateManager) (w : World) : World :=
  mkWorld (f (app w)) (vm w) (env w) (out w).
Definition with_vm (f : VoiceManager -> VoiceManager) (w : World) : World :=
  mkWorld (app w) (f (vm w)) (env w) (out w).
Definition with_env (f : Browser -> Browser) (w : World) : World :=
  mkWorld (app w) (vm w) (f (env w)) (out w).
Definition with_out (f : Outputs -> Outputs) (w : World) : World :=
  mkWorld (app w) (vm w) (env w) (f (out w)).

Definition vm_isListening (b : bool) (v : VoiceManager) : VoiceManager :=
  mkVM b (isRestarting v) (isPaused v) (isSpeaking v) (isInConversation v)
    (useLocalDetection v) (restartAttempts v) (consecutiveErrors v)
    (pendingRestart v) (listeningTimeout v) (conversationTimeout v)
    (currentSpeechResolve v) (lastCommand v) (subscribed v).
Definition vm_isRestarting (b : bool) (v : VoiceManager) : VoiceManager :=
  mkVM (isListening v) b (isPaused v) (isSpeaking v) (isInConversation v)
    (useLocalDetection v) (restartAttempts v) (consecutiveErrors v)
    (pendingRestart v) (listeningTimeout v) (conversationTimeout v)
    (currentSpeechResolve v) (lastCommand v) (subscribed v).
Definition vm_isPaused (b : bool) (v : VoiceManager) : VoiceManager :=
  mkVM (isListening v) (isRestarting v) b (isSpeaking v) (isInConversation v)
    (useLocalDetection v) (restartAttempts v) (consecutiveErrors v)
    (pendingRestart v) (listeningTimeout v) (conversationTimeout v)
    (currentSpeechResolve v) (lastCommand v) (subscribed v).
Definition vm_isSpeaking (b : bool) (v : VoiceManager) : VoiceManager :=
  mkVM (isListening v) (isRestarting v) (isPaused v) b (isInConversation v)
    (useLocalDetection v) (restartAttempts v) (consecutiveErrors v)
    (pendingRestart v) (listeningTimeout v) (conversationTimeout v)
    (currentSpeechResolve v) (lastCommand v) (subscribed v).
Definition vm_isInConversation (b : bool) (v : VoiceManager) : VoiceManager :=
  mkVM (isListening v) (isRestarting v) (isPaused v) (isSpeaking v) b
    (useLocalDetection v) (restartAttempts v) (consecutiveErrors v)
    (pendingRestart v) (listeningTimeout v) (conversationTimeout v)
    (currentSpeechResolve v) (lastCommand v) (subscribed v).
Definition vm_useLocalDetection (b : bool) (v : VoiceManager) : VoiceManager :=
  mkVM (isListening v) (isRestarting v) (isPaused v) (isSpeaking v)
    (isInConversation v) b (restartAttempts v) (consecutiveErrors v)
    (pendingRestart v) (listeningTimeout v) (conversationTimeout v)
    (currentSpeechResolve v) (lastCommand v) (subscribed v).
Definition vm_restartAttempts (n : nat) (v : VoiceManager) : VoiceManager :=
  mkVM (isListening v) (isRestarting v) (isPaused v) (isSpeaking v)
    (isInConversation v) (useLocalDetection v) n (consecutiveErrors v)
    (pendingRestart v) (listeningTimeout v) (conversationTimeout v)
    (currentSpeechResolve v) (lastCommand v) (subscribed v).
Definition vm_consecutiveErrors (n : nat) (v : VoiceManager) : VoiceManager :=
  mkVM (isListening v) (isRestarting v) (isPaused v) (isSpeaking v)
    (isInConversation v) (useLocalDetection v) (restartAttempts v) n
    (pendingRestart v) (listeningTimeout v) (conversationTimeout v)
    (currentSpeechResolve v) (lastCommand v) (subscribed v).
Definition vm_pendingRestart (h : option TimerId) (v : VoiceManager) : VoiceManager :=
  mkVM (isListening v) (isRestarting v) (isPaused v) (isSpeaking v)
    (isInConversation v) (useLocalDetection v) (restartAttempts v)
    (consecutiveErrors v) h (listeningTimeout v) (conversationTimeout v)
    (currentSpeechResolve v) (lastCommand v) (subscribed v).
Definition vm_listeningTimeout (h : option TimerId) (v : VoiceManager) : VoiceManager :=
  mkVM (isListening v) (isRestarting v) (isPaused v) (isSpeaking v)
    (isInConversation v) (useLocalDetection v) (restartAttempts v)
    (consecutiveErrors v) (pendingRestart v) h (conversationTimeout v)
    (currentSpeechResolve v) (lastCommand v) (subscribed v).
Definition vm_conversationTimeout (h : option TimerId) (v : VoiceManager) : VoiceManager :=
  mkVM (isListening v) (isRestarting v) (isPaused v) (isSpeaking v)
    (isInConversation v) (useLocalDetection v) (restartAttempts v)
    (consecutiveErrors v) (pendingRestart v) (listeningTimeout v) h
    (currentSpeechResolve v) (lastCommand v) (subscribed v).
Definition vm_currentSpeechResolve (p : option nat) (v : VoiceManager) : VoiceManager :=
  mkVM (isListening v) (isRestarting v) (isPaused v) (isSpeaking v)
    (isInConversation v) (useLocalDetection v) (restartAttempts v)
    (consecutiveErrors v) (pendingRestart v) (listeningTimeout v)
    (conversationTimeout v) p (lastCommand v) (subscribed v).
Definition vm_lastCommand (s : string) (v : VoiceManager) : VoiceManager :=
  mkVM (isListening v) (isRestarting v) (isPaused v) (isSpeaking v)
    (isInConversation v) (useLocalDetection v) (restartAttempts v)
    (consecutiveErrors v) (pendingRestart v) (listeningTimeout v)
    (conversationTimeout v) (currentSpeechResolve v) s (subscribed v).

Definition env_timers (l : list Timer) (e : Browser) : Browser :=
  mkBrowser l (nextTimer e) (clock e) (recognition e) (startThrows e)
    (micGranted e) (synthesis e) (nextPromise e).
Definition env_nextTimer (n : TimerId) (e : Browser) : Browser :=
  mkBrowser (timers e) n (clock e) (recognition e) (startThrows e)
    (micGranted e) (synthesis e) (nextPromise e).
Definition env_clock (t : Z) (e : Browser) : Browser :=
  mkBrowser (timers e) (nextTimer e) t (recognition e) (startThrows e)
    (micGranted e) (synthesis e) (nextPromise e).
Definition env_recognition (r : option bool) (e : Browser) : Browser :=
  mkBrowser (timers e) (nextTimer e) (clock e) r (startThrows e)
    (micGranted e) (synthesis e) (nextPromise e).
Definition env_startThrows (b : bool) (e : Browser) : Browser :=
  mkBrowser (timers e) (nextTimer e) (clock e) (recognition e) b
    (micGranted e) (synthesis e) (nextPromise e).
Definition env_micGranted (b : bool) (e : Browser) : Browser :=
  mkBrowser (timers e) (nextTimer e) (clock e) (recognition e)
    (startThrows e) b (synthesis e) (nextPromise e).
Definition env_synthesis (s : option bool) (e : Browser) : Browser :=
  mkBrowser (timers e) (nextTimer e) (clock e) (recognition e)
    (startThrows e) (micGranted e) s (nextPromise e).
Definition env_nextPromise (n : nat) (e : Browser) : Browser :=
  mkBrowser (timers e) (nextTimer e) (clock e) (recognition e)
    (startThrows e) (micGranted e) (synthesis e) n.

Definition out_notified (l : list Notification) (o : Outputs) : Outputs :=
  mkOut l (transitions o) (primaryStarts o) (resolvedSpeech o) (dispatched o) (spoken o).
Definition out_transitions (l : list TransitionCall) (o : Outputs) : Outputs :=
  mkOut (notified o) l (primaryStarts o) (resolvedSpeech o) (dispatched o) (spoken o).
Definition out_primaryStarts (n : nat) (o : Outputs) : Outputs :=
  mkOut (notified o) (transitions o) n (resolvedSpeech o) (dispatched o) (spoken o).
Definition out_resolvedSpeech (l : list nat) (o : Outputs) : Outputs :=
  mkOut (notified o) (transitions o) (primaryStarts o) l (dispatched o) (spoken o).
Definition out_dispatched (l : list string) (o : Outputs) : Outputs :=
  mkOut (notified o) (transitions o) (primaryStarts o) (resolvedSpeech o) l (spoken o).
Definition out_spoken (l : list string) (o : Outputs) : Outputs :=
  mkOut (notified o) (transitions o) (primaryStarts o) (resolvedSpeech o) (dispatched o) l.

(* ----------------------------------------------------------------- *)
(** *** The timer queue *)

(** [setTimeout(callback, delay)]: a fresh handle, never [0]. *)
Definition setTimeout (k : TimerKind) (delay : Z) (w : World) : TimerId * World :=
  let id := nextTimer (env w) in
  (id, with_env (fun e =>
         env_nextTimer (S id) (env_timers (timers e ++ [mkTimer id delay k]) e)) w).

(** [clearTimeout(id)] *)
Definition clearTimeout (id : TimerId) (w : World) : World :=
  with_env (fun e =>
    env_timers (filter (fun t => negb (Nat.eqb (t_id t) id)) (timers e)) e) w.

(** The pending timer with handle [id], if any. *)
Definition find_timer (id : TimerId) (w : World) : option Timer :=
  find (fun t => Nat.eqb (t_id t) id) (timers (env w)).

(** The pending scheduled restarts. *)
Definition restart_timers (w : World) : list Timer :=
  filter is_restart (timers (env w)).

(** The pending conversation timeouts. *)
Definition conversation_timers (w : World) : list Timer :=
  filter is_conversation (timers (env w)).

(* ----------------------------------------------------------------- *)
(** *** Restart scheduling ([VoiceManager]) *)

(** The test [if (this.pendingRestart)] and its body
    [clearTimeout(this.pendingRestart); this.pendingRestart = null], as
    [scheduleRestart], [forceRestartRecognition] and [interruptSpeaking]
    all have it.  A handle is truthy when it is not [0]. *)
Definition cancelPendingRestart (w : World) : World :=
  match pendingRestart (vm w) with
  | Some (S n) => with_vm (vm_pendingRestart None) (clearTimeout (S n) w)
  | _ => w
  end.

(** [scheduleRestart(delay)], up to the [setTimeout] call. *)
Definition scheduleRestart (delay : Z) (w : World) : World :=
  let w := cancelPendingRestart w in
  if isPaused (vm w) then w
  else
    let w := with_vm (fun v => vm_restartAttempts (S (restartAttempts v)) v) w in
    let '(id, w) := setTimeout KRestart delay w in
    with_vm (vm_pendingRestart (Some id)) w.

(** [initLocalDetection()]: sets the mode flag ([setupLocalDetection] only
    builds the detector object). *)
Definition initLocalDetection (w : World) : World :=
  with_vm (vm_useLocalDetection true) w.

(** [startLocalDetection()], with [requestMicrophonePermission] answered by
    the browser's [micGranted].  The first frame of its audio monitor,
    which runs as soon as the flag is set, is taken to be quiet here: it
    then leaves the world as it is.  [Audio.startLocalDetection] has the
    frame. *)
Definition startLocalDetection (w : World) : World :=
  if micGranted (env w) then with_vm (vm_isListening true) w else w.

(** [startWebSpeechDetection()].  The result says whether the function
    threw.  [recognition.start()] on a started recogniser throws the error
    whose message includes 'already started'; on a stopped one it starts
    it, unless the browser makes it throw another error.  The function is
    run to its end in one step, the permission it awaits settling at once;
    [Audio.startWakeWordDetectionBegin] and
    [Audio.startWakeWordDetectionResume] are the two halves of a start
    around that [await]. *)
Definition startWebSpeechDetection (w : World) : bool * World :=
  match recognition (env w) with
  | None => (false, w)
  | Some started =>
      if negb (micGranted (env w)) then (false, w)
      else
        let w := with_out (fun o => out_primaryStarts (S (primaryStarts o)) o) w in
        if started then (false, with_vm (vm_isListening true) w)
        else if startThrows (env w) then (true, w)
        else (false, with_vm (vm_restartAttempts 0)
                       (with_env (env_recognition (Some true)) w))
  end.

(** [startWakeWordDetection()] *)
Definition startWakeWordDetection (w : World) : World :=
  if isPaused (vm w) then w
  else if isListening (vm w) then w
  else if isRestarting (vm w) then w
  else if useLocalDetection (vm w) then startLocalDetection w
  else
    let '(threw, w) := startWebSpeechDetection w in
    if negb threw then w
    else
      let w := with_vm (fun v => vm_consecutiveErrors (S (consecutiveErrors v)) v) w in
      if (consecutiveErrors (vm w) <? 3)%nat then
        (if negb (isRestarting (vm w)) then scheduleRestart 3000 w else w)
      else startLocalDetection (initLocalDetection w).

(** The callback [scheduleRestart] hands to [setTimeout]. *)
Definition restartCallback (w : World) : World :=
  let w := with_vm (vm_pendingRestart None) w in
  let w := with_vm (vm_isRestarting false) w in
  if isPaused (vm w) then w
  else if isListening (vm w) then w
  else startWakeWordDetection w.

(** [forceRestartRecognition(reason)] up to its [await this.delay(100)];
    [k] is what the awaiting caller does afterwards. *)
Definition forceRestartRecognition (k : AfterForce) (w : World) : TimerId * World :=
  let w := cancelPendingRestart w in
  let w := with_vm (vm_isListening false) w in
  let w := with_vm (vm_isRestarting false) w in
  setTimeout (KForceRestart k) 100 w.

(* ----------------------------------------------------------------- *)
(** *** [StateManager] operations *)

(** The listener [setupStateChangeListener] subscribes to 'stateChange', up
    to its first [await]. *)
Definition onStateChange (newState previous : AssistantState) (w : World) : World :=
  if state_eqb newState Listening then snd (setTimeout KStateSyncListening 150 w)
  else if state_eqb newState Idle && isInConversation (vm w) then
    let w := with_vm (vm_isInConversation false) w in
    if negb (isListening (vm w)) && negb (isRestarting (vm w))
       && negb (isPaused (vm w)) && negb (useLocalDetection (vm w))
    then scheduleRestart 200 w else w
  else w.

(** [notifyListeners(newState, previousState, context)]: the subscribers of
    the three event keys are called in turn; the voice manager's own
    listener is among those of 'stateChange'. *)
Definition notifyListeners (newState previous : AssistantState)
    (context : Context) (w : World) : World :=
  let note ev := mkNote ev newState previous context in
  let w := with_out (fun o => out_notified (note "stateChange" :: notified o) o) w in
  let w := if subscribed (vm w) then onStateChange newState previous w else w in
  let w := with_out (fun o =>
             out_notified (note ("state:" ++ state_name newState) :: notified o) o) w in
  with_out (fun o =>
    out_notified (note ("from:" ++ state_name previous) :: notified o) o) w.

(** [executeTransitionCallbacks(event, {from, to, context})] *)
Definition executeTransitionCallbacks (phase : string) (from : option AssistantState)
    (to : AssistantState) (context : Context) (w : World) : World :=
  with_out (fun o => out_transitions (mkCall phase from to context :: transitions o) o) w.

(** [setState(newState, context)] *)
Definition setState (newState : string) (context : Context) (w : World) : bool * World :=
  if negb (isValidState newState) then (false, w)
  else
    match state_of_name newState with
    | None => (false, w)
    | Some target =>
        let from := currentState (app w) in
        if state_eqb from target then (true, w)
        else
          let w := executeTransitionCallbacks "preTransition" (Some from) target context w in
          let w := with_app (fun a =>
                     mkSM (currentState a) (previousState a)
                       (stateHistory a ++ [mkEntry from (clock (env w)) context])) w in
          let w := if (50 <? List.length (stateHistory (app w)))%nat
                   then with_app (fun a =>
                          mkSM (currentState a) (previousState a) (tl (stateHistory a))) w
                   else w in
          let w := with_app (fun a => mkSM target (Some from) (stateHistory a)) w in
          let transitionDuration := getTransitionDuration target in
          let w := notifyListeners target from
                     (ctx_set "colorTransitionMs" (VNumber (colorTransitionMs target))
                        (ctx_set "transitionDuration" (VNumber transitionDuration) context)) w in
          let w := snd (setTimeout (KPostTransition target context) transitionDuration w) in
          (true, w)
    end.

(** [getStateHistory(limit)] is [this.stateHistory.slice(-limit)]. *)
Definition getStateHistory (limit : Z) (a : StateManager) : list HistoryEntry :=
  let len := Z.of_nat (List.length (stateHistory a)) in
  let start := (- limit)%Z in
  let from := if (start <? 0)%Z then Z.max (len + start) 0 else Z.min start len in
  skipn (Z.to_nat from) (stateHistory a).

(** [getStateDuration()].  [Array.prototype.reverse] reverses
    [this.stateHistory] in place before [find] looks through it. *)
Definition getStateDuration (w : World) : Z * World :=
  let w := with_app (fun a =>
             mkSM (currentState a) (previousState a) (rev (stateHistory a))) w in
  match find (fun e => state_eqb (h_state e) (currentState (app w))) (stateHistory (app w)) with
  | Some e => ((clock (env w) - h_timestamp e)%Z, w)
  | None => (0%Z, w)
  end.

(* ----------------------------------------------------------------- *)
(** *** Timeouts, speech output and interruption ([VoiceManager]) *)

Definition listeningTimeoutDuration : Z := 8000.
Definition conversationTimeoutDuration : Z := 15000.

(** [clearListeningTimeout()] *)
Definition clearListeningTimeout (w : World) : World :=
  match listeningTimeout (vm w) with
  | Some (S n) => with_vm (vm_listeningTimeout None) (clearTimeout (S n) w)
  | _ => w
  end.

(** [startListeningTimeout()] *)
Definition startListeningTimeout (w : World) : World :=
  let w := clearListeningTimeout w in
  let '(id, w) := setTimeout KListeningTimeout listeningTimeoutDuration w in
  with_vm (vm_listeningTimeout (Some id)) w.

(** [clearConversationTimeout()] *)
Definition clearConversationTimeout (w : World) : World :=
  match conversationTimeout (vm w) with
  | Some (S n) => with_vm (vm_conversationTimeout None) (clearTimeout (S n) w)
  | _ => w
  end.

(** [startConversationTimeout()] *)
Definition startConversationTimeout (w : World) : World :=
  let w := clearConversationTimeout w in
  let '(id, w) := setTimeout KConversationTimeout conversationTimeoutDuration w in
  with_vm (vm_conversationTimeout (Some id)) w.

(** Calling the [resolve] of speak promise [p]; resolving a settled promise
    does nothing. *)
Definition resolvePromise (p : nat) (w : World) : World :=
  with_out (fun o =>
    if existsb (Nat.eqb p) (resolvedSpeech o) then o
    else out_resolvedSpeech (p :: resolvedSpeech o) o) w.

(** [this.synthesis.cancel()], guarded by [if (this.synthesis)]. *)
Definition synthesisCancel (w : World) : World :=
  with_env (fun e => env_synthesis (option_map (fun _ => false) (synthesis e)) e) w.

(** [speak(text)] up to the return of its promise, which is the result. *)
Definition speak (text : string) (w : World) : nat * World :=
  let p := nextPromise (env w) in
  let w := with_env (env_nextPromise (S p)) w in
  match synthesis (env w) with
  | None => (p, resolvePromise p w)
  | Some _ =>
      let w := with_vm (vm_currentSpeechResolve (Some p)) w in
      let w := synthesisCancel w in
      let w := with_env (env_synthesis (Some true)) w in
      (p, with_out (fun o => out_spoken (text :: spoken o) o) w)
  end.

(** The [onend] and [onerror] handlers of the utterance of promise [p]. *)
Definition onUtteranceEnd (p : nat) (w : World) : World :=
  let w := with_vm (vm_currentSpeechResolve None) w in
  resolvePromise p w.

(** [interruptSpeaking()] up to its [await this.delay(300)]; the result is
    the handle of that delay. *)
Definition interruptSpeaking (w : World) : TimerId * World :=
  let w := synthesisCancel w in
  let w := with_vm (vm_isSpeaking false) w in
  let w := match currentSpeechResolve (vm w) with
           | Some p => with_vm (vm_currentSpeechResolve None) (resolvePromise p w)
           | None => w
           end in
  let w := snd (setState "listening" [("source", VString "interrupt")] w) in
  setTimeout KInterruptResume 300 w.

(** The rest of [interruptSpeaking()], after the delay. *)
Definition interruptResume (w : World) : World :=
  let w := cancelPendingRestart w in
  let w := with_vm (vm_isListening false) w in
  let w := with_vm (vm_isRestarting false) w in
  let w := with_vm (vm_isPaused false) w in
  let w := if negb (useLocalDetection (vm w)) then startWakeWordDetection w else w in
  startConversationTimeout w.

(* ----------------------------------------------------------------- *)
(** *** Command dispatch ([VoiceManager]) *)

(** [onCommandReceived(transcript, confidence)] up to the call of
    [processCommand], which is recorded in [dispatched].  A confidence is
    kept in thousandths. *)
Definition onCommandReceived (transcript : string) (confidence : Z) (w : World) : World :=
  let w := clearListeningTimeout w in
  let w := clearConversationTimeout w in
  let w := with_vm (vm_isInConversation true) w in
  let w := snd (setState "thinking"
                  [("command", VString transcript); ("confidence", VNumber confidence)] w) in
  with_out (fun o => out_dispatched (transcript :: dispatched o) o) w.

(** ... from the response of [processCommand] to the call of [speak]. *)
Definition onCommandResponse (transcript text : string) (w : World) : World :=
  let w := with_vm (vm_isSpeaking true) w in
  let w := snd (setState "speaking"
                  [("command", VString transcript); ("response", VString text)] w) in
  snd (speak text w).

(** ... from the settling of the speak promise to [await this.delay(200)]. *)
Definition onSpeakSettled (w : World) : World :=
  if isSpeaking (vm w) then
    let w := with_vm (vm_isSpeaking false) w in
    let w := snd (setState "listening" [("source", VString "conversation-continue")] w) in
    snd (setTimeout KPostTts 200 w)
  else with_vm (vm_isSpeaking false) w.

(** The end of the [try] block: [startConversationTimeout()] and the final
    [this.isSpeaking = false]. *)
Definition finishConversationTurn (w : World) : World :=
  with_vm (vm_isSpeaking false) (startConversationTimeout w).

(** ... after the delay of 200 ms. *)
Definition postTts (w : World) : World :=
  if negb (isListening (vm w)) && negb (isRestarting (vm w))
     && negb (useLocalDetection (vm w))
  then snd (forceRestartRecognition ThenConversation w)
  else finishConversationTurn w.

(** The rest of [forceRestartRecognition] and of its caller. *)
Definition forceRestartResume (k : AfterForce) (w : World) : World :=
  let w := startWakeWordDetection w in
  match k with
  | ThenNothing => w
  | ThenConversation => finishConversationTurn w
  end.

(** The [catch] block of [onCommandReceived], up to [await this.delay(1500)]. *)
Definition onCommandFailed (message : string) (w : World) : World :=
  let w := with_vm (vm_isSpeaking false) w in
  let w := snd (setState "error" [("error", VString message)] w) in
  snd (setTimeout KErrorRecovery 1500 w).

(** ... and after it. *)
Definition errorRecovery (w : World) : World :=
  let w := snd (setState "listening" [("source", VString "error-recovery")] w) in
  startConversationTimeout w.

(** [handleLateResponse(response)] up to [await this.speak(...)]. *)
Definition handleLateResponse (text : string) (w : World) : World :=
  if is_empty text then w
  else snd (speak text (with_vm (vm_isSpeaking true) w)).

(** ... and after it. *)
Definition lateResponseSpoken (w : World) : World :=
  let w := with_vm (vm_isSpeaking false) w in
  if isInConversation (vm w) then
    startConversationTimeout
      (snd (setState "listening" [("source", VString "late-response-continue")] w))
  else snd (setState "idle" [("source", VString "late-response-complete")] w).

(** [onWakeWordDetected(transcript)] *)
Definition onWakeWordDetected (transcript : string) (w : World) : World :=
  let w := snd (setState "waking" [("transcript", VString transcript)] w) in
  let command := extractCommandFromTranscript transcript in
  if (2 <? String.length command)%nat
  then snd (setTimeout (KDelayedCommand command 900) 600 w)
  else snd (setTimeout (KDelayedListening "wake-word") 600 w).

(** The callback of the delayed [setState('listening', {source})] with
    [startListeningTimeout()]. *)
Definition delayedListening (source : string) (w : World) : World :=
  startListeningTimeout (snd (setState "listening" [("source", VString source)] w)).

(** [onInterimResult(transcript)] *)
Definition onInterimResult (transcript : string) (w : World) : World :=
  if isInConversation (vm w) && (3 <? String.length transcript)%nat
  then clearConversationTimeout w else w.

(** [handleRecognitionResult(event)], for the last result of the event:
    its first alternative's transcript and confidence, and [isFinal]. *)
Definition handleRecognitionResult (transcript : string) (confidence : Z)
    (isFinal : bool) (w : World) : World :=
  let primaryTranscript := trim (toLowerCase transcript) in
  let current := currentState (app w) in
  if state_eqb current Speaking || isSpeaking (vm w) then
    if negb isFinal then w
    else if detectWakeWord primaryTranscript then
      let w := snd (interruptSpeaking w) in
      let command := extractCommandFromTranscript primaryTranscript in
      if (2 <? String.length command)%nat
      then snd (setTimeout (KDelayedCommand command confidence) 300 w)
      else snd (setTimeout (KDelayedListening "interruption") 300 w)
    else w
  else if negb isFinal then onInterimResult primaryTranscript w
  else
    let w := if (0 <? String.length primaryTranscript)%nat
             then with_vm (vm_consecutiveErrors 0) w else w in
    let w :=
      if state_eqb current Idle && negb (isInConversation (vm w)) then
        if detectWakeWord primaryTranscript
        then onWakeWordDetected primaryTranscript w else w
      else if state_eqb current Waking then
        if detectWakeWord primaryTranscript
        then onWakeWordDetected primaryTranscript w else w
      else if state_eqb current Listening then
        if (0 <? String.length primaryTranscript)%nat then
          let w := clearConversationTimeout w in
          if detectWakeWord primaryTranscript then
            let command := extractCommandFromTranscript primaryTranscript in
            if (2 <? String.length command)%nat
            then onCommandReceived command confidence w
            else if isInConversation (vm w) then startConversationTimeout w else w
          else onCommandReceived primaryTranscript confidence w
        else w
      else w in
    with_vm (vm_lastCommand primaryTranscript) w.

(* ----------------------------------------------------------------- *)
(** *** Recogniser lifecycle events ([VoiceManager]) *)

(** [onRecognitionStart()] *)
Definition onRecognitionStart (w : World) : World :=
  let w := with_vm (vm_isListening true) w in
  let w := with_vm (vm_isRestarting false) w in
  with_vm (vm_consecutiveErrors 0) w.

(** [onRecognitionEnd()] *)
Definition onRecognitionEnd (w : World) : World :=
  let w := with_vm (vm_isListening false) w in
  let current := currentState (app w) in
  if state_eqb current Speaking || isSpeaking (vm w) then scheduleRestart 100 w
  else if isPaused (vm w) || useLocalDetection (vm w) then w
  else
    let shouldRestart :=
      negb (existsb (state_eqb current) [Error; Thinking]) in
    if shouldRestart then
      let delay := if state_eqb current Listening then 100%Z else 500%Z in
      scheduleRestart delay w
    else w.

(** [onRecognitionError(event)], with [event.error] as [errorType]. *)
Definition onRecognitionError (errorType : string) (w : World) : World :=
  let current := currentState (app w) in
  if existsb (state_eqb current) [Thinking; Speaking] then w
  else if String.eqb errorType "aborted" then w
  else
    let w := with_vm (fun v => vm_consecutiveErrors (S (consecutiveErrors v)) v) w in
    if String.eqb errorType "network" then
      if (2 <=? consecutiveErrors (vm w))%nat then
        initLocalDetection (with_vm (vm_useLocalDetection true) w)
      else scheduleRestart 500 w
    else if String.eqb errorType "no-speech" then
      scheduleRestart 100 (with_vm (vm_consecutiveErrors 0) w)
    else scheduleRestart 500 w.

(** [recognition.onspeechstart] *)
Definition onSpeechStart (w : World) : World :=
  with_vm (vm_consecutiveErrors 0) w.

(** [stopWakeWordDetection()].  [recognition.stop()] only asks the
    recogniser to stop; it has stopped when its [end] event arrives. *)
Definition stopWakeWordDetection (w : World) : World :=
  let w := with_vm (vm_isPaused true) w in
  with_vm (vm_isListening false) w.

(** [resumeWakeWordDetection()] *)
Definition resumeWakeWordDetection (w : World) : World :=
  let w := with_vm (vm_isPaused false) w in
  if negb (useLocalDetection (vm w)) then startWakeWordDetection w else w.

(* ----------------------------------------------------------------- *)
(** *** The event loop *)

(** The callback of [startListeningTimeout]. *)
Definition listeningTimeoutCallback (w : World) : World :=
  if state_eqb (currentState (app w)) Listening then
    let w := snd (speak "I didn't catch that. Say 'Hey Luna' when you need me." w) in
    snd (setState "idle" [] w)
  else w.

(** The callback of [startConversationTimeout], up to [await this.delay(50)]. *)
Definition conversationTimeoutCallback (w : World) : World :=
  if state_eqb (currentState (app w)) Listening && isInConversation (vm w) then
    let w := with_vm (vm_isInConversation false) w in
    let w := if negb (isListening (vm w)) && negb (isRestarting (vm w))
                && negb (useLocalDetection (vm w))
             then scheduleRestart 100 w else w in
    snd (setTimeout KConversationIdle 50 w)
  else w.

(** The listener of 'stateChange' after its [await this.delay(150)]. *)
Definition stateSyncListening (w : World) : World :=
  if negb (isListening (vm w)) && negb (isRestarting (vm w))
     && negb (isPaused (vm w)) && negb (useLocalDetection (vm w))
  then snd (forceRestartRecognition ThenNothing w)
  else w.

(** What a timer's callback does. *)
Definition timerCallback (k : TimerKind) (w : World) : World :=
  match k with
  | KRestart => restartCallback w
  | KListeningTimeout => listeningTimeoutCallback w
  | KConversationTimeout => conversationTimeoutCallback w
  | KConversationIdle => snd (setState "idle" [] w)
  | KPostTransition to context =>
      executeTransitionCallbacks "postTransition" (previousState (app w)) to context w
  | KStateSyncListening => stateSyncListening w
  | KForceRestart k => forceRestartResume k w
  | KInterruptResume => interruptResume w
  | KDelayedCommand command confidence => onCommandReceived command confidence w
  | KDelayedListening source => delayedListening source w
  | KPostTts => postTts w
  | KErrorRecovery => errorRecovery w
  end.

(** The browser runs the pending timer [id]: it leaves the queue and its
    callback is called.  Nothing happens for a handle that is not pending. *)
Definition fireTimer (id : TimerId) (w : World) : World :=
  match find_timer id w with
  | Some t => timerCallback (t_kind t) (clearTimeout id w)
  | None => w
  end.

(** Everything that can happen to the two components: events of the
    recogniser and of the synthesiser, timers, the clock, calls from the
    user interface and from other scripts, and the settling of the
    promises [onCommandReceived] and [handleLateResponse] await. *)
Inductive Event : Type :=
| RecStart
| RecEnd
| RecError (errorType : string)
| RecSpeechStart
| RecResult (transcript : string) (confidence : Z) (isFinal : bool)
| UtteranceEnd (p : nat)
| Fire (id : TimerId)
| Clock (now : Z)
| BrowserMic (granted : bool)
| BrowserStartThrows (b : bool)
| CallStop
| CallResume
| CallInterrupt
| CallStart
| CallScheduleRestart (delay : Z)
| CallForceRestart
| CallSetState (newState : string) (context : Context)
| CallGetStateDuration
| CallWakeWordDetected (transcript : string)
| CallCommandReceived (transcript : string) (confidence : Z)
| CommandResponse (transcript text : string)
| CommandFailed (message : string)
| SpeakSettled
| LateResponse (text : string)
| LateResponseSpoken.

(** The recogniser's handlers are installed only when [this.recognition]
    exists; its [end] event also means the recogniser has stopped. *)
Definition step (e : Event) (w : World) : World :=
  match e with
  | RecStart =>
      match recognition (env w) with
      | Some _ => onRecognitionStart (with_env (env_recognition (Some true)) w)
      | None => w
      end
  | RecEnd =>
      match recognition (env w) with
      | Some _ => onRecognitionEnd (with_env (env_recognition (Some false)) w)
      | None => w
      end
  | RecError errorType =>
      match recognition (env w) with
      | Some _ => onRecognitionError errorType w
      | None => w
      end
  | RecSpeechStart =>
      match recognition (env w) with
      | Some _ => onSpeechStart w
      | None => w
      end
  | RecResult transcript confidence isFinal =>
      match recognition (env w) with
      | Some _ => handleRecognitionResult transcript confidence isFinal w
      | None => w
      end
  | UtteranceEnd p =>
      let w := if match currentSpeechResolve (vm w) with
                  | Some q => Nat.eqb p q
                  | None => false
                  end
               then with_env (env_synthesis (Some false)) w else w in
      onUtteranceEnd p w
  | Fire id => fireTimer id w
  | Clock now => with_env (env_clock now) w
  | BrowserMic granted => with_env (env_micGranted granted) w
  | BrowserStartThrows b => with_env (env_startThrows b) w
  | CallStop => stopWakeWordDetection w
  | CallResume => resumeWakeWordDetection w
  | CallInterrupt => snd (interruptSpeaking w)
  | CallStart => startWakeWordDetection w
  | CallScheduleRestart delay => scheduleRestart delay w
  | CallForceRestart => snd (forceRestartRecognition ThenNothing w)
  | CallSetState newState context => snd (setState newState context w)
  | CallGetStateDuration => snd (getStateDuration w)
  | CallWakeWordDetected transcript => onWakeWordDetected transcript w
  | CallCommandReceived transcript confidence => onCommandReceived transcript confidence w
  | CommandResponse transcript text => onCommandResponse transcript text w
  | CommandFailed message => onCommandFailed message w
  | SpeakSettled => onSpeakSettled w
  | LateResponse text => handleLateResponse text w
  | LateResponseSpoken => lateResponseSpoken w
  end.

(** A run of the event loop. *)
Definition run (es : list Event) (w : World) : World :=
  fold_left (fun w e => step e w) es w.

(** The two objects as their constructors leave them, in a browser with a
    speech recogniser. *)
Definition initial_app : StateManager := mkSM Idle None [].

Definition initial_vm : VoiceManager :=
  mkVM false false false false false false 0 0 None None None None "" true.

Definition initial_env (granted throws : bool) : Browser :=
  mkBrowser [] 1 0 (Some false) throws granted (Some false) 0.

Definition initial_world (granted throws : bool) : World :=
  mkWorld initial_app initial_vm (initial_env granted throws)
    (mkOut [] [] 0 [] [] []).

(* ----------------------------------------------------------------- *)
(** *** The WebSocket round trip of [processCommand]

    The promise [processCommand] builds when [window.LunaAPI.isConnected],
    with the variables of its closure and the timers it sets.  Time is in
    milliseconds. *)

(** What the promise is resolved with: the backend's reply
    ([action: 'api_response']) or [this.getLocalResponse(command)]. *)
Inductive Resolution : Type :=
| ApiResponse (text : string)
| LocalResponse (command : string).

(** The two callbacks the closure hands to [setTimeout]. *)
Inductive Deadline : Type :=
| InitialDeadline      (* 15000 ms, set after [sendMessage] *)
| ToolDeadline.        (* 60000 ms, set by the tool-start handler *)

Record Alarm : Type := mkAlarm {
  a_id : nat;
  a_due : Z;
  a_deadline : Deadline
}.

Record Request : Type := mkRequest {
  command : string;
  now : Z;                          (* current time *)
  alarms : list Alarm;              (* the browser's pending timers *)
  nextAlarm : nat;
  timeoutId : option nat;
  isResolved : bool;
  toolInProgress : bool;
  installed : bool;                 (* the closure's handlers are those of window.LunaAPI *)
  resolvedWith : option Resolution; (* the value of the promise *)
  lateResponses : list string       (* texts given to handleLateResponse *)
}.

Definition rq_alarms (l : list Alarm) (r : Request) : Request :=
  mkRequest (command r) (now r) l (nextAlarm r) (timeoutId r) (isResolved r)
    (toolInProgress r) (installed r) (resolvedWith r) (lateResponses r).
Definition rq_now (t : Z) (r : Request) : Request :=
  mkRequest (command r) t (alarms r) (nextAlarm r) (timeoutId r) (isResolved r)
    (toolInProgress r) (installed r) (resolvedWith r) (lateResponses r).
Definition rq_timeoutId (h : option nat) (r : Request) : Request :=
  mkRequest (command r) (now r) (alarms r) (nextAlarm r) h (isResolved r)
    (toolInProgress r) (installed r) (resolvedWith r) (lateResponses r).
Definition rq_isResolved (b : bool) (r : Request) : Request :=
  mkRequest (command r) (now r) (alarms r) (nextAlarm r) (timeoutId r) b
    (toolInProgress r) (installed r) (resolvedWith r) (lateResponses r).
Definition rq_toolInProgress (b : bool) (r : Request) : Request :=
  mkRequest (command r) (now r) (alarms r) (nextAlarm r) (timeoutId r)
    (isResolved r) b (installed r) (resolvedWith r) (lateResponses r).
Definition rq_installed (b : bool) (r : Request) : Request :=
  mkRequest (command r) (now r) (alarms r) (nextAlarm r) (timeoutId r)
    (isResolved r) (toolInProgress r) b (resolvedWith r) (lateResponses r).
Definition rq_lateResponses (l : list string) (r : Request) : Request :=
  mkRequest (command r) (now r) (alarms r) (nextAlarm r) (timeoutId r)
    (isResolved r) (toolInProgress r) (installed r) (resolvedWith r) l.

(** [resolve(v)]: only the first call settles the promise. *)
Definition resolve (v : Resolution) (r : Request) : Request :=
  match resolvedWith r with
  | Some _ => r
  | None =>
      mkRequest (command r) (now r) (alarms r) (nextAlarm r) (timeoutId r)
        (isResolved r) (toolInProgress r) (installed r) (Some v) (lateResponses r)
  end.

(** [setTimeout(callback, delay)] in the closure. *)
Definition setAlarm (d : Deadline) (delay : Z) (r : Request) : nat * Request :=
  let id := nextAlarm r in
  (id, mkRequest (command r) (now r)
         (alarms r ++ [mkAlarm id (now r + delay) d]) (S id) (timeoutId r)
         (isResolved r) (toolInProgress r) (installed r) (resolvedWith r)
         (lateResponses r)).

(** [clearTimeout(id)] *)
Definition clearAlarm (id : nat) (r : Request) : Request :=
  rq_alarms (filter (fun a => negb (Nat.eqb (a_id a) id)) (alarms r)) r.

(** The helper [cleanup]: the timer is cleared and the handlers of
    [window.LunaAPI] are put back. *)
Definition cleanup (r : Request) : Request :=
  let r := match timeoutId r with
           | Some (S n) => rq_timeoutId None (clearAlarm (S n) r)
           | _ => r
           end in
  rq_installed false r.

(** The handler installed as [window.LunaAPI.onResponse]. *)
Definition onResponse (text : string) (r : Request) : Request :=
  if isResolved r then rq_lateResponses (text :: lateResponses r) r
  else
    let r := rq_isResolved true r in
    let r := cleanup r in
    resolve (ApiResponse text) r.

(** The handler installed as [window.LunaAPI.onError]. *)
Definition onError (r : Request) : Request :=
  if isResolved r then r
  else
    let r := rq_isResolved true r in
    let r := cleanup r in
    resolve (LocalResponse (command r)) r.

(** The callback of the 60 s timer. *)
Definition toolTimeout (r : Request) : Request :=
  if negb (isResolved r) then
    let r := rq_isResolved true r in
    let r := cleanup r in
    resolve (LocalResponse (command r)) r
  else r.

(** The handler installed as [window.LunaAPI.onToolStart]. *)
Definition onToolStart (r : Request) : Request :=
  let r := rq_toolInProgress true r in
  match timeoutId r with
  | Some (S n) =>
      if negb (isResolved r) then
        let r := clearAlarm (S n) r in
        let '(id, r) := setAlarm ToolDeadline 60000 r in
        rq_timeoutId (Some id) r
      else r
  | _ => r
  end.

(** The callback of the initial 15 s timer. *)
Definition initialTimeout (r : Request) : Request :=
  if negb (isResolved r) && negb (toolInProgress r) then
    let r := rq_isResolved true r in
    let r := cleanup r in
    resolve (LocalResponse (command r)) r
  else r.

(** The executor of the promise, called at time [t0]: the handlers are
    installed, the message is sent and the initial timer is set. *)
Definition processCommand (cmd : string) (t0 : Z) : Request :=
  let r := mkRequest cmd t0 [] 1 None false false true None [] in
  let '(id, r) := setAlarm InitialDeadline 15000 r in
  rq_timeoutId (Some id) r.

Definition alarmCallback (d : Deadline) (r : Request) : Request :=
  match d with
  | InitialDeadline => initialTimeout r
  | ToolDeadline => toolTimeout r
  end.

(** The pending timer that is due first (the older one on a tie). *)
Fixpoint earliest (l : list Alarm) : option Alarm :=
  match l with
  | [] => None
  | a :: rest =>
      match earliest rest with
      | Some b => if (a_due b <? a_due a)%Z then Some b else Some a
      | None => Some a
      end
  end.

(** Time passes until [t]: the timers that come due run in order, each at
    its own time.  [fuel] bounds the number of timers run. *)
Fixpoint elapse (fuel : nat) (t : Z) (r : Request) : Request :=
  match fuel with
  | O => rq_now (Z.max (now r) t) r
  | S fuel' =>
      match earliest (alarms r) with
      | Some a =>
          if (a_due a <=? t)%Z then
            let r := rq_now (Z.max (now r) (a_due a)) r in
            elapse fuel' t (alarmCallback (a_deadline a) (clearAlarm (a_id a) r))
          else rq_now (Z.max (now r) t) r
      | None => rq_now (Z.max (now r) t) r
      end
  end.

(** The callbacks set no timers, so the pending ones bound the work. *)
Definition advance (t : Z) (r : Request) : Request :=
  elapse (List.length (alarms r)) t r.

(** Messages of the backend reach the closure's handlers while they are
    installed. *)
Inductive Message : Type :=
| ToolStart
| TextResponse (text : string)
| ErrorMessage.

Definition deliver (m : Message) (r : Request) : Request :=
  if installed r then
    match m with
    | ToolStart => onToolStart r
    | TextResponse text => onResponse text r
    | ErrorMessage => onError r
    end
  else r.

(** A message arriving at time [t]. *)
Definition receive (t : Z) (m : Message) (r : Request) : Request :=
  deliver m (advance t r).


(* ----------------------------------------------------------------- *)
(** *** Invariants of the event loop *)

(** Timer handles are positive and below the next handle to be given out,
    and no two pending timers share one. *)
Definition timers_fresh (w : World) : Prop :=
  0 < nextTimer (env w)
  /\ (forall t, In t (timers (env w)) -> 0 < t_id t < nextTimer (env w))
  /\ NoDup (map t_id (timers (env w))).

(** The queue [l] without the timer [id], as [clearTimeout] leaves it. *)
Definition without (id : TimerId) (l : list Timer) : list Timer :=
  filter (fun t => negb (Nat.eqb (t_id t) id)) l.

(** All handles in [l] are positive and below [n]. *)
Definition ids_below (n : nat) (l : list Timer) : Prop :=
  forall t, In t l -> 0 < t_id t < n.

(** Every timer of the kind [f] in [l] is the one the handle [h] names. *)
Definition tracked (f : Timer -> bool) (h : option TimerId) (l : list Timer) : Prop :=
  forall t, In t l -> f t = true -> h = Some (t_id t).

(** The handles the voice manager keeps were given out before. *)
Definition handles_fresh (w : World) : Prop :=
  (forall h, pendingRestart (vm w) = Some h -> h < nextTimer (env w))
  /\ (forall h, conversationTimeout (vm w) = Some h -> h < nextTimer (env w)).

(** Every pending scheduled restart is the one [pendingRestart] holds. *)
Definition restart_tracked (w : World) : Prop :=
  forall t, In t (timers (env w)) -> is_restart t = true ->
            pendingRestart (vm w) = Some (t_id t).

(** Every pending conversation timeout is the one [conversationTimeout]
    holds. *)
Definition conversation_tracked (w : World) : Prop :=
  forall t, In t (timers (env w)) -> is_conversation t = true ->
            conversationTimeout (vm w) = Some (t_id t).

(** The history never exceeds its bound. *)
Definition history_bounded (w : World) : Prop :=
  List.length (stateHistory (app w)) <= 50.

(** Once in local detection mode ([local = true]) the mode stays and
    [recognition.start()] has been called [n] times, no more. *)
Definition local_mode (local : bool) (n : nat) (w : World) : Prop :=
  local = true -> useLocalDetection (vm w) = true /\ primaryStarts (out w) = n.

Definition invariant (local : bool) (n : nat) (w : World) : Prop :=
  timers_fresh w /\ handles_fresh w /\ restart_tracked w
  /\ conversation_tracked w /\ history_bounded w /\ local_mode local n w.

(* ----------------------------------------------------------------- *)
(** *** Interrupting twice *)

(** One call of [interruptSpeaking()], run to its end: the delay of
    300 ms elapses and the rest of the function runs. *)
Definition interruptOnce (w : World) : World :=
  let '(id, w) := interruptSpeaking w in
  fireTimer id w.

(** Two calls made one right after the other: both delays are pending
    before either continuation runs. *)
Definition interruptTwice (w : World) : World :=
  let '(id1, w) := interruptSpeaking w in
  let '(id2, w) := interruptSpeaking w in
  fireTimer id2 (fireTimer id1 w).

(** Two calls, the second made when the first has run to its end. *)
Definition interruptAgain (w : World) : World :=
  let '(id, w) := interruptSpeaking (interruptOnce w) in
  fireTimer id w.

(** What an interruption shows to the rest of the system: the state
    machine with its notifications and transition callbacks, the
    synthesiser and the recogniser, the speak promise and its settlement,
    the commands and texts sent out, and the conversation flags. *)
Record Observable : Type := mkObs {
  o_app : StateManager;
  o_notified : list Notification;
  o_transitions : list TransitionCall;
  o_synthesis : option bool;
  o_recognition : option bool;
  o_currentSpeechResolve : option nat;
  o_resolvedSpeech : list nat;
  o_dispatched : list string;
  o_spoken : list string;
  o_isSpeaking : bool;
  o_isPaused : bool;
  o_isRestarting : bool;
  o_isInConversation : bool;
  o_conversationTimers : list (Z * TimerKind)
}.

Definition observe (w : World) : Observable :=
  mkObs (app w) (notified (out w)) (transitions (out w)) (synthesis (env w))
    (recognition (env w)) (currentSpeechResolve (vm w)) (resolvedSpeech (out w))
    (dispatched (out w)) (spoken (out w)) (isSpeaking (vm w)) (isPaused (vm w))
    (isRestarting (vm w)) (isInConversation (vm w))
    (map (fun t => (t_delay t, t_kind t)) (conversation_timers w)).

(** The first three steps of [interruptSpeaking()]: the synthesiser is
    cancelled, the flag reset and the pending speak promise resolved. *)
Definition haltSpeech (w : World) : World :=
  let w := synthesisCancel w in
  let w := with_vm (vm_isSpeaking false) w in
  match currentSpeechResolve (vm w) with
  | Some p => with_vm (vm_currentSpeechResolve None) (resolvePromise p w)
  | None => w
  end.

(** The part of a world that restart scheduling, timers and the start of
    recognition leave alone. *)
Definition face (w : World) :=
  (app w,
   (notified (out w), transitions (out w), resolvedSpeech (out w),
    dispatched (out w), spoken (out w)),
   (synthesis (env w), micGranted (env w), startThrows (env w)),
   (currentSpeechResolve (vm w), isSpeaking (vm w), isInConversation (vm w))).

(** The recogniser after [startWakeWordDetection] has been tried with the
    blocking flags reset, as the end of [interruptSpeaking] does it. *)
Definition recognitionAfterResume (w : World) : option bool :=
  if useLocalDetection (vm w) then recognition (env w)
  else match recognition (env w) with
       | Some false =>
           if micGranted (env w) && negb (startThrows (env w))
           then Some true else Some false
       | r => r
       end.

(** What decides whether recognition gets started, with the recogniser
    itself. *)
Definition controls (w : World) :=
  (recognition (env w), useLocalDetection (vm w), isPaused (vm w),
   isRestarting (vm w)).

(** What shows once [interruptSpeaking] has run to its end from [w]. *)
Definition resumed (w : World) : Observable :=
  mkObs (app w) (notified (out w)) (transitions (out w)) (synthesis (env w))
    (recognitionAfterResume w) (currentSpeechResolve (vm w))
    (resolvedSpeech (out w)) (dispatched (out w)) (spoken (out w))
    (isSpeaking (vm w)) false false (isInConversation (vm w))
    [(conversationTimeoutDuration, KConversationTimeout)].

(** [getStatus()] *)
Record Status : Type := mkStatus {
  s_isListening : bool;
  s_isPaused : bool;
  s_isRestarting : bool;
  s_isSpeaking : bool;
  s_isInConversation : bool;
  s_useLocalDetection : bool;
  s_hasRecognition : bool;
  s_hasSynthesis : bool;
  s_lastCommand : string;
  s_restartAttempts : nat;
  s_consecutiveErrors : nat
}.

Definition getStatus (w : World) : Status :=
  mkStatus (isListening (vm w)) (isPaused (vm w)) (isRestarting (vm w))
    (isSpeaking (vm w)) (isInConversation (vm w)) (useLocalDetection (vm w))
    (match recognition (env w) with Some _ => true | None => false end)
    (match synthesis (env w) with Some _ => true | None => false end)
    (lastCommand (vm w)) (restartAttempts (vm w)) (consecutiveErrors (vm w)).

(** Whether the end of [interruptSpeaking] gets as far as
    [recognition.start()] on a stopped recogniser: Web Speech detection in
    use, the microphone granted, the recogniser there and not running. *)
Definition startsRecogniser (w : World) : bool :=
  negb (useLocalDetection (vm w)) && micGranted (env w)
  && match recognition (env w) with Some false => true | _ => false end.

(** [isListening] after the end of [interruptSpeaking] when the recogniser
    was not stopped: the flag is reset, and set again only by the
    already-started error of [recognition.start()]. *)
Definition listeningAfterResume (w : World) : bool :=
  negb (useLocalDetection (vm w)) && micGranted (env w)
  && match recognition (env w) with Some true => true | _ => false end.

(** What the two runs of an interruption are compared on beyond [face]:
    the recogniser, the detection mode and the supervisor's counters. *)
Definition ledger (w : World) :=
  (face w,
   (recognition (env w), useLocalDetection (vm w)),
   (restartAttempts (vm w), consecutiveErrors (vm w), lastCommand (vm w))).

(** [getStatus()] once [interruptSpeaking] has run to its end from [w]
    without starting a stopped recogniser. *)
Definition statusResumed (w : World) : Status :=
  mkStatus (listeningAfterResume w) false false
    (isSpeaking (vm w)) (isInConversation (vm w)) (useLocalDetection (vm w))
    (match recognition (env w) with Some _ => true | None => false end)
    (match synthesis (env w) with Some _ => true | None => false end)
    (lastCommand (vm w)) (restartAttempts (vm w)) (consecutiveErrors (vm w)).

(* ----------------------------------------------------------------- *)
(** *** Queries of the state machine ([StateManager]) *)

(** The table [transitions] inside [canTransitionTo]. *)
Definition allowedTransitions (s : AssistantState) : list AssistantState :=
  match s with
  | Idle => [Waking; Error]
  | Waking => [Listening; Idle; Error]
  | Listening => [Thinking; Idle; Error]
  | Thinking => [Speaking; Idle; Error]
  | Speaking => [Idle; Listening; Error]
  | Error => [Idle]
  end.

(** [canTransitionTo(newState)] *)
Definition canTransitionTo (newState : string) (a : StateManager) : bool :=
  existsb (String.eqb newState)
    (map state_name (allowedTransitions (currentState a))).

(** [isError()] *)
Definition isError (a : StateManager) : bool :=
  state_eqb (currentState a) Error.

(** [isActive()] *)
Definition isActive (a : StateManager) : bool :=
  negb (state_eqb (currentState a) Idle).

(** [isProcessing()] *)
Definition isProcessing (a : StateManager) : bool :=
  existsb (state_eqb (currentState a)) [Thinking; Speaking].

(** [reset()] *)
Definition reset (w : World) : World :=
  snd (setState "idle" [("reason", VString "reset")] w).

(** The entry [getStateDuration] measures from, looking through the
    history [h] as it lies. *)
Definition durationFrom (h : list HistoryEntry) (w : World) : Z :=
  match find (fun e => state_eqb (h_state e) (currentState (app w))) h with
  | Some e => (clock (env w) - h_timestamp e)%Z
  | None => 0%Z
  end.

(** The part of a world that a state transition and its listeners leave
    alone: everything but the state machine, its notifications, the timer
    queue, the restart bookkeeping and the conversation flag. *)
Definition aside (w : World) :=
  (dispatched (out w), spoken (out w), resolvedSpeech (out w), primaryStarts (out w),
   (synthesis (env w), recognition (env w), clock (env w), micGranted (env w),
    startThrows (env w), nextPromise (env w)),
   (isSpeaking (vm w), isPaused (vm w), subscribed (vm w), useLocalDetection (vm w),
    currentSpeechResolve (vm w), lastCommand (vm w), consecutiveErrors (vm w),
    listeningTimeout (vm w), conversationTimeout (vm w))).

(** Recognition is muted by the user, [recognition.start()] having been
    called [n] times. *)
Definition muted (n : nat) (w : World) : Prop :=
  isPaused (vm w) = true /\ primaryStarts (out w) = n.

(* ----------------------------------------------------------------- *)
(** *** A whole round trip *)

(** The messages of the backend during one request, each with its time of
    arrival. *)
Definition session (ms : list (Z * Message)) (r : Request) : Request :=
  fold_left (fun r tm => receive (fst tm) (snd tm) r) ms r.

(** The request for [cmd] is waiting: unresolved, its handlers installed,
    and its one timer, of kind [d] and due at [due], pending under the
    handle [timeoutId] holds. *)
Definition waiting (cmd : string) (due : Z) (d : Deadline) (r : Request) : Prop :=
  command r = cmd /\ isResolved r = false /\ installed r = true
  /\ resolvedWith r = None /\ lateResponses r = []
  /\ (d = InitialDeadline -> toolInProgress r = false)
  /\ exists k, alarms r = [mkAlarm (S k) due d] /\ timeoutId r = Some (S k)
               /\ S k < nextAlarm r.

(** The request is settled: resolved, the handlers put back, no timer
    left. *)
Definition settled (r : Request) : Prop :=
  isResolved r = true /\ installed r = false /\ resolvedWith r <> None
  /\ alarms r = [] /\ lateResponses r = [].

(* ----------------------------------------------------------------- *)
(** *** The WebSocket client ([LunaAPIClient]) *)

(** [WebSocket.readyState] *)
Inductive ReadyState : Type := CONNECTING | OPEN | CLOSING | CLOSED.

(** A message for the backend: its [type] and its [text], if it has one. *)
Record Outgoing : Type := mkOutgoing {
  m_type : string;
  m_text : option string
}.

(** The fields of the client that connecting and sending use, with the
    sockets it has created (numbered in order of creation), what
    [ws.send] was given and on which socket, the pending timers of
    [attemptReconnect] and the calls of [onConnectionChange].
    [constructorThrows] says whether [new WebSocket(url)] throws. *)
Record Client : Type := mkClient {
  sockets : list ReadyState;
  ws : option nat;                       (* this.ws *)
  isConnected : bool;
  reconnectAttempts : nat;
  messageQueue : list Outgoing;
  maxReconnectAttempts : nat;            (* this.config.maxReconnectAttempts *)
  useWebSocket : bool;                   (* this.config.useWebSocket *)
  constructorThrows : bool;
  sentFrames : list (nat * Outgoing);
  reconnectTimers : nat;
  connectionChanges : list bool
}.

Definition cl_sockets (l : list ReadyState) (c : Client) : Client :=
  mkClient l (ws c) (isConnected c) (reconnectAttempts c) (messageQueue c)
    (maxReconnectAttempts c) (useWebSocket c) (constructorThrows c) (sentFrames c)
    (reconnectTimers c) (connectionChanges c).
Definition cl_ws (s : option nat) (c : Client) : Client :=
  mkClient (sockets c) s (isConnected c) (reconnectAttempts c) (messageQueue c)
    (maxReconnectAttempts c) (useWebSocket c) (constructorThrows c) (sentFrames c)
    (reconnectTimers c) (connectionChanges c).
Definition cl_isConnected (b : bool) (c : Client) : Client :=
  mkClient (sockets c) (ws c) b (reconnectAttempts c) (messageQueue c)
    (maxReconnectAttempts c) (useWebSocket c) (constructorThrows c) (sentFrames c)
    (reconnectTimers c) (connectionChanges c).
Definition cl_reconnectAttempts (n : nat) (c : Client) : Client :=
  mkClient (sockets c) (ws c) (isConnected c) n (messageQueue c)
    (maxReconnectAttempts c) (useWebSocket c) (constructorThrows c) (sentFrames c)
    (reconnectTimers c) (connectionChanges c).
Definition cl_messageQueue (q : list Outgoing) (c : Client) : Client :=
  mkClient (sockets c) (ws c) (isConnected c) (reconnectAttempts c) q
    (maxReconnectAttempts c) (useWebSocket c) (constructorThrows c) (sentFrames c)
    (reconnectTimers c) (connectionChanges c).
Definition cl_sentFrames (l : list (nat * Outgoing)) (c : Client) : Client :=
  mkClient (sockets c) (ws c) (isConnected c) (reconnectAttempts c) (messageQueue c)
    (maxReconnectAttempts c) (useWebSocket c) (constructorThrows c) l
    (reconnectTimers c) (connectionChanges c).
Definition cl_reconnectTimers (n : nat) (c : Client) : Client :=
  mkClient (sockets c) (ws c) (isConnected c) (reconnectAttempts c) (messageQueue c)
    (maxReconnectAttempts c) (useWebSocket c) (constructorThrows c) (sentFrames c)
    n (connectionChanges c).
Definition cl_connectionChanges (l : list bool) (c : Client) : Client :=
  mkClient (sockets c) (ws c) (isConnected c) (reconnectAttempts c) (messageQueue c)
    (maxReconnectAttempts c) (useWebSocket c) (constructorThrows c) (sentFrames c)
    (reconnectTimers c) l.

Definition readyState (i : nat) (c : Client) : option ReadyState :=
  nth_error (sockets c) i.

Fixpoint set_nth {A : Type} (i : nat) (x : A) (l : list A) : list A :=
  match l, i with
  | [], _ => []
  | _ :: rest, O => x :: rest
  | y :: rest, S j => y :: set_nth j x rest
  end.

(** The browser moves socket [i] to the state [s]. *)
Definition setReadyState (i : nat) (s : ReadyState) (c : Client) : Client :=
  cl_sockets (set_nth i s (sockets c)) c.

(** [this.ws && this.ws.readyState === WebSocket.OPEN] *)
Definition isOpen (c : Client) : bool :=
  match ws c with
  | Some i => match readyState i c with Some OPEN => true | _ => false end
  | None => false
  end.

(** [connect()] up to the return of its promise: unless the current
    socket is open, a new socket is created and becomes [this.ws].  (The
    timer of 5 s set here only resolves the promise.) *)
Definition connect (c : Client) : Client :=
  if isOpen c then c
  else if constructorThrows c then c
  else cl_ws (Some (List.length (sockets c))) (cl_sockets (sockets c ++ [CONNECTING]) c).

(** [sendWsMessage(message)] *)
Definition sendWsMessage (message : Outgoing) (c : Client) : bool * Client :=
  if isOpen c then
    match ws c with
    | Some i => (true, cl_sentFrames (sentFrames c ++ [(i, message)]) c)
    | None => (true, c)
    end
  else (false, connect (cl_messageQueue (messageQueue c ++ [message]) c)).

(** [processMessageQueue()]: the loop
    [while (this.messageQueue.length > 0) { shift; sendWsMessage }], run
    for at most [fuel] rounds; [None] when it has not ended by then. *)
Fixpoint processMessageQueue (fuel : nat) (c : Client) : option Client :=
  match messageQueue c with
  | [] => Some c
  | message :: rest =>
      match fuel with
      | O => None
      | S fuel' =>
          processMessageQueue fuel' (snd (sendWsMessage message (cl_messageQueue rest c)))
      end
  end.

(** [ws.onopen] of socket [i], which the browser has opened. *)
Definition onOpen (fuel : nat) (i : nat) (c : Client) : option Client :=
  let c := setReadyState i OPEN c in
  let c := cl_isConnected true c in
  let c := cl_reconnectAttempts 0 c in
  let c := cl_connectionChanges (connectionChanges c ++ [true]) c in
  processMessageQueue fuel c.

(** [attemptReconnect()] *)
Definition attemptReconnect (c : Client) : Client :=
  if (maxReconnectAttempts c <=? reconnectAttempts c)%nat then c
  else cl_reconnectTimers (S (reconnectTimers c))
         (cl_reconnectAttempts (S (reconnectAttempts c)) c).

(** [ws.onclose] of socket [i], which has closed. *)
Definition onClose (i : nat) (c : Client) : Client :=
  let c := setReadyState i CLOSED c in
  let c := cl_isConnected false c in
  let c := cl_connectionChanges (connectionChanges c ++ [false]) c in
  attemptReconnect c.

(** The callback of the timer [attemptReconnect] sets. *)
Definition reconnectTimer (c : Client) : Client :=
  connect (cl_reconnectTimers (pred (reconnectTimers c)) c).

(** [disconnect()]: [ws.close()] starts the closing handshake. *)
Definition disconnect (c : Client) : Client :=
  let c := match ws c with
           | Some i => cl_ws None (setReadyState i CLOSING c)
           | None => c
           end in
  cl_isConnected false c.

(** [sendMessage(text)]: over the socket when [useWebSocket] and
    [isConnected], with the result of [sendWsMessage]; otherwise by REST
    ([None]). *)
Definition sendMessage (text : string) (c : Client) : option bool * Client :=
  if useWebSocket c && isConnected c then
    let '(sent, c) := sendWsMessage (mkOutgoing "input.text" (Some text)) c in
    (Some sent, c)
  else (None, c).

(** The client as its constructor leaves it, with the default
    configuration. *)
Definition initial_client : Client :=
  mkClient [] None false 0 [] 5 true false [] 0 [].

(* ----------------------------------------------------------------- *)
(** *** Local fallback responses ([VoiceManager]) *)

(** A response: its [text] and its [action]. *)
Record LocalReply : Type := mkReply {
  r_text : string;
  r_action : string
}.

(** The double quote. *)
Definition dquote : string := String "034"%char "".

(** The table [responses] of [getLocalResponse], in the order of its keys:
    the patterns of each category with its response.  [timeText] and
    [dateText] are what [toLocaleTimeString()] and [toLocaleDateString(...)]
    give when the function is called. *)
Definition responses (timeText dateText : string) : list (list string * LocalReply) :=
  [ (["hello"; "hi"; "hey"; "good morning"],
     mkReply "Hello! I'm LunaEye, your AI assistant. How can I help you today?"
       "greeting");
    (["time"; "what time"; "current time"],
     mkReply ("The current time is " ++ timeText ++ ".") "time");
    (["date"; "what day"; "today"],
     mkReply ("Today is " ++ dateText ++ ".") "date");
    (["help"; "what can you do"],
     mkReply "I can help you with time, date, and basic conversation. Connect me to Luna backend for full smart home control!"
       "help");
    (["thank"; "thanks"; "appreciate"],
     mkReply "You're welcome! Is there anything else I can help you with?" "thanks");
    (["bye"; "goodbye"; "see you"],
     mkReply "Goodbye! Just speak to me again whenever you need assistance." "goodbye");
    (["your name"; "who are you"],
     mkReply "I'm LunaEye, your personal AI assistant with advanced 3D fluid visualization and voice interaction."
       "identity") ].

(** The two nested loops: the response of the first category one of whose
    patterns [cmd] includes. *)
Fixpoint first_category (cmd : string) (table : list (list string * LocalReply))
    : option LocalReply :=
  match table with
  | [] => None
  | (patterns, response) :: rest =>
      if existsb (fun pattern => includes pattern cmd) patterns then Some response
      else first_category cmd rest
  end.

(** [getLocalResponse(command)] *)
Definition getLocalResponse (timeText dateText command : string) : LocalReply :=
  let cmd := toLowerCase command in
  match first_category cmd (responses timeText dateText) with
  | Some response => response
  | None =>
      mkReply ("I heard you say " ++ dquote ++ command ++ dquote
               ++ ". Connect to Luna backend for full capabilities, or try asking about time, date, or say "
               ++ dquote ++ "help" ++ dquote ++ ".")
        "unknown"
  end.

(** The voice manager's listener is subscribed, and in Idle no
    conversation is going on. *)
Definition idle_outside_conversation (w : World) : Prop :=
  subscribed (vm w) = true
  /\ (currentState (app w) = Idle -> isInConversation (vm w) = false).

(* ----------------------------------------------------------------- *)
(** *** State changes announced by the backend *)

(** What [window.LunaAPI.onStateChange] holds: [null], as the constructor
    of [LunaAPIClient] leaves it; the handler [LunaEyeApp.initApiConnection]
    installs; or the handler [UIController.connectToApi] puts in its place
    once its WebSocket connection has succeeded. *)
Inductive StateChangeHandler : Type :=
| NoHandler
| AppHandler
| UiHandler.

(** The handler of [LunaEyeApp.initApiConnection]. *)
Definition apiStateChange (state : string) (w : World) : World :=
  if isSpeaking (vm w) then w
  else if String.eqb state "idle" && isInConversation (vm w) then w
  else snd (setState state [] w).

(** The handler of [UIController.connectToApi]:
    [window.AppState.setState(state)]. *)
Definition uiStateChange (state : string) (w : World) : World :=
  snd (setState state [] w).

(** [handleWsMessage] on a message of type 'state.change':
    [if (this.onStateChange) this.onStateChange(message.state.toLowerCase())]. *)
Definition handleStateChangeMessage (h : StateChangeHandler) (state : string)
    (w : World) : World :=
  match h with
  | NoHandler => w
  | AppHandler => apiStateChange (toLowerCase state) w
  | UiHandler => uiStateChange (toLowerCase state) w
  end.

(** The pending listening timeouts. *)
Definition is_listening_timeout (t : Timer) : bool :=
  match t_kind t with KListeningTimeout => true | _ => false end.

Definition listening_timers (w : World) : list Timer :=
  filter is_listening_timeout (timers (env w)).

(** Every pending listening timeout is the one [listeningTimeout] holds,
    a handle given out before. *)
Definition listening_tracked (w : World) : Prop :=
  0 < nextTimer (env w)
  /\ ids_below (nextTimer (env w)) (timers (env w))
  /\ tracked is_listening_timeout (listeningTimeout (vm w)) (timers (env w))
  /\ (forall h, listeningTimeout (vm w) = Some h -> h < nextTimer (env w)).

(* ----------------------------------------------------------------- *)
(** *** Starting detection, await by await, with the audio monitor

    [startWakeWordDetection()] is an async function: between its guards
    and the call of [recognition.start()] it awaits the microphone
    permission, and [startLocalDetection()] runs the first frame of its
    audio monitor as soon as it has set [isListening].  The event loop of
    Part I runs a start to its end in one step, with a quiet microphone;
    here the two halves of a start and the monitor's frame are there one
    by one. *)

Module Audio.

(** [this.speechDetector], as [setupLocalDetection()] builds it. *)
Record SpeechDetector : Type := mkDetector {
  d_isSpeaking : bool;
  speakingStartTime : Z;
  silenceStartTime : Z;
  consecutiveSpeechFrames : nat;
  consecutiveSilenceFrames : nat
}.

Definition setupLocalDetection : SpeechDetector := mkDetector false 0 0 0 0.

(** The commands [onLocalCommandDetected()] draws from. *)
Definition commands : list string := ["hello"; "what time is it"; "help"].

(** [onLocalCommandDetected()].  [draw] is
    [Math.floor(Math.random() * commands.length)]; the callback draws it
    when its timer fires, here it is drawn when the timer is set, nothing
    else depending on it.  The confidence 0.8 is kept in thousandths. *)
Definition onLocalCommandDetected (draw : nat) (w : World) : World :=
  let w := onWakeWordDetected "voice detected" w in
  snd (setTimeout (KDelayedCommand (nth (draw mod 3) commands "hello") 800) 1500 w).

(** [speechDetector.process(volume)].  [isSpeakingNow] is the outcome of
    [volume > threshold], the only use made of the volume. *)
Definition process (isSpeakingNow : bool) (draw : nat)
    (dw : SpeechDetector * World) : SpeechDetector * World :=
  let '(d, w) := dw in
  let now := clock (env w) in
  let '(d, w) :=
    if isSpeakingNow && negb (d_isSpeaking d) then
      (mkDetector true now (silenceStartTime d) (S (consecutiveSpeechFrames d)) 0,
       if state_eqb (currentState (app w)) Idle
       then snd (setState "waking" [] w) else w)
    else if negb isSpeakingNow && d_isSpeaking d then
      let speechDuration := (now - speakingStartTime d)%Z in
      (mkDetector false (speakingStartTime d) now 0 (S (consecutiveSilenceFrames d)),
       if (500 <? speechDuration)%Z && (speechDuration <? 5000)%Z
       then onLocalCommandDetected draw w else w)
    else if isSpeakingNow then
      (mkDetector (d_isSpeaking d) (speakingStartTime d) (silenceStartTime d)
         (S (consecutiveSpeechFrames d)) (consecutiveSilenceFrames d), w)
    else
      (mkDetector (d_isSpeaking d) (speakingStartTime d) (silenceStartTime d)
         (consecutiveSpeechFrames d) (S (consecutiveSilenceFrames d)), w) in
  if (30 <? consecutiveSilenceFrames d)%nat then
    (d, if negb (state_eqb (currentState (app w)) Idle)
        then snd (setState "idle" [] w) else w)
  else (d, w).

(** One frame of [monitorAudio] in [startLocalDetection()]; the next one
    is asked for with [requestAnimationFrame]. *)
Definition monitorAudio (isSpeakingNow : bool) (draw : nat)
    (dw : SpeechDetector * World) : SpeechDetector * World :=
  if negb (isListening (vm (snd dw))) then dw else process isSpeakingNow draw dw.

(** [startLocalDetection()] once [requestMicrophonePermission()] has
    settled with [hasPermission], the audio context being there: the flag
    is set and the first frame of the monitor runs. *)
Definition startLocalDetection (hasPermission isSpeakingNow : bool) (draw : nat)
    (dw : SpeechDetector * World) : SpeechDetector * World :=
  if negb hasPermission then dw
  else monitorAudio isSpeakingNow draw (fst dw, with_vm (vm_isListening true) (snd dw)).

(** A start that awaits the microphone permission, in the branch of
    [startWakeWordDetection()] it has entered. *)
Inductive PendingStart : Type :=
| PendingLocal
| PendingWebSpeech.

(** [startWakeWordDetection()] up to the [await] of
    [requestMicrophonePermission()]: its three guards, the branch on the
    detection mode and, in [startWebSpeechDetection()], the test of
    [this.recognition].  [None] when it returns before awaiting. *)
Definition startWakeWordDetectionBegin (w : World) : option PendingStart :=
  if isPaused (vm w) then None
  else if isListening (vm w) then None
  else if isRestarting (vm w) then None
  else if useLocalDetection (vm w) then Some PendingLocal
  else match recognition (env w) with
       | None => None
       | Some _ => Some PendingWebSpeech
       end.

(** [startWebSpeechDetection()] after the [await]; the result says whether
    it threw. *)
Definition startWebSpeechDetectionResume (hasPermission : bool) (w : World)
    : bool * World :=
  if negb hasPermission then (false, w)
  else
    match recognition (env w) with
    | None => (false, w)
    | Some started =>
        let w := with_out (fun o => out_primaryStarts (S (primaryStarts o)) o) w in
        if started then (false, with_vm (vm_isListening true) w)
        else if startThrows (env w) then (true, w)
        else (false, with_vm (vm_restartAttempts 0)
                       (with_env (env_recognition (Some true)) w))
    end.

(** The rest of [startWakeWordDetection()] once the permission has
    settled, with its [catch]; no guard is tested again.  The detector
    [initLocalDetection()] builds in the [catch] is a new one, and the
    permission [startLocalDetection()] asks for there is the one just
    given. *)
Definition startWakeWordDetectionResume (p : PendingStart)
    (hasPermission isSpeakingNow : bool) (draw : nat)
    (dw : SpeechDetector * World) : SpeechDetector * World :=
  match p with
  | PendingLocal => startLocalDetection hasPermission isSpeakingNow draw dw
  | PendingWebSpeech =>
      let '(threw, w) := startWebSpeechDetectionResume hasPermission (snd dw) in
      if negb threw then (fst dw, w)
      else
        let w := with_vm (fun v => vm_consecutiveErrors (S (consecutiveErrors v)) v) w in
        if (consecutiveErrors (vm w) <? 3)%nat then
          (fst dw, if negb (isRestarting (vm w)) then scheduleRestart 3000 w else w)
        else
          startLocalDetection hasPermission isSpeakingNow draw
            (setupLocalDetection, initLocalDetection w)
  end.

(** [startWakeWordDetection()] run to its end with no other event
    between: the permission settles as the browser's [micGranted] says. *)
Definition startWakeWordDetection (isSpeakingNow : bool) (draw : nat)
    (dw : SpeechDetector * World) : SpeechDetector * World :=
  match startWakeWordDetectionBegin (snd dw) with
  | None => dw
  | Some p =>
      startWakeWordDetectionResume p (micGranted (env (snd dw))) isSpeakingNow draw dw
  end.

(** A detector that a quiet frame only counts on. *)
Definition calm (d : SpeechDetector) : bool :=
  negb (d_isSpeaking d) && (consecutiveSilenceFrames d <? 30)%nat.

End Audio.
(* ================================================================= *)
(** ** Part II.  Theorems                                              *)
(* ================================================================= *)

(* ----------------------------------------------------------------- *)
(** *** Transcript utilities *)

Lemma toLowerCase_app (a b : string) :
  toLowerCase (a ++ b) = toLowerCase a ++ toLowerCase b.
Proof. induction a as [|c a IH]; simpl; [reflexivity | now rewrite IH]. Qed.

Lemma remove_punct_app (a b : string) :
  remove_punct (a ++ b) = remove_punct a ++ remove_punct b.
Proof.
  induction a as [|c a IH]; simpl; [reflexivity|].
  destruct (is_punct c); simpl; now rewrite IH.
Qed.

Lemma collapse_ws_app (b : bool) (s t : string) :
  collapse_ws b (s ++ t) = collapse_ws b s ++ collapse_ws (ends_space b s) t.
Proof.
  revert b; induction s as [|c s IH]; intros b; simpl; [reflexivity|].
  destruct (is_space c); [destruct b|]; simpl; now rewrite IH.
Qed.

Lemma trimEnd_app (s t : string) :
  trimEnd (s ++ t) = if is_empty (trimEnd t) then trimEnd s else s ++ trimEnd t.
Proof.
  induction s as [|c s IH]; simpl.
  - now destruct (trimEnd t).
  - rewrite IH. destruct (trimEnd t) eqn:Ht; simpl; [reflexivity|].
    destruct (s ++ String a s0) eqn:E; [|now rewrite andb_false_r].
    destruct s; discriminate.
Qed.

Lemma trimStart_id (s : string) : starts_space s = false -> trimStart s = s.
Proof. destruct s as [|c s]; simpl; [reflexivity|]. now intros ->. Qed.

Lemma trimEnd_starts_space (s : string) :
  starts_space s = false -> starts_space (trimEnd s) = false.
Proof.
  destruct s as [|c s]; simpl; [reflexivity|]. intros E. rewrite E. exact E.
Qed.

Lemma trimEnd_idem (s : string) : trimEnd (trimEnd s) = trimEnd s.
Proof.
  induction s as [|c s IH]; simpl; [reflexivity|].
  destruct (is_space c && is_empty (trimEnd s)) eqn:E; simpl; [reflexivity|].
  rewrite IH, E. reflexivity.
Qed.

Lemma collapse_ws_in_run_head (s : string) :
  starts_space (collapse_ws true s) = false.
Proof.
  induction s as [|c s IH]; simpl; [reflexivity|].
  destruct (is_space c) eqn:E; simpl; [exact IH | exact E].
Qed.

(** Collapsing from outside a run differs from collapsing inside one by at
    most a leading space. *)
Lemma collapse_ws_head (s : string) :
  collapse_ws false s = collapse_ws true s
  \/ collapse_ws false s = String " " (collapse_ws true s).
Proof.
  destruct s as [|c s]; simpl; [now left|].
  destruct (is_space c); [now right | now left].
Qed.

(** The cleaned transcript is what is left of the collapse inside a run
    once trailing white space is dropped. *)
Lemma cleanTranscript_in_run (t : string) :
  cleanTranscript t = trimEnd (collapse_ws true (remove_punct (toLowerCase t))).
Proof.
  unfold cleanTranscript, trim.
  set (x := remove_punct (toLowerCase t)).
  pose proof (trimEnd_starts_space _ (collapse_ws_in_run_head x)) as Hh.
  destruct (collapse_ws_head x) as [-> | ->].
  - now apply trimStart_id.
  - change (String " " (collapse_ws true x)) with (" " ++ collapse_ws true x).
    rewrite trimEnd_app.
    destruct (trimEnd (collapse_ws true x)) eqn:E; simpl; [reflexivity|].
    simpl in Hh. now rewrite Hh.
Qed.

(** A space before a cleaned transcript is trimmed away again. *)
Lemma trim_space_clean (t : string) :
  trim (String " " (cleanTranscript t)) = cleanTranscript t.
Proof.
  rewrite cleanTranscript_in_run.
  set (y := collapse_ws true (remove_punct (toLowerCase t))).
  pose proof (trimEnd_starts_space _ (collapse_ws_in_run_head _) : starts_space (trimEnd y) = false) as Hh.
  unfold trim. change (String " " (trimEnd y)) with (" " ++ trimEnd y).
  rewrite trimEnd_app, trimEnd_idem.
  destruct (trimEnd y) eqn:E; simpl; [reflexivity|].
  simpl in Hh. now rewrite Hh.
Qed.

(** The alternatives are already in cleaned form. *)
Lemma wake_word_clean (w : string) :
  In w allWakeWords ->
  cleanWakeWord w = w /\ toLowerCase w = w /\ remove_punct w = w
  /\ collapse_ws false w = w /\ ends_space false w = false
  /\ starts_space w = false /\ trimEnd w = w /\ is_empty w = false.
Proof.
  intros H. simpl in H.
  repeat (destruct H as [<- | H]; [repeat split; reflexivity|]).
  contradiction.
Qed.

(** The cleaned form of a wake phrase followed by a space and a command. *)
Lemma cleanTranscript_wake (w cmd : string) :
  In w allWakeWords ->
  cleanTranscript (w ++ String " " cmd)
  = if is_empty (cleanTranscript cmd) then w
    else w ++ String " " (cleanTranscript cmd).
Proof.
  intros Hw. destruct (wake_word_clean w Hw) as (_ & Hl & Hp & Hc & He & Hs & Ht & Hn).
  rewrite (cleanTranscript_in_run cmd).
  unfold cleanTranscript.
  rewrite toLowerCase_app, remove_punct_app, collapse_ws_app, Hl, Hp, Hc, He.
  set (x := remove_punct (toLowerCase cmd)).
  simpl (toLowerCase (String " " cmd)).
  change (lower_char " ") with " "%char.
  simpl (remove_punct _). simpl (collapse_ws false _).
  fold x.
  unfold trim. rewrite trimEnd_app.
  change (String " " (collapse_ws true x)) with (" " ++ collapse_ws true x).
  rewrite trimEnd_app.
  destruct (trimEnd (collapse_ws true x)) eqn:E; simpl (is_empty _); cbv iota.
  - simpl. rewrite Ht. now apply trimStart_id.
  - simpl (is_empty _). cbv iota. apply trimStart_id.
    destruct w; [discriminate|]. exact Hs.
Qed.

Lemma detect_loop_false (ws : list string) (c : string) :
  detect_loop ws c = false ->
  forall w, In w ws -> indexOf (cleanWakeWord w) c = None.
Proof.
  induction ws as [|v ws IH]; simpl; [contradiction|].
  unfold includes. destruct (indexOf (cleanWakeWord v) c) eqn:E; [discriminate|].
  intros H w [<- | Hw]; [exact E | now apply IH].
Qed.

Lemma extract_loop_no_wake (ws : list string) (c : string) :
  detect_loop ws c = false -> extract_loop ws c = c.
Proof.
  induction ws as [|v ws IH]; simpl; [reflexivity|].
  unfold includes. destruct (indexOf (cleanWakeWord v) c); [discriminate | exact IH].
Qed.

Lemma extract_loop_wake (w c : string) :
  In w alternativeWakeWords ->
  detect_loop allWakeWords c = false ->
  trim (String " " c) = c ->
  extract_loop allWakeWords (w ++ String " " c) = c.
Proof.
  intros Hw Hd Ht.
  pose proof (detect_loop_false _ _ Hd) as Hi.
  assert (H1 : indexOf "hey luna" c = None) by (apply (Hi "hey luna"); simpl; tauto).
  assert (H2 : indexOf "luna" c = None) by (apply (Hi "luna"); simpl; tauto).
  assert (H3 : indexOf "ok luna" c = None) by (apply (Hi "ok luna"); simpl; tauto).
  assert (H4 : indexOf "luda" c = None) by (apply (Hi "luda"); simpl; tauto).
  assert (H5 : indexOf "hey luda" c = None) by (apply (Hi "hey luda"); simpl; tauto).
  assert (H6 : indexOf "ok luda" c = None) by (apply (Hi "ok luda"); simpl; tauto).
  clear Hi Hd.
  unfold allWakeWords, wakeWord. simpl in Hw.
  destruct Hw as [<- | [<- | [<- | [<- | [<- | [<- | []]]]]]];
    unfold alternativeWakeWords; cbn [extract_loop];
    change (cleanWakeWord "hey luna") with "hey luna";
    change (cleanWakeWord "luna") with "luna";
    change (cleanWakeWord "ok luna") with "ok luna";
    change (cleanWakeWord "luda") with "luda";
    change (cleanWakeWord "hey luda") with "hey luda";
    change (cleanWakeWord "ok luda") with "ok luda";
    simpl; rewrite ?H1, ?H2, ?H3, ?H4, ?H5, ?H6; simpl; exact Ht.
Qed.

(** C10.  When [detectWakeWord] finds no wake-word alternative in the
    transcript, [extractCommandFromTranscript] returns the whole transcript
    in cleaned form (lower case, the characters .,!? removed, white space
    collapsed and trimmed); in particular it returns the empty string only
    when the cleaned transcript is empty, so it gives no sign that the wake
    word was absent. *)
Theorem extract_without_wake_word (transcript : string) :
  detectWakeWord transcript = false ->
  extractCommandFromTranscript transcript
  = trim (collapse_ws false (remove_punct (toLowerCase transcript)))
  /\ (cleanTranscript transcript <> "" ->
      extractCommandFromTranscript transcript <> "").
Proof.
  unfold detectWakeWord, extractCommandFromTranscript. intros H.
  rewrite (extract_loop_no_wake _ _ H). split; [reflexivity | auto].
Qed.

Lemma extract_without_wake_word_witness :
  extractCommandFromTranscript "  Turn the   lights ON, please!  "
  = "turn the lights on please".
Proof.
  apply (proj1 (extract_without_wake_word "  Turn the   lights ON, please!  " eq_refl)).
Defined.

(** C7, as the code has it.  For every wake-phrase alternative [w] and
    every command [cmd] in which [detectWakeWord] finds no wake word,
    [extractCommandFromTranscript (w + " " + cmd)] is [cmd] in cleaned form:
    lower case, without the characters .,!?, with white space collapsed and
    trimmed. *)
Theorem extract_roundtrip_clean (w cmd : string) :
  In w alternativeWakeWords ->
  detectWakeWord cmd = false ->
  extractCommandFromTranscript (w ++ " " ++ cmd) = cleanTranscript cmd.
Proof.
  intros Hw Hd.
  assert (Hw' : In w allWakeWords) by (right; exact Hw).
  unfold extractCommandFromTranscript.
  change (w ++ " " ++ cmd) with (w ++ String " " cmd).
  rewrite (cleanTranscript_wake w cmd Hw').
  destruct (cleanTranscript cmd) eqn:E; simpl (is_empty _); cbv iota.
  - clear - Hw. simpl in Hw.
    destruct Hw as [<- | [<- | [<- | [<- | [<- | [<- | []]]]]]]; reflexivity.
  - rewrite <- E. apply extract_loop_wake; [exact Hw | exact Hd |].
    apply trim_space_clean.
Qed.

Lemma extract_roundtrip_clean_witness :
  extractCommandFromTranscript ("ok luna" ++ " " ++ "What time is it?")
  = "what time is it".
Proof.
  apply (extract_roundtrip_clean "ok luna" "What time is it?").
  - simpl. tauto.
  - reflexivity.
Defined.

(** C7 as stated fails: the command does not come back trimmed but in
    cleaned form, and a command that itself holds a wake word is cut at
    that word. *)
Lemma extract_roundtrip_trimmed_fails :
  In "hey luna" alternativeWakeWords
  /\ extractCommandFromTranscript ("hey luna" ++ " " ++ "What time is it?")
     <> trim "What time is it?"
  /\ In "ok luda" alternativeWakeWords
  /\ extractCommandFromTranscript ("ok luda" ++ " " ++ "call luna")
     <> trim "call luna".
Proof.
  repeat split; try (simpl; tauto); vm_compute; discriminate.
Qed.

(* ----------------------------------------------------------------- *)
(** *** Preservation of the event-loop invariants *)

Create HintDb luna.

(** Facts about the queue as a list. *)
Section Queue.

Variable f : Timer -> bool.

Lemma filter_none {A : Type} (g : A -> bool) (l : list A) :
  (forall x, In x l -> g x = false) -> filter g l = [].
Proof.
  induction l as [|a l IH]; simpl; [reflexivity|]. intros H.
  rewrite (H a (or_introl eq_refl)). apply IH. intros x Hx. apply H. now right.
Qed.

Lemma filter_none_in {A : Type} (g : A -> bool) (l : list A) (x : A) :
  filter g l = [] -> In x l -> g x = false.
Proof.
  intros E Hin. destruct (g x) eqn:Hg; [|reflexivity].
  assert (In x (filter g l)) as H by (apply filter_In; tauto).
  rewrite E in H. contradiction.
Qed.

Lemma ids_below_without (n : nat) (id : TimerId) (l : list Timer) :
  ids_below n l -> ids_below n (without id l).
Proof. intros H t Hin. apply H. apply filter_In in Hin. tauto. Qed.

Lemma ids_below_new (n : nat) (d : Z) (k : TimerKind) (l : list Timer) :
  0 < n -> ids_below n l -> ids_below (S n) (l ++ [mkTimer n d k]).
Proof.
  intros Hn H t Hin. apply in_app_or in Hin. destruct Hin as [Hin | [<- | []]].
  - apply H in Hin. lia.
  - simpl. lia.
Qed.

Lemma nodup_without (id : TimerId) (l : list Timer) :
  NoDup (map t_id l) -> NoDup (map t_id (without id l)).
Proof.
  unfold without. induction l as [|t l IH]; simpl; [constructor|].
  intros Hnd. inversion Hnd as [|? ? Hn Hnd']; subst.
  destruct (negb (Nat.eqb (t_id t) id)); simpl; [|now apply IH].
  constructor; [|now apply IH].
  intros Hin. apply Hn. apply in_map_iff in Hin. destruct Hin as (x & Hx & Hin).
  apply filter_In in Hin. apply in_map_iff. exists x. tauto.
Qed.

Lemma nodup_new (n : nat) (d : Z) (k : TimerKind) (l : list Timer) :
  ids_below n l -> NoDup (map t_id l) -> NoDup (map t_id (l ++ [mkTimer n d k])).
Proof.
  intros Hb Hnd. rewrite map_app. simpl.
  apply NoDup_app_remove_l with (l := []). simpl.
  apply NoDup_Add with (a := n) (l := map t_id l).
  - clear. induction (map t_id l) as [|x l' IH]; simpl; constructor. exact IH.
  - split; [exact Hnd|].
    intros Hin. apply in_map_iff in Hin. destruct Hin as (t & Ht & Hin).
    apply Hb in Hin. lia.
Qed.

Lemma tracked_without (h : option TimerId) (id : TimerId) (l : list Timer) :
  tracked f h l -> tracked f h (without id l).
Proof. intros H t Hin. apply H. apply filter_In in Hin. tauto. Qed.

Lemma tracked_none (h : option TimerId) (l : list Timer) :
  filter f l = [] -> tracked f h l.
Proof.
  intros E t Hin Hf. rewrite (filter_none_in f l t E Hin) in Hf. discriminate.
Qed.

Lemma tracked_other (h : option TimerId) (l : list Timer) (t : Timer) :
  tracked f h l -> f t = false -> tracked f h (l ++ [t]).
Proof.
  intros H Hf x Hin Hx. apply in_app_or in Hin. destruct Hin as [Hin | [<- | []]].
  - now apply H.
  - congruence.
Qed.

Lemma tracked_new (n : nat) (d : Z) (k : TimerKind) (l : list Timer) :
  filter f l = [] -> tracked f (Some n) (l ++ [mkTimer n d k]).
Proof.
  intros E x Hin Hx. apply in_app_or in Hin. destruct Hin as [Hin | [<- | []]].
  - rewrite (filter_none_in f l x E Hin) in Hx. discriminate.
  - reflexivity.
Qed.

(** Clearing the tracked handle leaves no timer of the kind. *)
Lemma tracked_cleared (n : nat) (h : option TimerId) (l : list Timer) :
  ids_below n l -> tracked f h l ->
  filter f (match h with Some (S k) => without (S k) l | _ => l end) = [].
Proof.
  intros Hb Ht. apply filter_none. intros t Hin.
  destruct (f t) eqn:Hf; [exfalso | reflexivity].
  destruct h as [[|k]|].
  - pose proof (Ht t Hin Hf) as E. injection E as E. apply Hb in Hin. lia.
  - apply filter_In in Hin. destruct Hin as [Hin Hne].
    pose proof (Ht t Hin Hf) as E. injection E as E.
    rewrite <- E, Nat.eqb_refl in Hne. discriminate.
  - pose proof (Ht t Hin Hf). discriminate.
Qed.

(** At most one timer of a tracked kind is pending. *)
Lemma tracked_le_1 (h : option TimerId) (l : list Timer) :
  NoDup (map t_id l) -> tracked f h l -> List.length (filter f l) <= 1.
Proof.
  induction l as [|t l IH]; intros Hnd Htr; simpl; [lia|].
  inversion Hnd as [|? ? Hn Hnd']; subst.
  destruct (f t) eqn:Hr.
  - simpl. rewrite filter_none; [simpl; lia|].
    intros x Hx. destruct (f x) eqn:Hrx; [exfalso | reflexivity].
    apply Hn. apply in_map_iff. exists x. split; [|exact Hx].
    pose proof (Htr t (or_introl eq_refl) Hr) as E.
    pose proof (Htr x (or_intror Hx) Hrx) as E'. congruence.
  - apply (IH Hnd'). intros x Hx. apply Htr. now right.
Qed.

End Queue.

(** The nine parts of the invariant, one goal each. *)
Ltac inv_split :=
  split; [split; [|split] | split; [split | split; [|split; [|split]]]].

Section Preservation.

Variables (local : bool) (n : nat).

(** The invariants read seven fields only. *)
Lemma invariant_same (w w' : World) :
  timers (env w') = timers (env w) ->
  nextTimer (env w') = nextTimer (env w) ->
  pendingRestart (vm w') = pendingRestart (vm w) ->
  conversationTimeout (vm w') = conversationTimeout (vm w) ->
  stateHistory (app w') = stateHistory (app w) ->
  useLocalDetection (vm w') = useLocalDetection (vm w) ->
  primaryStarts (out w') = primaryStarts (out w) ->
  invariant local n w -> invariant local n w'.
Proof.
  unfold invariant, timers_fresh, handles_fresh, restart_tracked,
    conversation_tracked, history_bounded, local_mode.
  intros -> -> -> -> -> -> ->. trivial.
Qed.

(** The invariants on the fields themselves. *)
Lemma invariant_fields (w : World) :
  invariant local n w <->
  (0 < nextTimer (env w) /\ ids_below (nextTimer (env w)) (timers (env w))
   /\ NoDup (map t_id (timers (env w))))
  /\ ((forall h, pendingRestart (vm w) = Some h -> h < nextTimer (env w))
      /\ (forall h, conversationTimeout (vm w) = Some h -> h < nextTimer (env w)))
  /\ tracked is_restart (pendingRestart (vm w)) (timers (env w))
  /\ tracked is_conversation (conversationTimeout (vm w)) (timers (env w))
  /\ List.length (stateHistory (app w)) <= 50
  /\ (local = true -> useLocalDetection (vm w) = true /\ primaryStarts (out w) = n).
Proof. reflexivity. Qed.

Lemma setTimeout_pair (k : TimerKind) (d : Z) (w : World) :
  setTimeout k d w = (nextTimer (env w), snd (setTimeout k d w)).
Proof. reflexivity. Qed.

Lemma clearTimeout_inv (id : TimerId) (w : World) :
  invariant local n w -> invariant local n (clearTimeout id w).
Proof.
  rewrite !invariant_fields. destruct w as [a v e o]; simpl.
  fold (without id (timers e)).
  intros ((Hpos & Hfr & Hnd) & (Hh1 & Hh2) & Htr & Hct & Hb & Hl).
  inv_split; try assumption.
  - now apply ids_below_without.
  - now apply nodup_without.
  - now apply tracked_without.
  - now apply tracked_without.
Qed.

Lemma setTimeout_inv (k : TimerKind) (d : Z) (w : World) :
  k <> KRestart -> k <> KConversationTimeout ->
  invariant local n w -> invariant local n (snd (setTimeout k d w)).
Proof.
  rewrite !invariant_fields. destruct w as [a v e o]; simpl.
  intros Hk Hk' ((Hpos & Hfr & Hnd) & (Hh1 & Hh2) & Htr & Hct & Hb & Hl).
  inv_split; try assumption; try lia.
  - now apply ids_below_new.
  - now apply nodup_new with (n := nextTimer e).
  - intros h Hh. apply Hh1 in Hh. lia.
  - intros h Hh. apply Hh2 in Hh. lia.
  - apply tracked_other; [exact Htr|]. unfold is_restart. simpl. now destruct k.
  - apply tracked_other; [exact Hct|]. unfold is_conversation. simpl. now destruct k.
Qed.

(** After the cancel-if-pending step no scheduled restart is left. *)
Lemma cancelPendingRestart_none (w : World) :
  invariant local n w -> restart_timers (cancelPendingRestart w) = [].
Proof.
  rewrite invariant_fields. intros ((Hpos & Hfr & Hnd) & _ & Htr & _).
  pose proof (tracked_cleared _ _ _ _ Hfr Htr) as E.
  unfold restart_timers, cancelPendingRestart.
  destruct w as [a v e o]; simpl in *.
  destruct (pendingRestart v) as [[|h]|]; exact E.
Qed.

Lemma cancelPendingRestart_inv (w : World) :
  invariant local n w -> invariant local n (cancelPendingRestart w).
Proof.
  intros H. pose proof (cancelPendingRestart_none w H) as Hnone.
  unfold cancelPendingRestart in *.
  destruct (pendingRestart (vm w)) as [[|h]|]; try exact H.
  apply (clearTimeout_inv (S h)) in H.
  revert H Hnone. generalize (clearTimeout (S h) w). intros w'.
  rewrite !invariant_fields. unfold restart_timers.
  destruct w' as [a v e o]; simpl.
  intros ((Hpos & Hfr & Hnd) & (Hh1 & Hh2) & Htr & Hct & Hb & Hl) Hnone.
  inv_split; try assumption.
  - discriminate.
  - now apply tracked_none.
Qed.

(** [scheduleRestart] leaves exactly the restart it schedules, and none
    when recognition is paused. *)
Lemma scheduleRestart_timers (delay : Z) (w : World) :
  invariant local n w ->
  restart_timers (scheduleRestart delay w)
  = if isPaused (vm w) then []
    else [mkTimer (nextTimer (env w)) delay KRestart].
Proof.
  intros H. pose proof (cancelPendingRestart_none w H) as Hnone.
  unfold scheduleRestart.
  assert (Ep : isPaused (vm (cancelPendingRestart w)) = isPaused (vm w)).
  { unfold cancelPendingRestart. now destruct (pendingRestart (vm w)) as [[|h]|]. }
  assert (En : nextTimer (env (cancelPendingRestart w)) = nextTimer (env w)).
  { unfold cancelPendingRestart. now destruct (pendingRestart (vm w)) as [[|h]|]. }
  rewrite Ep. destruct (isPaused (vm w)); [exact Hnone|].
  rewrite <- En. revert Hnone. generalize (cancelPendingRestart w). intros w'.
  unfold restart_timers. destruct w' as [a v e o]; simpl.
  intros Hnone. rewrite filter_app, Hnone. reflexivity.
Qed.

Lemma scheduleRestart_inv (delay : Z) (w : World) :
  invariant local n w -> invariant local n (scheduleRestart delay w).
Proof.
  intros H. pose proof (cancelPendingRestart_none w H) as Hnone.
  apply cancelPendingRestart_inv in H.
  unfold scheduleRestart in *.
  destruct (isPaused (vm (cancelPendingRestart w))); [exact H|].
  revert H Hnone. generalize (cancelPendingRestart w). intros w'.
  rewrite !invariant_fields. unfold restart_timers.
  destruct w' as [a v e o]; simpl.
  intros ((Hpos & Hfr & Hnd) & (Hh1 & Hh2) & Htr & Hct & Hb & Hl) Hnone.
  inv_split; try assumption; try lia.
  - now apply ids_below_new.
  - now apply nodup_new with (n := nextTimer e).
  - intros h Hh. injection Hh as <-. lia.
  - intros h Hh. apply Hh2 in Hh. lia.
  - now apply tracked_new.
  - apply tracked_other; [exact Hct | reflexivity].
Qed.

(** The same for the conversation timeout. *)
Lemma clearConversationTimeout_none (w : World) :
  invariant local n w -> conversation_timers (clearConversationTimeout w) = [].
Proof.
  rewrite invariant_fields. intros ((Hpos & Hfr & Hnd) & _ & _ & Hct & _).
  pose proof (tracked_cleared _ _ _ _ Hfr Hct) as E.
  unfold conversation_timers, clearConversationTimeout.
  destruct w as [a v e o]; simpl in *.
  destruct (conversationTimeout v) as [[|h]|]; exact E.
Qed.

Lemma clearConversationTimeout_inv (w : World) :
  invariant local n w -> invariant local n (clearConversationTimeout w).
Proof.
  intros H. pose proof (clearConversationTimeout_none w H) as Hnone.
  unfold clearConversationTimeout in *.
  destruct (conversationTimeout (vm w)) as [[|h]|]; try exact H.
  apply (clearTimeout_inv (S h)) in H.
  revert H Hnone. generalize (clearTimeout (S h) w). intros w'.
  rewrite !invariant_fields. unfold conversation_timers.
  destruct w' as [a v e o]; simpl.
  intros ((Hpos & Hfr & Hnd) & (Hh1 & Hh2) & Htr & Hct & Hb & Hl) Hnone.
  inv_split; try assumption.
  - discriminate.
  - now apply tracked_none.
Qed.

Lemma startConversationTimeout_timers (w : World) :
  invariant local n w ->
  conversation_timers (startConversationTimeout w)
  = [mkTimer (nextTimer (env w)) conversationTimeoutDuration KConversationTimeout].
Proof.
  intros H. pose proof (clearConversationTimeout_none w H) as Hnone.
  unfold startConversationTimeout.
  assert (En : nextTimer (env (clearConversationTimeout w)) = nextTimer (env w)).
  { unfold clearConversationTimeout. now destruct (conversationTimeout (vm w)) as [[|h]|]. }
  rewrite <- En. revert Hnone. generalize (clearConversationTimeout w). intros w'.
  unfold conversation_timers. destruct w' as [a v e o]; simpl.
  intros Hnone. rewrite filter_app, Hnone. reflexivity.
Qed.

Lemma startConversationTimeout_inv (w : World) :
  invariant local n w -> invariant local n (startConversationTimeout w).
Proof.
  intros H. pose proof (clearConversationTimeout_none w H) as Hnone.
  apply clearConversationTimeout_inv in H.
  unfold startConversationTimeout in *.
  revert H Hnone. generalize (clearConversationTimeout w). intros w'.
  rewrite !invariant_fields. unfold conversation_timers.
  destruct w' as [a v e o]; simpl.
  intros ((Hpos & Hfr & Hnd) & (Hh1 & Hh2) & Htr & Hct & Hb & Hl) Hnone.
  inv_split; try assumption; try lia.
  - now apply ids_below_new.
  - now apply nodup_new with (n := nextTimer e).
  - intros h Hh. apply Hh1 in Hh. lia.
  - intros h Hh. injection Hh as <-. lia.
  - apply tracked_other; [exact Htr | reflexivity].
  - now apply tracked_new.
Qed.

(** A step that leaves the seven fields alone. *)
Ltac frame w :=
  apply (invariant_same w);
  [reflexivity | reflexivity | reflexivity | reflexivity | reflexivity
  | reflexivity | reflexivity | ].

(** One step through the body of a function: a field update, a timer set
    and bound by [let], a test. *)
Ltac inv_case :=
  lazymatch goal with
  | |- invariant _ _ (with_vm _ ?w) => frame w
  | |- invariant _ _ (with_env _ ?w) => frame w
  | |- invariant _ _ (with_out _ ?w) => frame w
  | |- invariant _ _ (match setTimeout ?k ?d ?w with _ => _ end) =>
      rewrite (setTimeout_pair k d w); cbv beta iota
  | |- invariant _ _ (snd (setTimeout _ _ _)) =>
      apply setTimeout_inv; [discriminate | discriminate |]
  | |- invariant _ _ (if ?c then _ else _) => destruct c eqn:?
  | |- invariant _ _ (match ?x with _ => _ end) => destruct x eqn:?
  end.

#[local] Hint Extern 1 (invariant _ _ _) => inv_case : luna.
#[local] Hint Resolve clearTimeout_inv cancelPendingRestart_inv scheduleRestart_inv
  clearConversationTimeout_inv startConversationTimeout_inv : luna.

Ltac inv_auto := intros; auto 80 with luna.

Lemma initLocalDetection_inv (w : World) :
  invariant local n w -> invariant local n (initLocalDetection w).
Proof.
  unfold initLocalDetection. rewrite !invariant_fields.
  destruct w as [a v e o]; simpl. intuition.
Qed.

Lemma useLocalDetection_inv (w : World) :
  invariant local n w -> invariant local n (with_vm (vm_useLocalDetection true) w).
Proof. exact (initLocalDetection_inv w). Qed.

#[local] Hint Resolve initLocalDetection_inv useLocalDetection_inv : luna.

Lemma startLocalDetection_inv (w : World) :
  invariant local n w -> invariant local n (startLocalDetection w).
Proof. unfold startLocalDetection. inv_auto. Qed.

#[local] Hint Resolve startLocalDetection_inv : luna.

(** Outside local mode the count of [recognition.start()] calls is free. *)
Lemma invariant_primary (w w' : World) :
  useLocalDetection (vm w) = false ->
  timers (env w') = timers (env w) ->
  nextTimer (env w') = nextTimer (env w) ->
  pendingRestart (vm w') = pendingRestart (vm w) ->
  conversationTimeout (vm w') = conversationTimeout (vm w) ->
  stateHistory (app w') = stateHistory (app w) ->
  invariant local n w -> invariant local n w'.
Proof.
  rewrite !invariant_fields.
  intros Hu -> -> -> -> -> (Hf & Hh & Ht & Hc & Hb & Hl).
  repeat (split; [assumption|]).
  intros L. destruct (Hl L) as [E _]. congruence.
Qed.

Lemma startWebSpeechDetection_inv (w : World) :
  useLocalDetection (vm w) = false ->
  invariant local n w ->
  invariant local n (snd (startWebSpeechDetection w))
  /\ useLocalDetection (vm (snd (startWebSpeechDetection w))) = false.
Proof.
  intros Hu H. unfold startWebSpeechDetection.
  destruct (recognition (env w)) as [[|]|]; simpl; [| |tauto];
    destruct (micGranted (env w)); simpl; try tauto;
    try destruct (startThrows (env w)); simpl; split; trivial;
    apply (invariant_primary w); trivial.
Qed.

Lemma startWakeWordDetection_inv (w : World) :
  invariant local n w -> invariant local n (startWakeWordDetection w).
Proof.
  intros H. unfold startWakeWordDetection.
  destruct (isPaused (vm w)); [exact H|].
  destruct (isListening (vm w)); [exact H|].
  destruct (isRestarting (vm w)); [exact H|].
  destruct (useLocalDetection (vm w)) eqn:Hu; [inv_auto|].
  destruct (startWebSpeechDetection_inv w Hu H) as [H' Hu'].
  destruct (startWebSpeechDetection w) as [threw w']; simpl in *.
  destruct threw; simpl; [|exact H']. inv_auto.
Qed.

#[local] Hint Resolve startWakeWordDetection_inv : luna.

Lemma forceRestartRecognition_inv (k : AfterForce) (w : World) :
  invariant local n w -> invariant local n (snd (forceRestartRecognition k w)).
Proof. unfold forceRestartRecognition. inv_auto. Qed.

Lemma onStateChange_inv (s p : AssistantState) (w : World) :
  invariant local n w -> invariant local n (onStateChange s p w).
Proof. unfold onStateChange. inv_auto. Qed.

#[local] Hint Resolve forceRestartRecognition_inv onStateChange_inv : luna.

Lemma notifyListeners_inv (s p : AssistantState) (c : Context) (w : World) :
  invariant local n w -> invariant local n (notifyListeners s p c w).
Proof. unfold notifyListeners. inv_auto. Qed.

#[local] Hint Resolve notifyListeners_inv : luna.

(** The history may change as long as it stays within its bound. *)
Lemma invariant_history (w w' : World) :
  timers (env w') = timers (env w) ->
  nextTimer (env w') = nextTimer (env w) ->
  pendingRestart (vm w') = pendingRestart (vm w) ->
  useLocalDetection (vm w') = useLocalDetection (vm w) ->
  conversationTimeout (vm w') = conversationTimeout (vm w) ->
  primaryStarts (out w') = primaryStarts (out w) ->
  List.length (stateHistory (app w')) <= 50 ->
  invariant local n w -> invariant local n w'.
Proof.
  rewrite !invariant_fields.
  intros -> -> -> -> -> -> Hlen (Hf & Hh & Ht & Hc & Hb & Hl). tauto.
Qed.

Lemma setState_inv (newState : string) (context : Context) (w : World) :
  invariant local n w -> invariant local n (snd (setState newState context w)).
Proof.
  intros H. unfold setState.
  destruct (negb (isValidState newState)); [exact H|].
  destruct (state_of_name newState) as [target|]; [|exact H].
  destruct (state_eqb (currentState (app w)) target); [exact H|].
  cbv zeta. cbn [snd].
  apply setTimeout_inv; [discriminate | discriminate |]. apply notifyListeners_inv.
  assert (Hh : List.length (stateHistory (app w)) <= 50) by apply H.
  match goal with |- context [if ?c then _ else _] => destruct c eqn:E end;
    (apply (invariant_history w); [reflexivity..| | exact H]);
    simpl in *; rewrite ?length_app in *; simpl in *.
  - destruct (stateHistory (app w)); simpl in *; [lia|].
    rewrite length_app. simpl. lia.
  - apply Nat.ltb_ge in E. lia.
Qed.

#[local] Hint Resolve setState_inv : luna.

Lemma getStateDuration_inv (w : World) :
  invariant local n w -> invariant local n (snd (getStateDuration w)).
Proof.
  intros H. unfold getStateDuration.
  match goal with |- context [match ?x with _ => _ end] => destruct x end; simpl;
    (apply (invariant_history w); [reflexivity..| | exact H]);
    simpl; rewrite length_rev; apply H.
Qed.

Lemma clearListeningTimeout_inv (w : World) :
  invariant local n w -> invariant local n (clearListeningTimeout w).
Proof. unfold clearListeningTimeout. inv_auto. Qed.

#[local] Hint Resolve getStateDuration_inv clearListeningTimeout_inv : luna.

Lemma startListeningTimeout_inv (w : World) :
  invariant local n w -> invariant local n (startListeningTimeout w).
Proof. unfold startListeningTimeout. inv_auto. Qed.

Lemma resolvePromise_inv (p : nat) (w : World) :
  invariant local n w -> invariant local n (resolvePromise p w).
Proof.
  unfold resolvePromise. intros H. apply (invariant_same w); trivial.
  simpl. now destruct (existsb (Nat.eqb p) (resolvedSpeech (out w))).
Qed.

Lemma synthesisCancel_inv (w : World) :
  invariant local n w -> invariant local n (synthesisCancel w).
Proof. unfold synthesisCancel. inv_auto. Qed.

#[local] Hint Resolve startListeningTimeout_inv resolvePromise_inv
  synthesisCancel_inv : luna.

Lemma speak_inv (text : string) (w : World) :
  invariant local n w -> invariant local n (snd (speak text w)).
Proof. unfold speak. intros H. cbv zeta. destruct (synthesis _); simpl; inv_auto. Qed.

Lemma onUtteranceEnd_inv (p : nat) (w : World) :
  invariant local n w -> invariant local n (onUtteranceEnd p w).
Proof. unfold onUtteranceEnd. inv_auto. Qed.

#[local] Hint Resolve speak_inv onUtteranceEnd_inv : luna.

Lemma interruptSpeaking_inv (w : World) :
  invariant local n w -> invariant local n (snd (interruptSpeaking w)).
Proof. unfold interruptSpeaking. inv_auto. Qed.

Lemma interruptResume_inv (w : World) :
  invariant local n w -> invariant local n (interruptResume w).
Proof. unfold interruptResume. inv_auto. Qed.

#[local] Hint Resolve interruptSpeaking_inv interruptResume_inv : luna.

Lemma onCommandReceived_inv (t : string) (c : Z) (w : World) :
  invariant local n w -> invariant local n (onCommandReceived t c w).
Proof. unfold onCommandReceived. inv_auto. Qed.

Lemma onCommandResponse_inv (t x : string) (w : World) :
  invariant local n w -> invariant local n (onCommandResponse t x w).
Proof. unfold onCommandResponse. inv_auto. Qed.

Lemma onSpeakSettled_inv (w : World) :
  invariant local n w -> invariant local n (onSpeakSettled w).
Proof. unfold onSpeakSettled. inv_auto. Qed.

Lemma finishConversationTurn_inv (w : World) :
  invariant local n w -> invariant local n (finishConversationTurn w).
Proof. unfold finishConversationTurn. inv_auto. Qed.

#[local] Hint Resolve onCommandReceived_inv onCommandResponse_inv
  onSpeakSettled_inv finishConversationTurn_inv : luna.

Lemma postTts_inv (w : World) :
  invariant local n w -> invariant local n (postTts w).
Proof. unfold postTts. inv_auto. Qed.

Lemma forceRestartResume_inv (k : AfterForce) (w : World) :
  invariant local n w -> invariant local n (forceRestartResume k w).
Proof. unfold forceRestartResume. inv_auto. Qed.

Lemma onCommandFailed_inv (m : string) (w : World) :
  invariant local n w -> invariant local n (onCommandFailed m w).
Proof. unfold onCommandFailed. inv_auto. Qed.

Lemma errorRecovery_inv (w : World) :
  invariant local n w -> invariant local n (errorRecovery w).
Proof. unfold errorRecovery. inv_auto. Qed.

Lemma handleLateResponse_inv (t : string) (w : World) :
  invariant local n w -> invariant local n (handleLateResponse t w).
Proof. unfold handleLateResponse. inv_auto. Qed.

Lemma lateResponseSpoken_inv (w : World) :
  invariant local n w -> invariant local n (lateResponseSpoken w).
Proof. unfold lateResponseSpoken. inv_auto. Qed.

Lemma onWakeWordDetected_inv (t : string) (w : World) :
  invariant local n w -> invariant local n (onWakeWordDetected t w).
Proof. unfold onWakeWordDetected. inv_auto. Qed.

Lemma delayedListening_inv (s : string) (w : World) :
  invariant local n w -> invariant local n (delayedListening s w).
Proof. unfold delayedListening. inv_auto. Qed.

Lemma onInterimResult_inv (t : string) (w : World) :
  invariant local n w -> invariant local n (onInterimResult t w).
Proof. unfold onInterimResult. inv_auto. Qed.

#[local] Hint Resolve postTts_inv forceRestartResume_inv onCommandFailed_inv
  errorRecovery_inv handleLateResponse_inv lateResponseSpoken_inv
  onWakeWordDetected_inv delayedListening_inv onInterimResult_inv : luna.

Lemma handleRecognitionResult_inv (t : string) (c : Z) (f : bool) (w : World) :
  invariant local n w -> invariant local n (handleRecognitionResult t c f w).
Proof. unfold handleRecognitionResult. inv_auto. Qed.

Lemma onRecognitionStart_inv (w : World) :
  invariant local n w -> invariant local n (onRecognitionStart w).
Proof. unfold onRecognitionStart. inv_auto. Qed.

Lemma onRecognitionEnd_inv (w : World) :
  invariant local n w -> invariant local n (onRecognitionEnd w).
Proof. unfold onRecognitionEnd. inv_auto. Qed.

Lemma onRecognitionError_inv (e : string) (w : World) :
  invariant local n w -> invariant local n (onRecognitionError e w).
Proof. unfold onRecognitionError. inv_auto. Qed.

Lemma onSpeechStart_inv (w : World) :
  invariant local n w -> invariant local n (onSpeechStart w).
Proof. unfold onSpeechStart. inv_auto. Qed.

Lemma stopWakeWordDetection_inv (w : World) :
  invariant local n w -> invariant local n (stopWakeWordDetection w).
Proof. unfold stopWakeWordDetection. inv_auto. Qed.

Lemma resumeWakeWordDetection_inv (w : World) :
  invariant local n w -> invariant local n (resumeWakeWordDetection w).
Proof. unfold resumeWakeWordDetection. inv_auto. Qed.

#[local] Hint Resolve handleRecognitionResult_inv onRecognitionStart_inv
  onRecognitionEnd_inv onRecognitionError_inv onSpeechStart_inv
  stopWakeWordDetection_inv resumeWakeWordDetection_inv : luna.

Lemma listeningTimeoutCallback_inv (w : World) :
  invariant local n w -> invariant local n (listeningTimeoutCallback w).
Proof. unfold listeningTimeoutCallback. inv_auto. Qed.

Lemma conversationTimeoutCallback_inv (w : World) :
  invariant local n w -> invariant local n (conversationTimeoutCallback w).
Proof. unfold conversationTimeoutCallback. inv_auto. Qed.

Lemma stateSyncListening_inv (w : World) :
  invariant local n w -> invariant local n (stateSyncListening w).
Proof. unfold stateSyncListening. inv_auto. Qed.

Lemma executeTransitionCallbacks_inv (p : string) (f : option AssistantState)
    (t : AssistantState) (c : Context) (w : World) :
  invariant local n w -> invariant local n (executeTransitionCallbacks p f t c w).
Proof. unfold executeTransitionCallbacks. inv_auto. Qed.

#[local] Hint Resolve listeningTimeoutCallback_inv conversationTimeoutCallback_inv
  stateSyncListening_inv executeTransitionCallbacks_inv : luna.

Lemma find_timer_some (id : TimerId) (w : World) (t : Timer) :
  find_timer id w = Some t -> In t (timers (env w)) /\ t_id t = id.
Proof.
  unfold find_timer. intros H. apply find_some in H.
  destruct H as [Hin He]. apply Nat.eqb_eq in He. tauto.
Qed.

(** When the pending restart fires, no scheduled restart is left. *)
Lemma fired_restart_none (id : TimerId) (w : World) (t : Timer) :
  invariant local n w -> find_timer id w = Some t -> is_restart t = true ->
  restart_timers (clearTimeout id w) = [].
Proof.
  rewrite invariant_fields. intros (_ & _ & Htr & _) Hf Hr.
  apply find_timer_some in Hf. destruct Hf as [Hin <-].
  unfold restart_timers. apply filter_none. intros t' Hin'.
  destruct (is_restart t') eqn:Hr'; [exfalso | reflexivity].
  destruct w as [a v e o]; simpl in *.
  apply filter_In in Hin'. destruct Hin' as [Hin' Hne].
  pose proof (Htr t Hin Hr) as E. pose proof (Htr t' Hin' Hr') as E'.
  assert (E2 : t_id t' = t_id t) by congruence.
  rewrite E2, Nat.eqb_refl in Hne. discriminate.
Qed.

Lemma restartCallback_inv (w : World) :
  invariant local n w -> restart_timers w = [] ->
  invariant local n (restartCallback w).
Proof.
  intros H Hnone. unfold restartCallback.
  assert (H' : invariant local n (with_vm (vm_pendingRestart None) w)).
  { revert H Hnone. rewrite !invariant_fields. unfold restart_timers.
    destruct w as [a v e o]; simpl.
    intros ((Hpos & Hfr & Hnd) & (Hh1 & Hh2) & Htr & Hct & Hb & Hl) Hnone.
    inv_split; try assumption.
    - discriminate.
    - now apply tracked_none. }
  revert H'. generalize (with_vm (vm_pendingRestart None) w). inv_auto.
Qed.

Lemma fireTimer_inv (id : TimerId) (w : World) :
  invariant local n w -> invariant local n (fireTimer id w).
Proof.
  intros H. unfold fireTimer. destruct (find_timer id w) as [t|] eqn:Hf; [|exact H].
  destruct (is_restart t) eqn:Hr.
  - pose proof (fired_restart_none id w t H Hf Hr) as Hnone.
    unfold is_restart in Hr. destruct (t_kind t); try discriminate.
    apply restartCallback_inv; [now apply clearTimeout_inv | exact Hnone].
  - apply (clearTimeout_inv id) in H. revert H. generalize (clearTimeout id w).
    unfold is_restart in Hr. destruct (t_kind t); try discriminate;
      unfold timerCallback; inv_auto.
Qed.

#[local] Hint Resolve fireTimer_inv : luna.

Lemma step_inv (e : Event) (w : World) :
  invariant local n w -> invariant local n (step e w).
Proof.
  intros H. destruct e; unfold step; try solve [inv_auto].
Qed.

Lemma run_inv (es : list Event) (w : World) :
  invariant local n w -> invariant local n (run es w).
Proof.
  revert w. induction es as [|e es IH]; intros w H; simpl; [exact H|].
  apply IH. now apply step_inv.
Qed.

End Preservation.

Lemma initial_invariant (granted throws : bool) :
  invariant false 0 (initial_world granted throws).
Proof.
  rewrite invariant_fields. simpl.
  inv_split; try lia; try discriminate; try (intros t []).
  constructor.
Qed.

(** At most one scheduled restart is pending in a world that satisfies the
    invariants. *)
Lemma restart_timers_le_1 (local : bool) (n : nat) (w : World) :
  invariant local n w -> List.length (restart_timers w) <= 1.
Proof.
  rewrite invariant_fields. intros ((_ & _ & Hnd) & _ & Htr & _).
  exact (tracked_le_1 _ _ _ Hnd Htr).
Qed.

(** And at most one conversation timeout. *)
Lemma conversation_timers_le_1 (local : bool) (n : nat) (w : World) :
  invariant local n w -> List.length (conversation_timers w) <= 1.
Proof.
  rewrite invariant_fields. intros ((_ & _ & Hnd) & _ & _ & Hct & _).
  exact (tracked_le_1 _ _ _ Hnd Hct).
Qed.

(* ----------------------------------------------------------------- *)
(** *** The state machine *)

Lemma state_of_name_name (s : AssistantState) :
  state_of_name (state_name s) = Some s /\ isValidState (state_name s) = true.
Proof. destruct s; split; reflexivity. Qed.

Lemma state_eqb_eq (a b : AssistantState) : state_eqb a b = true <-> a = b.
Proof. destruct a, b; split; intros H; try reflexivity; discriminate. Qed.

Lemma isValidState_false (name : string) :
  ~ In name ["idle"; "waking"; "listening"; "thinking"; "speaking"; "error"] ->
  isValidState name = false.
Proof.
  intros H. unfold isValidState.
  destruct (existsb (String.eqb name) (map state_name all_states)) eqn:E; [|reflexivity].
  exfalso. apply H. apply existsb_exists in E. destruct E as (x & Hx & E).
  apply String.eqb_eq in E. subst x. exact Hx.
Qed.

Lemma setState_same_or_invalid_aux (w : World) (context : Context) :
  setState (state_name (currentState (app w))) context w = (true, w)
  /\ forall newState,
       ~ In newState ["idle"; "waking"; "listening"; "thinking"; "speaking"; "error"] ->
       setState newState context w = (false, w).
Proof.
  split.
  - unfold setState.
    destruct (state_of_name_name (currentState (app w))) as [-> ->]. simpl.
    destruct (state_eqb (currentState (app w)) (currentState (app w))) eqn:E;
      [reflexivity|].
    assert (state_eqb (currentState (app w)) (currentState (app w)) = true)
      by now apply state_eqb_eq.
    congruence.
  - intros newState H. unfold setState.
    rewrite (isValidState_false newState H). reflexivity.
Qed.

(** C6.  [setState] with the current state returns [true] and leaves
    everything as it was; with a name that is not one of the six enum
    values it returns [false], and again nothing changes: the current
    state, the history, the notifications sent to subscribers and all the
    rest are those of before. *)
Theorem setState_same_or_invalid (w : World) (context : Context) :
  setState (state_name (currentState (app w))) context w = (true, w)
  /\ forall newState,
       ~ In newState ["idle"; "waking"; "listening"; "thinking"; "speaking"; "error"] ->
       setState newState context w = (false, w)
       /\ currentState (app (snd (setState newState context w))) = currentState (app w)
       /\ stateHistory (app (snd (setState newState context w))) = stateHistory (app w)
       /\ notified (out (snd (setState newState context w))) = notified (out w).
Proof.
  destruct (setState_same_or_invalid_aux w context) as [Hsame Hbad].
  split; [exact Hsame|].
  intros newState H. rewrite (Hbad newState H). simpl. auto.
Qed.

Lemma setState_same_or_invalid_witness :
  setState "sleeping" [] (initial_world true false)
  = (false, initial_world true false).
Proof.
  apply (proj2 (setState_same_or_invalid (initial_world true false) []) "sleeping").
  simpl. intros [H | [H | [H | [H | [H | [H | []]]]]]]; discriminate.
Defined.

Lemma cancelPendingRestart_app (w : World) : app (cancelPendingRestart w) = app w.
Proof. unfold cancelPendingRestart. now destruct (pendingRestart (vm w)) as [[|h]|]. Qed.

Lemma scheduleRestart_app (d : Z) (w : World) : app (scheduleRestart d w) = app w.
Proof.
  unfold scheduleRestart.
  destruct (isPaused (vm (cancelPendingRestart w))); simpl; apply cancelPendingRestart_app.
Qed.

Lemma onStateChange_app (s p : AssistantState) (w : World) :
  app (onStateChange s p w) = app w.
Proof.
  unfold onStateChange.
  repeat match goal with |- context [if ?c then _ else _] => destruct c end;
    try reflexivity.
  now rewrite scheduleRestart_app.
Qed.

Lemma notifyListeners_app (s p : AssistantState) (c : Context) (w : World) :
  app (notifyListeners s p c w) = app w.
Proof.
  unfold notifyListeners. cbv zeta. simpl.
  destruct (subscribed (vm w)); [|reflexivity].
  now rewrite onStateChange_app.
Qed.

(** What an accepted transition does to the state manager. *)
Lemma setState_accepted (target : AssistantState) (context : Context) (w : World) :
  target <> currentState (app w) ->
  app (snd (setState (state_name target) context w))
  = let h := (stateHistory (app w)
              ++ [mkEntry (currentState (app w)) (clock (env w)) context])%list in
    mkSM target (Some (currentState (app w)))
      (if (50 <? List.length h)%nat then tl h else h).
Proof.
  intros Hne. unfold setState.
  destruct (state_of_name_name target) as [-> ->]. cbn [negb].
  destruct (state_eqb (currentState (app w)) target) eqn:E.
  - apply state_eqb_eq in E. congruence.
  - cbv zeta. cbn [snd]. change (app (snd (setTimeout ?k ?d ?x))) with (app x).
    rewrite notifyListeners_app.
    destruct w as [a v e o]; simpl.
    match goal with |- context [if ?c then _ else _] => destruct c end; reflexivity.
Qed.

(** C9, as the code has it.  On every accepted transition a record with
    the state being left, the millisecond timestamp and the context is
    appended at the end of the history array; when that makes more than 50
    records, the element at the front of the array is removed.  The state
    entered is not part of the record, it becomes [currentState].  The
    bound of 50 holds after every [setState] call.  Which record stands at
    the front is not said here: [getStateDuration] reverses the array in
    place. *)
Theorem history_record_appended (es : list Event) (granted throws : bool)
    (target : AssistantState) (context : Context) :
  let w := run es (initial_world granted throws) in
  let record := mkEntry (currentState (app w)) (clock (env w)) context in
  (target <> currentState (app w) ->
   let a := app (snd (setState (state_name target) context w)) in
   stateHistory a
   = skipn (List.length (stateHistory (app w) ++ [record])%list - 50)
       (stateHistory (app w) ++ [record])%list
   /\ currentState a = target
   /\ previousState a = Some (currentState (app w)))
  /\ (forall newState,
        List.length (stateHistory (app (snd (setState newState context w)))) <= 50).
Proof.
  intros w record.
  assert (Hinv : invariant false 0 w) by (apply run_inv, initial_invariant).
  split.
  - intros Hne a. unfold a. rewrite (setState_accepted target context w Hne).
    cbv zeta. cbn [stateHistory currentState previousState].
    split; [|split; reflexivity]. fold record.
    assert (Hb : List.length (stateHistory (app w)) <= 50) by apply Hinv.
    destruct (50 <? List.length (stateHistory (app w) ++ [record])%list)%nat eqn:E.
    + apply Nat.ltb_lt in E. rewrite length_app in *. simpl in *.
      replace (List.length (stateHistory (app w)) + 1 - 50) with 1 by lia.
      now destruct (stateHistory (app w) ++ [record])%list.
    + apply Nat.ltb_ge in E.
      replace (List.length (stateHistory (app w) ++ [record])%list - 50) with 0 by lia.
      reflexivity.
  - intros newState. apply (setState_inv false 0 newState context w Hinv).
Qed.

Lemma history_record_appended_witness :
  stateHistory (app (snd (setState "waking" [] (initial_world true false))))
  = [mkEntry Idle 0 []].
Proof.
  apply (proj1 (history_record_appended [] true false Waking [])).
  discriminate.
Defined.

(** C9 as stated fails: the record does not hold the state entered.  Two
    transitions from the same state at the same time with the same context
    append the same record whatever state they lead to, so nothing computed
    from the record alone can be the to-state. *)
Lemma history_record_lacks_to_state :
  let w := initial_world true false in
  let toWaking := app (snd (setState "waking" [] w)) in
  let toError := app (snd (setState "error" [] w)) in
  currentState toWaking = Waking
  /\ currentState toError = Error
  /\ stateHistory toWaking = [mkEntry Idle 0 []]
  /\ stateHistory toError = [mkEntry Idle 0 []]
  /\ ~ exists toState : HistoryEntry -> AssistantState,
         toState (last (stateHistory toWaking) (mkEntry Idle 0 [])) = Waking
         /\ toState (last (stateHistory toError) (mkEntry Idle 0 [])) = Error.
Proof.
  cbv zeta. repeat split; try reflexivity.
  intros (f & H1 & H2). simpl in H1, H2. congruence.
Qed.

(* ----------------------------------------------------------------- *)
(** *** The recognition supervisor *)

Lemma reachable_invariant (es : list Event) (granted throws : bool) :
  invariant false 0 (run es (initial_world granted throws)).
Proof. apply run_inv, initial_invariant. Qed.

(** C1.  In every world the event loop can reach, at most one scheduled
    restart is pending.  [scheduleRestart] first cancels the pending one,
    leaving none, and then schedules its own, so that afterwards exactly
    the new one is pending (none when recognition is paused).  When a
    scheduled restart fires and recognition is paused or already
    listening, nothing is started: no call of [recognition.start()], the
    recogniser as it was and no restart scheduled; otherwise the callback
    goes on to [startWakeWordDetection]. *)
Theorem one_scheduled_restart (es : list Event) (granted throws : bool) (delay : Z) :
  let w := run es (initial_world granted throws) in
  List.length (restart_timers w) <= 1
  /\ restart_timers (cancelPendingRestart w) = []
  /\ restart_timers (scheduleRestart delay w)
     = (if isPaused (vm w) then []
        else [mkTimer (nextTimer (env w)) delay KRestart])
  /\ forall id t,
       find_timer id w = Some t -> t_kind t = KRestart ->
       let w1 := with_vm (vm_isRestarting false)
                   (with_vm (vm_pendingRestart None) (clearTimeout id w)) in
       (isPaused (vm w) || isListening (vm w) = true ->
        fireTimer id w = w1
        /\ primaryStarts (out (fireTimer id w)) = primaryStarts (out w)
        /\ recognition (env (fireTimer id w)) = recognition (env w)
        /\ restart_timers (fireTimer id w) = [])
       /\ (isPaused (vm w) || isListening (vm w) = false ->
           fireTimer id w = startWakeWordDetection w1).
Proof.
  intros w. pose proof (reachable_invariant es granted throws) as H. fold w in H.
  split; [exact (restart_timers_le_1 _ _ w H)|].
  split; [exact (cancelPendingRestart_none _ _ w H)|].
  split; [exact (scheduleRestart_timers _ _ delay w H)|].
  intros id t Hf Hk w1.
  assert (Hr : is_restart t = true) by (unfold is_restart; now rewrite Hk).
  pose proof (fired_restart_none _ _ id w t H Hf Hr) as Hnone.
  assert (E : fireTimer id w
              = if isPaused (vm w) || isListening (vm w) then w1
                else startWakeWordDetection w1).
  { unfold fireTimer. rewrite Hf, Hk. unfold timerCallback, restartCallback.
    fold w1. destruct w as [a v e o]; simpl.
    destruct (isPaused v); [reflexivity|]. now destruct (isListening v). }
  split; intros Hc; rewrite E, Hc; [|reflexivity].
  repeat split; try (destruct w as [a v e o]; reflexivity).
  exact Hnone.
Qed.

Lemma one_scheduled_restart_witness :
  fireTimer 1 (run [RecEnd] (initial_world true false))
  = startWakeWordDetection
      (with_vm (vm_isRestarting false)
         (with_vm (vm_pendingRestart None)
            (clearTimeout 1 (run [RecEnd] (initial_world true false))))).
Proof.
  apply (proj2 (proj2 (proj2 (proj2
           (one_scheduled_restart [RecEnd] true false 0))) 1
           (mkTimer 1 500 KRestart) eq_refl eq_refl)).
  reflexivity.
Defined.

(** C3, as the code has it.  In a reachable world that is unpaused and not
    in local detection mode, a recogniser [end] event in the state Idle,
    Waking or Listening leaves exactly one scheduled restart pending and
    counts one restart attempt; in the state Error or Thinking, with the
    [isSpeaking] flag clear, it schedules none: the pending restarts and
    the attempt count are those of before. *)
Theorem end_event_restart (es : list Event) (granted throws : bool) :
  let w := run es (initial_world granted throws) in
  isPaused (vm w) = false ->
  useLocalDetection (vm w) = false ->
  (In (currentState (app w)) [Idle; Waking; Listening] ->
   List.length (restart_timers (onRecognitionEnd w)) = 1
   /\ restartAttempts (vm (onRecognitionEnd w)) = S (restartAttempts (vm w)))
  /\ (In (currentState (app w)) [Error; Thinking] -> isSpeaking (vm w) = false ->
      restart_timers (onRecognitionEnd w) = restart_timers w
      /\ restartAttempts (vm (onRecognitionEnd w)) = restartAttempts (vm w)).
Proof.
  intros w Hp Hl.
  pose proof (reachable_invariant es granted throws) as H. fold w in H.
  set (w0 := with_vm (vm_isListening false) w).
  assert (H0 : invariant false 0 w0)
    by (apply (invariant_same false 0 w); trivial).
  assert (Hs : forall d, List.length (restart_timers (scheduleRestart d w0)) = 1
                         /\ restartAttempts (vm (scheduleRestart d w0))
                            = S (restartAttempts (vm w))).
  { intros d. rewrite (scheduleRestart_timers false 0 d w0 H0).
    assert (Ep : isPaused (vm w0) = false) by exact Hp. rewrite Ep.
    split; [reflexivity|].
    unfold scheduleRestart.
    assert (Ep' : isPaused (vm (cancelPendingRestart w0)) = false).
    { unfold cancelPendingRestart. now destruct (pendingRestart (vm w0)) as [[|h]|]. }
    rewrite Ep'. simpl.
    unfold cancelPendingRestart. now destruct (pendingRestart (vm w0)) as [[|h]|]. }
  unfold onRecognitionEnd. fold w0. cbv zeta.
  change (currentState (app w0)) with (currentState (app w)).
  change (isSpeaking (vm w0)) with (isSpeaking (vm w)).
  change (isPaused (vm w0)) with (isPaused (vm w)).
  change (useLocalDetection (vm w0)) with (useLocalDetection (vm w)).
  rewrite Hp, Hl. split.
  - intros Hin. simpl in Hin.
    destruct Hin as [<- | [<- | [<- | []]]]; simpl;
      destruct (isSpeaking (vm w)); simpl; apply Hs.
  - intros Hin Hsp. rewrite Hsp. simpl in Hin.
    destruct Hin as [<- | [<- | []]]; simpl; split; reflexivity.
Qed.

Lemma end_event_restart_witness :
  List.length (restart_timers (onRecognitionEnd (initial_world true false))) = 1.
Proof.
  apply (proj1 (end_event_restart [] true false eq_refl eq_refl)).
  simpl. tauto.
Defined.

(** C3 as stated fails in Thinking: unpaused and not in local detection
    mode, the [end] event schedules no restart. *)
Lemma end_event_in_thinking_schedules_none :
  let w := run [CallCommandReceived "hello" 900] (initial_world true false) in
  currentState (app w) = Thinking
  /\ isPaused (vm w) = false
  /\ useLocalDetection (vm w) = false
  /\ restart_timers (onRecognitionEnd w) = []
  /\ restart_timers (step RecEnd w) = [].
Proof. cbv zeta. repeat split; reflexivity. Qed.

Lemma invariant_local (w : World) :
  invariant false 0 w -> useLocalDetection (vm w) = true ->
  invariant true (primaryStarts (out w)) w.
Proof.
  unfold invariant, local_mode. intros (Hf & Hh & Ht & Hc & Hb & _) Hu. tauto.
Qed.

(** A network error outside Thinking and Speaking that is at least the
    second in a row switches to local detection. *)
Lemma network_error_switches (w : World) :
  existsb (state_eqb (currentState (app w))) [Thinking; Speaking] = false ->
  1 <= consecutiveErrors (vm w) ->
  useLocalDetection (vm (onRecognitionError "network" w)) = true.
Proof.
  intros Hs Hc. unfold onRecognitionError. rewrite Hs. simpl.
  destruct (consecutiveErrors (vm w)) as [|c]; [lia|]. reflexivity.
Qed.

Lemma onRecognitionError_state (e : string) (w : World) :
  currentState (app (onRecognitionError e w)) = currentState (app w).
Proof.
  unfold onRecognitionError.
  repeat match goal with |- context [if ?c then _ else _] => destruct c end;
    try reflexivity; now rewrite scheduleRestart_app.
Qed.

Lemma network_error_counts (w : World) :
  existsb (state_eqb (currentState (app w))) [Thinking; Speaking] = false ->
  1 <= consecutiveErrors (vm (onRecognitionError "network" w)).
Proof.
  intros Hs. unfold onRecognitionError. rewrite Hs. simpl.
  destruct (consecutiveErrors (vm w)) as [|[|c]]; simpl; try lia.
  unfold scheduleRestart.
  match goal with |- context [if ?c then _ else _] => destruct c end; simpl;
    unfold cancelPendingRestart; simpl;
    match goal with |- context [match ?x with _ => _ end] => destruct x as [[|h]|] end;
    simpl; lia.
Qed.

Lemma scheduleRestart_mode (d : Z) (w : World) :
  useLocalDetection (vm (scheduleRestart d w)) = useLocalDetection (vm w).
Proof.
  unfold scheduleRestart, cancelPendingRestart.
  destruct (pendingRestart (vm w)) as [[|h]|]; simpl;
    match goal with |- context [if ?c then _ else _] => destruct c end; reflexivity.
Qed.

(** A start or speech-start event of the recogniser clears the error
    count, so the network error after it does not switch. *)
Lemma network_error_after_start (e : Event) (w : World) :
  e = RecStart \/ e = RecSpeechStart ->
  useLocalDetection (vm w) = false ->
  useLocalDetection (vm (run [e; RecError "network"] w)) = false.
Proof.
  intros He Hu. unfold run. cbn [fold_left].
  assert (H1 : useLocalDetection (vm (step e w)) = false
               /\ (recognition (env w) <> None -> consecutiveErrors (vm (step e w)) = 0)
               /\ (recognition (env w) = None -> recognition (env (step e w)) = None)).
  { destruct He as [-> | ->]; simpl; destruct (recognition (env w)) eqn:Er; simpl;
      repeat split; auto; try discriminate; congruence. }
  destruct H1 as (Hu1 & Hc1 & Hn1). revert Hu1 Hc1 Hn1. generalize (step e w).
  intros x Hu1 Hc1 Hn1. simpl.
  destruct (recognition (env w)) eqn:Er.
  - assert (Hc : consecutiveErrors (vm x) = 0) by (apply Hc1; discriminate).
    destruct (recognition (env x)); [|exact Hu1].
    unfold onRecognitionError.
    destruct (existsb _ _); [exact Hu1|]. simpl. rewrite Hc. simpl.
    rewrite scheduleRestart_mode. exact Hu1.
  - rewrite (Hn1 eq_refl). exact Hu1.
Qed.




(* ----------------------------------------------------------------- *)
(** *** What timers and restarts leave alone *)

Lemma face_fields (x y : World) :
  face x = face y ->
  app x = app y /\ notified (out x) = notified (out y)
  /\ transitions (out x) = transitions (out y)
  /\ resolvedSpeech (out x) = resolvedSpeech (out y)
  /\ dispatched (out x) = dispatched (out y) /\ spoken (out x) = spoken (out y)
  /\ synthesis (env x) = synthesis (env y)
  /\ micGranted (env x) = micGranted (env y)
  /\ startThrows (env x) = startThrows (env y)
  /\ currentSpeechResolve (vm x) = currentSpeechResolve (vm y)
  /\ isSpeaking (vm x) = isSpeaking (vm y)
  /\ isInConversation (vm x) = isInConversation (vm y).
Proof. unfold face. intros H. injection H as -> -> -> -> -> -> -> -> -> -> -> ->. tauto. Qed.

Create HintDb face.

(** One step through a function body that keeps a projection [p] of the
    world. *)
Ltac keep_case :=
  lazymatch goal with
  | |- ?p ?w = ?p ?w => reflexivity
  | |- ?p (with_vm _ ?w) = _ => transitivity (p w); [reflexivity|]
  | |- ?p (with_env _ ?w) = _ => transitivity (p w); [reflexivity|]
  | |- ?p (with_out _ ?w) = _ => transitivity (p w); [reflexivity|]
  | |- ?p (clearTimeout _ ?w) = _ => transitivity (p w); [reflexivity|]
  | |- ?p (snd (setTimeout _ _ ?w)) = _ => transitivity (p w); [reflexivity|]
  | |- ?p (match setTimeout ?k ?d ?w with _ => _ end) = _ =>
      rewrite (setTimeout_pair k d w); cbv beta iota
  | |- ?p (if ?c then _ else _) = _ => destruct c eqn:?
  | |- ?p (match ?x with _ => _ end) = _ => destruct x eqn:?
  end.

#[local] Hint Extern 1 (face _ = face _) => keep_case : face.
#[local] Hint Extern 1 (controls _ = controls _) => keep_case : face.

Lemma cancelPendingRestart_face (w : World) : face (cancelPendingRestart w) = face w.
Proof. unfold cancelPendingRestart. auto 20 with face. Qed.

Lemma scheduleRestart_face (d : Z) (w : World) : face (scheduleRestart d w) = face w.
Proof.
  unfold scheduleRestart.
  destruct (isPaused (vm (cancelPendingRestart w)));
    [apply cancelPendingRestart_face|].
  rewrite setTimeout_pair. cbv beta iota.
  transitivity (face (cancelPendingRestart w)); [reflexivity|].
  apply cancelPendingRestart_face.
Qed.

Lemma startLocalDetection_face (w : World) : face (startLocalDetection w) = face w.
Proof. unfold startLocalDetection. auto 20 with face. Qed.

Lemma startWebSpeechDetection_face (w : World) :
  face (snd (startWebSpeechDetection w)) = face w.
Proof.
  unfold startWebSpeechDetection.
  destruct (recognition (env w)) as [[|]|]; simpl; try reflexivity;
    destruct (micGranted (env w)); simpl; try reflexivity.
  destruct (startThrows (env w)); reflexivity.
Qed.

Lemma startWakeWordDetection_face (w : World) : face (startWakeWordDetection w) = face w.
Proof.
  unfold startWakeWordDetection.
  destruct (isPaused (vm w)); [reflexivity|].
  destruct (isListening (vm w)); [reflexivity|].
  destruct (isRestarting (vm w)); [reflexivity|].
  destruct (useLocalDetection (vm w)); [apply startLocalDetection_face|].
  pose proof (startWebSpeechDetection_face w) as E.
  destruct (startWebSpeechDetection w) as [threw w']; simpl in *.
  destruct threw; simpl; [|exact E].
  match goal with |- context [if ?c then _ else _] => destruct c end.
  - match goal with |- context [if ?c then _ else _] => destruct c end;
      [rewrite scheduleRestart_face|]; exact E.
  - rewrite startLocalDetection_face. exact E.
Qed.

Lemma clearConversationTimeout_face (w : World) :
  face (clearConversationTimeout w) = face w.
Proof. unfold clearConversationTimeout. auto 20 with face. Qed.

Lemma startConversationTimeout_face (w : World) :
  face (startConversationTimeout w) = face w.
Proof.
  unfold startConversationTimeout. rewrite setTimeout_pair. cbv beta iota.
  transitivity (face (clearConversationTimeout w)); [reflexivity|].
  apply clearConversationTimeout_face.
Qed.

Lemma interruptResume_face (w : World) : face (interruptResume w) = face w.
Proof.
  unfold interruptResume. cbv zeta. rewrite startConversationTimeout_face.
  match goal with |- context [if ?c then _ else _] => destruct c end;
    [rewrite startWakeWordDetection_face|]; simpl;
    rewrite <- (cancelPendingRestart_face w); reflexivity.
Qed.

Lemma cancelPendingRestart_controls (w : World) :
  controls (cancelPendingRestart w) = controls w.
Proof. unfold cancelPendingRestart. auto 20 with face. Qed.

Lemma scheduleRestart_controls (d : Z) (w : World) :
  controls (scheduleRestart d w) = controls w.
Proof.
  unfold scheduleRestart.
  destruct (isPaused (vm (cancelPendingRestart w)));
    [apply cancelPendingRestart_controls|].
  rewrite setTimeout_pair. cbv beta iota.
  transitivity (controls (cancelPendingRestart w)); [reflexivity|].
  apply cancelPendingRestart_controls.
Qed.

Lemma clearConversationTimeout_controls (w : World) :
  controls (clearConversationTimeout w) = controls w.
Proof. unfold clearConversationTimeout. auto 20 with face. Qed.

Lemma startConversationTimeout_controls (w : World) :
  controls (startConversationTimeout w) = controls w.
Proof.
  unfold startConversationTimeout. rewrite setTimeout_pair. cbv beta iota.
  transitivity (controls (clearConversationTimeout w)); [reflexivity|].
  apply clearConversationTimeout_controls.
Qed.

Lemma controls_fields (x y : World) :
  controls x = controls y ->
  recognition (env x) = recognition (env y)
  /\ useLocalDetection (vm x) = useLocalDetection (vm y)
  /\ isPaused (vm x) = isPaused (vm y)
  /\ isRestarting (vm x) = isRestarting (vm y).
Proof. unfold controls. intros H. injection H as -> -> -> ->. tauto. Qed.

(** With the blocking flags reset, [startWakeWordDetection] leaves the
    recogniser as [recognitionAfterResume] says, and never leaves local
    detection mode. *)
Lemma startWakeWordDetection_recognition (w : World) :
  isPaused (vm w) = false -> isListening (vm w) = false ->
  isRestarting (vm w) = false -> useLocalDetection (vm w) = false ->
  recognition (env (startWakeWordDetection w)) = recognitionAfterResume w
  /\ isPaused (vm (startWakeWordDetection w)) = false
  /\ isRestarting (vm (startWakeWordDetection w)) = false.
Proof.
  intros Hp Hl Hr Hu. unfold startWakeWordDetection, recognitionAfterResume.
  rewrite Hp, Hl, Hr, Hu. unfold startWebSpeechDetection.
  destruct (recognition (env w)) as [[|]|] eqn:Er; simpl;
    [ | |now rewrite Er];
    destruct (micGranted (env w)) eqn:Em; simpl; rewrite ?Er; auto;
    destruct (startThrows (env w)) eqn:Et; simpl; rewrite ?Er; auto.
  rewrite Hr. simpl.
  match goal with |- context [if ?c then _ else _] => destruct c end.
  - match goal with |- context [scheduleRestart ?d ?x] =>
      destruct (controls_fields _ _ (scheduleRestart_controls d x)) as (-> & _ & -> & ->)
    end. simpl. auto.
  - unfold startLocalDetection, initLocalDetection. simpl. rewrite Em. simpl. auto.
Qed.

Lemma interruptResume_controls (w : World) :
  recognition (env (interruptResume w)) = recognitionAfterResume w
  /\ isPaused (vm (interruptResume w)) = false
  /\ isRestarting (vm (interruptResume w)) = false
  /\ (useLocalDetection (vm w) = true ->
      useLocalDetection (vm (interruptResume w)) = true).
Proof.
  unfold interruptResume. cbv zeta.
  match goal with |- context [startConversationTimeout ?x] =>
    destruct (controls_fields _ _ (startConversationTimeout_controls x))
      as (-> & -> & -> & ->)
  end.
  destruct (controls_fields _ _ (cancelPendingRestart_controls w)) as (Er & Eu & _ & _).
  set (y := with_vm (vm_isPaused false)
              (with_vm (vm_isRestarting false)
                 (with_vm (vm_isListening false) (cancelPendingRestart w)))).
  assert (Ey : recognitionAfterResume y = recognitionAfterResume w).
  { unfold recognitionAfterResume. change (useLocalDetection (vm y))
      with (useLocalDetection (vm (cancelPendingRestart w))).
    change (recognition (env y)) with (recognition (env (cancelPendingRestart w))).
    rewrite Er, Eu.
    destruct (face_fields _ _ (cancelPendingRestart_face w))
      as (_ & _ & _ & _ & _ & _ & _ & Em & Et & _).
    change (micGranted (env y)) with (micGranted (env (cancelPendingRestart w))).
    change (startThrows (env y)) with (startThrows (env (cancelPendingRestart w))).
    now rewrite Em, Et. }
  change (useLocalDetection (vm y)) with (useLocalDetection (vm (cancelPendingRestart w))).
  rewrite Eu. destruct (useLocalDetection (vm w)) eqn:Hu; simpl.
  - repeat split; try reflexivity.
    + rewrite Er. unfold recognitionAfterResume. now rewrite Hu.
    + intros _. simpl. congruence.
  - destruct (startWakeWordDetection_recognition y eq_refl eq_refl eq_refl) as (E1 & E2 & E3).
    { simpl. congruence. }
    rewrite E1, E2, E3, Ey. repeat split; try reflexivity. discriminate.
Qed.

(* ----------------------------------------------------------------- *)
(** *** Interruption *)

Lemma interruptSpeaking_unfold (w : World) :
  interruptSpeaking w
  = setTimeout KInterruptResume 300
      (snd (setState "listening" [("source", VString "interrupt")] (haltSpeech w))).
Proof. reflexivity. Qed.

Lemma setState_current (s : AssistantState) (c : Context) (w : World) :
  currentState (app w) = s -> setState (state_name s) c w = (true, w).
Proof.
  intros <-. exact (proj1 (setState_same_or_invalid_aux w c)).
Qed.

(** [haltSpeech] touches the synthesiser, the flag and the promise only. *)
Lemma haltSpeech_frame (w : World) :
  app (haltSpeech w) = app w
  /\ timers (env (haltSpeech w)) = timers (env w)
  /\ nextTimer (env (haltSpeech w)) = nextTimer (env w)
  /\ pendingRestart (vm (haltSpeech w)) = pendingRestart (vm w)
  /\ conversationTimeout (vm (haltSpeech w)) = conversationTimeout (vm w)
  /\ controls (haltSpeech w) = controls w
  /\ micGranted (env (haltSpeech w)) = micGranted (env w)
  /\ startThrows (env (haltSpeech w)) = startThrows (env w)
  /\ isInConversation (vm (haltSpeech w)) = isInConversation (vm w)
  /\ dispatched (out (haltSpeech w)) = dispatched (out w).
Proof.
  unfold haltSpeech. cbv zeta. simpl.
  destruct (currentSpeechResolve (vm w)); simpl; repeat split; try reflexivity.
  now destruct (existsb _ _).
Qed.

(** What [haltSpeech] establishes. *)
Lemma haltSpeech_post (w : World) :
  synthesis (env (haltSpeech w)) <> Some true
  /\ isSpeaking (vm (haltSpeech w)) = false
  /\ currentSpeechResolve (vm (haltSpeech w)) = None
  /\ (forall p, currentSpeechResolve (vm w) = Some p ->
                In p (resolvedSpeech (out (haltSpeech w)))).
Proof.
  unfold haltSpeech. cbv zeta. simpl.
  destruct (currentSpeechResolve (vm w)) as [p|] eqn:E; simpl.
  - repeat split; try reflexivity.
    + destruct (synthesis (env w)); discriminate.
    + intros q Hq. injection Hq as <-.
      destruct (existsb (Nat.eqb p) (resolvedSpeech (out w))) eqn:Ex; simpl.
      * apply existsb_exists in Ex. destruct Ex as (x & Hx & Ex).
        apply Nat.eqb_eq in Ex. now subst x.
      * now left.
  - repeat split; try reflexivity; try exact E.
    + destruct (synthesis (env w)); discriminate.
    + discriminate.
Qed.

(** Where nothing is being spoken, [haltSpeech] changes nothing that
    shows. *)
Lemma haltSpeech_idle (w : World) :
  synthesis (env w) <> Some true -> isSpeaking (vm w) = false ->
  currentSpeechResolve (vm w) = None ->
  face (haltSpeech w) = face w.
Proof.
  intros Hs Hi Hc. unfold haltSpeech. cbv zeta. simpl. rewrite Hc.
  unfold face. simpl. rewrite Hi, Hc.
  destruct (synthesis (env w)) as [[|]|]; try reflexivity. now contradiction Hs.
Qed.

Lemma haltSpeech_inv (local : bool) (n : nat) (w : World) :
  invariant local n w -> invariant local n (haltSpeech w).
Proof.
  destruct (haltSpeech_frame w) as (Ea & Et & En & Ep & Ec & Ek & _).
  apply controls_fields in Ek. destruct Ek as (_ & Eu & _ & _).
  intros H. apply (invariant_same local n w); try assumption.
  - now rewrite Ea.
  - unfold haltSpeech. cbv zeta. simpl.
    destruct (currentSpeechResolve (vm w)); simpl; [|reflexivity].
    now destruct (existsb _ _).
Qed.

(** The transition to Listening made by an interruption during Speaking
    leaves the voice manager and the browser alone, up to timers. *)
Lemma setState_listening_frame (c : Context) (w : World) :
  let w' := snd (setState "listening" c w) in
  resolvedSpeech (out w') = resolvedSpeech (out w)
  /\ dispatched (out w') = dispatched (out w)
  /\ spoken (out w') = spoken (out w)
  /\ synthesis (env w') = synthesis (env w)
  /\ micGranted (env w') = micGranted (env w)
  /\ startThrows (env w') = startThrows (env w)
  /\ currentSpeechResolve (vm w') = currentSpeechResolve (vm w)
  /\ isSpeaking (vm w') = isSpeaking (vm w)
  /\ isInConversation (vm w') = isInConversation (vm w)
  /\ controls w' = controls w
  /\ pendingRestart (vm w') = pendingRestart (vm w)
  /\ conversationTimeout (vm w') = conversationTimeout (vm w).
Proof.
  unfold setState. simpl.
  destruct (state_eqb (currentState (app w)) Listening);
    [repeat split; reflexivity|].
  cbv zeta. cbn [snd]. unfold notifyListeners. cbv zeta.
  destruct w as [a v e o]. simpl.
  match goal with |- context [(50 <? ?x)%nat] => destruct (50 <? x)%nat end;
    simpl; destruct (subscribed v); simpl; repeat split; reflexivity.
Qed.

Lemma setState_listening_state (c : Context) (w : World) :
  currentState (app (snd (setState "listening" c w))) = Listening.
Proof.
  destruct (state_eqb (currentState (app w)) Listening) eqn:E.
  - apply state_eqb_eq in E.
    pose proof (setState_current Listening c w E) as R. simpl in R. now rewrite R.
  - assert (Hne : Listening <> currentState (app w)).
    { intros H. symmetry in H. apply state_eqb_eq in H. congruence. }
    pose proof (setState_accepted Listening c w Hne) as R. simpl (state_name _) in R.
    now rewrite R.
Qed.

(** A pending timer is found under its handle. *)
Lemma find_timer_in (local : bool) (n : nat) (w : World) (t : Timer) :
  invariant local n w -> In t (timers (env w)) -> find_timer (t_id t) w = Some t.
Proof.
  rewrite invariant_fields. intros ((_ & _ & Hnd) & _) Hin. unfold find_timer.
  induction (timers (env w)) as [|x l IH]; [contradiction|].
  simpl. inversion Hnd as [|? ? Hn Hnd']; subst.
  destruct Hin as [-> | Hin]; [now rewrite Nat.eqb_refl|].
  destruct (Nat.eqb (t_id x) (t_id t)) eqn:E; [|now apply IH].
  exfalso. apply Nat.eqb_eq in E. apply Hn. rewrite E. now apply in_map.
Qed.

(** The timer just set fires with its callback. *)
Lemma fireTimer_new (local : bool) (n : nat) (k : TimerKind) (d : Z) (w : World) :
  k <> KRestart -> k <> KConversationTimeout -> invariant local n w ->
  fireTimer (nextTimer (env w)) (snd (setTimeout k d w))
  = timerCallback k (clearTimeout (nextTimer (env w)) (snd (setTimeout k d w))).
Proof.
  intros Hk Hk' H. unfold fireTimer.
  rewrite (find_timer_in local n _ (mkTimer (nextTimer (env w)) d k)).
  - reflexivity.
  - now apply setTimeout_inv.
  - destruct w as [a v e o]; simpl. apply in_or_app. right. now left.
Qed.

Lemma resumed_ext (x y : World) :
  face x = face y -> recognitionAfterResume x = recognitionAfterResume y ->
  resumed x = resumed y.
Proof.
  intros Hf Hr. apply face_fields in Hf. unfold resumed.
  destruct Hf as (-> & -> & -> & -> & -> & -> & -> & _ & _ & -> & -> & ->).
  now rewrite Hr.
Qed.

Lemma recognitionAfterResume_ext (x y : World) :
  controls x = controls y -> face x = face y ->
  recognitionAfterResume x = recognitionAfterResume y.
Proof.
  intros Hc Hf. apply controls_fields in Hc. apply face_fields in Hf.
  destruct Hc as (Er & Eu & _), Hf as (_ & _ & _ & _ & _ & _ & _ & Em & Et & _).
  unfold recognitionAfterResume. now rewrite Er, Eu, Em, Et.
Qed.

(** Trying to start recognition a second time changes nothing. *)
Lemma recognitionAfterResume_idem (x : World) :
  recognitionAfterResume (interruptResume x) = recognitionAfterResume x.
Proof.
  destruct (interruptResume_controls x) as (Er & _ & _ & Hu).
  destruct (face_fields _ _ (interruptResume_face x))
    as (_ & _ & _ & _ & _ & _ & _ & Em & Et & _).
  unfold recognitionAfterResume at 1. rewrite Er, Em, Et.
  unfold recognitionAfterResume.
  destruct (useLocalDetection (vm x)) eqn:Ux.
  - rewrite (Hu eq_refl). reflexivity.
  - destruct (useLocalDetection (vm (interruptResume x))); [reflexivity|].
    destruct (recognition (env x)) as [[|]|]; try reflexivity.
    destruct (micGranted (env x) && negb (startThrows (env x))) eqn:E;
      rewrite ?E; reflexivity.
Qed.

(** What shows after the rest of [interruptSpeaking] has run. *)
Lemma observe_interruptResume (local : bool) (n : nat) (x : World) :
  invariant local n x -> observe (interruptResume x) = resumed x.
Proof.
  intros H.
  destruct (face_fields _ _ (interruptResume_face x))
    as (Ea & E1 & E2 & E3 & E4 & E5 & E6 & _ & _ & E7 & E8 & E9).
  destruct (interruptResume_controls x) as (Er & Ep & Ei & _).
  unfold observe, resumed.
  rewrite Ea, E1, E2, E3, E4, E5, E6, E7, E8, E9, Er, Ep, Ei. f_equal.
  unfold interruptResume. cbv zeta.
  rewrite (startConversationTimeout_timers local n); [reflexivity|].
  assert (Hy : invariant local n
                 (with_vm (vm_isPaused false)
                    (with_vm (vm_isRestarting false)
                       (with_vm (vm_isListening false) (cancelPendingRestart x))))).
  { apply (invariant_same local n (cancelPendingRestart x)); trivial.
    now apply cancelPendingRestart_inv. }
  match goal with |- context [if ?c then _ else _] => destruct c end;
    [now apply startWakeWordDetection_inv | exact Hy].
Qed.

(** Timers that the handles do not name survive the rest of
    [interruptSpeaking]. *)
Lemma cancelPendingRestart_keeps (t : Timer) (x : World) :
  In t (timers (env x)) ->
  (forall h, pendingRestart (vm x) = Some h -> h <> t_id t) ->
  In t (timers (env (cancelPendingRestart x))).
Proof.
  intros Hin Hh. unfold cancelPendingRestart.
  destruct (pendingRestart (vm x)) as [[|h]|] eqn:E; try exact Hin.
  destruct x as [a v e o]; simpl in *. apply filter_In. split; [exact Hin|].
  apply negb_true_iff, Nat.eqb_neq. intros E'. now apply (Hh (S h)).
Qed.

Lemma cancelPendingRestart_handle (x : World) :
  pendingRestart (vm (cancelPendingRestart x)) = None
  \/ pendingRestart (vm (cancelPendingRestart x)) = pendingRestart (vm x).
Proof.
  unfold cancelPendingRestart.
  destruct (pendingRestart (vm x)) as [[|h]|] eqn:E; simpl; auto.
Qed.

Lemma scheduleRestart_keeps (d : Z) (t : Timer) (x : World) :
  In t (timers (env x)) ->
  (forall h, pendingRestart (vm x) = Some h -> h <> t_id t) ->
  In t (timers (env (scheduleRestart d x)))
  /\ conversationTimeout (vm (scheduleRestart d x)) = conversationTimeout (vm x).
Proof.
  intros Hin Hh. pose proof (cancelPendingRestart_keeps t x Hin Hh) as Hk.
  assert (Ec : conversationTimeout (vm (cancelPendingRestart x))
               = conversationTimeout (vm x)).
  { unfold cancelPendingRestart. now destruct (pendingRestart (vm x)) as [[|h]|]. }
  unfold scheduleRestart.
  destruct (isPaused (vm (cancelPendingRestart x))); [tauto|].
  revert Hk Ec. generalize (cancelPendingRestart x). intros [a v e o]; simpl.
  intros Hk Ec. split; [|exact Ec]. apply in_or_app. now left.
Qed.

Lemma startWakeWordDetection_keeps (t : Timer) (x : World) :
  In t (timers (env x)) ->
  (forall h, pendingRestart (vm x) = Some h -> h <> t_id t) ->
  In t (timers (env (startWakeWordDetection x)))
  /\ conversationTimeout (vm (startWakeWordDetection x)) = conversationTimeout (vm x).
Proof.
  intros Hin Hh. unfold startWakeWordDetection.
  destruct (isPaused (vm x)); [tauto|].
  destruct (isListening (vm x)); [tauto|].
  destruct (isRestarting (vm x)); [tauto|].
  destruct (useLocalDetection (vm x)).
  { unfold startLocalDetection. destruct (micGranted (env x)); simpl; tauto. }
  assert (Hs : timers (env (snd (startWebSpeechDetection x))) = timers (env x)
               /\ pendingRestart (vm (snd (startWebSpeechDetection x)))
                  = pendingRestart (vm x)
               /\ conversationTimeout (vm (snd (startWebSpeechDetection x)))
                  = conversationTimeout (vm x)).
  { unfold startWebSpeechDetection.
    destruct (recognition (env x)) as [[|]|]; simpl; try tauto;
      destruct (micGranted (env x)); simpl; try tauto.
    destruct (startThrows (env x)); simpl; tauto. }
  destruct (startWebSpeechDetection x) as [threw y]; simpl in Hs.
  destruct Hs as (Et & Ep & Ec).
  destruct threw; simpl; [|rewrite Et, Ec; tauto].
  match goal with |- context [if ?c then _ else _] => destruct c end.
  - match goal with |- context [if ?c then _ else _] => destruct c end; simpl;
      [|rewrite Et, Ec; tauto].
    rewrite <- Ec.
    apply (scheduleRestart_keeps 3000 t
             (with_vm (fun v => vm_consecutiveErrors (S (consecutiveErrors v)) v) y)).
    + simpl. now rewrite Et.
    + simpl. now rewrite Ep.
  - unfold startLocalDetection, initLocalDetection. simpl.
    destruct (micGranted (env y)); simpl; rewrite Et, Ec; tauto.
Qed.

Lemma interruptResume_keeps (t : Timer) (x : World) :
  In t (timers (env x)) ->
  (forall h, pendingRestart (vm x) = Some h -> h <> t_id t) ->
  (forall h, conversationTimeout (vm x) = Some h -> h <> t_id t) ->
  In t (timers (env (interruptResume x))).
Proof.
  intros Hin Hp Hc. unfold interruptResume. cbv zeta.
  set (y := with_vm (vm_isPaused false)
              (with_vm (vm_isRestarting false)
                 (with_vm (vm_isListening false) (cancelPendingRestart x)))).
  assert (Hy : In t (timers (env y))) by (now apply cancelPendingRestart_keeps).
  assert (Hyp : forall h, pendingRestart (vm y) = Some h -> h <> t_id t).
  { intros h E. change (pendingRestart (vm y))
      with (pendingRestart (vm (cancelPendingRestart x))) in E.
    destruct (cancelPendingRestart_handle x) as [E' | E']; rewrite E' in E;
      [discriminate | now apply Hp]. }
  assert (Hyc : conversationTimeout (vm y) = conversationTimeout (vm x)).
  { change (conversationTimeout (vm y))
      with (conversationTimeout (vm (cancelPendingRestart x))).
    unfold cancelPendingRestart. now destruct (pendingRestart (vm x)) as [[|h]|]. }
  assert (Hz : exists z, (if negb (useLocalDetection (vm y))
                          then startWakeWordDetection y else y) = z
                         /\ In t (timers (env z))
                         /\ conversationTimeout (vm z) = conversationTimeout (vm x)).
  { eexists. split; [reflexivity|].
    destruct (negb (useLocalDetection (vm y))); [|tauto].
    destruct (startWakeWordDetection_keeps t y Hy Hyp) as [H1 H2].
    split; [exact H1 | congruence]. }
  destruct Hz as (z & -> & Hz & Hzc).
  unfold startConversationTimeout, clearConversationTimeout.
  rewrite Hzc. destruct z as [a v e o]; simpl in *.
  destruct (conversationTimeout (vm x)) as [[|h]|] eqn:E; simpl;
    apply in_or_app; left; try exact Hz.
  apply filter_In. split; [exact Hz|].
  apply negb_true_iff, Nat.eqb_neq. intros E'. now apply (Hc (S h)).
Qed.

(** Setting and clearing timers, field by field. *)
Lemma setTimeout_fields (k : TimerKind) (d : Z) (x : World) :
  timers (env (snd (setTimeout k d x)))
  = (timers (env x) ++ [mkTimer (nextTimer (env x)) d k])%list
  /\ nextTimer (env (snd (setTimeout k d x))) = S (nextTimer (env x))
  /\ vm (snd (setTimeout k d x)) = vm x
  /\ app (snd (setTimeout k d x)) = app x
  /\ out (snd (setTimeout k d x)) = out x
  /\ face (snd (setTimeout k d x)) = face x
  /\ controls (snd (setTimeout k d x)) = controls x.
Proof. repeat split; reflexivity. Qed.

Lemma clearTimeout_fields (id : TimerId) (x : World) :
  timers (env (clearTimeout id x)) = without id (timers (env x))
  /\ nextTimer (env (clearTimeout id x)) = nextTimer (env x)
  /\ vm (clearTimeout id x) = vm x
  /\ face (clearTimeout id x) = face x
  /\ controls (clearTimeout id x) = controls x.
Proof. repeat split; reflexivity. Qed.

(** The world an interruption during Speaking leaves when its call
    returns, before the delay of 300 ms is set. *)
Lemma interrupt_sync_facts (local : bool) (n : nat) (w : World) :
  invariant local n w ->
  let x := snd (setState "listening" [("source", VString "interrupt")] (haltSpeech w)) in
  invariant local n x
  /\ currentState (app x) = Listening
  /\ synthesis (env x) <> Some true
  /\ isSpeaking (vm x) = false
  /\ currentSpeechResolve (vm x) = None
  /\ (forall p, currentSpeechResolve (vm w) = Some p -> In p (resolvedSpeech (out x))).
Proof.
  intros H x.
  destruct (setState_listening_frame [("source", VString "interrupt")] (haltSpeech w))
    as (E1 & _ & _ & E4 & _ & _ & E7 & E8 & _). fold x in E1, E4, E7, E8.
  destruct (haltSpeech_post w) as (Hs & Hi & Hc & Hr).
  split; [apply setState_inv, haltSpeech_inv, H|].
  split; [apply setState_listening_state|].
  rewrite E1, E4, E7, E8. repeat split; assumption.
Qed.

(** When the delay of an interruption elapses, the rest of the function
    runs, and what shows afterwards is [resumed]. *)
Lemma interrupt_delay_fires (local : bool) (n : nat) (x : World) :
  invariant local n x ->
  let fired := fireTimer (nextTimer (env x)) (snd (setTimeout KInterruptResume 300 x)) in
  fired = interruptResume
            (clearTimeout (nextTimer (env x)) (snd (setTimeout KInterruptResume 300 x)))
  /\ observe fired = resumed x
  /\ face fired = face x
  /\ recognitionAfterResume fired = recognitionAfterResume x
  /\ invariant local n fired.
Proof.
  intros H fired.
  assert (E : fired = interruptResume
                        (clearTimeout (nextTimer (env x))
                           (snd (setTimeout KInterruptResume 300 x))))
    by (apply (fireTimer_new local n); [discriminate | discriminate | exact H]).
  assert (Hc : invariant local n
                 (clearTimeout (nextTimer (env x))
                    (snd (setTimeout KInterruptResume 300 x))))
    by (apply clearTimeout_inv, setTimeout_inv; [discriminate | discriminate | exact H]).
  split; [exact E|]. rewrite E. clear E fired.
  destruct (setTimeout_fields KInterruptResume 300 x) as (_ & _ & _ & _ & _ & Fs & Ks).
  revert Hc Fs Ks. generalize (snd (setTimeout KInterruptResume 300 x)). intros s Hc Fs Ks.
  destruct (clearTimeout_fields (nextTimer (env x)) s) as (_ & _ & _ & Fc & Kc).
  revert Hc Fc Kc. generalize (clearTimeout (nextTimer (env x)) s). intros c Hc Fc Kc.
  assert (Fcx : face c = face x) by congruence.
  assert (Rcx : recognitionAfterResume c = recognitionAfterResume x)
    by (apply recognitionAfterResume_ext; [congruence | exact Fcx]).
  split; [|split; [|split]].
  - rewrite (observe_interruptResume local n c Hc). now apply resumed_ext.
  - now rewrite interruptResume_face.
  - now rewrite recognitionAfterResume_idem.
  - now apply interruptResume_inv.
Qed.

(** A call made in Listening with nothing being spoken only sets its
    delay. *)
Lemma interruptSpeaking_listening (local : bool) (n : nat) (y : World) :
  invariant local n y -> currentState (app y) = Listening ->
  synthesis (env y) <> Some true -> isSpeaking (vm y) = false ->
  currentSpeechResolve (vm y) = None ->
  interruptSpeaking y
  = (nextTimer (env y), snd (setTimeout KInterruptResume 300 (haltSpeech y)))
  /\ face (haltSpeech y) = face y
  /\ invariant local n (haltSpeech y).
Proof.
  intros Hy Hys Hysy Hyi Hyc.
  destruct (haltSpeech_frame y) as (Ea & _ & En & _).
  split; [|split; [now apply haltSpeech_idle | now apply haltSpeech_inv]].
  rewrite interruptSpeaking_unfold.
  assert (Es : currentState (app (haltSpeech y)) = Listening) by now rewrite Ea.
  pose proof (setState_current Listening [("source", VString "interrupt")]
                (haltSpeech y) Es) as R.
  simpl (state_name _) in R. rewrite R. cbn [snd].
  rewrite setTimeout_pair. now rewrite En.
Qed.

(** What [ledger] holds, field by field. *)
Lemma ledger_fields (x y : World) :
  ledger x = ledger y ->
  face x = face y
  /\ recognition (env x) = recognition (env y)
  /\ useLocalDetection (vm x) = useLocalDetection (vm y)
  /\ restartAttempts (vm x) = restartAttempts (vm y)
  /\ consecutiveErrors (vm x) = consecutiveErrors (vm y)
  /\ lastCommand (vm x) = lastCommand (vm y).
Proof.
  unfold ledger. intros H.
  assert (H1 := f_equal (fun t => fst (fst t)) H).
  assert (H2 := f_equal (fun t => snd (fst t)) H).
  assert (H3 := f_equal snd H). cbn [fst snd] in H1, H2, H3.
  injection H2 as -> ->. injection H3 as -> -> ->. tauto.
Qed.

(** Setting and clearing a timer leave the ledger alone. *)
Lemma ledger_same_vm (x y : World) :
  vm x = vm y -> face x = face y -> controls x = controls y -> ledger x = ledger y.
Proof.
  intros Hv Hf Hc. apply controls_fields in Hc. destruct Hc as (Er & _).
  unfold ledger. now rewrite Hv, Hf, Er.
Qed.

Lemma ledger_ext (x y : World) :
  ledger x = ledger y ->
  statusResumed x = statusResumed y
  /\ startsRecogniser x = startsRecogniser y
  /\ listeningAfterResume x = listeningAfterResume y
  /\ recognitionAfterResume x = recognitionAfterResume y
  /\ resumed x = resumed y.
Proof.
  intros H. apply ledger_fields in H. destruct H as (Hf & Er & Eu & Ea & Ec & El).
  assert (R : recognitionAfterResume x = recognitionAfterResume y).
  { destruct (face_fields _ _ Hf) as (_ & _ & _ & _ & _ & _ & _ & Em & Et & _).
    unfold recognitionAfterResume. now rewrite Er, Eu, Em, Et. }
  pose proof (resumed_ext x y Hf R) as Rs.
  destruct (face_fields _ _ Hf) as (_ & _ & _ & _ & _ & _ & Es & Em & _ & _ & Ei & Ek).
  unfold statusResumed, startsRecogniser, listeningAfterResume.
  rewrite Er, Eu, Ea, Ec, El, Es, Em, Ei, Ek. auto.
Qed.

(** Cancelling the scheduled restart and arming the conversation timeout
    touch neither the recogniser nor the supervisor's flags and
    counters. *)
Lemma cancelPendingRestart_book (w : World) :
  let w' := cancelPendingRestart w in
  recognition (env w') = recognition (env w)
  /\ micGranted (env w') = micGranted (env w)
  /\ startThrows (env w') = startThrows (env w)
  /\ useLocalDetection (vm w') = useLocalDetection (vm w)
  /\ restartAttempts (vm w') = restartAttempts (vm w)
  /\ consecutiveErrors (vm w') = consecutiveErrors (vm w)
  /\ lastCommand (vm w') = lastCommand (vm w).
Proof.
  unfold cancelPendingRestart.
  destruct (pendingRestart (vm w)) as [[|h]|]; simpl; tauto.
Qed.

Lemma startConversationTimeout_book (w : World) :
  let w' := startConversationTimeout w in
  isListening (vm w') = isListening (vm w)
  /\ recognition (env w') = recognition (env w)
  /\ useLocalDetection (vm w') = useLocalDetection (vm w)
  /\ restartAttempts (vm w') = restartAttempts (vm w)
  /\ consecutiveErrors (vm w') = consecutiveErrors (vm w)
  /\ lastCommand (vm w') = lastCommand (vm w).
Proof.
  unfold startConversationTimeout, clearConversationTimeout.
  destruct (conversationTimeout (vm w)) as [[|h]|]; simpl; tauto.
Qed.

(** The end of [interruptSpeaking] where it does not start a stopped
    recogniser: only [isListening] and the two flags it resets can
    change. *)
Lemma interruptResume_quiet (x : World) :
  startsRecogniser x = false ->
  isListening (vm (interruptResume x)) = listeningAfterResume x
  /\ ledger (interruptResume x) = ledger x.
Proof.
  intros Hq.
  assert (H : isListening (vm (interruptResume x)) = listeningAfterResume x
              /\ recognition (env (interruptResume x)) = recognition (env x)
              /\ useLocalDetection (vm (interruptResume x)) = useLocalDetection (vm x)
              /\ restartAttempts (vm (interruptResume x)) = restartAttempts (vm x)
              /\ consecutiveErrors (vm (interruptResume x)) = consecutiveErrors (vm x)
              /\ lastCommand (vm (interruptResume x)) = lastCommand (vm x)).
  { unfold interruptResume. cbv zeta.
    match goal with |- context [startConversationTimeout ?z] =>
      destruct (startConversationTimeout_book z) as (-> & -> & -> & -> & -> & ->)
    end.
    destruct (cancelPendingRestart_book x) as (Er & Em & _ & Eu & Ea & Ec & El).
    revert Er Em Eu Ea Ec El. generalize (cancelPendingRestart x).
    intros c Er Em Eu Ea Ec El.
    unfold startsRecogniser in Hq. unfold listeningAfterResume.
    rewrite <- Er, <- Em, <- Eu, <- Ea, <- Ec, <- El in *. clear Er Em Eu Ea Ec El.
    destruct c as [a v e o]. simpl in *.
    destruct (useLocalDetection v) eqn:Hu; simpl in *; [tauto|].
    unfold startWakeWordDetection, startWebSpeechDetection. simpl. rewrite Hu.
    destruct (recognition e) as [[|]|] eqn:Hr; simpl;
      destruct (micGranted e) eqn:Hm; simpl in *; rewrite ?Hr, ?Hu; try tauto.
    discriminate. }
  destruct H as (H1 & H2 & H3 & H4 & H5 & H6). split; [exact H1|].
  unfold ledger. now rewrite interruptResume_face, H2, H3, H4, H5, H6.
Qed.

(** The end of [interruptSpeaking] where it starts a stopped recogniser
    and [start()] does not throw. *)
Lemma interruptResume_starts (x : World) :
  startsRecogniser x = true -> startThrows (env x) = false ->
  isListening (vm (interruptResume x)) = false
  /\ recognition (env (interruptResume x)) = Some true
  /\ startsRecogniser (interruptResume x) = false
  /\ listeningAfterResume (interruptResume x) = true.
Proof.
  intros Hq Ht.
  assert (H : isListening (vm (interruptResume x)) = false
              /\ recognition (env (interruptResume x)) = Some true
              /\ useLocalDetection (vm (interruptResume x)) = false).
  { unfold interruptResume. cbv zeta.
    match goal with |- context [startConversationTimeout ?z] =>
      destruct (startConversationTimeout_book z) as (-> & -> & -> & _)
    end.
    destruct (cancelPendingRestart_book x) as (Er & Em & Et & Eu & _).
    revert Er Em Et Eu. generalize (cancelPendingRestart x). intros c Er Em Et Eu.
    unfold startsRecogniser in Hq. rewrite <- Er, <- Em, <- Eu in Hq. rewrite <- Et in Ht.
    clear Er Em Et Eu. destruct c as [a v e o]. simpl in *.
    destruct (useLocalDetection v) eqn:Hu; simpl in *; [discriminate|].
    destruct (micGranted e) eqn:Hm; simpl in *; [|discriminate].
    destruct (recognition e) as [[|]|] eqn:Hr; try discriminate.
    unfold startWakeWordDetection, startWebSpeechDetection. simpl.
    rewrite Hu, Hr, Hm. simpl. rewrite Ht. simpl. auto. }
  destruct H as (H1 & H2 & H3). split; [exact H1|]. split; [exact H2|].
  destruct (face_fields _ _ (interruptResume_face x))
    as (_ & _ & _ & _ & _ & _ & _ & Em & _).
  unfold startsRecogniser, listeningAfterResume. rewrite H2, H3, Em.
  unfold startsRecogniser in Hq.
  destruct (micGranted (env x)); [split; reflexivity|].
  rewrite andb_false_r in Hq. discriminate.
Qed.

(** [getStatus()] after the end of [interruptSpeaking]. *)
Lemma getStatus_interruptResume (x : World) :
  startsRecogniser x = false -> getStatus (interruptResume x) = statusResumed x.
Proof.
  intros Hq. destruct (interruptResume_quiet x Hq) as (Hl & Hb).
  destruct (interruptResume_controls x) as (_ & Ep & Ei & _).
  destruct (ledger_fields _ _ Hb) as (Hf & Er & Eu & Ea & Ec & Ek).
  destruct (face_fields _ _ Hf) as (_ & _ & _ & _ & _ & _ & Es & _ & _ & _ & Esp & Eic).
  unfold getStatus, statusResumed.
  now rewrite Hl, Ep, Ei, Er, Eu, Ea, Ec, Ek, Es, Esp, Eic.
Qed.

(** Where nothing is being spoken, [haltSpeech] leaves the ledger alone. *)
Lemma haltSpeech_ledger (y : World) :
  synthesis (env y) <> Some true -> isSpeaking (vm y) = false ->
  currentSpeechResolve (vm y) = None ->
  ledger (haltSpeech y) = ledger y.
Proof.
  intros Hs Hi Hc. unfold ledger. rewrite (haltSpeech_idle y Hs Hi Hc).
  destruct (haltSpeech_frame y) as (_ & _ & _ & _ & _ & Ek & _).
  apply controls_fields in Ek. destruct Ek as (-> & -> & _).
  unfold haltSpeech. cbv zeta. simpl. now rewrite Hc.
Qed.

(** A call that has run to its end from [x] is the rest of the function
    run from a world with the ledger of [x]. *)
Lemma first_call_shape (local : bool) (n : nat) (x : World) (P : World -> Prop) :
  invariant local n x ->
  (forall c, invariant local n c -> ledger c = ledger x -> P (interruptResume c)) ->
  P (fireTimer (nextTimer (env x)) (snd (setTimeout KInterruptResume 300 x))).
Proof.
  intros H HP.
  destruct (interrupt_delay_fires local n x H) as (-> & _).
  apply HP.
  - apply clearTimeout_inv, setTimeout_inv; [discriminate | discriminate | exact H].
  - reflexivity.
Qed.

(** A second call made when the first has run to its end. *)
Lemma second_call_afterwards_shape (local : bool) (n : nat) (y : World)
    (P : World -> Prop) :
  invariant local n y -> currentState (app y) = Listening ->
  synthesis (env y) <> Some true -> isSpeaking (vm y) = false ->
  currentSpeechResolve (vm y) = None ->
  (forall c, invariant local n c -> ledger c = ledger y -> P (interruptResume c)) ->
  P (let '(id, w') := interruptSpeaking y in fireTimer id w').
Proof.
  intros Hy Hys Hysy Hyi Hyc HP.
  destruct (interruptSpeaking_listening local n y Hy Hys Hysy Hyi Hyc) as (E & F & Hh).
  rewrite E. cbv beta iota.
  destruct (haltSpeech_frame y) as (_ & _ & En & _).
  rewrite <- En.
  apply (first_call_shape local n (haltSpeech y)); [exact Hh|].
  intros c Hc Lc. apply HP; [exact Hc|].
  rewrite Lc. now apply haltSpeech_ledger.
Qed.

(** A second call made right after the first, both delays pending: the
    rest of the function runs twice. *)
Lemma second_call_at_once_shape (local : bool) (n : nat) (x : World)
    (P : World -> Prop) :
  invariant local n x -> currentState (app x) = Listening ->
  synthesis (env x) <> Some true -> isSpeaking (vm x) = false ->
  currentSpeechResolve (vm x) = None ->
  (forall d1 d2, invariant local n d1 -> ledger d1 = ledger x ->
                 invariant local n d2 -> ledger d2 = ledger (interruptResume d1) ->
                 P (interruptResume d2)) ->
  P (let '(id2, w2) := interruptSpeaking (snd (setTimeout KInterruptResume 300 x)) in
     fireTimer id2 (fireTimer (nextTimer (env x)) w2)).
Proof.
  intros Hx Hst Hsy Hi Hc HP.
  set (n1 := nextTimer (env x)).
  destruct (setTimeout_fields KInterruptResume 300 x)
    as (Et1 & En1 & Ev1 & Ea1 & _ & Fw1 & Kw1).
  assert (Hw1 : invariant local n (snd (setTimeout KInterruptResume 300 x)))
    by (apply setTimeout_inv; [discriminate | discriminate | exact Hx]).
  assert (Lw1 : ledger (snd (setTimeout KInterruptResume 300 x)) = ledger x)
    by reflexivity.
  revert Et1 En1 Ev1 Ea1 Fw1 Kw1 Hw1 Lw1.
  generalize (snd (setTimeout KInterruptResume 300 x)).
  intros w1 Et1 En1 Ev1 Ea1 Fw1 Kw1 Hw1 Lw1. fold n1 in Et1, En1.
  assert (Hst1 : currentState (app w1) = Listening) by now rewrite Ea1.
  assert (Hsy1 : synthesis (env w1) <> Some true).
  { destruct (face_fields _ _ Fw1) as (_ & _ & _ & _ & _ & _ & E & _). now rewrite E. }
  assert (Hi1 : isSpeaking (vm w1) = false) by now rewrite Ev1.
  assert (Hc1 : currentSpeechResolve (vm w1) = None) by now rewrite Ev1.
  destruct (interruptSpeaking_listening local n w1 Hw1 Hst1 Hsy1 Hi1 Hc1)
    as (E2 & Fh1 & Hh1).
  rewrite E2. cbv beta iota. clear E2.
  destruct (haltSpeech_frame w1) as (_ & Eth & Enh & Eph & Ech & Ekh & _).
  pose proof (haltSpeech_ledger w1 Hsy1 Hi1 Hc1) as Lh1.
  revert Fh1 Hh1 Eth Enh Eph Ech Ekh Lh1. generalize (haltSpeech w1).
  intros h1 Fh1 Hh1 Eth Enh Eph Ech Ekh Lh1.
  rewrite En1.
  destruct (setTimeout_fields KInterruptResume 300 h1)
    as (Et2 & En2 & Ev2 & _ & _ & Fw2 & Kw2).
  assert (Hw2 : invariant local n (snd (setTimeout KInterruptResume 300 h1)))
    by (apply setTimeout_inv; [discriminate | discriminate | exact Hh1]).
  assert (Lw2 : ledger (snd (setTimeout KInterruptResume 300 h1)) = ledger h1)
    by reflexivity.
  revert Et2 En2 Ev2 Fw2 Kw2 Hw2 Lw2.
  generalize (snd (setTimeout KInterruptResume 300 h1)).
  intros w2 Et2 En2 Ev2 Fw2 Kw2 Hw2 Lw2.
  rewrite Enh, En1 in Et2. rewrite Eth, Et1 in Et2.
  set (ir1 := mkTimer n1 300 KInterruptResume) in *.
  set (ir2 := mkTimer (S n1) 300 KInterruptResume) in *.
  (* the first delay fires *)
  assert (I1 : In ir1 (timers (env w2))).
  { rewrite Et2. apply in_or_app. left. apply in_or_app. right. now left. }
  assert (F1 : fireTimer n1 w2 = interruptResume (clearTimeout n1 w2)).
  { unfold fireTimer.
    now rewrite (find_timer_in local n w2 ir1 Hw2 I1 : find_timer n1 w2 = Some ir1). }
  rewrite F1. clear F1.
  destruct (clearTimeout_fields n1 w2) as (Etd & _ & Evd & Fd & Kd).
  assert (Hd1 : invariant local n (clearTimeout n1 w2)) by now apply clearTimeout_inv.
  assert (Ld1 : ledger (clearTimeout n1 w2) = ledger w2) by reflexivity.
  revert Etd Evd Fd Kd Hd1 Ld1. generalize (clearTimeout n1 w2).
  intros d1 Etd Evd Fd Kd Hd1 Ld1.
  (* the second delay is still pending, and fires *)
  assert (I2 : In ir2 (timers (env d1))).
  { rewrite Etd, Et2. apply filter_In. split.
    - apply in_or_app. right. now left.
    - apply negb_true_iff, Nat.eqb_neq. unfold ir2. cbn [t_id]. lia. }
  assert (Hfresh : forall h, pendingRestart (vm d1) = Some h
                             \/ conversationTimeout (vm d1) = Some h -> h <> S n1).
  { apply invariant_fields in Hx. destruct Hx as (_ & (Hh1' & Hh2') & _).
    rewrite Evd, Ev2. rewrite <- Ev1 in Hh1', Hh2'. rewrite <- Eph in Hh1'.
    rewrite <- Ech in Hh2'.
    intros h [E | E]; [apply Hh1' in E | apply Hh2' in E]; fold n1 in E; lia. }
  assert (I3 : In ir2 (timers (env (interruptResume d1)))).
  { apply interruptResume_keeps; [exact I2 | |]; intros h E; apply Hfresh; tauto. }
  assert (Hr1 : invariant local n (interruptResume d1)) by now apply interruptResume_inv.
  assert (F2 : fireTimer (S n1) (interruptResume d1)
               = interruptResume (clearTimeout (S n1) (interruptResume d1))).
  { unfold fireTimer.
    now rewrite (find_timer_in local n _ ir2 Hr1 I3
                 : find_timer (S n1) (interruptResume d1) = Some ir2). }
  rewrite F2. clear F2.
  apply (HP d1).
  - exact Hd1.
  - congruence.
  - now apply clearTimeout_inv.
  - destruct (clearTimeout_fields (S n1) (interruptResume d1)) as (_ & _ & Ev & Ef & Ek).
    now apply ledger_same_vm.
Qed.

(** What shows after a second call. *)
Lemma second_call_afterwards (local : bool) (n : nat) (y : World) :
  invariant local n y -> currentState (app y) = Listening ->
  synthesis (env y) <> Some true -> isSpeaking (vm y) = false ->
  currentSpeechResolve (vm y) = None ->
  observe (let '(id, w') := interruptSpeaking y in fireTimer id w') = resumed y.
Proof.
  intros Hy Hys Hysy Hyi Hyc.
  apply (second_call_afterwards_shape local n y); try assumption.
  intros c Hc Lc. rewrite (observe_interruptResume local n c Hc).
  now apply ledger_ext.
Qed.

Lemma second_call_at_once (local : bool) (n : nat) (x : World) :
  invariant local n x -> currentState (app x) = Listening ->
  synthesis (env x) <> Some true -> isSpeaking (vm x) = false ->
  currentSpeechResolve (vm x) = None ->
  observe (let '(id2, w2) := interruptSpeaking (snd (setTimeout KInterruptResume 300 x)) in
           fireTimer id2 (fireTimer (nextTimer (env x)) w2))
  = resumed x.
Proof.
  intros Hx Hst Hsy Hi Hc.
  apply (second_call_at_once_shape local n x); try assumption.
  intros d1 d2 H1 L1 H2 L2. rewrite (observe_interruptResume local n d2 H2).
  destruct (ledger_ext _ _ L2) as (_ & _ & _ & R2 & _).
  destruct (ledger_ext _ _ L1) as (_ & _ & _ & R1 & _).
  destruct (ledger_fields _ _ L2) as (F2 & _). destruct (ledger_fields _ _ L1) as (F1 & _).
  apply resumed_ext.
  - rewrite F2, interruptResume_face. exact F1.
  - rewrite R2, recognitionAfterResume_idem. exact R1.
Qed.

(** Arming the conversation timeout sets no restart. *)
Lemma startConversationTimeout_restart (z : World) :
  restart_timers z = [] -> restart_timers (startConversationTimeout z) = [].
Proof.
  unfold startConversationTimeout, clearConversationTimeout, restart_timers.
  intros E. destruct z as [a v e o]. simpl in *.
  assert (Hw : forall id, filter is_restart (without id (timers e)) = []).
  { intros id. apply filter_none. intros t Hin. apply filter_In in Hin.
    apply (filter_none_in _ _ _ E). tauto. }
  destruct (conversationTimeout v) as [[|h]|]; simpl; rewrite filter_app; simpl;
    rewrite ?E; try reflexivity.
  fold (without (S h) (timers e)). now rewrite Hw.
Qed.

(** Unless [start()] throws on a stopped recogniser, the end of
    [interruptSpeaking] leaves no restart scheduled. *)
Lemma interruptResume_no_restart (local : bool) (n : nat) (x : World) :
  invariant local n x ->
  startsRecogniser x = false \/ startThrows (env x) = false ->
  restart_timers (interruptResume x) = [].
Proof.
  intros H Hq. unfold interruptResume. cbv zeta.
  apply startConversationTimeout_restart.
  pose proof (cancelPendingRestart_none local n x H) as E0.
  destruct (cancelPendingRestart_book x) as (Er & Em & Et & Eu & _).
  unfold startsRecogniser in Hq. rewrite <- Er, <- Em, <- Eu, <- Et in Hq.
  revert E0 Hq. generalize (cancelPendingRestart x). clear.
  intros c E0 Hq. destruct c as [a v e o]. unfold restart_timers in *. simpl in *.
  destruct (useLocalDetection v) eqn:Hu; simpl in *; [exact E0|].
  unfold startWakeWordDetection, startWebSpeechDetection. simpl. rewrite Hu.
  destruct (recognition e) as [[|]|] eqn:Hr; simpl; try exact E0;
    destruct (micGranted e) eqn:Hm; simpl in *; try exact E0.
  destruct Hq as [Hq | Hq]; [discriminate|]. rewrite Hq. simpl. exact E0.
Qed.




(* ----------------------------------------------------------------- *)
(** *** Transcripts heard in Listening *)

(** A wake phrase on its own: already in lower case and trimmed, detected,
    and with nothing after it. *)
Lemma wake_phrase_alone (wk : string) :
  In wk alternativeWakeWords ->
  trim (toLowerCase wk) = wk /\ detectWakeWord wk = true
  /\ extractCommandFromTranscript wk = "" /\ (0 <? String.length wk)%nat = true.
Proof.
  intros H. simpl in H.
  repeat (destruct H as [<- | H]; [repeat split; reflexivity|]). contradiction.
Qed.

(** The rest of [interruptSpeaking] leaves exactly one conversation
    timeout, of 15 s. *)
Lemma interruptResume_conversation (local : bool) (n : nat) (x : World) :
  invariant local n x ->
  map (fun t => (t_delay t, t_kind t)) (conversation_timers (interruptResume x))
  = [(conversationTimeoutDuration, KConversationTimeout)].
Proof.
  intros H. exact (f_equal o_conversationTimers (observe_interruptResume local n x H)).
Qed.

Lemma clearConversationTimeout_subset (t : Timer) (x : World) :
  In t (timers (env (clearConversationTimeout x))) -> In t (timers (env x)).
Proof.
  unfold clearConversationTimeout.
  destruct (conversationTimeout (vm x)) as [[|h]|]; trivial.
  destruct x as [a v e o]; simpl. intros H. apply filter_In in H. tauto.
Qed.

(** C8, as the code has it.  In a reachable world in the state Listening,
    a final transcript that is exactly a wake phrase dispatches no command:
    nothing is handed to [processCommand], no delayed command is set up and
    the state machine stays as it is.  With the [isSpeaking] flag clear the
    pending conversation timeout is cancelled at once and, only when a
    conversation is active ([isInConversation]), armed anew with its full
    15 s, so that afterwards exactly that fresh one is pending; outside a
    conversation none is pending afterwards.  With the flag set the
    transcript takes the interruption path, whose continuation is pending
    and, when it runs, leaves exactly one conversation timeout of 15 s
    armed. *)
Theorem wake_phrase_alone_in_listening (es : list Event) (granted throws : bool)
    (wk : string) (confidence : Z) :
  let w := run es (initial_world granted throws) in
  In wk alternativeWakeWords ->
  currentState (app w) = Listening ->
  let w' := handleRecognitionResult wk confidence true w in
  (dispatched (out w') = dispatched (out w)
   /\ app w' = app w
   /\ forall t c k, In t (timers (env w')) -> t_kind t = KDelayedCommand c k ->
                    In t (timers (env w)))
  /\ (isSpeaking (vm w) = false ->
      conversation_timers w'
      = if isInConversation (vm w)
        then [mkTimer (nextTimer (env w)) conversationTimeoutDuration
                KConversationTimeout]
        else [])
  /\ (isSpeaking (vm w) = true ->
      find_timer (nextTimer (env w)) w'
      = Some (mkTimer (nextTimer (env w)) 300 KInterruptResume)
      /\ map (fun t => (t_delay t, t_kind t))
           (conversation_timers (fireTimer (nextTimer (env w)) w'))
         = [(conversationTimeoutDuration, KConversationTimeout)]).
Proof.
  intros w Hwk Hst w'.
  pose proof (reachable_invariant es granted throws) as H. fold w in H.
  destruct (wake_phrase_alone wk Hwk) as (Et & Ed & Ee & El).
  destruct (isSpeaking (vm w)) eqn:Hsp.
  - (* the interruption path *)
    set (h := haltSpeech w).
    set (w1 := snd (setTimeout KInterruptResume 300 h)).
    destruct (haltSpeech_frame w) as (Ea & Eth & Enh & _ & _ & _ & _ & _ & _ & Edh).
    fold h in Ea, Eth, Enh, Edh.
    assert (Hh : invariant false 0 h) by now apply haltSpeech_inv.
    assert (Hw1 : invariant false 0 w1)
      by (apply setTimeout_inv; [discriminate | discriminate | exact Hh]).
    assert (Ei : interruptSpeaking w = (nextTimer (env w), w1)).
    { rewrite interruptSpeaking_unfold. fold h.
      assert (Es : currentState (app h) = Listening) by now rewrite Ea.
      pose proof (setState_current Listening [("source", VString "interrupt")] h Es) as R.
      simpl (state_name _) in R. rewrite R. cbn [snd].
      rewrite setTimeout_pair. now rewrite Enh. }
    assert (Ew' : w' = snd (setTimeout (KDelayedListening "interruption") 300 w1)).
    { unfold w', handleRecognitionResult. cbv zeta.
      rewrite Et, Hst, Hsp, Ed, Ee, Ei. reflexivity. }
    assert (Hw' : invariant false 0 w')
      by (rewrite Ew'; apply setTimeout_inv; [discriminate | discriminate | exact Hw1]).
    set (ir := mkTimer (nextTimer (env w)) 300 KInterruptResume).
    assert (Etm : timers (env w')
                  = (timers (env w)
                     ++ [ir; mkTimer (S (nextTimer (env w))) 300
                               (KDelayedListening "interruption")])%list).
    { rewrite Ew'.
      change (((timers (env h) ++ [mkTimer (nextTimer (env h)) 300 KInterruptResume])
               ++ [mkTimer (S (nextTimer (env h))) 300 (KDelayedListening "interruption")])%list
              = (timers (env w)
                 ++ [ir; mkTimer (S (nextTimer (env w))) 300
                           (KDelayedListening "interruption")])%list).
      rewrite Eth, Enh, <- app_assoc. reflexivity. }
    assert (Iir : In ir (timers (env w')))
      by (rewrite Etm; apply in_or_app; right; now left).
    pose proof (find_timer_in false 0 w' ir Hw' Iir) as Ef. cbn [t_id ir] in Ef.
    split; [|split; [discriminate|]].
    + split; [rewrite Ew'; exact Edh|]. split; [rewrite Ew'; exact Ea|].
      intros t c k Hin Hk. rewrite Etm in Hin. apply in_app_or in Hin.
      destruct Hin as [Hin | [<- | [<- | []]]]; [exact Hin | discriminate | discriminate].
    + intros _. split; [exact Ef|].
      unfold fireTimer. rewrite Ef. cbn [t_kind ir timerCallback].
      apply (interruptResume_conversation false 0). now apply clearTimeout_inv.
  - (* the Listening row *)
    set (w0 := with_vm (vm_consecutiveErrors 0) w).
    set (x := clearConversationTimeout w0).
    assert (H0 : invariant false 0 w0) by (apply (invariant_same false 0 w); trivial).
    assert (Hx : invariant false 0 x) by now apply clearConversationTimeout_inv.
    assert (Ew' : w' = with_vm (vm_lastCommand wk)
                         (if isInConversation (vm w)
                          then startConversationTimeout x else x)).
    { unfold w', handleRecognitionResult. cbv zeta.
      rewrite Et, Hst, Hsp, Ed, Ee, El. simpl. fold w0. fold x.
      destruct (face_fields _ _ (clearConversationTimeout_face w0))
        as (_ & _ & _ & _ & _ & _ & _ & _ & _ & _ & _ & Ec).
      fold x in Ec. now rewrite Ec. }
    assert (Fx : face x = face w) by (unfold x; now rewrite clearConversationTimeout_face).
    assert (Enx : nextTimer (env x) = nextTimer (env w)).
    { unfold x, clearConversationTimeout.
      now destruct (conversationTimeout (vm w0)) as [[|k]|]. }
    split; [|split; [|discriminate]].
    + assert (Fw' : face w' = face w).
      { rewrite Ew'. transitivity (face (if isInConversation (vm w)
                                         then startConversationTimeout x else x));
          [reflexivity|].
        destruct (isInConversation (vm w)); [rewrite startConversationTimeout_face|];
          exact Fx. }
      destruct (face_fields _ _ Fw') as (Ea & _ & _ & _ & Ed' & _).
      split; [exact Ed'|]. split; [exact Ea|].
      intros t c k Hin Hk. rewrite Ew' in Hin.
      change (In t (timers (env (if isInConversation (vm w)
                                 then startConversationTimeout x else x)))) in Hin.
      assert (Hsub : In t (timers (env x)) -> In t (timers (env w)))
        by (intros Hi; now apply (clearConversationTimeout_subset t w0)).
      destruct (isInConversation (vm w)); [|now apply Hsub].
      unfold startConversationTimeout in Hin. rewrite setTimeout_pair in Hin.
      cbv beta iota in Hin.
      change (In t (timers (env (clearConversationTimeout x))
                    ++ [mkTimer (nextTimer (env (clearConversationTimeout x)))
                          conversationTimeoutDuration KConversationTimeout])) in Hin.
      apply in_app_or in Hin. destruct Hin as [Hin | [<- | []]]; [|discriminate].
      apply Hsub. now apply clearConversationTimeout_subset.
    + intros _. rewrite Ew'.
      change (conversation_timers (if isInConversation (vm w)
                                   then startConversationTimeout x else x)
              = if isInConversation (vm w)
                then [mkTimer (nextTimer (env w)) conversationTimeoutDuration
                        KConversationTimeout]
                else []).
      destruct (isInConversation (vm w)).
      * rewrite (startConversationTimeout_timers false 0 x Hx). now rewrite Enx.
      * exact (clearConversationTimeout_none false 0 w0 H0).
Qed.

Lemma wake_phrase_alone_in_listening_witness :
  let w := run [CallCommandReceived "hello" 900; CommandResponse "hello" "hi";
                SpeakSettled] (initial_world true false) in
  isInConversation (vm w) = true
  /\ (dispatched (out (handleRecognitionResult "hey luna" 900 true w))
      = dispatched (out w)
      /\ conversation_timers (handleRecognitionResult "hey luna" 900 true w)
         = if isInConversation (vm w)
           then [mkTimer (nextTimer (env w)) conversationTimeoutDuration
                   KConversationTimeout]
           else []).
Proof.
  intros w.
  assert (Hwk : In "hey luna" alternativeWakeWords) by (simpl; tauto).
  assert (Hst : currentState (app w) = Listening) by (vm_compute; reflexivity).
  assert (Hsp : isSpeaking (vm w) = false) by (vm_compute; reflexivity).
  destruct (wake_phrase_alone_in_listening
              [CallCommandReceived "hello" 900; CommandResponse "hello" "hi"; SpeakSettled]
              true false "hey luna" 900 Hwk Hst) as ((Hd & _) & Hc & _).
  split; [vm_compute; reflexivity|]. split; [exact Hd | exact (Hc Hsp)].
Defined.

(** C8 as stated fails outside a conversation.  After an interruption has
    run to its end the state is Listening with a conversation timeout
    pending and no conversation active; the wake phrase on its own then
    cancels that timeout and arms none.  After an ordinary wake-up, with
    the listening timeout pending, the wake phrase leaves the timers as
    they are: no conversation timeout is running before or after. *)
Lemma wake_phrase_outside_conversation_arms_none :
  let w := run [CallInterrupt; Fire 3] (initial_world true false) in
  let w' := handleRecognitionResult "hey luna" 900 true w in
  let v := run [RecResult "hey luna" 900 true; Fire 2] (initial_world true false) in
  let v' := handleRecognitionResult "hey luna" 900 true v in
  (currentState (app w) = Listening
   /\ isSpeaking (vm w) = false
   /\ isInConversation (vm w) = false
   /\ conversation_timers w = [mkTimer 4 15000 KConversationTimeout]
   /\ dispatched (out w') = []
   /\ conversation_timers w' = []
   /\ conversationTimeout (vm w') = None)
  /\ (currentState (app v) = Listening
      /\ isSpeaking (vm v) = false
      /\ conversation_timers v = []
      /\ dispatched (out v') = []
      /\ timers (env v') = timers (env v)
      /\ conversation_timers v' = []).
Proof.
  cbv zeta. repeat match goal with |- _ /\ _ => split end; vm_compute; reflexivity.
Qed.

(* ----------------------------------------------------------------- *)
(** *** The backend deadline *)

Lemma processCommand_unfold (cmd : string) (t0 : Z) :
  processCommand cmd t0
  = mkRequest cmd t0 [mkAlarm 1 (t0 + 15000) InitialDeadline] 2 (Some 1)
      false false true None [].
Proof. reflexivity. Qed.

(** Before the initial deadline nothing fires. *)
Lemma advance_before_initial (cmd : string) (t0 t : Z) :
  (t0 <= t < t0 + 15000)%Z ->
  advance t (processCommand cmd t0)
  = mkRequest cmd t [mkAlarm 1 (t0 + 15000) InitialDeadline] 2 (Some 1)
      false false true None [].
Proof.
  intros Ht. rewrite processCommand_unfold. unfold advance. simpl.
  destruct (Z.leb_spec (t0 + 15000) t) as [Hle | Hgt]; [lia|].
  unfold rq_now. simpl. now rewrite Z.max_r by lia.
Qed.

(** The request once [tool.start] has been received at [t1]. *)
Lemma tool_start_received (cmd : string) (t0 t1 : Z) :
  (t0 <= t1 < t0 + 15000)%Z ->
  receive t1 ToolStart (processCommand cmd t0)
  = mkRequest cmd t1 [mkAlarm 2 (t1 + 60000) ToolDeadline] 3 (Some 2)
      false true true None [].
Proof.
  intros Ht. unfold receive. rewrite (advance_before_initial cmd t0 t1 Ht).
  reflexivity.
Qed.

(** C4.  While a WebSocket request is pending, a [tool.start] received
    before the initial deadline of 15 s cancels that timer and sets one of
    60 s counted from the [tool.start]: afterwards the only pending timer
    is the tool deadline.  Until that deadline the promise stays
    unresolved, and a backend response arriving before it resolves the
    promise with the backend's reply, not with the local response and not
    as a late response; the local response comes only when the 60 s have
    passed.  Should the initial timer's callback run while a tool is in
    progress and the promise unresolved, it resolves nothing. *)
Theorem tool_start_extends_deadline (cmd : string) (t0 toolAt : Z) :
  (0 <= toolAt < 15000)%Z ->
  let r1 := receive (t0 + toolAt) ToolStart (processCommand cmd t0) in
  alarms r1 = [mkAlarm 2 (t0 + toolAt + 60000) ToolDeadline]
  /\ timeoutId r1 = Some 2
  /\ resolvedWith (advance (t0 + 15000) r1) = None
  /\ (forall t : Z,
        (t0 + toolAt <= t < t0 + toolAt + 60000)%Z ->
        resolvedWith (advance t r1) = None
        /\ isResolved (advance t r1) = false
        /\ forall text,
             let r2 := receive t (TextResponse text) r1 in
             resolvedWith r2 = Some (ApiResponse text)
             /\ lateResponses r2 = []
             /\ alarms r2 = [])
  /\ resolvedWith (advance (t0 + toolAt + 60000) r1) = Some (LocalResponse cmd)
  /\ (forall r, isResolved r = false -> toolInProgress r = true ->
                initialTimeout r = r).
Proof.
  intros Ht r1.
  assert (E1 : r1 = mkRequest cmd (t0 + toolAt)
                      [mkAlarm 2 (t0 + toolAt + 60000) ToolDeadline] 3 (Some 2)
                      false true true None [])
    by (apply tool_start_received; lia).
  assert (Hwait : forall t, (t0 + toolAt <= t < t0 + toolAt + 60000)%Z ->
            advance t r1 = mkRequest cmd t
                             [mkAlarm 2 (t0 + toolAt + 60000) ToolDeadline] 3 (Some 2)
                             false true true None []).
  { intros t Hr. rewrite E1. unfold advance. simpl.
    destruct (Z.leb_spec (t0 + toolAt + 60000) t) as [Hle | Hgt]; [lia|].
    unfold rq_now. simpl. now rewrite Z.max_r by lia. }
  split; [now rewrite E1|]. split; [now rewrite E1|].
  split; [rewrite Hwait by lia; reflexivity|].
  split; [|split].
  - intros t Hr. rewrite (Hwait t Hr). split; [reflexivity|]. split; [reflexivity|].
    intros text r2. unfold r2, receive. rewrite (Hwait t Hr). repeat split.
  - rewrite E1. unfold advance. simpl.
    destruct (Z.leb_spec (t0 + toolAt + 60000) (t0 + toolAt + 60000)) as [Hle | Hgt];
      [reflexivity | lia].
  - intros r Hr Htool. unfold initialTimeout. now rewrite Hr, Htool.
Qed.

Lemma tool_start_extends_deadline_witness :
  resolvedWith
    (receive 40000 (TextResponse "It is 22 degrees.")
       (receive 10000 ToolStart (processCommand "what is the temperature" 0)))
  = Some (ApiResponse "It is 22 degrees.").
Proof.
  assert (H : (0 <= 10000 < 15000)%Z) by lia.
  assert (H' : (0 + 10000 <= 40000 < 0 + 10000 + 60000)%Z) by lia.
  exact (proj1 (proj2 (proj2 (proj1 (proj2 (proj2 (proj2
           (tool_start_extends_deadline "what is the temperature" 0 10000 H))))
           40000%Z H')) "It is 22 degrees.")).
Defined.

(* ----------------------------------------------------------------- *)
(** *** Further properties of the transcript utilities *)

Lemma startsWith_app (p s : string) : startsWith p (p ++ s) = true.
Proof.
  induction p as [|c p IH]; simpl; [now destruct s|].
  now rewrite Ascii.eqb_refl.
Qed.

Lemma startsWith_split (p s : string) :
  startsWith p s = true -> exists post, s = p ++ post.
Proof.
  revert s; induction p as [|c p IH]; intros s H.
  - exists s. reflexivity.
  - destruct s as [|d s]; simpl in H; [discriminate|].
    apply andb_prop in H. destruct H as [Hc Hp].
    apply Ascii.eqb_eq in Hc. subst d.
    destruct (IH s Hp) as [post ->]. exists post. reflexivity.
Qed.

(** [indexOf] gives the place of an occurrence. *)
Lemma indexOf_split (p s : string) (i : nat) :
  indexOf p s = Some i ->
  exists pre post,
    s = pre ++ p ++ post /\ String.length pre = i
    /\ substringFrom (i + String.length p) s = post.
Proof.
  revert i; induction s as [|c s IH]; intros i H.
  - simpl in H. destruct (startsWith p "") eqn:E; [|discriminate].
    injection H as <-. destruct (startsWith_split _ _ E) as [post Hp].
    exists "", post. simpl. split; [exact Hp|]. split; [reflexivity|].
    destruct p; [now destruct post | discriminate].
  - simpl in H. destruct (startsWith p (String c s)) eqn:E.
    + injection H as <-. destruct (startsWith_split _ _ E) as [post Hp].
      exists "", post. split; [exact Hp|]. split; [reflexivity|].
      rewrite Hp. simpl (0 + _). clear. induction p as [|d p IH]; simpl; [now destruct post | exact IH].
    + destruct (indexOf p s) as [j|] eqn:Ej; [|discriminate].
      injection H as <-. destruct (IH j eq_refl) as (pre & post & Hs & Hl & Hsub).
      exists (String c pre), post. simpl. rewrite Hl. repeat split; [now rewrite Hs | exact Hsub].
Qed.

Lemma includes_occurs (p pre post : string) : includes p (pre ++ p ++ post) = true.
Proof.
  unfold includes. induction pre as [|c pre IH].
  - simpl ("" ++ _). destruct (p ++ post) eqn:E; simpl; rewrite <- ?E, startsWith_app; reflexivity.
  - simpl. destruct (startsWith p (String c (pre ++ p ++ post))); [reflexivity|].
    destruct (indexOf p (pre ++ p ++ post)); [reflexivity | discriminate].
Qed.

(** What includes a phrase includes every part of it. *)
Lemma includes_part (a p b s : string) :
  includes (a ++ p ++ b) s = true -> includes p s = true.
Proof.
  unfold includes at 1. destruct (indexOf (a ++ p ++ b) s) as [i|] eqn:E; [|discriminate].
  intros _. destruct (indexOf_split _ _ _ E) as (pre & post & -> & _ & _).
  assert (H : pre ++ (a ++ p ++ b) ++ post = (pre ++ a) ++ p ++ (b ++ post)).
  { clear. induction pre as [|c pre IH]; simpl.
    - induction a as [|c a IH]; simpl.
      + induction p as [|c p IH]; simpl; [reflexivity | now rewrite IH].
      + now rewrite IH.
    - now rewrite IH. }
  rewrite H. apply includes_occurs.
Qed.

(** X1.  The seven wake phrases all contain "luna" or "luda", so
    [detectWakeWord] answers exactly whether the cleaned transcript
    contains one of these two words, anywhere, also inside another word. *)
Theorem detectWakeWord_luna_or_luda (transcript : string) :
  detectWakeWord transcript
  = includes "luna" (cleanTranscript transcript)
    || includes "luda" (cleanTranscript transcript).
Proof.
  unfold detectWakeWord. generalize (cleanTranscript transcript) as c. intros c.
  unfold allWakeWords, wakeWord, alternativeWakeWords. cbn [detect_loop].
  change (cleanWakeWord "hey luna") with "hey luna";
  change (cleanWakeWord "luna") with "luna";
  change (cleanWakeWord "ok luna") with "ok luna";
  change (cleanWakeWord "luda") with "luda";
  change (cleanWakeWord "hey luda") with "hey luda";
  change (cleanWakeWord "ok luda") with "ok luda".
  pose proof (includes_part "hey " "luna" "" c) as H1.
  pose proof (includes_part "ok " "luna" "" c) as H2.
  pose proof (includes_part "hey " "luda" "" c) as H3.
  pose proof (includes_part "ok " "luda" "" c) as H4.
  simpl in H1, H2, H3, H4.
  destruct (includes "luna" c); [now destruct (includes "hey luna" c)|].
  destruct (includes "hey luna" c); [discriminate (H1 eq_refl)|].
  destruct (includes "ok luna" c); [discriminate (H2 eq_refl)|].
  destruct (includes "luda" c); [reflexivity|].
  destruct (includes "hey luda" c); [discriminate (H3 eq_refl)|].
  destruct (includes "ok luda" c); [discriminate (H4 eq_refl)|].
  reflexivity.
Qed.

Lemma trimStart_length (s : string) : String.length (trimStart s) <= String.length s.
Proof.
  induction s as [|c s IH]; simpl; [lia|]. destruct (is_space c); simpl; lia.
Qed.

Lemma trimEnd_length (s : string) : String.length (trimEnd s) <= String.length s.
Proof.
  induction s as [|c s IH]; simpl; [lia|].
  destruct (is_space c && is_empty (trimEnd s)); simpl; lia.
Qed.

Lemma trim_length (s : string) : String.length (trim s) <= String.length s.
Proof.
  unfold trim. pose proof (trimStart_length (trimEnd s)). pose proof (trimEnd_length s). lia.
Qed.

Lemma string_length_app (a b : string) :
  String.length (a ++ b) = String.length a + String.length b.
Proof. induction a as [|c a IH]; simpl; [reflexivity | now rewrite IH]. Qed.

Lemma extract_loop_found (ws : list string) (c : string) :
  detect_loop ws c = true ->
  exists w pre post,
    In w ws /\ c = pre ++ cleanWakeWord w ++ post
    /\ extract_loop ws c = trim post.
Proof.
  induction ws as [|v ws IH]; simpl; [discriminate|].
  unfold includes. destruct (indexOf (cleanWakeWord v) c) as [i|] eqn:E.
  - intros _. destruct (indexOf_split _ _ _ E) as (pre & post & Hc & _ & Hs).
    exists v, pre, post. rewrite Hs. auto.
  - intros H. destruct (IH H) as (w & pre & post & Hw & Hc & He).
    exists w, pre, post. auto.
Qed.

Lemma wake_word_length (w : string) :
  In w allWakeWords -> 4 <= String.length (cleanWakeWord w).
Proof.
  simpl. intros [<- | [<- | [<- | [<- | [<- | [<- | [<- | []]]]]]]]; vm_compute; lia.
Qed.

(** X2.  When [detectWakeWord] finds a wake word,
    [extractCommandFromTranscript] returns the trimmed remainder of the
    cleaned transcript after an occurrence of one of the wake phrases: what
    precedes the phrase is dropped with it, and the result is shorter than
    the cleaned transcript by at least the four characters of the shortest
    phrase. *)
Theorem extract_drops_wake_word (transcript : string) :
  detectWakeWord transcript = true ->
  exists w pre post,
    In w allWakeWords
    /\ cleanTranscript transcript = pre ++ cleanWakeWord w ++ post
    /\ extractCommandFromTranscript transcript = trim post
    /\ String.length (extractCommandFromTranscript transcript) + 4
       <= String.length (cleanTranscript transcript).
Proof.
  unfold detectWakeWord, extractCommandFromTranscript. intros H.
  destruct (extract_loop_found _ _ H) as (w & pre & post & Hw & Hc & He).
  exists w, pre, post. repeat split; try assumption.
  rewrite He, Hc, !string_length_app.
  pose proof (trim_length post). pose proof (wake_word_length w Hw). lia.
Qed.

Lemma extract_drops_wake_word_witness :
  exists w pre post,
    In w allWakeWords
    /\ cleanTranscript "Please, hey Luna: lights off!" = pre ++ cleanWakeWord w ++ post
    /\ extractCommandFromTranscript "Please, hey Luna: lights off!" = trim post
    /\ String.length (extractCommandFromTranscript "Please, hey Luna: lights off!") + 4
       <= String.length (cleanTranscript "Please, hey Luna: lights off!").
Proof. apply (extract_drops_wake_word "Please, hey Luna: lights off!"). reflexivity. Defined.

(* ----------------------------------------------------------------- *)
(** *** Further properties of the state machine *)

(** X3.  [getStateHistory(limit)] returns an end piece of the history:
    for a positive limit the most recent [limit] records (all of them when
    there are fewer), for a negative one the history without its first
    [-limit] records, and for the limit 0 the whole history, not the empty
    list. *)
Theorem getStateHistory_end_piece (limit : Z) (a : StateManager) :
  (exists older, stateHistory a = (older ++ getStateHistory limit a)%list)
  /\ ((0 < limit)%Z ->
      List.length (getStateHistory limit a)
      = Nat.min (Z.to_nat limit) (List.length (stateHistory a)))
  /\ (limit = 0%Z -> getStateHistory limit a = stateHistory a)
  /\ ((limit < 0)%Z ->
      getStateHistory limit a = skipn (Z.to_nat (- limit)) (stateHistory a)).
Proof.
  unfold getStateHistory. cbv zeta.
  set (h := stateHistory a). split; [|split; [|split]].
  - eexists. symmetry. apply firstn_skipn.
  - intros Hl. rewrite length_skipn.
    destruct (- limit <? 0)%Z eqn:E; [|apply Z.ltb_ge in E; lia]. lia.
  - intros ->. simpl. destruct (Z.of_nat (List.length h)); reflexivity.
  - intros Hl. destruct (- limit <? 0)%Z eqn:E; [apply Z.ltb_lt in E; lia|].
    destruct (Z.min_spec (- limit) (Z.of_nat (List.length h))) as [[_ ->] | [Hm ->]];
      [reflexivity|].
    rewrite Nat2Z.id. rewrite !skipn_all2; [reflexivity | lia | lia].
Qed.

Lemma getStateHistory_end_piece_witness :
  let a := mkSM Speaking (Some Thinking)
             [mkEntry Idle 1 []; mkEntry Waking 2 []; mkEntry Listening 3 [];
              mkEntry Thinking 4 []] in
  List.length (getStateHistory 3 a) = 3
  /\ getStateHistory 0 a = stateHistory a
  /\ getStateHistory (-1) a = [mkEntry Waking 2 []; mkEntry Listening 3 []; mkEntry Thinking 4 []].
Proof.
  intros a.
  destruct (getStateHistory_end_piece 3 a) as (_ & H3 & _).
  destruct (getStateHistory_end_piece 0 a) as (_ & _ & H0 & _).
  destruct (getStateHistory_end_piece (-1) a) as (_ & _ & _ & Hn).
  split; [apply H3; lia|]. split; [apply H0; reflexivity|]. apply Hn. lia.
Defined.

Lemma getStateDuration_unfold (w : World) :
  getStateDuration w
  = (durationFrom (rev (stateHistory (app w))) w,
     with_app (fun a => mkSM (currentState a) (previousState a) (rev (stateHistory a))) w).
Proof.
  unfold getStateDuration, durationFrom. cbv zeta. simpl.
  now destruct (find _ _).
Qed.

(** X4.  [getStateDuration] reverses the stored history in place.  It
    measures from the most recent record that bears the current state, that
    is, from the last time the current state was left, and returns 0 when
    no record bears it; a second call puts the history back in order and
    measures from the oldest such record instead. *)
Theorem getStateDuration_reverses_history (w : World) :
  let w1 := snd (getStateDuration w) in
  stateHistory (app w1) = rev (stateHistory (app w))
  /\ fst (getStateDuration w) = durationFrom (rev (stateHistory (app w))) w
  /\ snd (getStateDuration w1) = w
  /\ fst (getStateDuration w1) = durationFrom (stateHistory (app w)) w
  /\ ((forall e, In e (stateHistory (app w)) -> h_state e <> currentState (app w)) ->
      fst (getStateDuration w) = 0%Z).
Proof.
  cbv zeta. rewrite !getStateDuration_unfold. cbn [fst snd].
  destruct w as [[c p h] v e o]. unfold durationFrom, with_app. simpl.
  rewrite !rev_involutive. do 4 (split; [reflexivity|]).
  intros Hn. destruct (find _ (rev h)) as [x|] eqn:E; [|reflexivity].
  apply find_some in E. destruct E as [Hin Hx]. apply in_rev in Hin.
  apply state_eqb_eq in Hx. now elim (Hn x Hin).
Qed.

Lemma getStateDuration_reverses_history_witness :
  fst (getStateDuration
         (run [CallSetState "waking" []; Clock 5000] (initial_world true false)))
  = 0%Z.
Proof.
  apply (getStateDuration_reverses_history
           (run [CallSetState "waking" []; Clock 5000] (initial_world true false))).
  simpl. intros e [<- | []]. discriminate.
Defined.

(** X5.  After [getStateDuration] has reversed a full history, the next
    accepted transition evicts the most recent record instead of the oldest
    one, and appends the new record behind the oldest. *)
Theorem eviction_after_getStateDuration (w : World) (target : AssistantState)
    (context : Context) (older : list HistoryEntry) (newest : HistoryEntry) :
  stateHistory (app w) = (older ++ [newest])%list ->
  List.length (stateHistory (app w)) = 50 ->
  target <> currentState (app w) ->
  stateHistory
    (app (snd (setState (state_name target) context (snd (getStateDuration w)))))
  = (rev older ++ [mkEntry (currentState (app w)) (clock (env w)) context])%list.
Proof.
  intros Hh Hl Hne. rewrite getStateDuration_unfold. cbn [snd].
  rewrite setState_accepted by (destruct w as [[c p h] v e o]; exact Hne).
  cbv zeta. cbn [stateHistory].
  destruct w as [[c p h] v e o]. simpl in *. subst h.
  rewrite rev_app_distr. simpl.
  rewrite length_app in Hl. simpl in Hl.
  rewrite length_app, length_rev. simpl.
  replace (List.length older + 1) with 50 by lia. reflexivity.
Qed.

Lemma eviction_after_getStateDuration_witness :
  let entry t := mkEntry Waking t [] in
  let w := mkWorld (mkSM Idle (Some Waking) (map entry (map Z.of_nat (seq 0 50))))
             initial_vm (initial_env true false) (mkOut [] [] 0 [] [] []) in
  hd_error (stateHistory
              (app (snd (setState "waking" [] (snd (getStateDuration w))))))
  = Some (entry 48%Z).
Proof.
  intros entry w.
  assert (Hne : Waking <> currentState (app w)) by discriminate.
  exact (f_equal (@hd_error _)
           (eviction_after_getStateDuration w Waking []
              (map entry (map Z.of_nat (seq 0 49))) (entry 49%Z)
              eq_refl eq_refl Hne)).
Defined.

Lemma cancelPendingRestart_out (w : World) : out (cancelPendingRestart w) = out w.
Proof. unfold cancelPendingRestart. now destruct (pendingRestart (vm w)) as [[|h]|]. Qed.

Lemma scheduleRestart_out (d : Z) (w : World) : out (scheduleRestart d w) = out w.
Proof.
  unfold scheduleRestart.
  destruct (isPaused (vm (cancelPendingRestart w))); simpl; apply cancelPendingRestart_out.
Qed.

Lemma onStateChange_out (s p : AssistantState) (w : World) :
  out (onStateChange s p w) = out w.
Proof.
  unfold onStateChange.
  repeat match goal with |- context [if ?c then _ else _] => destruct c end;
    try reflexivity.
  now rewrite scheduleRestart_out.
Qed.

(** An accepted transition, step by step: [x] is the world when the
    listeners are about to be notified. *)
Lemma setState_accept (target : AssistantState) (context : Context) (w : World) :
  target <> currentState (app w) ->
  exists x,
    out x = out_transitions
              (mkCall "preTransition" (Some (currentState (app w))) target context
                 :: transitions (out w)) (out w)
    /\ vm x = vm w /\ env x = env w
    /\ app x = app (snd (setState (state_name target) context w))
    /\ setState (state_name target) context w
       = (true,
          snd (setTimeout (KPostTransition target context) (getTransitionDuration target)
                 (notifyListeners target (currentState (app w))
                    (ctx_set "colorTransitionMs" (VNumber (colorTransitionMs target))
                       (ctx_set "transitionDuration"
                          (VNumber (getTransitionDuration target)) context)) x))).
Proof.
  intros Hne.
  assert (E : state_eqb (currentState (app w)) target = false).
  { destruct (state_eqb (currentState (app w)) target) eqn:E; [|reflexivity].
    apply state_eqb_eq in E. congruence. }
  rewrite (setState_accepted target context w Hne).
  unfold setState.
  replace (isValidState (state_name target)) with true by now destruct target.
  replace (state_of_name (state_name target)) with (Some target) by now destruct target.
  cbn [negb]. cbv iota. rewrite E. cbv zeta.
  eexists. split; [|split; [|split; [|split; [|reflexivity]]]];
    destruct w as [a v e o]; simpl;
    match goal with |- context [if ?c then _ else _] => destruct c end; reflexivity.
Qed.

Lemma notifyListeners_out (s p : AssistantState) (c : Context) (x : World) :
  out (notifyListeners s p c x)
  = out_notified
      (mkNote ("from:" ++ state_name p) s p c
         :: mkNote ("state:" ++ state_name s) s p c
         :: mkNote "stateChange" s p c :: notified (out x)) (out x).
Proof.
  unfold notifyListeners. cbv zeta.
  match goal with |- context [if subscribed ?v then ?a else ?b] =>
    assert (Hs : out (if subscribed v then a else b)
                 = out_notified (mkNote "stateChange" s p c :: notified (out x)) (out x))
      by (destruct (subscribed v); [rewrite onStateChange_out|]; reflexivity);
    revert Hs; generalize (if subscribed v then a else b)
  end.
  intros y Hy. simpl. rewrite Hy. reflexivity.
Qed.

Lemma setTimeout_out (k : TimerKind) (d : Z) (x : World) :
  out (snd (setTimeout k d x)) = out x.
Proof. reflexivity. Qed.

(** X6.  An accepted transition calls the subscribers of 'stateChange',
    of 'state:<new>' and of 'from:<previous>', in this order and once each,
    with the context extended by [transitionDuration] and
    [colorTransitionMs]; the pre-transition callbacks were called before
    with the context as given; and the last timer set is the one of the
    post-transition callbacks, due after the duration of the state
    entered. *)
Theorem setState_notifies_in_order (target : AssistantState) (context : Context)
    (w : World) :
  target <> currentState (app w) ->
  let from := currentState (app w) in
  let w' := snd (setState (state_name target) context w) in
  let extended :=
    ctx_set "colorTransitionMs" (VNumber (colorTransitionMs target))
      (ctx_set "transitionDuration" (VNumber (getTransitionDuration target)) context) in
  notified (out w')
  = ([mkNote ("from:" ++ state_name from) target from extended;
      mkNote ("state:" ++ state_name target) target from extended;
      mkNote "stateChange" target from extended] ++ notified (out w))%list
  /\ transitions (out w')
     = mkCall "preTransition" (Some from) target context :: transitions (out w)
  /\ exists earlier,
       timers (env w')
       = (earlier ++ [mkTimer (pred (nextTimer (env w')))
                        (getTransitionDuration target)
                        (KPostTransition target context)])%list.
Proof.
  intros Hne from w' extended. unfold w'.
  destruct (setState_accept target context w Hne) as (x & Ho & _ & _ & _ & ->).
  cbn [snd]. fold from. fold extended.
  pose proof (notifyListeners_out target from extended x) as Hn.
  revert Hn. generalize (notifyListeners target from extended x). intros y Hy.
  rewrite !setTimeout_out, Hy, Ho.
  split; [reflexivity|]. split; [reflexivity|].
  destruct (setTimeout_fields (KPostTransition target context)
              (getTransitionDuration target) y) as (-> & -> & _).
  eexists. reflexivity.
Qed.

Lemma setState_notifies_in_order_witness :
  map n_event (notified (out (snd (setState "waking" [] (initial_world true false)))))
  = ["from:idle"; "state:waking"; "stateChange"].
Proof.
  assert (Hne : Waking <> currentState (app (initial_world true false)))
    by discriminate.
  exact (f_equal (map n_event)
           (proj1 (setState_notifies_in_order Waking [] (initial_world true false) Hne))).
Defined.

(** X7.  The table of [canTransitionTo]: the current state itself is never
    an allowed target, a name outside the enum never is, 'idle' is allowed
    exactly when [isActive], and 'error' exactly when not [isError]. *)
Theorem canTransitionTo_table (a : StateManager) :
  canTransitionTo (state_name (currentState a)) a = false
  /\ canTransitionTo "idle" a = isActive a
  /\ canTransitionTo "error" a = negb (isError a)
  /\ (forall name, isValidState name = false -> canTransitionTo name a = false).
Proof.
  unfold canTransitionTo, isActive, isError.
  split; [now destruct (currentState a)|].
  split; [now destruct (currentState a)|].
  split; [now destruct (currentState a)|].
  intros name H.
  destruct (existsb (String.eqb name)
              (map state_name (allowedTransitions (currentState a)))) eqn:E;
    [|reflexivity].
  apply existsb_exists in E. destruct E as (x & Hx & E). apply String.eqb_eq in E. subst x.
  rewrite <- H. symmetry. unfold isValidState. apply existsb_exists.
  exists name. split; [|apply String.eqb_refl].
  destruct (currentState a); simpl in Hx |- *; tauto.
Qed.

Lemma canTransitionTo_table_witness :
  canTransitionTo "sleeping" initial_app = false.
Proof. apply (canTransitionTo_table initial_app). reflexivity. Defined.

(* ----------------------------------------------------------------- *)
(** *** Further properties of the conversation logic *)

(** Listeners of a state other than Listening and Idle do nothing but
    take note. *)
Lemma notifyListeners_quiet (s p : AssistantState) (c : Context) (x : World) :
  s <> Listening -> s <> Idle ->
  vm (notifyListeners s p c x) = vm x /\ env (notifyListeners s p c x) = env x.
Proof.
  intros Hl Hi. unfold notifyListeners, onStateChange. cbv zeta.
  destruct s; try congruence; simpl; destruct (subscribed (vm x)); split; reflexivity.
Qed.

(** An accepted transition to a state other than Listening and Idle. *)
Lemma setState_elsewhere (target : AssistantState) (c : Context) (w : World) :
  target <> Listening -> target <> Idle -> target <> currentState (app w) ->
  let w' := snd (setState (state_name target) c w) in
  vm w' = vm w
  /\ env w' = env_nextTimer (S (nextTimer (env w)))
                (env_timers (timers (env w)
                             ++ [mkTimer (nextTimer (env w)) (getTransitionDuration target)
                                   (KPostTransition target c)]) (env w))
  /\ currentState (app w') = target
  /\ previousState (app w') = Some (currentState (app w))
  /\ dispatched (out w') = dispatched (out w)
  /\ spoken (out w') = spoken (out w)
  /\ primaryStarts (out w') = primaryStarts (out w)
  /\ resolvedSpeech (out w') = resolvedSpeech (out w).
Proof.
  intros Hl Hi Hne w'. unfold w'.
  pose proof (setState_accepted target c w Hne) as Ha.
  destruct (setState_accept target c w Hne) as (x & Ho & Hv & He & _ & E).
  rewrite E in *. cbn [snd] in *. clear E.
  match goal with |- context [notifyListeners target ?p ?c ?x] =>
    destruct (notifyListeners_quiet target p c x Hl Hi) as [Hnv Hne'];
    pose proof (notifyListeners_out target p c x) as Hno;
    revert Ha Hnv Hne' Hno; generalize (notifyListeners target p c x)
  end.
  intros y Ha Hnv Hne' Hno.
  destruct y as [ya yv ye yo]. simpl in *. subst.
  rewrite ?Hv, ?He, ?Ho. simpl. repeat split; reflexivity.
Qed.

Lemma clear_timeouts_effect (x : World) :
  let y := clearConversationTimeout (clearListeningTimeout x) in
  app y = app x /\ out y = out x
  /\ consecutiveErrors (vm y) = consecutiveErrors (vm x)
  /\ lastCommand (vm y) = lastCommand (vm x)
  /\ isPaused (vm y) = isPaused (vm x)
  /\ nextTimer (env y) = nextTimer (env x)
  /\ recognition (env y) = recognition (env x)
  /\ synthesis (env y) = synthesis (env x).
Proof.
  unfold clearConversationTimeout, clearListeningTimeout.
  destruct (listeningTimeout (vm x)) as [[|h]|]; simpl;
    destruct (conversationTimeout (vm x)) as [[|k]|]; simpl; repeat split; reflexivity.
Qed.

(** What [onCommandReceived] does up to the call of [processCommand]. *)
Lemma onCommandReceived_effect (c : string) (k : Z) (x : World) :
  currentState (app x) <> Thinking ->
  let y := onCommandReceived c k x in
  currentState (app y) = Thinking
  /\ previousState (app y) = Some (currentState (app x))
  /\ dispatched (out y) = c :: dispatched (out x)
  /\ spoken (out y) = spoken (out x)
  /\ primaryStarts (out y) = primaryStarts (out x)
  /\ isInConversation (vm y) = true
  /\ consecutiveErrors (vm y) = consecutiveErrors (vm x)
  /\ lastCommand (vm y) = lastCommand (vm x)
  /\ isPaused (vm y) = isPaused (vm x)
  /\ recognition (env y) = recognition (env x)
  /\ (forall local n, invariant local n x -> conversation_timers y = []).
Proof.
  intros Hne y. unfold y, onCommandReceived. cbv zeta.
  destruct (clear_timeouts_effect x) as (Ea & Eo & Ec & El & Ep & En & Er & Es).
  assert (Hnone : forall local n, invariant local n x ->
                    conversation_timers (clearConversationTimeout (clearListeningTimeout x)) = []).
  { intros local n H. apply (clearConversationTimeout_none local n).
    now apply clearListeningTimeout_inv. }
  revert Ea Eo Ec El Ep En Er Es Hnone.
  generalize (clearConversationTimeout (clearListeningTimeout x)). intros z.
  intros Ea Eo Ec El Ep En Er Es Hnone.
  set (z1 := with_vm (vm_isInConversation true) z).
  assert (Hz : Thinking <> currentState (app z1)).
  { unfold z1. simpl. rewrite Ea. congruence. }
  destruct (setState_elsewhere Thinking
              [("command", VString c); ("confidence", VNumber k)] z1
              ltac:(discriminate) ltac:(discriminate) Hz)
    as (Hv & He & Hc & Hp & Hd & Hs & Hps & _).
  simpl (state_name Thinking) in *.
  revert Hv He Hc Hp Hd Hs Hps.
  generalize (snd (setState "thinking"
                     [("command", VString c); ("confidence", VNumber k)] z1)).
  intros s Hv He Hc Hp Hd Hs Hps. unfold z1 in *. clear z1.
  destruct s as [sa sv se so]. simpl in *. subst sv se.
  rewrite Hc, Hp, Hd, Hs, Hps, Ea, Eo. simpl.
  do 10 (split; [first [reflexivity | assumption]|]).
  intros local n H. unfold conversation_timers in *. simpl.
  rewrite filter_app, (Hnone local n H). reflexivity.
Qed.

(** A command heard in Listening, in a world that satisfies the
    invariants. *)
Lemma dispatch_in_listening (local : bool) (n : nat) (w : World)
    (transcript : string) (confidence : Z) :
  invariant local n w ->
  let p := trim (toLowerCase transcript) in
  let command := if detectWakeWord p then extractCommandFromTranscript p else p in
  currentState (app w) = Listening ->
  isSpeaking (vm w) = false ->
  0 < String.length p ->
  (detectWakeWord p = true -> 2 < String.length (extractCommandFromTranscript p)) ->
  let w' := handleRecognitionResult transcript confidence true w in
  dispatched (out w') = command :: dispatched (out w)
  /\ currentState (app w') = Thinking
  /\ previousState (app w') = Some Listening
  /\ isInConversation (vm w') = true
  /\ conversation_timers w' = []
  /\ consecutiveErrors (vm w') = 0
  /\ lastCommand (vm w') = p.
Proof.
  intros Hinv p command Hs Hk Hp Hc w'.
  assert (E : w' = with_vm (vm_lastCommand p)
                     (onCommandReceived command confidence
                        (clearConversationTimeout (with_vm (vm_consecutiveErrors 0) w)))).
  { unfold w', handleRecognitionResult. fold p. cbv zeta.
    rewrite Hs, Hk. simpl (state_eqb _ _). cbn [orb negb andb].
    apply Nat.ltb_lt in Hp. rewrite Hp. cbv iota.
    unfold command. destruct (detectWakeWord p); [|reflexivity].
    specialize (Hc eq_refl). apply Nat.ltb_lt in Hc. now rewrite Hc. }
  clearbody w'. subst w'.
  set (x := clearConversationTimeout (with_vm (vm_consecutiveErrors 0) w)).
  assert (Hx : invariant local n x).
  { apply clearConversationTimeout_inv. revert Hinv. apply invariant_same; reflexivity. }
  assert (Fx : app x = app w /\ out x = out w /\ consecutiveErrors (vm x) = 0).
  { unfold x, clearConversationTimeout. simpl.
    destruct (conversationTimeout (vm w)) as [[|h]|]; repeat split; reflexivity. }
  destruct Fx as (Fa & Fo & Fc).
  assert (Hne : currentState (app x) <> Thinking) by (rewrite Fa, Hs; discriminate).
  destruct (onCommandReceived_effect command confidence x Hne)
    as (H1 & H2 & H3 & _ & _ & H6 & H7 & _ & _ & _ & H11).
  specialize (H11 local n Hx).
  revert H1 H2 H3 H6 H7 H11. generalize (onCommandReceived command confidence x).
  intros y H1 H2 H3 H6 H7 H11. simpl.
  rewrite H1, H2, H3, H6, H7, Fa, Fo, Fc, Hs. repeat split. exact H11.
Qed.

(** X8.  In Listening, with nothing being spoken, a final transcript that
    is not empty is dispatched: as it is (trimmed, in lower case) when it
    holds no wake word, and as what follows the wake word when that has
    more than two characters.  The state machine goes to Thinking, the
    conversation is marked active, no conversation timeout is left
    pending, the error count is reset and the transcript remembered. *)
Theorem command_in_listening_dispatched (es : list Event) (granted throws : bool)
    (transcript : string) (confidence : Z) :
  let w := run es (initial_world granted throws) in
  let p := trim (toLowerCase transcript) in
  let command := if detectWakeWord p then extractCommandFromTranscript p else p in
  currentState (app w) = Listening ->
  isSpeaking (vm w) = false ->
  0 < String.length p ->
  (detectWakeWord p = true -> 2 < String.length (extractCommandFromTranscript p)) ->
  let w' := handleRecognitionResult transcript confidence true w in
  dispatched (out w') = command :: dispatched (out w)
  /\ currentState (app w') = Thinking
  /\ previousState (app w') = Some Listening
  /\ isInConversation (vm w') = true
  /\ conversation_timers w' = []
  /\ consecutiveErrors (vm w') = 0
  /\ lastCommand (vm w') = p.
Proof.
  intros w. apply (dispatch_in_listening false 0 w). apply reachable_invariant.
Qed.

Lemma command_in_listening_dispatched_witness :
  let w := run [CallSetState "listening" []] (initial_world true false) in
  dispatched (out (handleRecognitionResult "  Turn ON the lights " 870 true w))
  = ["turn on the lights"].
Proof.
  intros w.
  apply (command_in_listening_dispatched [CallSetState "listening" []] true false
           "  Turn ON the lights " 870).
  - reflexivity.
  - reflexivity.
  - vm_compute. lia.
  - vm_compute. discriminate.
Defined.

Lemma startListeningTimeout_effect (y : World) :
  let z := startListeningTimeout y in
  app z = app y /\ out z = out y
  /\ In (mkTimer (nextTimer (env y)) listeningTimeoutDuration KListeningTimeout)
       (timers (env z))
  /\ listeningTimeout (vm z) = Some (nextTimer (env y)).
Proof.
  unfold startListeningTimeout, clearListeningTimeout.
  destruct (listeningTimeout (vm y)) as [[|h]|]; simpl; repeat split;
    try reflexivity; apply in_or_app; right; now left.
Qed.

(** The timer set last is pending under the handle given out last. *)
Lemma find_timer_new (local : bool) (n : nat) (k : TimerKind) (d : Z) (x : World) :
  k <> KRestart -> k <> KConversationTimeout -> invariant local n x ->
  find_timer (nextTimer (env x)) (snd (setTimeout k d x))
  = Some (mkTimer (nextTimer (env x)) d k).
Proof.
  intros Hk Hk' H.
  apply (find_timer_in local n _ (mkTimer (nextTimer (env x)) d k)).
  - now apply setTimeout_inv.
  - destruct x as [a v e o]; simpl. apply in_or_app. right. now left.
Qed.

(** X9.  In Idle, outside a conversation and with nothing being spoken, a
    final transcript with a wake word moves the state machine to Waking at
    once and dispatches nothing yet; a timer of 600 ms is the last one set.
    When more than two characters follow the wake word, that timer
    dispatches them as the command, with the fixed confidence 0.9, and the
    state machine goes from Waking straight to Thinking, a step the table
    of [canTransitionTo] does not list.  Otherwise the timer enters
    Listening and arms the listening timeout of 8 s. *)
Theorem wake_word_in_idle (es : list Event) (granted throws : bool)
    (transcript : string) (confidence : Z) :
  let w := run es (initial_world granted throws) in
  let p := trim (toLowerCase transcript) in
  let command := extractCommandFromTranscript p in
  currentState (app w) = Idle ->
  isInConversation (vm w) = false ->
  isSpeaking (vm w) = false ->
  detectWakeWord p = true ->
  let w1 := handleRecognitionResult transcript confidence true w in
  let id := pred (nextTimer (env w1)) in
  let w2 := fireTimer id w1 in
  currentState (app w1) = Waking
  /\ dispatched (out w1) = dispatched (out w)
  /\ (2 < String.length command ->
      find_timer id w1 = Some (mkTimer id 600 (KDelayedCommand command 900))
      /\ canTransitionTo "thinking" (app w1) = false
      /\ currentState (app w2) = Thinking
      /\ previousState (app w2) = Some Waking
      /\ dispatched (out w2) = command :: dispatched (out w))
  /\ (String.length command <= 2 ->
      find_timer id w1 = Some (mkTimer id 600 (KDelayedListening "wake-word"))
      /\ currentState (app w2) = Listening
      /\ dispatched (out w2) = dispatched (out w)
      /\ exists t, In t (timers (env w2))
                   /\ t_kind t = KListeningTimeout /\ t_delay t = 8000%Z
                   /\ listeningTimeout (vm w2) = Some (t_id t)).
Proof.
  intros w p command Hs Hc Hk Hd w1 id w2.
  assert (Hinv : invariant false 0 w) by apply reachable_invariant.
  set (w0 := if (0 <? String.length p)%nat then with_vm (vm_consecutiveErrors 0) w else w).
  assert (F0 : invariant false 0 w0 /\ app w0 = app w /\ out w0 = out w).
  { unfold w0. destruct (0 <? String.length p)%nat; [|tauto].
    split; [|split; reflexivity]. revert Hinv. apply invariant_same; reflexivity. }
  destruct F0 as (Hinv0 & Fa & Fo).
  set (K := if (2 <? String.length command)%nat
            then KDelayedCommand command 900 else KDelayedListening "wake-word").
  set (ctx := [("transcript", VString p)]).
  assert (E1 : w1 = with_vm (vm_lastCommand p)
                      (snd (setTimeout K 600 (snd (setState "waking" ctx w0))))).
  { unfold w1, handleRecognitionResult. fold p. cbv zeta. fold w0.
    rewrite Hs, Hk. simpl (state_eqb _ _). cbn [orb negb andb].
    replace (isInConversation (vm w0)) with false
      by (unfold w0; now destruct (0 <? String.length p)%nat).
    cbn [negb andb]. rewrite Hd. unfold onWakeWordDetected. cbv zeta.
    fold command. fold ctx. unfold K. now destruct (2 <? String.length command)%nat. }
  assert (Hne : Waking <> currentState (app w0)) by (rewrite Fa, Hs; discriminate).
  destruct (setState_elsewhere Waking ctx w0 ltac:(discriminate) ltac:(discriminate) Hne)
    as (_ & _ & S3 & _ & S5 & _).
  assert (Hs1 : invariant false 0 (snd (setState "waking" ctx w0)))
    by now apply setState_inv.
  simpl (state_name Waking) in *.
  revert E1 S3 S5 Hs1. generalize (snd (setState "waking" ctx w0)). intros s1 E1 S3 S5 Hs1.
  assert (HK : K <> KRestart /\ K <> KConversationTimeout)
    by (unfold K; destruct (2 <? String.length command)%nat; split; discriminate).
  destruct HK as [HK1 HK2].
  pose proof (find_timer_new false 0 K 600 s1 HK1 HK2 Hs1) as Hf.
  assert (Hs2 : invariant false 0 (clearTimeout (nextTimer (env s1))
                                     (snd (setTimeout K 600 s1))))
    by (apply clearTimeout_inv; now apply setTimeout_inv).
  destruct (setTimeout_fields K 600 s1) as (_ & T2 & T3 & T4 & T5 & _).
  destruct (clearTimeout_fields (nextTimer (env s1)) (snd (setTimeout K 600 s1)))
    as (_ & _ & C3 & _).
  assert (C4 : app (clearTimeout (nextTimer (env s1)) (snd (setTimeout K 600 s1)))
               = app s1) by reflexivity.
  assert (C5 : out (clearTimeout (nextTimer (env s1)) (snd (setTimeout K 600 s1)))
               = out s1) by reflexivity.
  assert (Eid : id = nextTimer (env s1)) by (unfold id; rewrite E1; reflexivity).
  assert (E2 : w2 = timerCallback K
                      (with_vm (vm_lastCommand p)
                         (clearTimeout (nextTimer (env s1)) (snd (setTimeout K 600 s1))))).
  { unfold w2, fireTimer. rewrite Eid, E1.
    change (find_timer (nextTimer (env s1))
              (with_vm (vm_lastCommand p) (snd (setTimeout K 600 s1))))
      with (find_timer (nextTimer (env s1)) (snd (setTimeout K 600 s1))).
    rewrite Hf. reflexivity. }
  assert (Ef : find_timer id w1 = Some (mkTimer id 600 K)).
  { rewrite Eid, E1. exact Hf. }
  clearbody w1 w2 id. subst w1 w2 id.
  revert Hs2 C3 C4 C5.
  generalize (clearTimeout (nextTimer (env s1)) (snd (setTimeout K 600 s1))).
  intros x Hx C3 C4 C5.
  split; [exact S3|]. split; [simpl; now rewrite S5, Fo|].
  split.
  - intros Hl. apply Nat.ltb_lt in Hl. unfold K in *. rewrite Hl in *.
    split; [exact Ef|]. split; [simpl; unfold canTransitionTo; now rewrite S3|].
    cbn [timerCallback].
    assert (Hne' : currentState (app (with_vm (vm_lastCommand p) x)) <> Thinking)
      by (simpl; rewrite C4, S3; discriminate).
    destruct (onCommandReceived_effect command 900 _ Hne') as (H1 & H2 & H3 & _).
    rewrite H1, H2, H3. simpl. rewrite C4, C5, S3, S5, Fo. repeat split.
  - intros Hl. apply Nat.ltb_ge in Hl. unfold K in *. rewrite Hl in *.
    split; [exact Ef|]. cbn [timerCallback]. unfold delayedListening.
    set (c := [("source", VString "wake-word")]).
    pose proof (setState_listening_state c (with_vm (vm_lastCommand p) x)) as L1.
    destruct (setState_listening_frame c (with_vm (vm_lastCommand p) x))
      as (_ & L2 & _).
    revert L1 L2. generalize (snd (setState "listening" c (with_vm (vm_lastCommand p) x))).
    intros y L1 L2.
    destruct (startListeningTimeout_effect y) as (Z1 & Z2 & Z3 & Z4).
    rewrite Z1, Z2, L1, L2. simpl. rewrite C5, S5, Fo.
    split; [reflexivity|]. split; [reflexivity|].
    eexists. split; [exact Z3|]. split; [reflexivity|]. split; [reflexivity|]. exact Z4.
Qed.

Lemma wake_word_in_idle_witness :
  let w1 := handleRecognitionResult "Hey Luna, what time is it?" 700 true
              (initial_world true false) in
  dispatched (out (fireTimer (pred (nextTimer (env w1))) w1)) = ["what time is it"]
  /\ currentState (app (fireTimer (pred (nextTimer (env w1))) w1)) = Thinking.
Proof.
  intros w1.
  destruct (wake_word_in_idle [] true false "Hey Luna, what time is it?" 700
              eq_refl eq_refl eq_refl eq_refl) as (_ & _ & H & _).
  assert (Hl : 2 < String.length
                     (extractCommandFromTranscript
                        (trim (toLowerCase "Hey Luna, what time is it?"))))
    by (vm_compute; lia).
  destruct (H Hl) as (_ & _ & H3 & _ & H5).
  split; [exact H5 | exact H3].
Defined.

(* ----------------------------------------------------------------- *)
(** *** What a state transition leaves alone *)

#[local] Hint Extern 1 (aside _ = aside _) => keep_case : face.

Lemma aside_fields (x y : World) :
  aside x = aside y ->
  dispatched (out x) = dispatched (out y) /\ spoken (out x) = spoken (out y)
  /\ resolvedSpeech (out x) = resolvedSpeech (out y)
  /\ primaryStarts (out x) = primaryStarts (out y)
  /\ synthesis (env x) = synthesis (env y)
  /\ recognition (env x) = recognition (env y)
  /\ isSpeaking (vm x) = isSpeaking (vm y)
  /\ isPaused (vm x) = isPaused (vm y)
  /\ subscribed (vm x) = subscribed (vm y)
  /\ useLocalDetection (vm x) = useLocalDetection (vm y)
  /\ currentSpeechResolve (vm x) = currentSpeechResolve (vm y)
  /\ lastCommand (vm x) = lastCommand (vm y)
  /\ consecutiveErrors (vm x) = consecutiveErrors (vm y)
  /\ listeningTimeout (vm x) = listeningTimeout (vm y)
  /\ conversationTimeout (vm x) = conversationTimeout (vm y).
Proof.
  unfold aside. intros H.
  injection H as -> -> -> -> -> -> _ _ _ _ -> -> -> -> -> -> -> -> ->. tauto.
Qed.

Lemma cancelPendingRestart_aside (w : World) : aside (cancelPendingRestart w) = aside w.
Proof. unfold cancelPendingRestart. auto 20 with face. Qed.

Lemma scheduleRestart_aside (d : Z) (w : World) : aside (scheduleRestart d w) = aside w.
Proof.
  unfold scheduleRestart.
  destruct (isPaused (vm (cancelPendingRestart w)));
    [apply cancelPendingRestart_aside|].
  rewrite setTimeout_pair. cbv beta iota.
  transitivity (aside (cancelPendingRestart w)); [reflexivity|].
  apply cancelPendingRestart_aside.
Qed.

Lemma onStateChange_aside (s p : AssistantState) (w : World) :
  aside (onStateChange s p w) = aside w.
Proof.
  unfold onStateChange.
  repeat match goal with |- context [if ?c then _ else _] => destruct c end;
    try reflexivity.
  now rewrite scheduleRestart_aside.
Qed.

Lemma notifyListeners_aside (s p : AssistantState) (c : Context) (w : World) :
  aside (notifyListeners s p c w) = aside w.
Proof.
  unfold notifyListeners. cbv zeta.
  match goal with |- context [if subscribed ?v then ?a else ?b] =>
    assert (Hs : aside (if subscribed v then a else b) = aside w)
      by (destruct (subscribed v); [rewrite onStateChange_aside|]; reflexivity);
    revert Hs; generalize (if subscribed v then a else b)
  end.
  intros y Hy. rewrite <- Hy. reflexivity.
Qed.

Lemma state_of_name_some (name : string) (s : AssistantState) :
  state_of_name name = Some s -> name = state_name s.
Proof.
  unfold state_of_name. intros H. apply find_some in H. destruct H as [_ H].
  now apply String.eqb_eq.
Qed.

Lemma setState_aside (name : string) (c : Context) (w : World) :
  aside (snd (setState name c w)) = aside w.
Proof.
  destruct (state_of_name name) as [target|] eqn:E.
  - apply state_of_name_some in E. subst name.
    destruct (state_eqb (currentState (app w)) target) eqn:Es.
    + apply state_eqb_eq in Es. symmetry in Es.
      now rewrite (setState_current target c w (eq_sym Es)).
    + assert (Hne : target <> currentState (app w)).
      { intros H. symmetry in H. apply state_eqb_eq in H. congruence. }
      destruct (setState_accept target c w Hne) as (x & Ho & Hv & He & _ & ->).
      cbn [snd].
      match goal with |- aside (snd (setTimeout ?k ?d ?y)) = _ =>
        transitivity (aside y); [reflexivity|] end.
      rewrite notifyListeners_aside. unfold aside. rewrite Ho, Hv, He. reflexivity.
  - unfold setState. rewrite E. now destruct (negb (isValidState name)).
Qed.

(** A subscribed voice manager drops the conversation flag when Idle is
    entered. *)
Lemma onStateChange_idle (p : AssistantState) (x : World) :
  isInConversation (vm (onStateChange Idle p x)) = false.
Proof.
  unfold onStateChange.
  change (state_eqb Idle Listening) with false.
  change (state_eqb Idle Idle) with true. cbv iota. cbn [andb].
  destruct (isInConversation (vm x)) eqn:Ei; [|exact Ei].
  match goal with |- context [if ?c then _ else _] => destruct c end; [|reflexivity].
  match goal with |- context [scheduleRestart 200 ?y] =>
    pose proof (scheduleRestart_face 200 y) as F end.
  apply face_fields in F. destruct F as (_ & _ & _ & _ & _ & _ & _ & _ & _ & _ & _ & F).
  rewrite F. reflexivity.
Qed.

Lemma notifyListeners_idle (p : AssistantState) (k : Context) (x : World) :
  (subscribed (vm x) = true -> isInConversation (vm (notifyListeners Idle p k x)) = false)
  /\ (isInConversation (vm x) = false ->
      isInConversation (vm (notifyListeners Idle p k x)) = false).
Proof.
  unfold notifyListeners. cbv zeta.
  match goal with |- context [if subscribed ?v then onStateChange Idle p ?a else ?b] =>
    change (subscribed v) with (subscribed (vm x));
    pose proof (onStateChange_idle p a) as H;
    assert (Hb : vm b = vm x) by reflexivity;
    revert H Hb; generalize (onStateChange Idle p a); generalize b
  end.
  intros b y H Hb.
  change (vm (with_out ?f (with_out ?g ?m))) with (vm m).
  destruct (subscribed (vm x)); split; intros E; try discriminate; try exact H.
  now rewrite Hb.
Qed.

Lemma setState_idle_effect (c : Context) (w : World) :
  currentState (app w) <> Idle ->
  let w' := snd (setState "idle" c w) in
  currentState (app w') = Idle
  /\ previousState (app w') = Some (currentState (app w))
  /\ (subscribed (vm w) = true -> isInConversation (vm w') = false)
  /\ (isInConversation (vm w) = false -> isInConversation (vm w') = false).
Proof.
  intros Hne w'.
  assert (Hne' : Idle <> currentState (app w)) by congruence.
  pose proof (setState_accepted Idle c w Hne') as Ha.
  destruct (setState_accept Idle c w Hne') as (x & _ & Hv & _ & _ & E).
  simpl (state_name Idle) in *. unfold w'. rewrite E in *. cbn [snd] in *. clear E.
  rewrite Ha. cbv zeta. cbn [currentState previousState].
  split; [reflexivity|]. split; [reflexivity|].
  match goal with |- context [notifyListeners Idle ?p ?k x] =>
    destruct (notifyListeners_idle p k x) as [H1 H2];
    revert H1 H2; generalize (notifyListeners Idle p k x)
  end.
  intros y H1 H2. rewrite Hv in *. split; assumption.
Qed.

(* ----------------------------------------------------------------- *)
(** *** Transcripts without effect, and the two timeouts *)

(** X10.  Transcripts that do nothing.  While the state is Speaking or
    the speaking flag is set, an interim result and a final one without a
    wake word leave everything as it is.  Otherwise a final result changes
    nothing but the remembered transcript and, when it is not empty, the
    error count, which it clears: when the state is Thinking or Error,
    when it is Idle within a conversation, when it is Idle or Waking and
    no wake word is found, or when it is Listening and the transcript is
    empty. *)
Theorem transcripts_without_effect (transcript : string) (confidence : Z)
    (isFinal : bool) (w : World) :
  let p := trim (toLowerCase transcript) in
  let w' := handleRecognitionResult transcript confidence isFinal w in
  ((currentState (app w) = Speaking \/ isSpeaking (vm w) = true) ->
   (isFinal = false \/ detectWakeWord p = false) -> w' = w)
  /\ (isSpeaking (vm w) = false -> isFinal = true ->
      (currentState (app w) = Thinking \/ currentState (app w) = Error
       \/ (currentState (app w) = Idle /\ isInConversation (vm w) = true)
       \/ ((currentState (app w) = Idle \/ currentState (app w) = Waking)
           /\ detectWakeWord p = false)
       \/ (currentState (app w) = Listening /\ p = "")) ->
      w' = with_vm (vm_lastCommand p)
             (if (0 <? String.length p)%nat
              then with_vm (vm_consecutiveErrors 0) w else w)).
Proof.
  intros p w'. unfold w', handleRecognitionResult. fold p. cbv zeta. split.
  - intros Hs Hf.
    assert (E : state_eqb (currentState (app w)) Speaking || isSpeaking (vm w) = true).
    { destruct Hs as [-> | ->]; [reflexivity | apply orb_true_r]. }
    rewrite E. destruct Hf as [-> | ->]; [reflexivity|]. now destruct isFinal.
  - intros Hk -> Hc. rewrite Hk, orb_false_r. cbn [negb].
    assert (Ei : forall b : bool,
              isInConversation (vm (if b then with_vm (vm_consecutiveErrors 0) w else w))
              = isInConversation (vm w)) by (now intros []).
    rewrite Ei.
    destruct Hc as [Hc | [Hc | [[Hc Hi] | [[[Hc | Hc] Hd] | [Hc Hp]]]]];
      rewrite Hc;
      repeat match goal with |- context [state_eqb ?a ?b] =>
               let v := eval compute in (state_eqb a b) in
               change (state_eqb a b) with v
             end;
      cbn [negb andb]; cbv iota;
      rewrite ?Hi, ?Hd, ?Hp; cbn [negb andb String.length Nat.ltb Nat.leb]; cbv iota;
      repeat match goal with |- context [if ?c then _ else _] => destruct c end;
      reflexivity.
Qed.

Lemma transcripts_without_effect_witness :
  let w := run [CallCommandReceived "lights on" 900] (initial_world true false) in
  handleRecognitionResult "Hello there" 900 true w
  = with_vm (vm_lastCommand (trim (toLowerCase "Hello there")))
      (if (0 <? String.length (trim (toLowerCase "Hello there")))%nat
       then with_vm (vm_consecutiveErrors 0) w else w).
Proof.
  intros w.
  apply (proj2 (transcripts_without_effect "Hello there" 900 true w)).
  - vm_compute. reflexivity.
  - reflexivity.
  - left. vm_compute. reflexivity.
Defined.

Lemma speak_effect (text : string) (x : World) :
  let y := snd (speak text x) in
  app y = app x
  /\ dispatched (out y) = dispatched (out x)
  /\ isSpeaking (vm y) = isSpeaking (vm x)
  /\ isInConversation (vm y) = isInConversation (vm x)
  /\ subscribed (vm y) = subscribed (vm x)
  /\ (synthesis (env x) <> None ->
      spoken (out y) = text :: spoken (out x) /\ synthesis (env y) = Some true).
Proof.
  unfold speak. cbv zeta. simpl.
  destruct (synthesis (env x)) as [b|]; simpl.
  - repeat split; reflexivity.
  - destruct (existsb _ _); simpl; repeat split; try reflexivity; congruence.
Qed.

(** X11.  When the listening timeout fires in Listening, the re-prompt is
    handed to the synthesiser and the state machine goes to Idle at once,
    without waiting for the speech and without setting the speaking flag;
    nothing is dispatched, and a subscribed voice manager ends the
    conversation.  The re-prompt itself contains the wake phrase.  In any
    other state the timer only leaves the queue. *)
Theorem listening_timeout_expiry (w : World) (id : TimerId) (t : Timer) :
  find_timer id w = Some t -> t_kind t = KListeningTimeout ->
  let w' := fireTimer id w in
  let reprompt := "I didn't catch that. Say 'Hey Luna' when you need me." in
  (currentState (app w) = Listening ->
   currentState (app w') = Idle
   /\ dispatched (out w') = dispatched (out w)
   /\ isSpeaking (vm w') = isSpeaking (vm w)
   /\ (subscribed (vm w) = true -> isInConversation (vm w') = false)
   /\ (synthesis (env w) <> None ->
       spoken (out w') = reprompt :: spoken (out w)
       /\ synthesis (env w') = Some true)
   /\ detectWakeWord reprompt = true)
  /\ (currentState (app w) <> Listening -> w' = clearTimeout id w).
Proof.
  intros Hf Hk w' reprompt. unfold w', fireTimer. rewrite Hf, Hk.
  cbn [timerCallback]. unfold listeningTimeoutCallback.
  change (currentState (app (clearTimeout id w))) with (currentState (app w)).
  split.
  - intros Hs. rewrite Hs. change (state_eqb Listening Listening) with true. cbv iota.
    fold reprompt.
    destruct (speak_effect reprompt (clearTimeout id w)) as (Sa & Sd & Ss & Si & Sb & Sp).
    revert Sa Sd Ss Si Sb Sp. generalize (snd (speak reprompt (clearTimeout id w))).
    intros y Sa Sd Ss Si Sb Sp.
    change (app (clearTimeout id w)) with (app w) in Sa.
    change (out (clearTimeout id w)) with (out w) in Sd, Sp.
    change (vm (clearTimeout id w)) with (vm w) in Ss, Si, Sb.
    change (synthesis (env (clearTimeout id w))) with (synthesis (env w)) in Sp.
    assert (Hne : currentState (app y) <> Idle) by (rewrite Sa, Hs; discriminate).
    destruct (setState_idle_effect [] y Hne) as (I1 & _ & I3 & _).
    pose proof (setState_aside "idle" [] y) as A. apply aside_fields in A.
    destruct A as (A1 & A2 & _ & _ & A5 & _ & A7 & _).
    revert I1 I3 A1 A2 A5 A7. generalize (snd (setState "idle" [] y)).
    intros z I1 I3 A1 A2 A5 A7.
    split; [exact I1|]. split; [congruence|]. split; [congruence|].
    split; [intros H; apply I3; congruence|].
    split; [|reflexivity].
    intros H. destruct (Sp H) as [P1 P2]. split; congruence.
  - intros Hs. destruct (state_eqb (currentState (app w)) Listening) eqn:E;
      [|reflexivity].
    apply state_eqb_eq in E. contradiction.
Qed.

Lemma listening_timeout_expiry_witness :
  let w := run [CallWakeWordDetected "hey luna"; Fire 2]
             (initial_world true false) in
  currentState (app w) = Listening
  /\ currentState (app (fireTimer 5 w)) = Idle
  /\ spoken (out (fireTimer 5 w))
     = ["I didn't catch that. Say 'Hey Luna' when you need me."].
Proof.
  intros w.
  assert (Hf : find_timer 5 w = Some (mkTimer 5 8000 KListeningTimeout)) by reflexivity.
  assert (Hs : currentState (app w) = Listening) by reflexivity.
  assert (Hy : synthesis (env w) <> None) by (vm_compute; discriminate).
  destruct (listening_timeout_expiry w 5 _ Hf eq_refl) as [H _].
  destruct (H Hs) as (H1 & _ & _ & _ & H5 & _).
  split; [exact Hs|]. split; [exact H1|]. exact (proj1 (H5 Hy)).
Defined.

(** X12.  Outside Speaking, an interim result of more than three
    characters during a conversation cancels the conversation timeout and
    does not arm a new one: afterwards none is pending.  A shorter one,
    or one outside a conversation, changes nothing. *)
Theorem interim_result_disarms_timeout (es : list Event) (granted throws : bool)
    (transcript : string) (confidence : Z) :
  let w := run es (initial_world granted throws) in
  let p := trim (toLowerCase transcript) in
  currentState (app w) <> Speaking -> isSpeaking (vm w) = false ->
  let w' := handleRecognitionResult transcript confidence false w in
  (isInConversation (vm w) = true -> 3 < String.length p ->
   conversation_timers w' = [] /\ app w' = app w /\ out w' = out w
   /\ isInConversation (vm w') = true)
  /\ (isInConversation (vm w) = false \/ String.length p <= 3 -> w' = w).
Proof.
  intros w p Hs Hk w'.
  assert (Hinv : invariant false 0 w) by apply reachable_invariant.
  assert (E : w' = onInterimResult p w).
  { unfold w', handleRecognitionResult. fold p. cbv zeta. rewrite Hk, orb_false_r.
    destruct (state_eqb (currentState (app w)) Speaking) eqn:E; [|reflexivity].
    apply state_eqb_eq in E. contradiction. }
  rewrite E. unfold onInterimResult. split.
  - intros Hi Hl. apply Nat.ltb_lt in Hl. rewrite Hi, Hl. cbn [andb].
    split; [apply (clearConversationTimeout_none false 0 w Hinv)|].
    unfold clearConversationTimeout.
    destruct (conversationTimeout (vm w)) as [[|h]|]; simpl; rewrite ?Hi; repeat split.
  - intros [Hi | Hl]; [now rewrite Hi|].
    apply Nat.ltb_ge in Hl. rewrite Hl. now rewrite andb_false_r.
Qed.

Lemma interim_result_disarms_timeout_witness :
  let w := run [CallCommandReceived "lights on" 900; CommandResponse "lights on" "done";
                SpeakSettled; Fire 5; Fire 6]
             (initial_world true false) in
  conversation_timers w <> []
  /\ conversation_timers (handleRecognitionResult "turn the" 500 false w) = [].
Proof.
  intros w. split; [vm_compute; discriminate|].
  refine (proj1 (proj1 (interim_result_disarms_timeout
            [CallCommandReceived "lights on" 900; CommandResponse "lights on" "done";
             SpeakSettled; Fire 5; Fire 6] true false "turn the" 500 _ _) _ _)).
  - vm_compute. discriminate.
  - reflexivity.
  - reflexivity.
  - vm_compute. lia.
Defined.

Lemma cancelPendingRestart_no_conversation (y : World) :
  conversation_timers y = [] -> conversation_timers (cancelPendingRestart y) = [].
Proof.
  unfold cancelPendingRestart, conversation_timers.
  destruct (pendingRestart (vm y)) as [[|h]|]; trivial.
  destruct y as [a v e o]; simpl. intros E. apply filter_none.
  intros t Hin. apply filter_In in Hin. now apply (filter_none_in _ _ _ E).
Qed.

Lemma scheduleRestart_no_conversation (d : Z) (y : World) :
  conversation_timers y = [] -> conversation_timers (scheduleRestart d y) = [].
Proof.
  intros E. apply cancelPendingRestart_no_conversation in E.
  unfold scheduleRestart.
  destruct (isPaused (vm (cancelPendingRestart y))); [exact E|].
  revert E. generalize (cancelPendingRestart y). intros [a v e o].
  unfold conversation_timers. simpl. intros E. now rewrite filter_app, E.
Qed.

(** X13.  A pending conversation timeout is the only one.  When it fires
    in Listening during a conversation, the conversation ends at once, the
    state machine stays in Listening for another 50 ms, and the timer set
    for that delay takes it to Idle; no conversation timeout is pending
    any more.  In any other situation the timer only leaves the queue. *)
Theorem conversation_timeout_expiry (es : list Event) (granted throws : bool)
    (t : Timer) :
  let w := run es (initial_world granted throws) in
  In t (timers (env w)) -> t_kind t = KConversationTimeout ->
  let w1 := fireTimer (t_id t) w in
  let id := pred (nextTimer (env w1)) in
  conversation_timers w = [t]
  /\ conversation_timers w1 = []
  /\ (currentState (app w) = Listening -> isInConversation (vm w) = true ->
      isInConversation (vm w1) = false
      /\ currentState (app w1) = Listening
      /\ find_timer id w1 = Some (mkTimer id 50 KConversationIdle)
      /\ currentState (app (fireTimer id w1)) = Idle)
  /\ (currentState (app w) <> Listening \/ isInConversation (vm w) = false ->
      w1 = clearTimeout (t_id t) w).
Proof.
  intros w Hin Hk w1 id. subst id.
  assert (Hinv : invariant false 0 w) by apply reachable_invariant.
  assert (Hc : is_conversation t = true) by (unfold is_conversation; now rewrite Hk).
  assert (Hone : conversation_timers w = [t]).
  { pose proof (conversation_timers_le_1 false 0 w Hinv) as Hl.
    assert (Hf : In t (conversation_timers w)) by (apply filter_In; tauto).
    destruct (conversation_timers w) as [|a [|b l]]; simpl in *; try lia; try tauto.
    destruct Hf as [-> | []]. reflexivity. }
  assert (Hx : invariant false 0 (clearTimeout (t_id t) w)) by now apply clearTimeout_inv.
  assert (Hnone : conversation_timers (clearTimeout (t_id t) w) = []).
  { apply invariant_fields in Hinv.
    destruct Hinv as ((_ & _ & Hnd) & _ & _ & Hct & _).
    unfold conversation_timers. apply filter_none. intros x Hx'.
    destruct (is_conversation x) eqn:Ex; [exfalso | reflexivity].
    change (timers (env (clearTimeout (t_id t) w)))
      with (without (t_id t) (timers (env w))) in Hx'.
    apply filter_In in Hx'. destruct Hx' as [Hx1 Hx2].
    pose proof (Hct x Hx1 Ex) as E1. pose proof (Hct t Hin Hc) as E2.
    rewrite E1 in E2. injection E2 as E2. rewrite E2, Nat.eqb_refl in Hx2. discriminate. }
  assert (E1 : w1 = conversationTimeoutCallback (clearTimeout (t_id t) w)).
  { unfold w1, fireTimer. rewrite (find_timer_in false 0 w t Hinv Hin), Hk. reflexivity. }
  assert (Fa : app (clearTimeout (t_id t) w) = app w) by reflexivity.
  assert (Fv : vm (clearTimeout (t_id t) w) = vm w) by reflexivity.
  clearbody w1. subst w1. revert Hx Hnone Fa Fv.
  generalize (clearTimeout (t_id t) w). intros x Hx Hnone Fa Fv.
  split; [exact Hone|].
  unfold conversationTimeoutCallback in *. rewrite Fa, Fv in *.
  destruct (state_eqb (currentState (app w)) Listening && isInConversation (vm w)) eqn:Ec.
  - apply andb_prop in Ec. destruct Ec as [Es Ei]. apply state_eqb_eq in Es.
    set (y := if negb (isListening (vm (with_vm (vm_isInConversation false) x)))
                 && negb (isRestarting (vm (with_vm (vm_isInConversation false) x)))
                 && negb (useLocalDetection (vm (with_vm (vm_isInConversation false) x)))
              then scheduleRestart 100 (with_vm (vm_isInConversation false) x)
              else with_vm (vm_isInConversation false) x) in *.
    assert (Hy : invariant false 0 y /\ conversation_timers y = []
                 /\ app y = app w /\ isInConversation (vm y) = false).
    { assert (H0 : invariant false 0 (with_vm (vm_isInConversation false) x))
        by (revert Hx; apply invariant_same; reflexivity).
      unfold y. destruct (_ && _).
      - split; [now apply scheduleRestart_inv|].
        split; [now apply scheduleRestart_no_conversation|].
        split; [now rewrite scheduleRestart_app|].
        pose proof (scheduleRestart_face 100 (with_vm (vm_isInConversation false) x)) as F.
        apply face_fields in F.
        destruct F as (_ & _ & _ & _ & _ & _ & _ & _ & _ & _ & _ & F). now rewrite F.
      - tauto. }
    clearbody y. destruct Hy as (Hy & Hyc & Hya & Hyi).
    pose proof (find_timer_new false 0 KConversationIdle 50 y
                  ltac:(discriminate) ltac:(discriminate) Hy) as Hf.
    change (pred (nextTimer (env (snd (setTimeout KConversationIdle 50 y)))))
      with (nextTimer (env y)).
    split.
    { unfold conversation_timers in *. destruct y as [a v e o]; simpl in *.
      now rewrite filter_app, Hyc. }
    split.
    + intros _ _. split; [exact Hyi|]. split; [now rewrite <- Es, <- Hya|].
      split; [exact Hf|].
      unfold fireTimer. rewrite Hf. cbn [timerCallback t_kind].
      apply setState_idle_effect. simpl. rewrite Hya, Es. discriminate.
    + intros [Hs | Hi]; congruence.
  - split; [exact Hnone|]. split; [|reflexivity].
    intros Hs Hi. rewrite Hs, Hi in Ec. discriminate.
Qed.

Lemma conversation_timeout_expiry_witness :
  let w := run [CallCommandReceived "lights on" 900; CommandResponse "lights on" "done";
                SpeakSettled; Fire 5; Fire 6] (initial_world true false) in
  let w1 := fireTimer 7 w in
  conversation_timers w = [mkTimer 7 15000 KConversationTimeout]
  /\ currentState (app w1) = Listening
  /\ currentState (app (fireTimer (pred (nextTimer (env w1))) w1)) = Idle.
Proof.
  intros w w1.
  assert (Hin : In (mkTimer 7 15000 KConversationTimeout) (timers (env w)))
    by (vm_compute; tauto).
  destruct (conversation_timeout_expiry
              [CallCommandReceived "lights on" 900; CommandResponse "lights on" "done";
               SpeakSettled; Fire 5; Fire 6] true false _ Hin eq_refl)
    as (H1 & _ & H3 & _).
  destruct (H3 eq_refl eq_refl) as (_ & H5 & _ & H7).
  split; [exact H1|]. split; [exact H5 | exact H7].
Defined.

(* ----------------------------------------------------------------- *)
(** *** Muted recognition *)

Create HintDb mute.

Section Muted.

Variable n : nat.

Lemma muted_same (w w' : World) :
  isPaused (vm w') = isPaused (vm w) ->
  primaryStarts (out w') = primaryStarts (out w) ->
  muted n w -> muted n w'.
Proof. unfold muted. intros -> ->. trivial. Qed.

Lemma muted_aside (w w' : World) : aside w' = aside w -> muted n w -> muted n w'.
Proof.
  intros H. apply aside_fields in H.
  destruct H as (_ & _ & _ & Hp & _ & _ & _ & Hm & _). now apply muted_same.
Qed.

Ltac calm w := apply (muted_same w); [reflexivity | reflexivity | ].

(** One step through the body of a function. *)
Ltac muted_case :=
  lazymatch goal with
  | |- muted _ (with_vm _ ?w) => calm w
  | |- muted _ (with_env _ ?w) => calm w
  | |- muted _ (with_out _ ?w) => calm w
  | |- muted _ (clearTimeout _ ?w) => calm w
  | |- muted _ (snd (setTimeout _ _ ?w)) => calm w
  | |- muted _ (match setTimeout ?k ?d ?w with _ => _ end) =>
      rewrite (setTimeout_pair k d w); cbv beta iota
  | |- muted _ (if ?c then _ else _) => destruct c eqn:?
  | |- muted _ (match ?x with _ => _ end) => destruct x eqn:?
  end.

#[local] Hint Extern 1 (muted _ _) => muted_case : mute.

Ltac muted_auto := intros; auto 80 with mute.

Lemma scheduleRestart_muted (d : Z) (w : World) :
  muted n w -> muted n (scheduleRestart d w).
Proof. apply muted_aside, scheduleRestart_aside. Qed.

Lemma cancelPendingRestart_muted (w : World) :
  muted n w -> muted n (cancelPendingRestart w).
Proof. apply muted_aside, cancelPendingRestart_aside. Qed.

Lemma setState_muted (name : string) (c : Context) (w : World) :
  muted n w -> muted n (snd (setState name c w)).
Proof. apply muted_aside, setState_aside. Qed.

(** The guard of [startWakeWordDetection]. *)
Lemma startWakeWordDetection_muted (w : World) :
  muted n w -> muted n (startWakeWordDetection w).
Proof.
  intros H. unfold startWakeWordDetection. destruct H as [Hp Hn]. rewrite Hp.
  now split.
Qed.

Lemma restartCallback_muted (w : World) :
  muted n w -> muted n (restartCallback w).
Proof.
  intros [Hp Hn]. unfold restartCallback. cbv zeta. simpl. rewrite Hp. now split.
Qed.

#[local] Hint Resolve scheduleRestart_muted cancelPendingRestart_muted setState_muted
  startWakeWordDetection_muted restartCallback_muted : mute.

Lemma clearListeningTimeout_muted (w : World) :
  muted n w -> muted n (clearListeningTimeout w).
Proof. unfold clearListeningTimeout. muted_auto. Qed.

Lemma clearConversationTimeout_muted (w : World) :
  muted n w -> muted n (clearConversationTimeout w).
Proof. unfold clearConversationTimeout. muted_auto. Qed.

#[local] Hint Resolve clearListeningTimeout_muted clearConversationTimeout_muted : mute.

Lemma startListeningTimeout_muted (w : World) :
  muted n w -> muted n (startListeningTimeout w).
Proof. unfold startListeningTimeout. muted_auto. Qed.

Lemma startConversationTimeout_muted (w : World) :
  muted n w -> muted n (startConversationTimeout w).
Proof. unfold startConversationTimeout. muted_auto. Qed.

Lemma resolvePromise_muted (p : nat) (w : World) :
  muted n w -> muted n (resolvePromise p w).
Proof.
  unfold resolvePromise. apply muted_same; [reflexivity|].
  simpl. now destruct (existsb _ _).
Qed.

Lemma synthesisCancel_muted (w : World) :
  muted n w -> muted n (synthesisCancel w).
Proof. unfold synthesisCancel. muted_auto. Qed.

#[local] Hint Resolve startListeningTimeout_muted startConversationTimeout_muted
  resolvePromise_muted synthesisCancel_muted : mute.

Lemma speak_muted (text : string) (w : World) :
  muted n w -> muted n (snd (speak text w)).
Proof.
  unfold speak. cbv zeta. simpl (synthesis _).
  destruct (synthesis (env w)); cbn [snd]; muted_auto.
Qed.

Lemma onUtteranceEnd_muted (p : nat) (w : World) :
  muted n w -> muted n (onUtteranceEnd p w).
Proof. unfold onUtteranceEnd. muted_auto. Qed.

Lemma forceRestartRecognition_muted (k : AfterForce) (w : World) :
  muted n w -> muted n (snd (forceRestartRecognition k w)).
Proof. unfold forceRestartRecognition. muted_auto. Qed.

#[local] Hint Resolve speak_muted onUtteranceEnd_muted forceRestartRecognition_muted : mute.

Lemma interruptSpeaking_muted (w : World) :
  muted n w -> muted n (snd (interruptSpeaking w)).
Proof. unfold interruptSpeaking. muted_auto. Qed.

Lemma onCommandReceived_muted (t : string) (c : Z) (w : World) :
  muted n w -> muted n (onCommandReceived t c w).
Proof. unfold onCommandReceived. muted_auto. Qed.

Lemma onCommandResponse_muted (t x : string) (w : World) :
  muted n w -> muted n (onCommandResponse t x w).
Proof. unfold onCommandResponse. muted_auto. Qed.

Lemma onSpeakSettled_muted (w : World) :
  muted n w -> muted n (onSpeakSettled w).
Proof. unfold onSpeakSettled. muted_auto. Qed.

Lemma finishConversationTurn_muted (w : World) :
  muted n w -> muted n (finishConversationTurn w).
Proof. unfold finishConversationTurn. muted_auto. Qed.

#[local] Hint Resolve interruptSpeaking_muted onCommandReceived_muted
  onCommandResponse_muted onSpeakSettled_muted finishConversationTurn_muted : mute.

Lemma postTts_muted (w : World) : muted n w -> muted n (postTts w).
Proof. unfold postTts. muted_auto. Qed.

Lemma forceRestartResume_muted (k : AfterForce) (w : World) :
  muted n w -> muted n (forceRestartResume k w).
Proof. unfold forceRestartResume. muted_auto. Qed.

Lemma onCommandFailed_muted (m : string) (w : World) :
  muted n w -> muted n (onCommandFailed m w).
Proof. unfold onCommandFailed. muted_auto. Qed.

Lemma errorRecovery_muted (w : World) : muted n w -> muted n (errorRecovery w).
Proof. unfold errorRecovery. muted_auto. Qed.

Lemma handleLateResponse_muted (t : string) (w : World) :
  muted n w -> muted n (handleLateResponse t w).
Proof. unfold handleLateResponse. muted_auto. Qed.

Lemma lateResponseSpoken_muted (w : World) :
  muted n w -> muted n (lateResponseSpoken w).
Proof. unfold lateResponseSpoken. muted_auto. Qed.

Lemma onWakeWordDetected_muted (t : string) (w : World) :
  muted n w -> muted n (onWakeWordDetected t w).
Proof. unfold onWakeWordDetected. muted_auto. Qed.

Lemma delayedListening_muted (s : string) (w : World) :
  muted n w -> muted n (delayedListening s w).
Proof. unfold delayedListening. muted_auto. Qed.

Lemma onInterimResult_muted (t : string) (w : World) :
  muted n w -> muted n (onInterimResult t w).
Proof. unfold onInterimResult. muted_auto. Qed.

#[local] Hint Resolve postTts_muted forceRestartResume_muted onCommandFailed_muted
  errorRecovery_muted handleLateResponse_muted lateResponseSpoken_muted
  onWakeWordDetected_muted delayedListening_muted onInterimResult_muted : mute.

Lemma handleRecognitionResult_muted (t : string) (c : Z) (f : bool) (w : World) :
  muted n w -> muted n (handleRecognitionResult t c f w).
Proof. unfold handleRecognitionResult. muted_auto. Qed.

Lemma onRecognitionStart_muted (w : World) :
  muted n w -> muted n (onRecognitionStart w).
Proof. unfold onRecognitionStart. muted_auto. Qed.

Lemma onRecognitionEnd_muted (w : World) :
  muted n w -> muted n (onRecognitionEnd w).
Proof. unfold onRecognitionEnd. muted_auto. Qed.

Lemma onRecognitionError_muted (e : string) (w : World) :
  muted n w -> muted n (onRecognitionError e w).
Proof. unfold onRecognitionError, initLocalDetection. muted_auto. Qed.

Lemma onSpeechStart_muted (w : World) : muted n w -> muted n (onSpeechStart w).
Proof. unfold onSpeechStart. muted_auto. Qed.

Lemma stopWakeWordDetection_muted (w : World) :
  muted n w -> muted n (stopWakeWordDetection w).
Proof. unfold stopWakeWordDetection. intros [Hp Hn]. now split. Qed.

Lemma listeningTimeoutCallback_muted (w : World) :
  muted n w -> muted n (listeningTimeoutCallback w).
Proof. unfold listeningTimeoutCallback. muted_auto. Qed.

Lemma conversationTimeoutCallback_muted (w : World) :
  muted n w -> muted n (conversationTimeoutCallback w).
Proof. unfold conversationTimeoutCallback. muted_auto. Qed.

Lemma stateSyncListening_muted (w : World) :
  muted n w -> muted n (stateSyncListening w).
Proof. unfold stateSyncListening. muted_auto. Qed.

Lemma getStateDuration_muted (w : World) :
  muted n w -> muted n (snd (getStateDuration w)).
Proof. rewrite getStateDuration_unfold. cbn [snd]. muted_auto. Qed.

#[local] Hint Resolve handleRecognitionResult_muted onRecognitionStart_muted
  onRecognitionEnd_muted onRecognitionError_muted onSpeechStart_muted
  stopWakeWordDetection_muted listeningTimeoutCallback_muted
  conversationTimeoutCallback_muted stateSyncListening_muted
  getStateDuration_muted : mute.

Lemma timerCallback_muted (k : TimerKind) (w : World) :
  k <> KInterruptResume -> muted n w -> muted n (timerCallback k w).
Proof.
  intros Hk H. destruct k; cbn [timerCallback]; try congruence;
    unfold executeTransitionCallbacks; muted_auto.
Qed.

Lemma step_muted (e : Event) (w : World) :
  e <> CallResume ->
  (forall id t, e = Fire id -> find_timer id w = Some t -> t_kind t <> KInterruptResume) ->
  muted n w -> muted n (step e w).
Proof.
  intros He Hf H. destruct e; cbn [step]; try congruence; try solve [muted_auto].
  unfold fireTimer. destruct (find_timer id w) as [t|] eqn:E; [|exact H].
  apply timerCallback_muted; [now apply (Hf id t)|]. muted_auto.
Qed.

End Muted.


(* ----------------------------------------------------------------- *)
(** *** Failing starts, and the late post-transition callback *)


(** An accepted transition from a world that satisfies the invariants:
    [y] is the world when the timer of the post-transition callbacks is
    about to be set.  A pending timer that [pendingRestart] does not name
    is still pending then. *)
Lemma setState_accept_inv (local : bool) (n : nat) (target : AssistantState)
    (c : Context) (w : World) :
  target <> currentState (app w) -> invariant local n w ->
  exists y,
    invariant local n y
    /\ snd (setState (state_name target) c w)
       = snd (setTimeout (KPostTransition target c) (getTransitionDuration target) y)
    /\ transitions (out y)
       = mkCall "preTransition" (Some (currentState (app w))) target c
           :: transitions (out w)
    /\ currentState (app y) = target
    /\ previousState (app y) = Some (currentState (app w))
    /\ (forall t, In t (timers (env w)) ->
                  (forall h, pendingRestart (vm w) = Some h -> h <> t_id t) ->
                  In t (timers (env y))).
Proof.
  intros Hne H.
  pose proof (setState_inv local n (state_name target) c w H) as H1.
  pose proof (setState_accepted target c w Hne) as Ha.
  destruct (setState_accept target c w Hne) as (x & Ho & Hv & He & Hx & E).
  rewrite E in *. cbn [snd] in *. clear E.
  assert (Hxi : invariant local n x).
  { apply (invariant_history local n w);
      [now rewrite He | now rewrite He | now rewrite Hv | now rewrite Hv
      | now rewrite Hv | now rewrite Ho | | exact H].
    rewrite Hx. apply H1. }
  match goal with |- context [notifyListeners target ?p ?k x] =>
    exists (notifyListeners target p k x);
    pose proof (notifyListeners_inv local n target p k x Hxi) as Hy;
    pose proof (notifyListeners_out target p k x) as Hno;
    assert (Hk : forall t, In t (timers (env x)) ->
                   (forall h, pendingRestart (vm x) = Some h -> h <> t_id t) ->
                   In t (timers (env (notifyListeners target p k x))));
    [|revert Ha Hy Hno Hk; generalize (notifyListeners target p k x)]
  end.
  { intros t Hin Hh. unfold notifyListeners. cbv zeta.
    match goal with |- context [if subscribed ?v then onStateChange ?s ?p ?a else ?b] =>
      change (timers (env (with_out ?f (with_out ?g ?m)))) with (timers (env m));
      destruct (subscribed v); [|exact Hin];
      assert (Hia : In t (timers (env a))) by exact Hin;
      assert (Hpa : pendingRestart (vm a) = pendingRestart (vm x)) by reflexivity;
      revert Hia Hpa; generalize a
    end.
    intros a Hia Hpa. unfold onStateChange.
    repeat match goal with |- context [if ?c then _ else _] => destruct c end;
      try exact Hia.
    - destruct a as [aa av ae ao]; simpl in *. apply in_or_app. now left.
    - apply scheduleRestart_keeps; [exact Hia|]. simpl. now rewrite Hpa. }
  intros y Ha Hy Hno Hk.
  split; [exact Hy|]. split; [reflexivity|].
  rewrite Hno. simpl. rewrite Ho. split; [reflexivity|].
  change (app (snd (setTimeout (KPostTransition target c)
                      (getTransitionDuration target) y))) with (app y) in Ha.
  rewrite Ha. cbv zeta. split; [reflexivity|]. split; [reflexivity|].
  intros t Hin Hh. apply Hk; [now rewrite He | now rewrite Hv].
Qed.

(** X16.  The post-transition callbacks read [previousState] when their
    timer fires, not when the transition was made.  Fired before any other
    transition they report the transition as it was; fired after a second
    transition they report, for the first one, the state it entered as
    both [from] and [to]. *)
Theorem post_transition_reads_previous_late (es : list Event) (granted throws : bool)
    (t1 t2 : AssistantState) (c1 c2 : Context) :
  let w := run es (initial_world granted throws) in
  t1 <> currentState (app w) -> t2 <> t1 ->
  let w1 := snd (setState (state_name t1) c1 w) in
  let id := pred (nextTimer (env w1)) in
  let w2 := snd (setState (state_name t2) c2 w1) in
  find_timer id w1
  = Some (mkTimer id (getTransitionDuration t1) (KPostTransition t1 c1))
  /\ transitions (out (fireTimer id w1))
     = mkCall "postTransition" (Some (currentState (app w))) t1 c1 :: transitions (out w1)
  /\ transitions (out (fireTimer id w2))
     = mkCall "postTransition" (Some t1) t1 c1 :: transitions (out w2).
Proof.
  intros w Hne1 Hne2 w1 id w2. subst id.
  assert (Hinv : invariant false 0 w) by apply reachable_invariant.
  destruct (setState_accept_inv false 0 t1 c1 w Hne1 Hinv)
    as (y1 & Hy1 & E1 & _ & Hc1 & Hp1 & _).
  fold w1 in E1.
  set (K := KPostTransition t1 c1) in *. set (d := getTransitionDuration t1) in *.
  pose proof (find_timer_new false 0 K d y1 ltac:(discriminate) ltac:(discriminate) Hy1)
    as Hf.
  assert (Hw1 : invariant false 0 w1)
    by (rewrite E1; apply setTimeout_inv; [discriminate | discriminate | exact Hy1]).
  assert (Eid : pred (nextTimer (env w1)) = nextTimer (env y1)) by (now rewrite E1).
  rewrite Eid. rewrite <- E1 in Hf.
  split; [exact Hf|].
  assert (Ha1 : currentState (app w1) = t1 /\ previousState (app w1) = Some (currentState (app w)))
    by (rewrite E1; split; assumption).
  destruct Ha1 as [Hc1' Hp1'].
  split.
  - unfold fireTimer. rewrite Hf. cbn [t_kind]. unfold K. cbn [timerCallback].
    unfold executeTransitionCallbacks. simpl. now rewrite Hp1'.
  - assert (Hne2' : t2 <> currentState (app w1)) by (rewrite Hc1'; exact Hne2).
    destruct (setState_accept_inv false 0 t2 c2 w1 Hne2' Hw1)
      as (y2 & Hy2 & E2 & _ & Hc2 & Hp2 & Hk2).
    fold w2 in E2.
    assert (Hin1 : In (mkTimer (nextTimer (env y1)) d K) (timers (env w1)))
      by (rewrite E1; destruct y1 as [a v e o]; simpl; apply in_or_app; right; now left).
    assert (Hh : forall h, pendingRestart (vm w1) = Some h ->
                           h <> t_id (mkTimer (nextTimer (env y1)) d K)).
    { intros h Hh. rewrite E1 in Hh. change (pendingRestart (vm y1) = Some h) in Hh.
      apply invariant_fields in Hy1. destruct Hy1 as (_ & (Hfr & _) & _).
      apply Hfr in Hh. simpl. lia. }
    pose proof (Hk2 _ Hin1 Hh) as Hin2.
    assert (Hw2 : invariant false 0 w2)
      by (rewrite E2; apply setTimeout_inv; [discriminate | discriminate | exact Hy2]).
    assert (Hin2' : In (mkTimer (nextTimer (env y1)) d K) (timers (env w2)))
      by (rewrite E2; destruct y2 as [a v e o]; simpl in *; apply in_or_app; now left).
    pose proof (find_timer_in false 0 w2 _ Hw2 Hin2') as Hf2. cbn [t_id] in Hf2.
    assert (Hp2' : previousState (app w2) = Some t1)
      by (rewrite E2; change (previousState (app y2) = Some t1); now rewrite Hp2, Hc1').
    unfold fireTimer. rewrite Hf2. cbn [t_kind]. unfold K. cbn [timerCallback].
    unfold executeTransitionCallbacks. simpl. now rewrite Hp2'.
Qed.

Lemma post_transition_reads_previous_late_witness :
  let w := initial_world true false in
  let w2 := run [CallSetState "waking" []; CallSetState "listening" []] w in
  transitions (out (fireTimer 1 w2))
  = mkCall "postTransition" (Some Waking) Waking [] :: transitions (out w2).
Proof.
  intros w w2.
  assert (H1 : Waking <> currentState (app (run [] (initial_world true false))))
    by discriminate.
  assert (H2 : Listening <> Waking) by discriminate.
  exact (proj2 (proj2 (post_transition_reads_previous_late [] true false
                         Waking Listening [] [] H1 H2))).
Defined.

(* ----------------------------------------------------------------- *)
(** *** The round trip of a request *)

Lemma processCommand_waiting (cmd : string) (t0 : Z) :
  waiting cmd (t0 + 15000) InitialDeadline (processCommand cmd t0)
  /\ now (processCommand cmd t0) = t0.
Proof.
  rewrite processCommand_unfold. unfold waiting. simpl.
  repeat split; try reflexivity. exists 0. repeat split. lia.
Qed.

(** Before its deadline a waiting request only sees the clock move. *)
Lemma advance_waiting (cmd : string) (due : Z) (d : Deadline) (t : Z) (r : Request) :
  waiting cmd due d r -> (t < due)%Z ->
  advance t r = rq_now (Z.max (now r) t) r.
Proof.
  intros (_ & _ & _ & _ & _ & _ & k & Ha & _) Ht. unfold advance. rewrite Ha. simpl.
  rewrite Ha. simpl. destruct (Z.leb_spec due t); [lia | reflexivity].
Qed.

(** At its deadline a waiting request is resolved with the local
    response. *)
Lemma advance_expired (cmd : string) (due : Z) (d : Deadline) (t : Z) (r : Request) :
  waiting cmd due d r -> (due <= t)%Z ->
  settled (advance t r)
  /\ resolvedWith (advance t r) = Some (LocalResponse cmd).
Proof.
  intros (Hc & Hr & Hi & Hw & Hl & Htool & k & Ha & Hid & _) Ht.
  unfold advance. rewrite Ha. simpl. rewrite Ha. simpl.
  destruct (Z.leb_spec due t); [|lia].
  destruct r as [c nw al na ti ir tp ins rw lr]. simpl in *. subst.
  unfold clearAlarm, rq_alarms, rq_now. simpl. rewrite Nat.eqb_refl. simpl.
  destruct d; simpl.
  - rewrite (Htool eq_refl). simpl. unfold settled. simpl.
    repeat split; try reflexivity; discriminate.
  - unfold settled. simpl. repeat split; try reflexivity; discriminate.
Qed.

Lemma advance_settled (t : Z) (r : Request) :
  settled r -> settled (advance t r) /\ resolvedWith (advance t r) = resolvedWith r.
Proof.
  intros (Hr & Hi & Hw & Ha & Hl). unfold advance. rewrite Ha. simpl.
  unfold settled. simpl. tauto.
Qed.

Lemma deliver_settled (m : Message) (r : Request) : settled r -> deliver m r = r.
Proof. intros (_ & Hi & _). unfold deliver. now rewrite Hi. Qed.

Lemma rq_now_waiting (cmd : string) (due : Z) (d : Deadline) (t : Z) (r : Request) :
  waiting cmd due d r -> waiting cmd due d (rq_now t r).
Proof. unfold waiting. simpl. trivial. Qed.

(** A response or an error settles a waiting request; a tool start puts
    the deadline one minute after the present. *)
Lemma deliver_waiting (cmd : string) (due : Z) (d : Deadline) (m : Message)
    (r : Request) :
  waiting cmd due d r ->
  match m with
  | ToolStart =>
      waiting cmd (now r + 60000) ToolDeadline (deliver m r)
      /\ toolInProgress (deliver m r) = true /\ now (deliver m r) = now r
  | TextResponse text =>
      settled (deliver m r) /\ resolvedWith (deliver m r) = Some (ApiResponse text)
  | ErrorMessage =>
      settled (deliver m r) /\ resolvedWith (deliver m r) = Some (LocalResponse cmd)
  end.
Proof.
  intros (Hc & Hr & Hi & Hw & Hl & Htool & k & Ha & Hid & Hn).
  destruct r as [c nw al na ti ir tp ins rw lr]. simpl in *. subst.
  unfold deliver. simpl. destruct m; simpl.
  - unfold waiting. simpl. rewrite Nat.eqb_refl. simpl.
    repeat split; try reflexivity; try discriminate.
    destruct na as [|na]; [lia|]. exists na. repeat split. lia.
  - unfold onResponse, settled. simpl. rewrite Nat.eqb_refl. simpl.
    repeat split; try reflexivity; discriminate.
  - unfold onError, settled. simpl. rewrite Nat.eqb_refl. simpl.
    repeat split; try reflexivity; discriminate.
Qed.

(** Whatever arrives, a request is either waiting on one timer or
    settled. *)
Lemma receive_cases (cmd : string) (t : Z) (m : Message) (r : Request) :
  (exists due d, waiting cmd due d r) \/ settled r ->
  (exists due d, waiting cmd due d (receive t m r)) \/ settled (receive t m r).
Proof.
  intros [(due & d & H) | H]; unfold receive.
  - destruct (Z.ltb_spec t due) as [Hlt | Hge].
    + rewrite (advance_waiting cmd due d t r H Hlt).
      pose proof (deliver_waiting cmd due d m _
                    (rq_now_waiting cmd due d (Z.max (now r) t) r H)) as Hd.
      destruct m; [left | right | right]; try tauto.
      eexists. eexists. exact (proj1 Hd).
    + destruct (advance_expired cmd due d t r H Hge) as [Hs _].
      right. now rewrite deliver_settled.
  - destruct (advance_settled t r H) as [Hs _]. right. now rewrite deliver_settled.
Qed.

Lemma session_cases (cmd : string) (ms : list (Z * Message)) (r : Request) :
  (exists due d, waiting cmd due d r) \/ settled r ->
  (exists due d, waiting cmd due d (session ms r)) \/ settled (session ms r).
Proof.
  revert r. induction ms as [|[t m] ms IH]; intros r H; [exact H|].
  apply IH. now apply receive_cases.
Qed.

(** X17.  The bookkeeping of a request that no other request overlaps.
    Whatever messages arrive and whenever, the handlers of the closure are
    installed exactly as long as the promise is unresolved; the promise has
    a value exactly when [isResolved] is set; at most one timer is pending,
    and none once the promise is resolved; and the branch of the response
    handler that hands a late response to [handleLateResponse] is never
    taken, the handler being taken down before a late response can
    arrive. *)
Theorem request_bookkeeping (cmd : string) (t0 : Z) (ms : list (Z * Message)) :
  let r := session ms (processCommand cmd t0) in
  installed r = negb (isResolved r)
  /\ (isResolved r = true <-> resolvedWith r <> None)
  /\ List.length (alarms r) <= 1
  /\ (isResolved r = true -> alarms r = [])
  /\ lateResponses r = [].
Proof.
  intros r.
  destruct (session_cases cmd ms (processCommand cmd t0)) as [(due & d & H) | H].
  { left. eexists. eexists. exact (proj1 (processCommand_waiting cmd t0)). }
  - fold r in H. destruct H as (_ & Hr & Hi & Hw & Hl & _ & k & Ha & _).
    rewrite Hr, Hi, Hw, Hl, Ha. simpl. repeat split; try lia; try discriminate.
    intros H. now elim H.
  - fold r in H. destruct H as (Hr & Hi & Hw & Ha & Hl).
    rewrite Hr, Hi, Hl, Ha. simpl. repeat split; try lia; auto.
Qed.

Lemma request_bookkeeping_witness :
  let r := session [(20000, TextResponse "too late"); (21000, TextResponse "again")]%Z
             (processCommand "lights on" 0) in
  resolvedWith r = Some (LocalResponse "lights on") /\ lateResponses r = [].
Proof.
  intros r. split; [reflexivity|].
  apply (request_bookkeeping "lights on" 0
           [(20000, TextResponse "too late"); (21000, TextResponse "again")]%Z).
Defined.

Lemma session_no_tool (cmd : string) (t0 : Z) (ms : list (Z * Message)) (r : Request) :
  (forall tm, In tm ms -> snd tm <> ToolStart) ->
  waiting cmd (t0 + 15000) InitialDeadline r \/ settled r ->
  waiting cmd (t0 + 15000) InitialDeadline (session ms r) \/ settled (session ms r).
Proof.
  revert r. induction ms as [|[t m] ms IH]; intros r Hm H; [exact H|].
  apply IH; [intros tm Hin; apply Hm; now right|].
  assert (Hne : m <> ToolStart) by (apply (Hm (t, m)); now left).
  cbn [fst snd]. unfold receive. destruct H as [H | H].
  - destruct (Z.ltb_spec t (t0 + 15000)) as [Hlt | Hge].
    + rewrite (advance_waiting _ _ _ t r H Hlt).
      pose proof (deliver_waiting _ _ _ m _ (rq_now_waiting _ _ _ (Z.max (now r) t) r H))
        as Hd.
      destruct m; [congruence | right | right]; tauto.
    + destruct (advance_expired _ _ _ t r H Hge) as [Hs _].
      right. now rewrite deliver_settled.
  - destruct (advance_settled t r H) as [Hs _]. right. now rewrite deliver_settled.
Qed.

(** X18.  Without a tool start the request never hangs: whatever
    responses and errors arrive, and whenever, the promise is resolved by
    the time the initial deadline of 15 s has passed, the timer is gone and
    the handlers are put back; when nothing arrives at all it is resolved
    with the local response. *)
Theorem request_settles_without_tool (cmd : string) (t0 t : Z)
    (ms : list (Z * Message)) :
  (forall tm, In tm ms -> snd tm <> ToolStart) ->
  (t0 + 15000 <= t)%Z ->
  let r := advance t (session ms (processCommand cmd t0)) in
  isResolved r = true /\ resolvedWith r <> None /\ alarms r = []
  /\ installed r = false
  /\ (ms = [] -> resolvedWith r = Some (LocalResponse cmd)).
Proof.
  intros Hm Ht r.
  assert (Hs : settled r).
  { destruct (session_no_tool cmd t0 ms (processCommand cmd t0) Hm) as [H | H].
    - left. exact (proj1 (processCommand_waiting cmd t0)).
    - exact (proj1 (advance_expired _ _ _ t _ H Ht)).
    - exact (proj1 (advance_settled t _ H)). }
  destruct Hs as (Hr & Hi & Hw & Ha & _).
  repeat (split; [assumption|]).
  intros ->. unfold r. simpl.
  exact (proj2 (advance_expired _ _ _ t _ (proj1 (processCommand_waiting cmd t0)) Ht)).
Qed.

Lemma request_settles_without_tool_witness :
  isResolved (advance 15000 (session [(3000, ErrorMessage); (4000, TextResponse "hi")]%Z
                               (processCommand "hello" 0))) = true.
Proof.
  apply (request_settles_without_tool "hello" 0 15000
           [(3000, ErrorMessage); (4000, TextResponse "hi")]%Z).
  - intros tm [<- | [<- | []]]; discriminate.
  - lia.
Defined.

(** X19.  Every tool start restarts the minute.  In a request that is
    still unresolved, whatever came before, a tool start arriving before
    the pending deadline cancels that deadline and sets one of 60 s from
    its own arrival: the promise stays unresolved until then and is
    resolved with the local response when that minute has passed, so tool
    starts that keep arriving postpone the fallback without bound. *)
Theorem tool_start_restarts_the_minute (cmd : string) (t0 t1 : Z)
    (ms : list (Z * Message)) :
  let r := session ms (processCommand cmd t0) in
  isResolved r = false ->
  (now r <= t1)%Z ->
  (forall a, In a (alarms r) -> (t1 < a_due a)%Z) ->
  let r' := receive t1 ToolStart r in
  (exists id, alarms r' = [mkAlarm id (t1 + 60000) ToolDeadline])
  /\ isResolved r' = false
  /\ (forall t, (t < t1 + 60000)%Z -> isResolved (advance t r') = false)
  /\ (forall t, (t1 + 60000 <= t)%Z ->
                resolvedWith (advance t r') = Some (LocalResponse cmd)).
Proof.
  intros r Hr Hn Hd r'.
  destruct (session_cases cmd ms (processCommand cmd t0)) as [(due & d & H) | H].
  { left. eexists. eexists. exact (proj1 (processCommand_waiting cmd t0)). }
  2: { fold r in H. destruct H as (H & _). congruence. }
  fold r in H.
  assert (Hlt : (t1 < due)%Z).
  { destruct H as (_ & _ & _ & _ & _ & _ & k & Ha & _).
    apply (Hd (mkAlarm (S k) due d)). rewrite Ha. now left. }
  assert (E : r' = deliver ToolStart (rq_now t1 r)).
  { unfold r', receive. rewrite (advance_waiting cmd due d t1 r H Hlt).
    now rewrite Z.max_r by lia. }
  destruct (deliver_waiting cmd due d ToolStart _ (rq_now_waiting cmd due d t1 r H))
    as (Hw & _ & _).
  rewrite <- E in Hw. simpl (now (rq_now t1 r)) in Hw. clearbody r'.
  split.
  { destruct Hw as (_ & _ & _ & _ & _ & _ & k & Ha & _). now exists (S k). }
  split; [apply Hw|]. split.
  - intros t Hlt'. rewrite (advance_waiting _ _ _ t r' Hw Hlt'). apply Hw.
  - intros t Hge. exact (proj2 (advance_expired _ _ _ t r' Hw Hge)).
Qed.

Lemma tool_start_restarts_the_minute_witness :
  let r := session [(10000, ToolStart)]%Z (processCommand "play music" 0) in
  isResolved (advance 100000 (receive 65000 ToolStart r)) = false.
Proof.
  intros r.
  assert (H1 : isResolved r = false) by (vm_compute; reflexivity).
  assert (H2 : (now r <= 65000)%Z) by (vm_compute; discriminate).
  assert (H3 : forall a, In a (alarms r) -> (65000 < a_due a)%Z)
    by (intros a Ha; vm_compute in Ha; destruct Ha as [<- | []]; reflexivity).
  assert (HL : (100000 < 65000 + 60000)%Z) by lia.
  exact (proj1 (proj2 (proj2 (tool_start_restarts_the_minute "play music" 0 65000
                                [(10000, ToolStart)]%Z H1 H2 H3))) 100000%Z HL).
Defined.

(* ----------------------------------------------------------------- *)
(** *** The WebSocket client *)

Lemma sendWsMessage_open (m : Outgoing) (c : Client) (i : nat) :
  ws c = Some i -> readyState i c = Some OPEN ->
  sendWsMessage m c = (true, cl_sentFrames (sentFrames c ++ [(i, m)]) c).
Proof. intros Hw Hr. unfold sendWsMessage, isOpen. now rewrite Hw, Hr. Qed.

(** X20.  With the current socket open, [processMessageQueue] ends after
    as many rounds as there are queued messages: every one of them has
    been sent on that socket, in the order in which they were queued, none
    twice and none lost, and the queue is empty. *)
Theorem queue_flushed_in_order (c : Client) (i : nat) (fuel : nat) :
  ws c = Some i -> readyState i c = Some OPEN ->
  List.length (messageQueue c) <= fuel ->
  processMessageQueue fuel c
  = Some (cl_messageQueue []
            (cl_sentFrames (sentFrames c ++ map (pair i) (messageQueue c)) c)).
Proof.
  revert c. induction fuel as [|fuel IH]; intros c Hw Hr Hl.
  - destruct c as [so w ic ra q mx uw ct sf rt cc]. simpl in *.
    destruct q; [|simpl in Hl; lia]. simpl. now rewrite app_nil_r.
  - destruct c as [so w ic ra q mx uw ct sf rt cc]. simpl in *.
    destruct q as [|m q]; [simpl; now rewrite app_nil_r|]. simpl in Hl.
    rewrite (sendWsMessage_open m _ i) by assumption. cbn [snd].
    rewrite IH by (simpl; try assumption; lia).
    unfold cl_messageQueue, cl_sentFrames. simpl. now rewrite <- app_assoc.
Qed.

Lemma queue_flushed_in_order_witness :
  let hello := mkOutgoing "input.text" (Some "hello") in
  let beat := mkOutgoing "heartbeat" None in
  let c := mkClient [CLOSED; OPEN] (Some 1) true 0 [hello; beat] 5 true false [] 0 [] in
  option_map sentFrames (processMessageQueue 2 c) = Some [(1, hello); (1, beat)].
Proof.
  intros hello beat c.
  rewrite (queue_flushed_in_order c 1 2 eq_refl eq_refl); [reflexivity | simpl; lia].
Defined.

Lemma connect_not_open (c : Client) : isOpen c = false -> isOpen (connect c) = false.
Proof.
  intros H. unfold connect. rewrite H.
  destruct (constructorThrows c); [exact H|].
  unfold isOpen, readyState. simpl.
  rewrite nth_error_app2 by lia. now rewrite Nat.sub_diag.
Qed.

(** X21.  Without an open current socket [processMessageQueue] never
    ends once a message is queued: each round takes the first message off
    the queue, [sendWsMessage] puts it back at the end and calls
    [connect], which leaves a socket that is not open yet; so no number of
    rounds empties the queue. *)
Theorem queue_never_drains_without_open_socket (c : Client) :
  isOpen c = false -> messageQueue c <> [] ->
  forall fuel, processMessageQueue fuel c = None.
Proof.
  intros Ho Hq fuel. revert c Ho Hq.
  induction fuel as [|fuel IH]; intros c Ho Hq.
  - simpl. destruct (messageQueue c); [congruence | reflexivity].
  - simpl. destruct (messageQueue c) as [|m q] eqn:E; [congruence|].
    apply IH.
    + unfold sendWsMessage.
      change (isOpen (cl_messageQueue q c)) with (isOpen c). rewrite Ho. cbn [snd].
      apply connect_not_open. exact Ho.
    + unfold sendWsMessage.
      change (isOpen (cl_messageQueue q c)) with (isOpen c). rewrite Ho. cbn [snd].
      unfold connect.
      change (isOpen (cl_messageQueue (messageQueue (cl_messageQueue q c) ++ [m])
                        (cl_messageQueue q c))) with (isOpen c).
      rewrite Ho. destruct (constructorThrows _); simpl; now destruct q.
Qed.

Lemma queue_never_drains_without_open_socket_witness :
  let c1 := connect initial_client in
  let c2 := setReadyState 0 CLOSING (cl_isConnected true (setReadyState 0 OPEN c1)) in
  let c3 := onClose 0 (snd (sendMessage "lights on" c2)) in
  let c4 := reconnectTimer c3 in
  ws c4 = Some 2 /\ onOpen 1000 1 c4 = None.
Proof.
  intros c1 c2 c3 c4. split; [reflexivity|].
  unfold onOpen. cbv zeta.
  apply queue_never_drains_without_open_socket.
  - reflexivity.
  - discriminate.
Defined.

(** X22.  An explicit [disconnect()] does not last.  It drops the socket
    and clears [isConnected]; but when the close event of that socket
    arrives, [attemptReconnect] runs as after any loss of the connection,
    and unless the attempts are used up its timer creates a new socket,
    which becomes the current one. *)
Theorem disconnect_is_followed_by_reconnect (c : Client) (i : nat) :
  ws c = Some i ->
  reconnectAttempts c < maxReconnectAttempts c ->
  constructorThrows c = false ->
  let c1 := disconnect c in
  let c2 := onClose i c1 in
  let c3 := reconnectTimer c2 in
  ws c1 = None /\ isConnected c1 = false
  /\ reconnectTimers c2 = S (reconnectTimers c)
  /\ reconnectAttempts c2 = S (reconnectAttempts c)
  /\ ws c3 = Some (List.length (sockets c))
  /\ readyState (List.length (sockets c)) c3 = Some CONNECTING.
Proof.
  intros Hw Ha Ht c1 c2 c3.
  assert (Hlen : forall (l : list ReadyState) j s, List.length (set_nth j s l) = List.length l).
  { induction l as [|x l IH]; intros [|j] s; simpl; auto. }
  assert (E1 : c1 = cl_isConnected false (cl_ws None (setReadyState i CLOSING c)))
    by (unfold c1, disconnect; now rewrite Hw).
  assert (Hle : (maxReconnectAttempts c <=? reconnectAttempts c)%nat = false)
    by (apply Nat.leb_gt; lia).
  destruct c as [so w ic ra q mx uw ct sf rt cc]. simpl in *. subst w ct.
  unfold c3, c2, reconnectTimer, onClose, attemptReconnect. rewrite E1. cbv zeta. simpl.
  rewrite Hle. simpl. unfold connect, isOpen. simpl.
  unfold readyState. simpl. rewrite !Hlen.
  repeat split. rewrite nth_error_app2 by (rewrite !Hlen; lia).
  rewrite !Hlen, Nat.sub_diag. reflexivity.
Qed.

Lemma disconnect_is_followed_by_reconnect_witness :
  let c := cl_isConnected true (setReadyState 0 OPEN (connect initial_client)) in
  ws (reconnectTimer (onClose 0 (disconnect c))) = Some 1.
Proof.
  intros c.
  assert (Ha : reconnectAttempts c < maxReconnectAttempts c) by (simpl; lia).
  exact (proj1 (proj2 (proj2 (proj2 (proj2
           (disconnect_is_followed_by_reconnect c 0 eq_refl Ha eq_refl)))))).
Defined.

(* ----------------------------------------------------------------- *)
(** *** Local fallback responses *)

(** X23.  Which local response a command gets.  Patterns are looked for
    anywhere in the command in lower case, also inside words, and the
    categories are tried in the order greeting, time, date, help, thanks,
    goodbye, identity.  The patterns 'what time', 'current time', 'thanks'
    and 'goodbye' never decide anything, each containing another pattern
    of its category.  A command that matches nothing gets the action
    'unknown' with a text that quotes the command as it was given. *)
Theorem local_response_decided (timeText dateText command : string) :
  let cmd := toLowerCase command in
  let has p := includes p cmd in
  let reply := getLocalResponse timeText dateText command in
  r_action reply
  = (if has "hello" || has "hi" || has "hey" || has "good morning" then "greeting"
     else if has "time" then "time"
     else if has "date" || has "what day" || has "today" then "date"
     else if has "help" || has "what can you do" then "help"
     else if has "thank" || has "appreciate" then "thanks"
     else if has "bye" || has "see you" then "goodbye"
     else if has "your name" || has "who are you" then "identity"
     else "unknown")
  /\ (r_action reply = "unknown" ->
      exists before after, r_text reply = before ++ command ++ after).
Proof.
  intros cmd has reply. unfold reply, getLocalResponse. fold cmd.
  unfold responses. cbn [first_category existsb]. fold (has "hello").
  change (includes "hi" cmd) with (has "hi"). change (includes "hey" cmd) with (has "hey").
  change (includes "good morning" cmd) with (has "good morning").
  change (includes "time" cmd) with (has "time").
  change (includes "date" cmd) with (has "date").
  change (includes "what day" cmd) with (has "what day").
  change (includes "today" cmd) with (has "today").
  change (includes "help" cmd) with (has "help").
  change (includes "what can you do" cmd) with (has "what can you do").
  change (includes "thank" cmd) with (has "thank").
  change (includes "appreciate" cmd) with (has "appreciate").
  change (includes "bye" cmd) with (has "bye").
  change (includes "see you" cmd) with (has "see you").
  change (includes "your name" cmd) with (has "your name").
  change (includes "who are you" cmd) with (has "who are you").
  pose proof (includes_part "what " "time" "" cmd) as P1.
  pose proof (includes_part "current " "time" "" cmd) as P2.
  pose proof (includes_part "" "thank" "s" cmd) as P3.
  pose proof (includes_part "good" "bye" "" cmd) as P4.
  simpl in P1, P2, P3, P4. fold (has "time") in P1, P2. fold (has "thank") in P3.
  fold (has "bye") in P4.
  rewrite !orb_false_r.
  destruct (has "hello"), (has "hi"), (has "hey"), (has "good morning");
    cbn [orb]; cbv iota; try (split; [reflexivity | discriminate]).
  destruct (has "time"); cbn [orb]; cbv iota;
    [split; [reflexivity | discriminate]|].
  destruct (includes "what time" cmd); [discriminate (P1 eq_refl)|].
  destruct (includes "current time" cmd); [discriminate (P2 eq_refl)|].
  cbn [orb]; cbv iota.
  destruct (has "date"), (has "what day"), (has "today");
    cbn [orb]; cbv iota; try (split; [reflexivity | discriminate]).
  destruct (has "help"), (has "what can you do");
    cbn [orb]; cbv iota; try (split; [reflexivity | discriminate]).
  destruct (has "thank"); cbn [orb]; cbv iota;
    [split; [reflexivity | discriminate]|].
  destruct (includes "thanks" cmd); [discriminate (P3 eq_refl)|].
  cbn [orb]; cbv iota.
  destruct (has "appreciate"); cbn [orb]; cbv iota;
    [split; [reflexivity | discriminate]|].
  destruct (has "bye"); cbn [orb]; cbv iota;
    [split; [reflexivity | discriminate]|].
  destruct (includes "goodbye" cmd); [discriminate (P4 eq_refl)|].
  cbn [orb]; cbv iota.
  destruct (has "see you"); cbn [orb]; cbv iota;
    [split; [reflexivity | discriminate]|].
  destruct (has "your name"), (has "who are you");
    cbn [orb]; cbv iota; try (split; [reflexivity | discriminate]).
  split; [reflexivity|]. intros _. cbn [r_text].
  exists ("I heard you say " ++ dquote).
  exists (dquote
          ++ ". Connect to Luna backend for full capabilities, or try asking about time, date, or say "
          ++ dquote ++ "help" ++ dquote ++ ".").
  reflexivity.
Qed.

Lemma local_response_decided_witness :
  r_action (getLocalResponse "10:15:00 PM" "Monday, November 2, 2026"
              "What time is it in Chicago?")
  = "greeting".
Proof.
  exact (proj1 (local_response_decided "10:15:00 PM" "Monday, November 2, 2026"
                  "What time is it in Chicago?")).
Defined.

(* ----------------------------------------------------------------- *)
(** *** The end of a conversation turn *)

Lemma setState_reaches (s : AssistantState) (c : Context) (w : World) :
  currentState (app (snd (setState (state_name s) c w))) = s.
Proof.
  destruct (state_eqb (currentState (app w)) s) eqn:E.
  - apply state_eqb_eq in E. now rewrite (setState_current s c w E).
  - assert (Hne : s <> currentState (app w)).
    { intros H. symmetry in H. apply state_eqb_eq in H. congruence. }
    now rewrite (setState_accepted s c w Hne).
Qed.

Lemma face_app (x y : World) : face x = face y -> app x = app y.
Proof. intros H. now apply face_fields in H. Qed.

Lemma face_isSpeaking (x y : World) :
  face x = face y -> isSpeaking (vm x) = isSpeaking (vm y).
Proof. intros H. apply face_fields in H. tauto. Qed.

(** [finishConversationTurn] arms the conversation timeout. *)
Lemma finishConversationTurn_effect (local : bool) (n : nat) (x : World) :
  invariant local n x ->
  let y := finishConversationTurn x in
  app y = app x
  /\ isSpeaking (vm y) = false
  /\ conversation_timers y
     = [mkTimer (pred (nextTimer (env y))) conversationTimeoutDuration KConversationTimeout].
Proof.
  intros H y. unfold y, finishConversationTurn.
  pose proof (startConversationTimeout_timers local n x H) as Ht.
  pose proof (startConversationTimeout_face x) as Hf.
  assert (Hn : nextTimer (env (startConversationTimeout x)) = S (nextTimer (env x))).
  { unfold startConversationTimeout, clearConversationTimeout.
    destruct (conversationTimeout (vm x)) as [[|h]|]; reflexivity. }
  revert Ht Hf Hn. generalize (startConversationTimeout x). intros z Ht Hf Hn.
  split; [exact (face_app _ _ Hf)|]. split; [reflexivity|].
  unfold conversation_timers in *. simpl. now rewrite Hn.
Qed.

(** X24.  The end of a turn.  When the speak promise of a response
    settles with the speaking flag still set, the state machine goes to
    Listening at once and the flag is cleared; 200 ms later the
    conversation timeout of 15 s is armed, directly when recognition is
    listening, restarting or local, and otherwise after the forced restart
    of recognition and its delay of 100 ms.  At the end the state is
    Listening and exactly one conversation timeout is pending. *)
Theorem turn_ends_listening (es : list Event) (granted throws : bool) :
  let w := run es (initial_world granted throws) in
  isSpeaking (vm w) = true ->
  let w1 := onSpeakSettled w in
  let w2 := fireTimer (pred (nextTimer (env w1))) w1 in
  let restart := negb (isListening (vm w1)) && negb (isRestarting (vm w1))
                 && negb (useLocalDetection (vm w1)) in
  let w3 := if restart then fireTimer (pred (nextTimer (env w2))) w2 else w2 in
  currentState (app w1) = Listening
  /\ isSpeaking (vm w1) = false
  /\ find_timer (pred (nextTimer (env w1))) w1
     = Some (mkTimer (pred (nextTimer (env w1))) 200 KPostTts)
  /\ (restart = true ->
      find_timer (pred (nextTimer (env w2))) w2
      = Some (mkTimer (pred (nextTimer (env w2))) 100 (KForceRestart ThenConversation))
      /\ isListening (vm w2) = false)
  /\ currentState (app w3) = Listening
  /\ isSpeaking (vm w3) = false
  /\ conversation_timers w3
     = [mkTimer (pred (nextTimer (env w3))) conversationTimeoutDuration
          KConversationTimeout].
Proof.
  intros w Hs w1 w2 restart w3.
  assert (Hinv : invariant false 0 w) by apply reachable_invariant.
  set (c := [("source", VString "conversation-continue")]).
  set (s := snd (setState "listening" c (with_vm (vm_isSpeaking false) w))).
  assert (E1 : w1 = snd (setTimeout KPostTts 200 s))
    by (unfold w1, onSpeakSettled; now rewrite Hs).
  assert (Hsi : invariant false 0 s).
  { apply setState_inv. revert Hinv. apply invariant_same; reflexivity. }
  assert (Hsa : currentState (app s) = Listening) by apply setState_listening_state.
  assert (Hss : isSpeaking (vm s) = false).
  { destruct (setState_listening_frame c (with_vm (vm_isSpeaking false) w))
      as (_ & _ & _ & _ & _ & _ & _ & H & _). exact H. }
  clearbody s.
  pose proof (find_timer_new false 0 KPostTts 200 s ltac:(discriminate)
                ltac:(discriminate) Hsi) as Hf1.
  set (x := clearTimeout (nextTimer (env s)) (snd (setTimeout KPostTts 200 s))).
  assert (Hx : invariant false 0 x)
    by (apply clearTimeout_inv, setTimeout_inv; [discriminate | discriminate | exact Hsi]).
  assert (Fx : app x = app s /\ vm x = vm s) by (split; reflexivity).
  destruct Fx as [Fxa Fxv].
  assert (E2 : w2 = postTts x).
  { unfold w2, fireTimer. rewrite E1.
    change (pred (nextTimer (env (snd (setTimeout KPostTts 200 s)))))
      with (nextTimer (env s)).
    rewrite Hf1. reflexivity. }
  assert (Er : restart = negb (isListening (vm x)) && negb (isRestarting (vm x))
                         && negb (useLocalDetection (vm x)))
    by (unfold restart; rewrite E1, Fxv; reflexivity).
  split; [now rewrite E1|]. split; [now rewrite E1|].
  split; [rewrite E1; exact Hf1|].
  clearbody x w1 w2 restart. subst w1 w2 restart. unfold w3. clear w3.
  unfold postTts.
  destruct (negb (isListening (vm x)) && negb (isRestarting (vm x))
            && negb (useLocalDetection (vm x))) eqn:Ec.
  - unfold forceRestartRecognition. cbv zeta.
    set (y := with_vm (vm_isRestarting false)
                (with_vm (vm_isListening false) (cancelPendingRestart x))).
    assert (Hy : invariant false 0 y).
    { assert (H0 : invariant false 0 (cancelPendingRestart x))
        by now apply cancelPendingRestart_inv.
      unfold y. revert H0. apply invariant_same; reflexivity. }
    assert (Fy : app y = app x /\ isListening (vm y) = false).
    { split; [|reflexivity]. unfold y. simpl. apply cancelPendingRestart_app. }
    destruct Fy as [Fya Fyl]. clearbody y.
    pose proof (find_timer_new false 0 (KForceRestart ThenConversation) 100 y
                  ltac:(discriminate) ltac:(discriminate) Hy) as Hf2.
    change (pred (nextTimer (env (snd (setTimeout (KForceRestart ThenConversation) 100 y)))))
      with (nextTimer (env y)).
    split; [intros _; split; [exact Hf2 | exact Fyl]|].
    unfold fireTimer. rewrite Hf2. cbn [t_kind timerCallback]. unfold forceRestartResume.
    set (z := clearTimeout (nextTimer (env y))
                (snd (setTimeout (KForceRestart ThenConversation) 100 y))).
    assert (Hz : invariant false 0 z)
      by (apply clearTimeout_inv, setTimeout_inv; [discriminate | discriminate | exact Hy]).
    assert (Fz : app z = app y) by reflexivity. clearbody z.
    pose proof (startWakeWordDetection_inv false 0 z Hz) as Hk.
    pose proof (face_app _ _ (startWakeWordDetection_face z)) as Fk.
    revert Hk Fk. generalize (startWakeWordDetection z). intros k Hk Fk.
    destruct (finishConversationTurn_effect false 0 k Hk) as (Ga & Gs & Gt).
    split; [now rewrite Ga, Fk, Fz, Fya, Fxa|]. split; [exact Gs | exact Gt].
  - split; [discriminate|].
    destruct (finishConversationTurn_effect false 0 x Hx) as (Ga & Gs & Gt).
    split; [now rewrite Ga, Fxa|]. split; [exact Gs | exact Gt].
Qed.

Lemma turn_ends_listening_witness :
  let w := run [CallCommandReceived "lights on" 900; CommandResponse "lights on" "done"]
             (initial_world true false) in
  currentState (app (onSpeakSettled w)) = Listening
  /\ isSpeaking (vm (onSpeakSettled w)) = false.
Proof.
  intros w.
  assert (Hs : isSpeaking (vm w) = true) by (vm_compute; reflexivity).
  destruct (turn_ends_listening
              [CallCommandReceived "lights on" 900; CommandResponse "lights on" "done"]
              true false Hs) as (H1 & H2 & _).
  split; [exact H1 | exact H2].
Defined.

(** X25.  Recovery from a failed command.  The [catch] block of
    [onCommandReceived] clears the speaking flag and enters Error; 1.5 s
    later the state machine goes to Listening and the conversation timeout
    of 15 s is armed, whatever the state was when the command failed. *)
Theorem command_failure_recovers (es : list Event) (granted throws : bool)
    (message : string) :
  let w := run es (initial_world granted throws) in
  let w1 := onCommandFailed message w in
  let w2 := fireTimer (pred (nextTimer (env w1))) w1 in
  currentState (app w1) = Error
  /\ isSpeaking (vm w1) = false
  /\ dispatched (out w1) = dispatched (out w)
  /\ find_timer (pred (nextTimer (env w1))) w1
     = Some (mkTimer (pred (nextTimer (env w1))) 1500 KErrorRecovery)
  /\ currentState (app w2) = Listening
  /\ conversation_timers w2
     = [mkTimer (pred (nextTimer (env w2))) conversationTimeoutDuration
          KConversationTimeout].
Proof.
  intros w w1 w2.
  assert (Hinv : invariant false 0 w) by apply reachable_invariant.
  set (c := [("error", VString message)]).
  set (s := snd (setState "error" c (with_vm (vm_isSpeaking false) w))).
  assert (E1 : w1 = snd (setTimeout KErrorRecovery 1500 s)) by reflexivity.
  assert (Hsi : invariant false 0 s).
  { apply setState_inv. revert Hinv. apply invariant_same; reflexivity. }
  assert (Hsa : currentState (app s) = Error) by apply (setState_reaches Error).
  pose proof (setState_aside "error" c (with_vm (vm_isSpeaking false) w)) as A.
  apply aside_fields in A. destruct A as (A1 & _ & _ & _ & _ & _ & A7 & _).
  fold s in A1, A7. simpl in A1, A7. clearbody s.
  pose proof (find_timer_new false 0 KErrorRecovery 1500 s ltac:(discriminate)
                ltac:(discriminate) Hsi) as Hf1.
  set (x := clearTimeout (nextTimer (env s)) (snd (setTimeout KErrorRecovery 1500 s))).
  assert (Hx : invariant false 0 x)
    by (apply clearTimeout_inv, setTimeout_inv; [discriminate | discriminate | exact Hsi]).
  assert (E2 : w2 = errorRecovery x).
  { unfold w2, fireTimer. rewrite E1.
    change (pred (nextTimer (env (snd (setTimeout KErrorRecovery 1500 s)))))
      with (nextTimer (env s)).
    rewrite Hf1. reflexivity. }
  split; [now rewrite E1|]. split; [now rewrite E1|]. split; [now rewrite E1|].
  split; [rewrite E1; exact Hf1|].
  clearbody x w1 w2. subst w1 w2. unfold errorRecovery.
  set (c' := [("source", VString "error-recovery")]).
  pose proof (setState_inv false 0 "listening" c' x Hx) as Hy.
  pose proof (setState_listening_state c' x) as Hl.
  revert Hy Hl. generalize (snd (setState "listening" c' x)). intros y Hy Hl.
  pose proof (startConversationTimeout_timers false 0 y Hy) as Ht.
  pose proof (face_app _ _ (startConversationTimeout_face y)) as Fa.
  assert (Hn : nextTimer (env (startConversationTimeout y)) = S (nextTimer (env y))).
  { unfold startConversationTimeout, clearConversationTimeout.
    destruct (conversationTimeout (vm y)) as [[|h]|]; reflexivity. }
  rewrite Fa, Hl, Ht, Hn. split; reflexivity.
Qed.

(* ----------------------------------------------------------------- *)
(** *** Idle is outside a conversation *)

Create HintDb idle.

Lemma idle_same (w w' : World) :
  currentState (app w') = currentState (app w) ->
  isInConversation (vm w') = isInConversation (vm w) ->
  subscribed (vm w') = subscribed (vm w) ->
  idle_outside_conversation w -> idle_outside_conversation w'.
Proof. unfold idle_outside_conversation. intros -> -> ->. trivial. Qed.

Lemma idle_conversation_over (w : World) :
  idle_outside_conversation w ->
  idle_outside_conversation (with_vm (vm_isInConversation false) w).
Proof. intros [Hs _]. split; [exact Hs | reflexivity]. Qed.

Lemma idle_face_aside (w w' : World) :
  face w' = face w -> aside w' = aside w ->
  idle_outside_conversation w -> idle_outside_conversation w'.
Proof.
  intros Hf Ha. apply face_fields in Hf. apply aside_fields in Ha.
  destruct Hf as (Hfa & _ & _ & _ & _ & _ & _ & _ & _ & _ & _ & Hfi).
  destruct Ha as (_ & _ & _ & _ & _ & _ & _ & _ & Has & _).
  apply idle_same; [now rewrite Hfa | assumption | assumption].
Qed.

Ltac still w := apply (idle_same w); [reflexivity | reflexivity | reflexivity | ].

Ltac idle_case :=
  lazymatch goal with
  | |- idle_outside_conversation (with_vm _ ?w) => still w
  | |- idle_outside_conversation (with_env _ ?w) => still w
  | |- idle_outside_conversation (with_out _ ?w) => still w
  | |- idle_outside_conversation (clearTimeout _ ?w) => still w
  | |- idle_outside_conversation (snd (setTimeout _ _ ?w)) => still w
  | |- idle_outside_conversation (match setTimeout ?k ?d ?w with _ => _ end) =>
      rewrite (setTimeout_pair k d w); cbv beta iota
  | |- idle_outside_conversation (if ?c then _ else _) => destruct c eqn:?
  | |- idle_outside_conversation (match ?x with _ => _ end) => destruct x eqn:?
  end.

#[local] Hint Extern 2 (idle_outside_conversation _) => idle_case : idle.
#[local] Hint Resolve idle_conversation_over : idle.

Ltac idle_auto := intros; auto 80 with idle.

Lemma cancelPendingRestart_idle (w : World) :
  idle_outside_conversation w -> idle_outside_conversation (cancelPendingRestart w).
Proof.
  apply idle_face_aside; [apply cancelPendingRestart_face | apply cancelPendingRestart_aside].
Qed.

Lemma scheduleRestart_idle (d : Z) (w : World) :
  idle_outside_conversation w -> idle_outside_conversation (scheduleRestart d w).
Proof.
  apply idle_face_aside; [apply scheduleRestart_face | apply scheduleRestart_aside].
Qed.

(** A transition keeps the property: entering Idle ends the conversation,
    entering another state leaves Idle. *)
Lemma setState_idle (name : string) (c : Context) (w : World) :
  idle_outside_conversation w -> idle_outside_conversation (snd (setState name c w)).
Proof.
  intros [Hs Hi].
  pose proof (setState_aside name c w) as A. apply aside_fields in A.
  destruct A as (_ & _ & _ & _ & _ & _ & _ & _ & As & _).
  split; [congruence|].
  destruct (state_of_name name) as [target|] eqn:E.
  - apply state_of_name_some in E. subst name.
    destruct (state_eqb (currentState (app w)) target) eqn:Es.
    + apply state_eqb_eq in Es. now rewrite (setState_current target c w Es).
    + assert (Hne : target <> currentState (app w)).
      { intros H. symmetry in H. apply state_eqb_eq in H. congruence. }
      rewrite (setState_reaches target c w). intros ->.
      assert (Hne' : currentState (app w) <> Idle) by congruence.
      destruct (setState_idle_effect c w Hne') as (_ & _ & H3 & _). exact (H3 Hs).
  - unfold setState. rewrite E. now destruct (negb (isValidState name)).
Qed.

#[local] Hint Resolve cancelPendingRestart_idle scheduleRestart_idle setState_idle : idle.

Lemma startWakeWordDetection_idle (w : World) :
  idle_outside_conversation w -> idle_outside_conversation (startWakeWordDetection w).
Proof.
  intros H. unfold startWakeWordDetection.
  destruct (isPaused (vm w)); [exact H|].
  destruct (isListening (vm w)); [exact H|].
  destruct (isRestarting (vm w)); [exact H|].
  destruct (useLocalDetection (vm w)); [unfold startLocalDetection; idle_auto|].
  assert (H' : idle_outside_conversation (snd (startWebSpeechDetection w))).
  { unfold startWebSpeechDetection.
    destruct (recognition (env w)) as [[|]|]; simpl; try exact H;
      destruct (micGranted (env w)); simpl; try exact H;
      try destruct (startThrows (env w)); simpl;
      revert H; apply idle_same; reflexivity. }
  destruct (startWebSpeechDetection w) as [threw w']; simpl in *.
  destruct threw; simpl; [|exact H'].
  unfold startLocalDetection, initLocalDetection. idle_auto.
Qed.

#[local] Hint Resolve startWakeWordDetection_idle : idle.

Lemma restartCallback_idle (w : World) :
  idle_outside_conversation w -> idle_outside_conversation (restartCallback w).
Proof. unfold restartCallback. cbv zeta. idle_auto. Qed.

Lemma clearListeningTimeout_idle (w : World) :
  idle_outside_conversation w -> idle_outside_conversation (clearListeningTimeout w).
Proof. unfold clearListeningTimeout. idle_auto. Qed.

Lemma clearConversationTimeout_idle (w : World) :
  idle_outside_conversation w -> idle_outside_conversation (clearConversationTimeout w).
Proof. unfold clearConversationTimeout. idle_auto. Qed.

#[local] Hint Resolve restartCallback_idle clearListeningTimeout_idle
  clearConversationTimeout_idle : idle.

Lemma startListeningTimeout_idle (w : World) :
  idle_outside_conversation w -> idle_outside_conversation (startListeningTimeout w).
Proof. unfold startListeningTimeout. idle_auto. Qed.

Lemma startConversationTimeout_idle (w : World) :
  idle_outside_conversation w -> idle_outside_conversation (startConversationTimeout w).
Proof. unfold startConversationTimeout. idle_auto. Qed.

Lemma resolvePromise_idle (p : nat) (w : World) :
  idle_outside_conversation w -> idle_outside_conversation (resolvePromise p w).
Proof. unfold resolvePromise. apply idle_same; reflexivity. Qed.

Lemma synthesisCancel_idle (w : World) :
  idle_outside_conversation w -> idle_outside_conversation (synthesisCancel w).
Proof. unfold synthesisCancel. idle_auto. Qed.

#[local] Hint Resolve startListeningTimeout_idle startConversationTimeout_idle
  resolvePromise_idle synthesisCancel_idle : idle.

Lemma speak_idle (text : string) (w : World) :
  idle_outside_conversation w -> idle_outside_conversation (snd (speak text w)).
Proof.
  unfold speak. cbv zeta. simpl (synthesis _).
  destruct (synthesis (env w)); cbn [snd]; idle_auto.
Qed.

Lemma onUtteranceEnd_idle (p : nat) (w : World) :
  idle_outside_conversation w -> idle_outside_conversation (onUtteranceEnd p w).
Proof. unfold onUtteranceEnd. idle_auto. Qed.

Lemma forceRestartRecognition_idle (k : AfterForce) (w : World) :
  idle_outside_conversation w ->
  idle_outside_conversation (snd (forceRestartRecognition k w)).
Proof. unfold forceRestartRecognition. idle_auto. Qed.

#[local] Hint Resolve speak_idle onUtteranceEnd_idle forceRestartRecognition_idle : idle.

Lemma interruptSpeaking_idle (w : World) :
  idle_outside_conversation w -> idle_outside_conversation (snd (interruptSpeaking w)).
Proof. unfold interruptSpeaking. idle_auto. Qed.

Lemma interruptResume_idle (w : World) :
  idle_outside_conversation w -> idle_outside_conversation (interruptResume w).
Proof. unfold interruptResume. idle_auto. Qed.

(** A dispatched command leaves the state machine in Thinking. *)
Lemma onCommandReceived_idle (t : string) (c : Z) (w : World) :
  idle_outside_conversation w -> idle_outside_conversation (onCommandReceived t c w).
Proof.
  intros [Hs Hi]. unfold onCommandReceived. cbv zeta.
  match goal with |- idle_outside_conversation (with_out _ (snd (setState ?n ?k ?x))) =>
    pose proof (setState_aside n k x) as A;
    pose proof (setState_reaches Thinking k x) as R; simpl (state_name _) in R;
    assert (Sx : subscribed (vm x) = subscribed (vm w));
    [|revert A R; generalize (snd (setState n k x))]
  end.
  { unfold clearConversationTimeout, clearListeningTimeout.
    destruct (listeningTimeout (vm w)) as [[|h]|]; simpl;
      destruct (conversationTimeout (vm w)) as [[|k]|]; reflexivity. }
  intros y A R. apply aside_fields in A.
  destruct A as (_ & _ & _ & _ & _ & _ & _ & _ & As & _).
  split; [simpl; congruence|]. simpl. rewrite R. discriminate.
Qed.

Lemma onCommandResponse_idle (t x : string) (w : World) :
  idle_outside_conversation w -> idle_outside_conversation (onCommandResponse t x w).
Proof. unfold onCommandResponse. idle_auto. Qed.

Lemma onSpeakSettled_idle (w : World) :
  idle_outside_conversation w -> idle_outside_conversation (onSpeakSettled w).
Proof. unfold onSpeakSettled. idle_auto. Qed.

Lemma finishConversationTurn_idle (w : World) :
  idle_outside_conversation w -> idle_outside_conversation (finishConversationTurn w).
Proof. unfold finishConversationTurn. idle_auto. Qed.

#[local] Hint Resolve interruptSpeaking_idle interruptResume_idle onCommandReceived_idle
  onCommandResponse_idle onSpeakSettled_idle finishConversationTurn_idle : idle.

Lemma postTts_idle (w : World) :
  idle_outside_conversation w -> idle_outside_conversation (postTts w).
Proof. unfold postTts. idle_auto. Qed.

Lemma forceRestartResume_idle (k : AfterForce) (w : World) :
  idle_outside_conversation w -> idle_outside_conversation (forceRestartResume k w).
Proof. unfold forceRestartResume. idle_auto. Qed.

Lemma onCommandFailed_idle (m : string) (w : World) :
  idle_outside_conversation w -> idle_outside_conversation (onCommandFailed m w).
Proof. unfold onCommandFailed. idle_auto. Qed.

Lemma errorRecovery_idle (w : World) :
  idle_outside_conversation w -> idle_outside_conversation (errorRecovery w).
Proof. unfold errorRecovery. idle_auto. Qed.

Lemma handleLateResponse_idle (t : string) (w : World) :
  idle_outside_conversation w -> idle_outside_conversation (handleLateResponse t w).
Proof. unfold handleLateResponse. idle_auto. Qed.

Lemma lateResponseSpoken_idle (w : World) :
  idle_outside_conversation w -> idle_outside_conversation (lateResponseSpoken w).
Proof. unfold lateResponseSpoken. idle_auto. Qed.

Lemma onWakeWordDetected_idle (t : string) (w : World) :
  idle_outside_conversation w -> idle_outside_conversation (onWakeWordDetected t w).
Proof. unfold onWakeWordDetected. idle_auto. Qed.

Lemma delayedListening_idle (s : string) (w : World) :
  idle_outside_conversation w -> idle_outside_conversation (delayedListening s w).
Proof. unfold delayedListening. idle_auto. Qed.

Lemma onInterimResult_idle (t : string) (w : World) :
  idle_outside_conversation w -> idle_outside_conversation (onInterimResult t w).
Proof. unfold onInterimResult. idle_auto. Qed.

#[local] Hint Resolve postTts_idle forceRestartResume_idle onCommandFailed_idle
  errorRecovery_idle handleLateResponse_idle lateResponseSpoken_idle
  onWakeWordDetected_idle delayedListening_idle onInterimResult_idle : idle.

Lemma handleRecognitionResult_idle (t : string) (c : Z) (f : bool) (w : World) :
  idle_outside_conversation w ->
  idle_outside_conversation (handleRecognitionResult t c f w).
Proof. unfold handleRecognitionResult. idle_auto. Qed.

Lemma onRecognitionStart_idle (w : World) :
  idle_outside_conversation w -> idle_outside_conversation (onRecognitionStart w).
Proof. unfold onRecognitionStart. idle_auto. Qed.

Lemma onRecognitionEnd_idle (w : World) :
  idle_outside_conversation w -> idle_outside_conversation (onRecognitionEnd w).
Proof. unfold onRecognitionEnd. idle_auto. Qed.

Lemma onRecognitionError_idle (e : string) (w : World) :
  idle_outside_conversation w -> idle_outside_conversation (onRecognitionError e w).
Proof. unfold onRecognitionError, initLocalDetection. idle_auto. Qed.

Lemma onSpeechStart_idle (w : World) :
  idle_outside_conversation w -> idle_outside_conversation (onSpeechStart w).
Proof. unfold onSpeechStart. idle_auto. Qed.

Lemma stopWakeWordDetection_idle (w : World) :
  idle_outside_conversation w -> idle_outside_conversation (stopWakeWordDetection w).
Proof. unfold stopWakeWordDetection. idle_auto. Qed.

Lemma resumeWakeWordDetection_idle (w : World) :
  idle_outside_conversation w -> idle_outside_conversation (resumeWakeWordDetection w).
Proof. unfold resumeWakeWordDetection. idle_auto. Qed.

Lemma listeningTimeoutCallback_idle (w : World) :
  idle_outside_conversation w -> idle_outside_conversation (listeningTimeoutCallback w).
Proof. unfold listeningTimeoutCallback. idle_auto. Qed.

Lemma conversationTimeoutCallback_idle (w : World) :
  idle_outside_conversation w ->
  idle_outside_conversation (conversationTimeoutCallback w).
Proof. unfold conversationTimeoutCallback. idle_auto. Qed.

Lemma stateSyncListening_idle (w : World) :
  idle_outside_conversation w -> idle_outside_conversation (stateSyncListening w).
Proof. unfold stateSyncListening. idle_auto. Qed.

Lemma getStateDuration_idle (w : World) :
  idle_outside_conversation w -> idle_outside_conversation (snd (getStateDuration w)).
Proof.
  rewrite getStateDuration_unfold. cbn [snd]. apply idle_same; reflexivity.
Qed.

#[local] Hint Resolve handleRecognitionResult_idle onRecognitionStart_idle
  onRecognitionEnd_idle onRecognitionError_idle onSpeechStart_idle
  stopWakeWordDetection_idle resumeWakeWordDetection_idle
  listeningTimeoutCallback_idle conversationTimeoutCallback_idle
  stateSyncListening_idle getStateDuration_idle : idle.

Lemma timerCallback_idle (k : TimerKind) (w : World) :
  idle_outside_conversation w -> idle_outside_conversation (timerCallback k w).
Proof.
  intros H. destruct k; cbn [timerCallback];
    unfold executeTransitionCallbacks; idle_auto.
Qed.

Lemma step_idle (e : Event) (w : World) :
  idle_outside_conversation w -> idle_outside_conversation (step e w).
Proof.
  intros H. destruct e; cbn [step]; try solve [idle_auto].
  unfold fireTimer. destruct (find_timer id w) as [t|]; [|exact H].
  apply timerCallback_idle. idle_auto.
Qed.

Lemma run_idle (es : list Event) (w : World) :
  idle_outside_conversation w -> idle_outside_conversation (run es w).
Proof.
  revert w. induction es as [|e es IH]; intros w H; [exact H|].
  apply IH. now apply step_idle.
Qed.

(** A wake word heard in Idle outside a conversation wakes the
    assistant. *)
Lemma wake_word_wakes (transcript : string) (confidence : Z) (w : World) :
  currentState (app w) = Idle -> isInConversation (vm w) = false ->
  isSpeaking (vm w) = false ->
  detectWakeWord (trim (toLowerCase transcript)) = true ->
  currentState (app (handleRecognitionResult transcript confidence true w)) = Waking.
Proof.
  intros Hs Hc Hk Hd. unfold handleRecognitionResult. cbv zeta.
  rewrite Hs, Hk. change (state_eqb Idle Speaking) with false.
  change (state_eqb Idle Idle) with true. cbn [orb negb andb].
  replace (isInConversation
             (vm (if (0 <? String.length (trim (toLowerCase transcript)))%nat
                  then with_vm (vm_consecutiveErrors 0) w else w)))
    with false by (now destruct (0 <? _)%nat).
  cbn [negb]. rewrite Hd. unfold onWakeWordDetected. cbv zeta.
  match goal with |- context [setState "waking" ?k ?x] =>
    pose proof (setState_reaches Waking k x) as R; simpl (state_name _) in R;
    revert R; generalize (snd (setState "waking" k x))
  end.
  intros y R. now destruct (2 <? _)%nat.
Qed.

(** X26.  In every world the event loop can reach, the voice manager's
    listener is subscribed and Idle is outside a conversation: whenever
    the state machine is Idle, [isInConversation] is clear.  So the test
    [!this.isInConversation] in the Idle branch of the result handler never
    fails, and a final transcript with a wake word heard in Idle, with
    nothing being spoken, always wakes the assistant. *)
Theorem idle_is_outside_conversation (es : list Event) (granted throws : bool) :
  let w := run es (initial_world granted throws) in
  subscribed (vm w) = true
  /\ (currentState (app w) = Idle -> isInConversation (vm w) = false)
  /\ (forall transcript confidence,
        currentState (app w) = Idle -> isSpeaking (vm w) = false ->
        detectWakeWord (trim (toLowerCase transcript)) = true ->
        currentState (app (handleRecognitionResult transcript confidence true w))
        = Waking).
Proof.
  intros w.
  assert (H : idle_outside_conversation w).
  { apply run_idle. split; [reflexivity | reflexivity]. }
  destruct H as [Hs Hi]. split; [exact Hs|]. split; [exact Hi|].
  intros transcript confidence Hc Hk Hd. apply wake_word_wakes; auto.
Qed.

Lemma idle_is_outside_conversation_witness :
  let w := run [CallCommandReceived "lights on" 900; CallSetState "idle" []]
             (initial_world true false) in
  isInConversation (vm w) = false.
Proof.
  intros w.
  apply (idle_is_outside_conversation
           [CallCommandReceived "lights on" 900; CallSetState "idle" []] true false).
  reflexivity.
Defined.

(* ----------------------------------------------------------------- *)
(** *** The transcript as the result handler passes it on *)

Lemma lower_char_idem (c : ascii) : lower_char (lower_char c) = lower_char c.
Proof. destruct c as [[] [] [] [] [] [] [] []]; reflexivity. Qed.

Lemma is_space_lower (c : ascii) : is_space (lower_char c) = is_space c.
Proof. destruct c as [[] [] [] [] [] [] [] []]; reflexivity. Qed.

Lemma space_not_punct (c : ascii) : is_space c = true -> is_punct c = false.
Proof.
  destruct c as [[] [] [] [] [] [] [] []]; vm_compute; intros H;
    first [reflexivity | discriminate H].
Qed.

Lemma toLowerCase_idem (s : string) : toLowerCase (toLowerCase s) = toLowerCase s.
Proof.
  induction s as [|c s IH]; simpl; [reflexivity|]. now rewrite lower_char_idem, IH.
Qed.

Lemma toLowerCase_trimStart (s : string) :
  toLowerCase (trimStart s) = trimStart (toLowerCase s).
Proof.
  induction s as [|c s IH]; simpl; [reflexivity|].
  rewrite is_space_lower. now destruct (is_space c).
Qed.

Lemma toLowerCase_trimEnd (s : string) :
  toLowerCase (trimEnd s) = trimEnd (toLowerCase s).
Proof.
  induction s as [|c s IH]; simpl; [reflexivity|].
  rewrite is_space_lower, <- IH.
  replace (is_empty (toLowerCase (trimEnd s))) with (is_empty (trimEnd s))
    by (now destruct (trimEnd s)).
  now destruct (is_space c && is_empty (trimEnd s)).
Qed.

(** Leading white space does not show in the cleaned form ... *)
Lemma clean_trimStart (s : string) :
  trimEnd (collapse_ws true (remove_punct (trimStart s)))
  = trimEnd (collapse_ws true (remove_punct s)).
Proof.
  induction s as [|c s IH]; simpl; [reflexivity|].
  destruct (is_space c) eqn:E; [|reflexivity].
  rewrite (space_not_punct c E). simpl. now rewrite E.
Qed.

(** ... nor does trailing white space. *)
Lemma clean_trimEnd (b : bool) (s : string) :
  trimEnd (collapse_ws b (remove_punct (trimEnd s)))
  = trimEnd (collapse_ws b (remove_punct s)).
Proof.
  revert b. induction s as [|c s IH]; intros b; simpl; [reflexivity|].
  destruct (is_space c && is_empty (trimEnd s)) eqn:E.
  - apply andb_prop in E. destruct E as [Es Ee].
    rewrite (space_not_punct c Es). simpl. rewrite Es.
    assert (Hr : trimEnd (collapse_ws true (remove_punct s)) = "").
    { rewrite <- IH. destruct (trimEnd s); [reflexivity | discriminate]. }
    destruct b; simpl; rewrite Hr; reflexivity.
  - simpl. destruct (is_punct c); [apply IH|]. simpl.
    destruct (is_space c); [destruct b|]; simpl; now rewrite IH.
Qed.

Lemma cleanTranscript_normalised (t : string) :
  cleanTranscript (trim (toLowerCase t)) = cleanTranscript t.
Proof.
  rewrite !cleanTranscript_in_run. unfold trim.
  rewrite toLowerCase_trimStart, toLowerCase_trimEnd, toLowerCase_idem.
  now rewrite clean_trimStart, clean_trimEnd.
Qed.

(** X27.  The result handler hands the transcript to [detectWakeWord] and
    [extractCommandFromTranscript] trimmed and in lower case.  That changes
    nothing: both clean the transcript themselves and give the same result
    as on the transcript as recognised. *)
Theorem normalisation_is_transparent (transcript : string) :
  let primaryTranscript := trim (toLowerCase transcript) in
  cleanTranscript primaryTranscript = cleanTranscript transcript
  /\ detectWakeWord primaryTranscript = detectWakeWord transcript
  /\ extractCommandFromTranscript primaryTranscript
     = extractCommandFromTranscript transcript.
Proof.
  cbv zeta. unfold detectWakeWord, extractCommandFromTranscript.
  rewrite cleanTranscript_normalised. repeat split.
Qed.

(* ----------------------------------------------------------------- *)
(** *** State changes announced by the backend *)

(** X28.  A 'state.change' message of the backend goes, in lower case,
    to the handler [window.LunaAPI.onStateChange] holds.  With none
    installed, or when the message names no state of the enum, nothing
    changes.  The handler of [LunaEyeApp] ignores the message while the
    voice manager is speaking, and ignores idle during a conversation.
    The handler [UIController.connectToApi] installs in its place has
    neither guard: under it idle is applied also while speaking and during
    a conversation, which the state listener then ends, the [isSpeaking]
    flag staying as it is.  Under either handler a message announcing
    LISTENING, in any spelling of upper and lower case, takes the state
    machine out of Thinking, where a request is pending, and a command
    heard then is dispatched as a second request while the first is still
    open. *)
Theorem backend_state_change (es : list Event) (granted throws : bool)
    (h : StateChangeHandler) (state transcript : string) (confidence : Z) :
  let w := run es (initial_world granted throws) in
  let w1 := handleStateChangeMessage h state w in
  let p := trim (toLowerCase transcript) in
  (h = NoHandler \/ isValidState (toLowerCase state) = false -> w1 = w)
  /\ (h = AppHandler ->
      isSpeaking (vm w) = true
      \/ (toLowerCase state = "idle" /\ isInConversation (vm w) = true) ->
      w1 = w)
  /\ (h = UiHandler -> toLowerCase state = "idle" -> currentState (app w) <> Idle ->
      currentState (app w1) = Idle
      /\ isInConversation (vm w1) = false
      /\ isSpeaking (vm w1) = isSpeaking (vm w))
  /\ (h <> NoHandler -> currentState (app w) = Thinking -> isSpeaking (vm w) = false ->
      toLowerCase state = "listening" ->
      currentState (app w1) = Listening
      /\ dispatched (out w1) = dispatched (out w)
      /\ (0 < String.length p -> detectWakeWord p = false ->
          dispatched (out (handleRecognitionResult transcript confidence true w1))
          = p :: dispatched (out w))).
Proof.
  intros w w1 p. unfold w1, handleStateChangeMessage, apiStateChange, uiStateChange.
  split; [|split; [|split]].
  - intros [-> | Hv]; [reflexivity|].
    assert (E : snd (setState (toLowerCase state) [] w) = w)
      by (unfold setState; now rewrite Hv).
    destruct h; [reflexivity | | exact E].
    destruct (isSpeaking (vm w)); [reflexivity|]. now destruct (_ && _).
  - intros -> [Hs | [Hi Hc]].
    + now rewrite Hs.
    + rewrite Hi, Hc. now destruct (isSpeaking (vm w)).
  - intros -> -> Hne.
    assert (Hidle : idle_outside_conversation w)
      by (apply run_idle; split; reflexivity).
    destruct (setState_idle_effect [] w Hne) as (H1 & _ & H3 & _).
    pose proof (setState_aside "idle" [] w) as A. apply aside_fields in A.
    destruct A as (_ & _ & _ & _ & _ & _ & A7 & _).
    split; [exact H1|]. split; [apply H3, Hidle | exact A7].
  - intros Hh Hs Hk E.
    assert (E1 : (match h with
                  | NoHandler => w
                  | AppHandler =>
                      if isSpeaking (vm w) then w
                      else if String.eqb (toLowerCase state) "idle"
                              && isInConversation (vm w) then w
                      else snd (setState (toLowerCase state) [] w)
                  | UiHandler => snd (setState (toLowerCase state) [] w)
                  end) = snd (setState "listening" [] w)).
    { rewrite E, Hk. now destruct h. }
    rewrite E1. clear E1.
    assert (Hinv : invariant false 0 w) by apply reachable_invariant.
    pose proof (setState_inv false 0 "listening" [] w Hinv) as Hi.
    pose proof (setState_listening_state [] w) as Hl.
    pose proof (setState_aside "listening" [] w) as A. apply aside_fields in A.
    destruct A as (A1 & _ & _ & _ & _ & _ & A7 & _).
    revert Hi Hl A1 A7. generalize (snd (setState "listening" [] w)).
    intros y Hi Hl A1 A7.
    split; [exact Hl|]. split; [exact A1|].
    intros Hp Hd.
    destruct (dispatch_in_listening false 0 y transcript confidence Hi Hl) as (H & _).
    + congruence.
    + exact Hp.
    + fold p. rewrite Hd. discriminate.
    + fold p in H. rewrite Hd in H. now rewrite H, A1.
Qed.

Lemma backend_state_change_witness :
  let w := run [CallCommandReceived "lights on" 900; CommandResponse "lights on" "done"]
             (initial_world true false) in
  (isSpeaking (vm w) = true /\ isInConversation (vm w) = true)
  /\ handleStateChangeMessage AppHandler "IDLE" w = w
  /\ (currentState (app (handleStateChangeMessage UiHandler "IDLE" w)) = Idle
      /\ isInConversation (vm (handleStateChangeMessage UiHandler "IDLE" w)) = false
      /\ isSpeaking (vm (handleStateChangeMessage UiHandler "IDLE" w))
         = isSpeaking (vm w)).
Proof.
  intros w.
  assert (Hs : isSpeaking (vm w) = true) by (vm_compute; reflexivity).
  assert (Hc : isInConversation (vm w) = true) by (vm_compute; reflexivity).
  assert (Hn : currentState (app w) <> Idle) by (vm_compute; discriminate).
  destruct (backend_state_change
              [CallCommandReceived "lights on" 900; CommandResponse "lights on" "done"]
              true false AppHandler "IDLE" "" 0) as (_ & Ha & _).
  destruct (backend_state_change
              [CallCommandReceived "lights on" 900; CommandResponse "lights on" "done"]
              true false UiHandler "IDLE" "" 0) as (_ & _ & Hu & _).
  split; [split; [exact Hs | exact Hc]|].
  split; [exact (Ha eq_refl (or_introl Hs)) | exact (Hu eq_refl eq_refl Hn)].
Defined.

(* ----------------------------------------------------------------- *)
(** *** One listening timeout *)

Create HintDb track.

Lemma track_same (w w' : World) :
  timers (env w') = timers (env w) ->
  nextTimer (env w') = nextTimer (env w) ->
  listeningTimeout (vm w') = listeningTimeout (vm w) ->
  listening_tracked w -> listening_tracked w'.
Proof. unfold listening_tracked. intros -> -> ->. trivial. Qed.

Lemma clearTimeout_tracks (id : TimerId) (w : World) :
  listening_tracked w -> listening_tracked (clearTimeout id w).
Proof.
  unfold listening_tracked. destruct w as [a v e o]; simpl.
  fold (without id (timers e)). intros (Hp & Hb & Ht & Hh).
  split; [exact Hp|]. split; [exact (ids_below_without is_listening_timeout _ _ _ Hb)|].
  split; [now apply tracked_without | exact Hh].
Qed.

Lemma setTimeout_tracks (k : TimerKind) (d : Z) (w : World) :
  k <> KListeningTimeout ->
  listening_tracked w -> listening_tracked (snd (setTimeout k d w)).
Proof.
  unfold listening_tracked. destruct w as [a v e o]; simpl.
  intros Hk (Hp & Hb & Ht & Hh).
  split; [lia|]. split; [now apply ids_below_new|].
  split.
  - apply tracked_other; [exact Ht|]. unfold is_listening_timeout. simpl. now destruct k.
  - intros h E. apply Hh in E. lia.
Qed.

(** After [clearListeningTimeout] no listening timeout is pending. *)
Lemma clearListeningTimeout_none (w : World) :
  listening_tracked w -> listening_timers (clearListeningTimeout w) = [].
Proof.
  intros (_ & Hb & Ht & _).
  pose proof (tracked_cleared is_listening_timeout _ _ _ Hb Ht) as E.
  unfold listening_timers, clearListeningTimeout.
  destruct w as [a v e o]; simpl in *.
  destruct (listeningTimeout v) as [[|h]|]; exact E.
Qed.

Lemma clearListeningTimeout_tracks (w : World) :
  listening_tracked w -> listening_tracked (clearListeningTimeout w).
Proof.
  intros H. pose proof (clearListeningTimeout_none w H) as Hnone.
  unfold clearListeningTimeout in *.
  destruct (listeningTimeout (vm w)) as [[|h]|]; try exact H.
  apply (clearTimeout_tracks (S h)) in H.
  revert H Hnone. generalize (clearTimeout (S h) w). intros w'.
  unfold listening_tracked, listening_timers. destruct w' as [a v e o]; simpl.
  intros (Hp & Hb & Ht & Hh) Hnone.
  split; [exact Hp|]. split; [exact Hb|]. split; [now apply tracked_none | discriminate].
Qed.

(** [startListeningTimeout] leaves exactly the timeout it sets. *)
Lemma startListeningTimeout_timers (w : World) :
  listening_tracked w ->
  listening_timers (startListeningTimeout w)
  = [mkTimer (nextTimer (env w)) listeningTimeoutDuration KListeningTimeout].
Proof.
  intros H. pose proof (clearListeningTimeout_none w H) as Hnone.
  unfold startListeningTimeout.
  assert (En : nextTimer (env (clearListeningTimeout w)) = nextTimer (env w)).
  { unfold clearListeningTimeout. now destruct (listeningTimeout (vm w)) as [[|h]|]. }
  rewrite <- En. revert Hnone. generalize (clearListeningTimeout w). intros w'.
  unfold listening_timers. destruct w' as [a v e o]; simpl.
  intros Hnone. rewrite filter_app, Hnone. reflexivity.
Qed.

Lemma startListeningTimeout_tracks (w : World) :
  listening_tracked w -> listening_tracked (startListeningTimeout w).
Proof.
  intros H. pose proof (clearListeningTimeout_none w H) as Hnone.
  apply clearListeningTimeout_tracks in H.
  unfold startListeningTimeout.
  revert H Hnone. generalize (clearListeningTimeout w). intros w'.
  unfold listening_tracked, listening_timers. destruct w' as [a v e o]; simpl.
  intros (Hp & Hb & Ht & Hh) Hnone.
  split; [lia|]. split; [now apply ids_below_new|].
  split; [now apply tracked_new|]. intros h E. injection E as <-. lia.
Qed.

Ltac hold w := apply (track_same w); [reflexivity | reflexivity | reflexivity | ].

Ltac track_case :=
  lazymatch goal with
  | |- listening_tracked (with_vm _ ?w) => hold w
  | |- listening_tracked (with_env _ ?w) => hold w
  | |- listening_tracked (with_out _ ?w) => hold w
  | |- listening_tracked (with_app _ ?w) => hold w
  | |- listening_tracked (match setTimeout ?k ?d ?w with _ => _ end) =>
      rewrite (setTimeout_pair k d w); cbv beta iota
  | |- listening_tracked (snd (setTimeout _ _ _)) =>
      apply setTimeout_tracks; [discriminate|]
  | |- listening_tracked (if ?c then _ else _) => destruct c eqn:?
  | |- listening_tracked (match ?x with _ => _ end) => destruct x eqn:?
  end.

#[local] Hint Extern 2 (listening_tracked _) => track_case : track.
#[local] Hint Resolve clearTimeout_tracks clearListeningTimeout_tracks
  startListeningTimeout_tracks : track.

Ltac track_auto := intros; auto 80 with track.

Lemma cancelPendingRestart_tracks (w : World) :
  listening_tracked w -> listening_tracked (cancelPendingRestart w).
Proof. unfold cancelPendingRestart. track_auto. Qed.

#[local] Hint Resolve cancelPendingRestart_tracks : track.

Lemma scheduleRestart_tracks (d : Z) (w : World) :
  listening_tracked w -> listening_tracked (scheduleRestart d w).
Proof. unfold scheduleRestart. track_auto. Qed.

#[local] Hint Resolve scheduleRestart_tracks : track.

Lemma onStateChange_tracks (s p : AssistantState) (w : World) :
  listening_tracked w -> listening_tracked (onStateChange s p w).
Proof. unfold onStateChange. track_auto. Qed.

#[local] Hint Resolve onStateChange_tracks : track.

Lemma notifyListeners_tracks (s p : AssistantState) (c : Context) (w : World) :
  listening_tracked w -> listening_tracked (notifyListeners s p c w).
Proof. unfold notifyListeners. track_auto. Qed.

#[local] Hint Resolve notifyListeners_tracks : track.

Lemma setState_tracks (name : string) (c : Context) (w : World) :
  listening_tracked w -> listening_tracked (snd (setState name c w)).
Proof.
  intros H. unfold setState.
  destruct (negb (isValidState name)); [exact H|].
  destruct (state_of_name name) as [target|]; [|exact H].
  destruct (state_eqb (currentState (app w)) target); [exact H|].
  cbv zeta. cbn [snd]. unfold executeTransitionCallbacks. track_auto.
Qed.

Lemma resolvePromise_tracks (p : nat) (w : World) :
  listening_tracked w -> listening_tracked (resolvePromise p w).
Proof. unfold resolvePromise. apply track_same; reflexivity. Qed.

#[local] Hint Resolve setState_tracks resolvePromise_tracks : track.

Lemma startWakeWordDetection_tracks (w : World) :
  listening_tracked w -> listening_tracked (startWakeWordDetection w).
Proof.
  intros H. unfold startWakeWordDetection.
  destruct (isPaused (vm w)); [exact H|].
  destruct (isListening (vm w)); [exact H|].
  destruct (isRestarting (vm w)); [exact H|].
  destruct (useLocalDetection (vm w)); [unfold startLocalDetection; track_auto|].
  assert (H' : listening_tracked (snd (startWebSpeechDetection w))).
  { unfold startWebSpeechDetection.
    destruct (recognition (env w)) as [[|]|]; simpl; try exact H;
      destruct (micGranted (env w)); simpl; try exact H;
      try destruct (startThrows (env w)); simpl;
      revert H; apply track_same; reflexivity. }
  destruct (startWebSpeechDetection w) as [threw w']; simpl in *.
  destruct threw; simpl; [|exact H'].
  unfold startLocalDetection, initLocalDetection. track_auto.
Qed.

#[local] Hint Resolve startWakeWordDetection_tracks : track.

Lemma restartCallback_tracks (w : World) :
  listening_tracked w -> listening_tracked (restartCallback w).
Proof. unfold restartCallback. cbv zeta. track_auto. Qed.

Lemma clearConversationTimeout_tracks (w : World) :
  listening_tracked w -> listening_tracked (clearConversationTimeout w).
Proof. unfold clearConversationTimeout. track_auto. Qed.

#[local] Hint Resolve restartCallback_tracks clearConversationTimeout_tracks : track.

Lemma startConversationTimeout_tracks (w : World) :
  listening_tracked w -> listening_tracked (startConversationTimeout w).
Proof. unfold startConversationTimeout. track_auto. Qed.

Lemma synthesisCancel_tracks (w : World) :
  listening_tracked w -> listening_tracked (synthesisCancel w).
Proof. unfold synthesisCancel. track_auto. Qed.

#[local] Hint Resolve startConversationTimeout_tracks synthesisCancel_tracks : track.

Lemma speak_tracks (text : string) (w : World) :
  listening_tracked w -> listening_tracked (snd (speak text w)).
Proof.
  unfold speak. cbv zeta. simpl (synthesis _).
  destruct (synthesis (env w)); cbn [snd]; track_auto.
Qed.

Lemma onUtteranceEnd_tracks (p : nat) (w : World) :
  listening_tracked w -> listening_tracked (onUtteranceEnd p w).
Proof. unfold onUtteranceEnd. track_auto. Qed.

Lemma forceRestartRecognition_tracks (k : AfterForce) (w : World) :
  listening_tracked w ->
  listening_tracked (snd (forceRestartRecognition k w)).
Proof. unfold forceRestartRecognition. track_auto. Qed.

#[local] Hint Resolve speak_tracks onUtteranceEnd_tracks forceRestartRecognition_tracks : track.

Lemma interruptSpeaking_tracks (w : World) :
  listening_tracked w -> listening_tracked (snd (interruptSpeaking w)).
Proof. unfold interruptSpeaking. track_auto. Qed.

Lemma interruptResume_tracks (w : World) :
  listening_tracked w -> listening_tracked (interruptResume w).
Proof. unfold interruptResume. track_auto. Qed.

Lemma onCommandReceived_tracks (t : string) (c : Z) (w : World) :
  listening_tracked w -> listening_tracked (onCommandReceived t c w).
Proof. unfold onCommandReceived. track_auto. Qed.

Lemma onCommandResponse_tracks (t x : string) (w : World) :
  listening_tracked w -> listening_tracked (onCommandResponse t x w).
Proof. unfold onCommandResponse. track_auto. Qed.

Lemma onSpeakSettled_tracks (w : World) :
  listening_tracked w -> listening_tracked (onSpeakSettled w).
Proof. unfold onSpeakSettled. track_auto. Qed.

Lemma finishConversationTurn_tracks (w : World) :
  listening_tracked w -> listening_tracked (finishConversationTurn w).
Proof. unfold finishConversationTurn. track_auto. Qed.

#[local] Hint Resolve interruptSpeaking_tracks interruptResume_tracks onCommandReceived_tracks
  onCommandResponse_tracks onSpeakSettled_tracks finishConversationTurn_tracks : track.

Lemma postTts_tracks (w : World) :
  listening_tracked w -> listening_tracked (postTts w).
Proof. unfold postTts. track_auto. Qed.

Lemma forceRestartResume_tracks (k : AfterForce) (w : World) :
  listening_tracked w -> listening_tracked (forceRestartResume k w).
Proof. unfold forceRestartResume. track_auto. Qed.

Lemma onCommandFailed_tracks (m : string) (w : World) :
  listening_tracked w -> listening_tracked (onCommandFailed m w).
Proof. unfold onCommandFailed. track_auto. Qed.

Lemma errorRecovery_tracks (w : World) :
  listening_tracked w -> listening_tracked (errorRecovery w).
Proof. unfold errorRecovery. track_auto. Qed.

Lemma handleLateResponse_tracks (t : string) (w : World) :
  listening_tracked w -> listening_tracked (handleLateResponse t w).
Proof. unfold handleLateResponse. track_auto. Qed.

Lemma lateResponseSpoken_tracks (w : World) :
  listening_tracked w -> listening_tracked (lateResponseSpoken w).
Proof. unfold lateResponseSpoken. track_auto. Qed.

Lemma onWakeWordDetected_tracks (t : string) (w : World) :
  listening_tracked w -> listening_tracked (onWakeWordDetected t w).
Proof. unfold onWakeWordDetected. track_auto. Qed.

Lemma delayedListening_tracks (s : string) (w : World) :
  listening_tracked w -> listening_tracked (delayedListening s w).
Proof. unfold delayedListening. track_auto. Qed.

Lemma onInterimResult_tracks (t : string) (w : World) :
  listening_tracked w -> listening_tracked (onInterimResult t w).
Proof. unfold onInterimResult. track_auto. Qed.

#[local] Hint Resolve postTts_tracks forceRestartResume_tracks onCommandFailed_tracks
  errorRecovery_tracks handleLateResponse_tracks lateResponseSpoken_tracks
  onWakeWordDetected_tracks delayedListening_tracks onInterimResult_tracks : track.

Lemma handleRecognitionResult_tracks (t : string) (c : Z) (f : bool) (w : World) :
  listening_tracked w ->
  listening_tracked (handleRecognitionResult t c f w).
Proof. unfold handleRecognitionResult. track_auto. Qed.

Lemma onRecognitionStart_tracks (w : World) :
  listening_tracked w -> listening_tracked (onRecognitionStart w).
Proof. unfold onRecognitionStart. track_auto. Qed.

Lemma onRecognitionEnd_tracks (w : World) :
  listening_tracked w -> listening_tracked (onRecognitionEnd w).
Proof. unfold onRecognitionEnd. track_auto. Qed.

Lemma onRecognitionError_tracks (e : string) (w : World) :
  listening_tracked w -> listening_tracked (onRecognitionError e w).
Proof. unfold onRecognitionError, initLocalDetection. track_auto. Qed.

Lemma onSpeechStart_tracks (w : World) :
  listening_tracked w -> listening_tracked (onSpeechStart w).
Proof. unfold onSpeechStart. track_auto. Qed.

Lemma stopWakeWordDetection_tracks (w : World) :
  listening_tracked w -> listening_tracked (stopWakeWordDetection w).
Proof. unfold stopWakeWordDetection. track_auto. Qed.

Lemma resumeWakeWordDetection_tracks (w : World) :
  listening_tracked w -> listening_tracked (resumeWakeWordDetection w).
Proof. unfold resumeWakeWordDetection. track_auto. Qed.

Lemma listeningTimeoutCallback_tracks (w : World) :
  listening_tracked w -> listening_tracked (listeningTimeoutCallback w).
Proof. unfold listeningTimeoutCallback. track_auto. Qed.

Lemma conversationTimeoutCallback_tracks (w : World) :
  listening_tracked w ->
  listening_tracked (conversationTimeoutCallback w).
Proof. unfold conversationTimeoutCallback. track_auto. Qed.

Lemma stateSyncListening_tracks (w : World) :
  listening_tracked w -> listening_tracked (stateSyncListening w).
Proof. unfold stateSyncListening. track_auto. Qed.

Lemma getStateDuration_tracks (w : World) :
  listening_tracked w -> listening_tracked (snd (getStateDuration w)).
Proof.
  rewrite getStateDuration_unfold. cbn [snd]. apply track_same; reflexivity.
Qed.

#[local] Hint Resolve handleRecognitionResult_tracks onRecognitionStart_tracks
  onRecognitionEnd_tracks onRecognitionError_tracks onSpeechStart_tracks
  stopWakeWordDetection_tracks resumeWakeWordDetection_tracks
  listeningTimeoutCallback_tracks conversationTimeoutCallback_tracks
  stateSyncListening_tracks getStateDuration_tracks : track.

Lemma timerCallback_tracks (k : TimerKind) (w : World) :
  listening_tracked w -> listening_tracked (timerCallback k w).
Proof.
  intros H. destruct k; cbn [timerCallback];
    unfold executeTransitionCallbacks; track_auto.
Qed.

Lemma step_tracks (e : Event) (w : World) :
  listening_tracked w -> listening_tracked (step e w).
Proof.
  intros H. destruct e; cbn [step]; try solve [track_auto].
  unfold fireTimer. destruct (find_timer id w) as [t|]; [|exact H].
  apply timerCallback_tracks. track_auto.
Qed.

Lemma run_tracks (es : list Event) (w : World) :
  listening_tracked w -> listening_tracked (run es w).
Proof.
  revert w. induction es as [|e es IH]; intros w H; [exact H|].
  apply IH. now apply step_tracks.
Qed.


(** X29.  In every world the event loop can reach, at most one listening
    timeout is pending, and it is the one [listeningTimeout] holds.
    [startListeningTimeout] cancels the pending one first and leaves
    exactly its own, due after 8 s; [clearListeningTimeout] leaves none. *)
Theorem one_listening_timeout (es : list Event) (granted throws : bool) :
  let w := run es (initial_world granted throws) in
  List.length (listening_timers w) <= 1
  /\ (forall t, In t (listening_timers w) -> listeningTimeout (vm w) = Some (t_id t))
  /\ listening_timers (startListeningTimeout w)
     = [mkTimer (nextTimer (env w)) 8000 KListeningTimeout]
  /\ listening_timers (clearListeningTimeout w) = [].
Proof.
  intros w.
  assert (H : listening_tracked w).
  { apply run_tracks. unfold listening_tracked. simpl.
    split; [lia|]. split; [intros t []|]. split; [intros t []|discriminate]. }
  pose proof (reachable_invariant es granted throws) as Hinv. fold w in Hinv.
  apply invariant_fields in Hinv. destruct Hinv as ((_ & _ & Hnd) & _).
  split; [|split; [|split]].
  - destruct H as (_ & _ & Ht & _). exact (tracked_le_1 _ _ _ Hnd Ht).
  - intros t Hin. apply filter_In in Hin. destruct Hin as [Hin Hk].
    destruct H as (_ & _ & Ht & _). now apply Ht.
  - now apply startListeningTimeout_timers.
  - now apply clearListeningTimeout_none.
Qed.

(* ----------------------------------------------------------------- *)
(** *** Recognition errors *)

Lemma scheduleRestart_detection (d : Z) (w : World) :
  useLocalDetection (vm (scheduleRestart d w)) = useLocalDetection (vm w)
  /\ consecutiveErrors (vm (scheduleRestart d w)) = consecutiveErrors (vm w).
Proof.
  unfold scheduleRestart, cancelPendingRestart.
  destruct (pendingRestart (vm w)) as [[|h]|]; simpl;
    match goal with |- context [if ?c then _ else _] => destruct c end;
    simpl; split; reflexivity.
Qed.

(** X30.  While speech recognition is in use, a recognition error makes
    the voice manager fall back to local detection only if it is a
    'network' error, outside Thinking and Speaking, that follows at least
    one error not yet cleared; and in that case it does.  A 'no-speech'
    error handled outside Thinking and Speaking clears the count, so the
    network error after it does not fall back. *)
Theorem local_fallback_needs_network_streak (e : string) (w : World) :
  useLocalDetection (vm w) = false ->
  (useLocalDetection (vm (onRecognitionError e w)) = true
   <-> e = "network" /\ 1 <= consecutiveErrors (vm w)
       /\ existsb (state_eqb (currentState (app w))) [Thinking; Speaking] = false)
  /\ (existsb (state_eqb (currentState (app w))) [Thinking; Speaking] = false ->
      consecutiveErrors (vm (onRecognitionError "no-speech" w)) = 0
      /\ useLocalDetection
           (vm (onRecognitionError "network" (onRecognitionError "no-speech" w))) = false).
Proof.
  intros Hl. split.
  - unfold onRecognitionError.
    destruct (existsb (state_eqb (currentState (app w))) [Thinking; Speaking]) eqn:Hs.
    { split; [congruence | intros (_ & _ & H); discriminate]. }
    destruct (String.eqb e "aborted") eqn:Ha.
    { apply String.eqb_eq in Ha. subst e.
      split; [congruence | intros (H & _); discriminate]. }
    cbv zeta. destruct (String.eqb e "network") eqn:Hn.
    + apply String.eqb_eq in Hn. subst e.
      destruct (consecutiveErrors (vm w)) as [|c] eqn:Hc; simpl; rewrite Hc; simpl.
      * match goal with |- context [scheduleRestart ?d ?x] =>
          destruct (scheduleRestart_detection d x) as [-> _] end.
        simpl. rewrite Hl. split; [discriminate | intros (_ & H & _); lia].
      * split; [intros _; repeat split; lia | reflexivity].
    + assert (Hne : e <> "network") by (intros ->; discriminate).
      destruct (String.eqb e "no-speech");
        match goal with |- context [scheduleRestart ?d ?x] =>
          destruct (scheduleRestart_detection d x) as [-> _] end;
        simpl; rewrite Hl; (split; [discriminate | intros (H & _); contradiction]).
  - intros Hs.
    assert (H0 : consecutiveErrors (vm (onRecognitionError "no-speech" w)) = 0
                 /\ useLocalDetection (vm (onRecognitionError "no-speech" w)) = false).
    { unfold onRecognitionError. rewrite Hs. simpl.
      match goal with |- context [scheduleRestart ?d ?x] =>
        destruct (scheduleRestart_detection d x) as [-> ->] end.
      simpl. auto. }
    destruct H0 as [H0 H1]. split; [exact H0|].
    pose proof (onRecognitionError_state "no-speech" w) as Est.
    revert H0 H1 Est. generalize (onRecognitionError "no-speech" w). intros w' H0 H1 Est.
    unfold onRecognitionError. rewrite Est, Hs. simpl. rewrite H0. simpl.
    match goal with |- context [scheduleRestart ?d ?x] =>
      destruct (scheduleRestart_detection d x) as [-> _] end.
    exact H1.
Qed.

Lemma local_fallback_needs_network_streak_witness :
  (useLocalDetection
     (vm (onRecognitionError "network"
            (onRecognitionError "network" (initial_world true false)))) = true
   <-> "network" = "network"
       /\ 1 <= consecutiveErrors (vm (onRecognitionError "network" (initial_world true false)))
       /\ existsb (state_eqb (currentState
                     (app (onRecognitionError "network" (initial_world true false)))))
            [Thinking; Speaking] = false)
  /\ (existsb (state_eqb (currentState
                 (app (onRecognitionError "network" (initial_world true false)))))
        [Thinking; Speaking] = false ->
      consecutiveErrors
        (vm (onRecognitionError "no-speech"
               (onRecognitionError "network" (initial_world true false)))) = 0
      /\ useLocalDetection
           (vm (onRecognitionError "network"
                  (onRecognitionError "no-speech"
                     (onRecognitionError "network" (initial_world true false))))) = false).
Proof.
  apply (local_fallback_needs_network_streak "network"
           (onRecognitionError "network" (initial_world true false))).
  vm_compute. reflexivity.
Defined.

(* ----------------------------------------------------------------- *)
(** *** Starting detection, await by await *)

(** With a quiet first frame on a calm detector, a start run to its end
    is the start of the event loop. *)
Lemma quiet_start (draw : nat) (d : Audio.SpeechDetector) (w : World) :
  Audio.calm d = true ->
  snd (Audio.startWakeWordDetection false draw (d, w)) = startWakeWordDetection w.
Proof.
  unfold Audio.calm. intros Hc. apply andb_prop in Hc. destruct Hc as [Hs Hf].
  apply negb_true_iff in Hs. apply Nat.ltb_lt in Hf.
  assert (Hq : forall d' x, Audio.d_isSpeaking d' = false ->
                 Audio.consecutiveSilenceFrames d' < 30 ->
                 snd (Audio.startLocalDetection (micGranted (env x)) false draw (d', x))
                 = startLocalDetection x).
  { intros d' x Hs' Hf'. unfold Audio.startLocalDetection, startLocalDetection.
    destruct (micGranted (env x)); [|reflexivity]. cbn [negb fst snd].
    unfold Audio.monitorAudio. cbn [snd vm with_vm isListening vm_isListening negb].
    unfold Audio.process. rewrite Hs'. cbn [negb andb].
    assert (E : (30 <? S (Audio.consecutiveSilenceFrames d'))%nat = false)
      by (apply Nat.ltb_ge; lia).
    cbn [Audio.consecutiveSilenceFrames]. now rewrite E. }
  unfold Audio.startWakeWordDetection, Audio.startWakeWordDetectionBegin,
    startWakeWordDetection. cbn [snd].
  destruct (isPaused (vm w)); [reflexivity|].
  destruct (isListening (vm w)); [reflexivity|].
  destruct (isRestarting (vm w)) eqn:Er; [reflexivity|].
  destruct (useLocalDetection (vm w)).
  { unfold Audio.startWakeWordDetectionResume. now apply Hq. }
  unfold startWebSpeechDetection, Audio.startWakeWordDetectionResume,
    Audio.startWebSpeechDetectionResume. cbn [snd fst].
  destruct (recognition (env w)) as [[|]|] eqn:Ec; [| |reflexivity];
    destruct (micGranted (env w)) eqn:Em; cbn [negb]; try reflexivity.
  cbn [env with_out startThrows]. destruct (startThrows (env w)); [|reflexivity].
  cbn [negb]. cbv zeta.
  match goal with |- context [if ?c then _ else _] => destruct c end; [reflexivity|].
  match goal with |- snd (Audio.startLocalDetection _ _ _ (?d', ?x)) = _ =>
    assert (Q : snd (Audio.startLocalDetection (micGranted (env x)) false draw (d', x))
                = startLocalDetection x) by (apply Hq; [reflexivity | simpl; lia]);
    change (micGranted (env x)) with (micGranted (env w)) in Q; rewrite Em in Q; exact Q
  end.
Qed.



(** Entering Waking from Idle sets the post-transition timer and leaves
    the voice manager alone. *)
Lemma setState_waking_from_idle (x : World) :
  currentState (app x) = Idle ->
  let x' := snd (setState "waking" [] x) in
  currentState (app x') = Waking
  /\ vm x' = vm x
  /\ timers (env x')
     = (timers (env x)
        ++ [mkTimer (nextTimer (env x)) (getTransitionDuration Waking)
              (KPostTransition Waking [])])%list
  /\ recognition (env x') = recognition (env x)
  /\ primaryStarts (out x') = primaryStarts (out x).
Proof.
  intros H. unfold setState. simpl (isValidState _). simpl (state_of_name _).
  cbn [negb]. rewrite H. cbn [state_eqb]. cbv zeta. cbn [snd].
  unfold notifyListeners. cbv zeta.
  destruct x as [a v e o]. simpl in *.
  match goal with |- context [(50 <? ?n)%nat] => destruct (50 <? n)%nat end;
    simpl; destruct (subscribed v); simpl; repeat split; reflexivity.
Qed.

(** X15.  When [recognition.start()] throws on a stopped recogniser (the
    supervisor being idle, unpaused and in Web Speech mode, the microphone
    granted), [startWakeWordDetection] counts one more consecutive error.
    Below the third it schedules a restart after 3 s and stays in Web
    Speech mode.  At the third it switches to local detection with a new
    detector, schedules no restart, sets [isListening] and runs the first
    frame of the audio monitor at once: a quiet frame only counts, and
    the result is that of the event loop's start; a loud frame marks the
    detector as speaking and, when the state is Idle, takes the state
    machine to Waking, which sets the post-transition timer. *)
Theorem failing_start_escalates (w : World) (d : Audio.SpeechDetector)
    (isSpeakingNow : bool) (draw : nat) :
  isPaused (vm w) = false -> isListening (vm w) = false ->
  isRestarting (vm w) = false -> useLocalDetection (vm w) = false ->
  recognition (env w) = Some false -> micGranted (env w) = true ->
  startThrows (env w) = true ->
  let dw := Audio.startWakeWordDetection isSpeakingNow draw (d, w) in
  let w' := snd dw in
  primaryStarts (out w') = S (primaryStarts (out w))
  /\ consecutiveErrors (vm w') = S (consecutiveErrors (vm w))
  /\ recognition (env w') = Some false
  /\ (consecutiveErrors (vm w) < 2 ->
      fst dw = d
      /\ w' = startWakeWordDetection w
      /\ useLocalDetection (vm w') = false
      /\ isListening (vm w') = false
      /\ exists id, pendingRestart (vm w') = Some id
                    /\ In (mkTimer id 3000 KRestart) (timers (env w')))
  /\ (2 <= consecutiveErrors (vm w) ->
      useLocalDetection (vm w') = true
      /\ isListening (vm w') = true
      /\ restart_timers w' = restart_timers w
      /\ (isSpeakingNow = false ->
          fst dw = Audio.mkDetector false 0 0 0 1
          /\ w' = startWakeWordDetection w
          /\ app w' = app w /\ timers (env w') = timers (env w))
      /\ (isSpeakingNow = true ->
          fst dw = Audio.mkDetector true (clock (env w)) 0 1 0
          /\ (currentState (app w) = Idle ->
              currentState (app w') = Waking
              /\ timers (env w')
                 = (timers (env w)
                    ++ [mkTimer (nextTimer (env w)) (getTransitionDuration Waking)
                          (KPostTransition Waking [])])%list)
          /\ (currentState (app w) <> Idle ->
              app w' = app w /\ timers (env w') = timers (env w)))).
Proof.
  intros Hp Hl Hr Hu Hrec Hm Ht dw w'.
  assert (Ea : startWakeWordDetection w
               = let x := with_vm (fun v => vm_consecutiveErrors (S (consecutiveErrors v)) v)
                            (with_out (fun o => out_primaryStarts (S (primaryStarts o)) o) w) in
                 if (S (consecutiveErrors (vm w)) <? 3)%nat then scheduleRestart 3000 x
                 else with_vm (vm_isListening true) (initLocalDetection x)).
  { unfold startWakeWordDetection. rewrite Hp, Hl, Hr, Hu.
    unfold startWebSpeechDetection. rewrite Hrec, Hm. cbn [negb]. cbv iota.
    simpl (startThrows _). rewrite Ht. cbv iota beta. cbn [negb]. cbv iota zeta.
    simpl (consecutiveErrors _). simpl (isRestarting _). rewrite Hr. cbn [negb].
    destruct (S (consecutiveErrors (vm w)) <? 3)%nat; [reflexivity|].
    unfold startLocalDetection. simpl (micGranted _). now rewrite Hm. }
  assert (Ed : dw
               = let x := with_vm (fun v => vm_consecutiveErrors (S (consecutiveErrors v)) v)
                            (with_out (fun o => out_primaryStarts (S (primaryStarts o)) o) w) in
                 if (S (consecutiveErrors (vm w)) <? 3)%nat then (d, scheduleRestart 3000 x)
                 else Audio.process isSpeakingNow draw
                        (Audio.setupLocalDetection,
                         with_vm (vm_isListening true) (initLocalDetection x))).
  { unfold dw, Audio.startWakeWordDetection, Audio.startWakeWordDetectionBegin.
    cbn [snd]. rewrite Hp, Hl, Hr, Hu, Hrec, Hm.
    unfold Audio.startWakeWordDetectionResume, Audio.startWebSpeechDetectionResume.
    cbn [negb snd fst]. rewrite Hrec. cbv zeta. simpl (startThrows _). rewrite Ht.
    cbn [negb]. simpl (consecutiveErrors _). simpl (isRestarting _). rewrite Hr.
    cbn [negb]. destruct (S (consecutiveErrors (vm w)) <? 3)%nat; [reflexivity|].
    unfold Audio.startLocalDetection. cbn [negb fst snd]. reflexivity. }
  unfold w'. rewrite Ed, Ea. clear Ed Ea dw w'. cbv zeta.
  set (x := with_vm (fun v => vm_consecutiveErrors (S (consecutiveErrors v)) v)
              (with_out (fun o => out_primaryStarts (S (primaryStarts o)) o) w)).
  destruct (S (consecutiveErrors (vm w)) <? 3)%nat eqn:E.
  - apply Nat.ltb_lt in E. cbn [fst snd].
    pose proof (scheduleRestart_aside 3000 x) as A. apply aside_fields in A.
    destruct A as (_ & _ & _ & A4 & _ & A6 & _ & _ & _ & A10 & _ & _ & A13 & _).
    split; [now rewrite A4|]. split; [now rewrite A13|]. split; [now rewrite A6|].
    split; [|intros; lia]. intros _. split; [reflexivity|]. split; [reflexivity|].
    split; [now rewrite A10|].
    unfold scheduleRestart.
    assert (Ec : isPaused (vm (cancelPendingRestart x)) = false
                 /\ isListening (vm (cancelPendingRestart x)) = false).
    { unfold cancelPendingRestart. destruct (pendingRestart (vm x)) as [[|h]|]; simpl; auto. }
    destruct Ec as [-> Ec]. revert Ec. generalize (cancelPendingRestart x).
    intros [a v e o] Ec. simpl in *. split; [exact Ec|].
    eexists. split; [reflexivity|]. apply in_or_app. right. now left.
  - apply Nat.ltb_ge in E.
    set (y := with_vm (vm_isListening true) (initLocalDetection x)).
    assert (Hy : primaryStarts (out y) = S (primaryStarts (out w))
                 /\ consecutiveErrors (vm y) = S (consecutiveErrors (vm w))
                 /\ recognition (env y) = Some false
                 /\ useLocalDetection (vm y) = true /\ isListening (vm y) = true
                 /\ app y = app w /\ timers (env y) = timers (env w)
                 /\ nextTimer (env y) = nextTimer (env w) /\ clock (env y) = clock (env w))
      by (repeat split; try reflexivity; exact Hrec).
    destruct Hy as (Y1 & Y2 & Y3 & Y4 & Y5 & Y6 & Y7 & Y8 & Y9).
    unfold Audio.process. cbn [Audio.setupLocalDetection Audio.d_isSpeaking
      Audio.consecutiveSilenceFrames Audio.consecutiveSpeechFrames
      Audio.speakingStartTime Audio.silenceStartTime negb andb].
    rewrite andb_true_r.
    destruct isSpeakingNow; cbn [negb andb Audio.consecutiveSilenceFrames Nat.ltb Nat.leb];
      cbv iota; cbn [fst snd].
    + (* a loud first frame *)
      rewrite Y6, Y9.
      destruct (state_eqb (currentState (app w)) Idle) eqn:Es.
      * apply state_eqb_eq in Es.
        assert (Esy : currentState (app y) = Idle) by now rewrite Y6.
        destruct (setState_waking_from_idle y Esy) as (S1 & S2 & S3 & S4 & S5).
        revert S1 S2 S3 S4 S5. generalize (snd (setState "waking" [] y)).
        intros z S1 S2 S3 S4 S5.
        split; [congruence|]. split; [now rewrite S2|]. split; [congruence|].
        split; [intros; lia|]. intros _.
        split; [now rewrite S2|]. split; [now rewrite S2|].
        split.
        { unfold restart_timers. rewrite S3, Y7, filter_app. simpl. apply app_nil_r. }
        split; [discriminate|]. intros _. split; [reflexivity|].
        split; [intros _; split; [exact S1 | now rewrite S3, Y7, Y8]|].
        intros Hne. contradiction.
      * split; [exact Y1|]. split; [exact Y2|]. split; [exact Y3|].
        split; [intros; lia|]. intros _.
        split; [exact Y4|]. split; [exact Y5|]. split; [reflexivity|].
        split; [discriminate|]. intros _. split; [reflexivity|].
        split; [|intros _; split; [exact Y6 | exact Y7]].
        intros Hi. apply state_eqb_eq in Hi. congruence.
    + (* a quiet first frame *)
      split; [exact Y1|]. split; [exact Y2|]. split; [exact Y3|].
      split; [intros; lia|]. intros _.
      split; [exact Y4|]. split; [exact Y5|]. split; [reflexivity|].
      split; [|discriminate]. intros _. repeat split; reflexivity.
Qed.

Lemma failing_start_escalates_witness :
  let w := run [CallStart; Fire 1] (initial_world true true) in
  let dw := Audio.startWakeWordDetection true 0 (Audio.setupLocalDetection, w) in
  (useLocalDetection (vm w) = false /\ consecutiveErrors (vm w) = 2
   /\ currentState (app w) = Idle)
  /\ useLocalDetection (vm (snd dw)) = true
  /\ isListening (vm (snd dw)) = true
  /\ currentState (app (snd dw)) = Waking.
Proof.
  intros w dw.
  destruct (failing_start_escalates w Audio.setupLocalDetection true 0
              eq_refl eq_refl eq_refl eq_refl eq_refl eq_refl eq_refl)
    as (_ & _ & _ & _ & H).
  assert (Hc : 2 <= consecutiveErrors (vm w)) by (vm_compute; lia).
  assert (Hi : currentState (app w) = Idle) by (vm_compute; reflexivity).
  destruct (H Hc) as (H1 & H2 & _ & _ & H5).
  destruct (H5 eq_refl) as (_ & H6 & _).
  split; [repeat split; vm_compute; reflexivity|].
  split; [exact H1|]. split; [exact H2|]. exact (proj1 (H6 Hi)).
Defined.
